(* ===== verification/_CoqProject ===== *)
-Q . S2P
Prelude.v
PyText.v
Frames.v
Loader.v
Signature.v
Compress.v
Sweep.v
Filter.v
Mode.v
FastLoader.v
Prune.v
SubTOCC.v
Pipeline.v
GprofModel.v
GprofRank.v
GprofCallRatios.v
GprofReach.v
GprofStrip.v
GprofCycles.v
GprofPerf.v
GprofTyped.v
GprofDot.v
GprofOptions.v
Report.v
Chart.v
CallChains.v
Main.v
