(* ===== verification/Prelude.v ===== *)
(** * TCSA: a verification development of the contention-window detector

    TCSA analyses [perf script] call-stack samples and reports groups of
    threads whose call stacks stayed stable over overlapping time spans
    (candidate lock or resource contention).  The Python program is a
    pipeline of pandas transformations run by [src/main.py]:

      samples --[timing.py] DataPreparation.data_loading/data_processing-->
      perf_records_df --identify_consecutive_identical_call_stacks_parallel-->
      records_df (CICPs) --filtering_operation--> --divide_TOCC_optimized-->
      TOCCs --distinguish_execution_mode--> [kernel, user] pairs
      --duration_threshold_setting--> pruned groups --divide_subTOCC-->
      sub-windows --[modeling.py] reports, charts, gprof2dot images.

    The detection stages are in [src/filtering.py]; each consumes the
    previous stage's frame, nothing is shared or mutated across stages.
    The reports append to one shared file, and the call-chain images run
    the vendored [src/gprof2dot.py] on each sub-window.

    ** Files, and what they model

    - [Prelude.v] (this file): Python primitives with their Python
      semantics, in [Module Py]: [str.split()] ([split_ws]),
      [str.split(sep)] ([split_on]), [sep.join], slices with negative
      bounds ([slice]), [str] order by code point ([str_lt], [str_le]),
      substring search ([contains]), [list.sort] (stable, [<] only: an
      insertion sort, [sort]; [sort_by_key_desc] for
      [sort(key=..., reverse=True)]), [Series.unique] and [DataFrame.groupby],
      and the builtins [int()] and [float()] on ASCII text (surrounding
      whitespace, sign, digits grouped by single underscores) with the
      round trip [int(str(z)) == z] ([int_of_str_pretty]).
      Also the hint databases [tcsa]/[tcsa_rw], the tactics [py_case],
      [compare_lia] and [decide_vm],
      and the shared list, sorting and filter lemmas.
    - [PyText.v]: lemmas on those string primitives ([str.replace],
      [str.rfind], slices, [str.split()] of a concatenation) shared by
      the text readers and writers.
    - [Frames.v]: DataFrame rows as records, [Module Sample] (a perf
      sample) and [Module Cicp] (a CICP, fields in [itertuples] order);
      Python's ordering of those tuples ([cicp_compare]) and [df.loc] on a
      non-unique index ([loc]).
    - [Signature.v]: [get_user_defined_indentical_call_stacks]
      (filtering.py:200-223).  Theorems: scenario C, bottom-up contract,
      the empty top-down slice, negative depths.
    - [Compress.v]: [_process_single_thread_cics] and the two
      [identify_consecutive_identical_call_stacks*] (75-197), with the
      reference [runs].  Theorems: the token/[groupby] trick computes the
      maximal runs (equivalence), exact cover of a thread's samples
      (round trip), duration sums, maximality, per-thread separation, and
      the labels [pd.concat] keeps: the [i]-th CICP of every thread
      carries label [i]; [pd.concat] of no frame (a trace without
      samples) raises ([None]).
    - [Filter.v]: [filtering_operation] (226-239), characterised exactly.
    - [Sweep.v]: [divide_TOCC_optimized] (5-72): events, their tuple
      order, the loop state record [sweep_state] and [sweep_step], the
      reachability relation [reachable] and its invariant [sweep_inv]
      proved by rule induction, and the windows behind the emitted TOCCs
      ([windows_of]).  Theorems: non-trivial output; every TOCC is
      [df.loc] of a window's labels and so holds every row of a label it
      holds; a CICP of one instant that ends its thread keeps the thread
      active, and every later window is lost (the END sorts before the
      START, proved from the sorted order of the events); spec scenarios
      A, B, D, the END-before-START tie-break and one thread's CICPs
      reported as a window as evaluated examples.
    - [Mode.v]: [judge_execution_mode], [distinguish_execution_mode]
      (293-345) and the numeric contract of spec 4.5
      ([kernel_address_numeric]).  Theorems: agreement on lowercase 8- and
      16-digit addresses (lexicographic = numeric order on equal-length
      hex strings), divergence outside, failure on empty stacks.
    - [Prune.v]: [pruning_by_threshold], [duration_threshold_setting]
      (348-395), the threshold variable threaded across the loop.
      Theorems: the first group's mean is reused, explicit thresholds,
      no mean over an empty group.
    - [SubTOCC.v]: [divide_TOCC], [divide_each_subTOCC], [divide_subTOCC]
      (242-290, 398-433) in a Section whose [Variable sort_values] is the
      row order [DataFrame.sort_values] produces (its tie order is
      unspecified).  Theorems: every sub-window has two rows or more for
      any tie order; dependence on that order; equal starts; disagreement
      with the scan-line partitioner.
    - [Pipeline.v]: the detection sequence of [main.py] (84-91) and the
      numbering of report tasks (106-114).  Theorem: end to end, a
      reported TOCC holding a CICP labelled [i] holds the [i]-th CICP of
      every thread that passes [filtering_operation].

    - [Loader.v] ([Module Loader]): [DataPreparation.data_loading] of
      [src/timing.py] (12-67) as a state machine over the lines of the
      file ([lstate], one [load_line] per iteration) and [data_processing]
      (143-159).  Theorems: it reads back what [perf script] prints (round
      trip, with the period landing in the [event] column), the last
      sample is dropped without a final empty line, a header without
      [[cpu]] makes [astype(float)] fail.
    - [FastLoader.v] ([Module FastLoader]): [data_loading_optimized]
      (69-141), the generator with its header regular expression.
      Theorem: the two loaders give stacks in opposite orders.
    - [Report.v] ([Module Report]): [output_result_file] of
      [src/modeling.py] (216-295) over a file system [gmap string string],
      and the report tasks of [main.py] run in any scheduling order.
      Theorems: the shared [res] file receives one block per task in
      execution order; the printed counts are distinct-value counts
      whatever the sort ties; a second run duplicates every block.
    - [Chart.v] ([Module Chart]): [TimingGraph] (13-151): the random
      colour loop over a stream of draws (with fuel), the bars of the
      timeline.  Theorems: distinct colours per call path when the loop
      ends, and liveness: it ends as soon as the draws contain enough
      distinct colours ([choose_colors_live]); bars inside the axes,
      colour shared iff call path shared, a thread drawn twice.
    - [GprofModel.v] ([Module Gprof]): the profile of the vendored
      [src/gprof2dot.py]: [Event], [Call], [Function], [Profile] as
      records with [gmap]s, [ratio], [validate], [Profile.ratio],
      [call_ratios] and [prune] (paths = None).  Theorems: ratios lie in
      [0, 1]; [validate] and [prune] keep every call pointing to a
      function of the profile.
    - [GprofRank.v] ([Module GprofRank]): [_rank_cycle_function],
      Dijkstra's algorithm over the calls inside a cycle, with the [heapq]
      heap as a list whose least item is popped and ties broken by an
      [id()] order given as a parameter.  Theorem: on the profiles the
      perf reader builds, for every [id()] order, the loop ends within its
      fuel, never raises, and ranks by shortest call paths, so the ranks do
      not depend on memory layout (the invariant [rank_inv] of the heap
      loop, the measure [rank_measure]).
    - [GprofCallRatios.v] ([Module GprofCallRatios]): pass 2 of
      [call_ratios] call by call ([ratio_call], [ratio_function]) and the
      loops of pass 1 as sums over the list of all calls ([calls_sum]).
      Theorem: flow conservation: the ratios of the calls entering a
      function outside cycles, or a cycle from outside, add up to one
      when their total is positive, so [integrate] hands on the whole
      time of each callee.
    - [GprofReach.v] ([Module GprofReach]): [prune_root] and [prune_leaf]
      (375-428), one frontier loop over (node, depth) pairs as a step
      relation [wstep] and as an executable [walk] whose [set.pop()] is a
      chooser parameter (CPython's order follows string hashes, which are
      randomised per process).  Theorems: every run ends (a lexicographic
      measure); without depth limit, whatever the pop order, [prune_root]
      keeps the functions reachable from the roots with all their calls
      and [prune_leaf] those from which a leaf is reachable; with a depth
      limit [d >= 0] (invariant [depth_inv]) [prune_root] keeps only
      functions within [d] calls of a root, every root and, for [d <> 0],
      every callee of a root, and nothing more is guaranteed: an evaluated
      example shows the result depending on the pop order and dropping a
      function within the depth.
    - [GprofStrip.v] ([Module GprofStrip]): [Function.stripped_name]
      (264-288), the label of [-s]: its three regular expressions as the
      left-to-right scans [re.subn] and [re.sub] perform ([sub_pair],
      [strip_const]) and its two [while True] loops with fuel
      ([strip_pairs]).  Theorem: the loops end within the fuel, only
      delete characters, and leave no parenthesised or angled group.
    - [GprofCycles.v] ([Module GprofCycles]): [find_cycles] with Tarjan's
      [_tarjan] and [integrate] with [_integrate_function],
      [_integrate_call], [_integrate_cycle], [_call_ratios_cycle] and
      [_integrate_cycle_function], in an option-state monad [PM] over the
      profile, the cycles' [outevent] and [partials].  On recursive perf
      input the model prints the same DOT text as the Python program
      (checked by evaluation on random recursive profiles).
    - [GprofPerf.v] ([Module GprofPerf]): [LineParser] and [PerfParser]
      (the [call_re] match in Python's backtracking order,
      [parse_call], [parse_callchain], [parse_event], [parse]) and the text
      [modeling.gen_call_chains] pipes into it.  Theorems: on that text
      the reader reads exactly the rows' frames, one event per row
      (refinement of the text layer by [events_spec]), when no command
      is empty or starts with [#] (either loses or fails the event); the
      counters of one event ([SAMPLES] once for the callee,
      [TOTAL_SAMPLES] once per distinct function).
    - [GprofTyped.v] ([Module GprofTyped]): the typing of the profile the
      perf reader builds ([profile_typed]: functions under their ids with
      exactly [SAMPLES] and [TOTAL_SAMPLES], calls under their callees,
      closed, with exactly [SAMPLES2]), preserved by every step of the
      reader on any input.  Theorem: the reader's profiles are typed, so
      the graph is keyed and closed and [Profile.ratio] after [validate]
      never raises.
    - [GprofDot.v] ([Module GprofDot]): the [color] theme and
      [DotWriter] (escaping, ids, attribute lists, colours, [graph]) and
      [main] for [-f perf -n0 -e0].  Theorems: [escape] reads back,
      colours are six hex digits reading back to [float2int] in 0..255,
      [graph] never raises [KeyError] on a closed profile.
    - [GprofOptions.v] ([Module GprofOptions]): [getFunctionIds]
      (430-435) and [main] after parsing (3976-4009): [profile.prune] at
      the thresholds in percent, [--list-functions], the [--root] and
      [--leaf] blocks with their [sys.exit(1)], [prune_root] and
      [prune_leaf] at [--depth], the graph; [fnmatch] and the insertion
      order of [self.functions] are parameters.  With the command line of
      [gen_call_chains] it writes what [gprof2dot_perf] writes (the
      lemma that justifies [CallChains.v]).  Theorems: [getFunctionIds]
      gives at most one id per name; an
      unmatched root exits with status 1; [--root] without depth draws
      the functions reachable from the matched roots.
    - [CallChains.v] ([Module CallChains]): [gen_call_chains] up to the
      DOT text.  Theorems: for every well-formed perf sample the self time
      goes to the outermost frame, not to the frame perf sampled, because
      [data_loading] reversed the stack; on the idle sample the DOT text
      draws the inverted edge.
    - [Main.v] ([Module Main]): [input_argv] with its defaults and
      swallowed exceptions, [_generate_report_for_tocc] (chart, text
      report, call graph) and the [__main__] block (main.py:23-118), from
      the perf file in a file-system map to the outputs of every report
      task, in a [Section] whose [Variable schedule] is the order in which
      [joblib] runs the tasks.  Theorems: a finished run wrote the report
      and the chart of every reported sub-window, for any permutation;
      only the two paths are required; at each optional position a text
      [int()] does not read is replaced by that position's default, and
      every integer is passed on unchecked (spec 7 says configuration
      fails fast).

    The components interact only through the values they pass: a stage's
    output list is the next stage's input, [Report], [Chart] and
    [CallChains] consume the sub-windows, and [CallChains] feeds the text
    of [GprofPerf.gen_call_chains_input] to the [gprof2dot] model.
    [Main.main] composes them: the loader, the detection of [Pipeline],
    then [Chart], [Report] and [CallChains] per task over one shared
    output record.

    ** Bounds, fuel and executability

    The filtering stages are structural [Fixpoint]s or folds over the
    finite frame and need no fuel.  Timestamps are integers (perf prints
    microsecond ticks and the code only compares them; [Py.float_us]
    reads ["S.ffffff"] exactly); thread ids are [Z]; durations [nat].  The
    float mean [sum / n] is compared exactly ([d >= sum / n] iff
    [d * n >= sum] for [n > 0]; [n = 0] is numpy's [nan], for which every
    comparison is false).  [gprof2dot]'s floats are exact rationals [Q];
    ["%.2f"] rounds the exact value half to even.  Fuel: the colour loop
    of [Chart] takes the length of the draw stream, enough since every
    iteration consumes six draws (it terminates with probability one,
    and [choose_colors_live] shows it terminates once the stream holds
    enough distinct colours); [find_cycles] and [integrate] take one unit
    per function plus one, enough because each nested call visits a new
    function (Tarjan), descends the graph of cycles (integration) or goes
    to a higher rank inside a cycle; [_rank_cycle_function] takes one unit
    per function plus one, proved enough ([rank_measure]); the
    frontier loop of [prune_root] and [prune_leaf] takes its fuel as a
    parameter (a pair of a visited node can be popped many times, so the
    number of iterations is not bounded by the number of functions), and
    [walk_total] shows that some fuel suffices for every pop order and
    that more fuel changes nothing; the
    perf reader takes the number of lines plus one, as each loop
    iteration consumes a line.  Nondeterminism of the code (the tie order
    of [sort_values], set iteration order, the scheduling of the report
    tasks) is a [Section] [Variable], and the theorems hold for every
    choice.

    ** Not modelled

    - [main.py]'s timing prints and [os.makedirs] (no effect on the
      outputs modelled).
    - Non-ASCII text: strings are ASCII, so [int()] and [float()] on
      Unicode digits and whitespace are not modelled; [float()]'s
      exponent, [inf] and [nan] spellings are not modelled either.
    - [gprof2dot.py]: the path filters of [prune], the parsers of
      other formats, the other themes, name wrapping ([textwrap.fill]),
      the text [printFunctionIds] writes, [optparse] itself, and the
      library's [fnmatch] (a parameter: the theorems hold for every
      matcher).
    - The rendering by matplotlib and Graphviz and the subprocess pipe
      (I/O only); the model stops at the figure and at the DOT text. *)

From Stdlib Require Import ZArith.
From Stdlib Require Export Ascii.
From stdpp Require Export base list strings sorting sets gmap.
From stdpp Require Import pretty.

Declare Scope py_scope.
Delimit Scope py_scope with py.

Create HintDb tcsa.
Create Rewrite HintDb tcsa_rw.

(** ** Python strings *)

Module Py.

(** [str.isspace] restricted to ASCII: \t \n \v \f \r, \x1c-\x1f, space. *)
Definition is_space (c : Ascii.ascii) : bool :=
  let n := Ascii.nat_of_ascii c in
  (9 <=? n) && (n <=? 13) || (28 <=? n) && (n <=? 32).

(** [str.split()] without argument: split on runs of whitespace and drop
    empty fields.  [cur] is the reversed field being read. *)
Fixpoint split_ws_aux (cur : list Ascii.ascii) (s : string) : list string :=
  match s with
  | EmptyString =>
      match cur with [] => [] | _ => [String.string_of_list_ascii (rev cur)] end
  | String c s' =>
      if is_space c then
        match cur with
        | [] => split_ws_aux [] s'
        | _ => String.string_of_list_ascii (rev cur) :: split_ws_aux [] s'
        end
      else split_ws_aux (c :: cur) s'
  end.

Definition split_ws (s : string) : list string := split_ws_aux [] s.

(** [str.split(sep)] with a one-character separator: keeps empty fields,
    and always returns at least one field. *)
Fixpoint split_on_aux (sep : Ascii.ascii) (cur : list Ascii.ascii) (s : string)
  : list string :=
  match s with
  | EmptyString => [String.string_of_list_ascii (rev cur)]
  | String c s' =>
      if Ascii.eqb c sep then String.string_of_list_ascii (rev cur) :: split_on_aux sep [] s'
      else split_on_aux sep (c :: cur) s'
  end.

Definition split_on (sep : Ascii.ascii) (s : string) : list string :=
  split_on_aux sep [] s.

(** [sep.join(parts)]. *)
Definition join (sep : string) (parts : list string) : string :=
  String.concat sep parts.

(** Python orders [str] by code points, lexicographically; on ASCII this is
    [String.compare]. *)
Definition str_lt (a b : string) : bool :=
  match String.compare a b with Lt => true | _ => false end.
Definition str_le (a b : string) : bool := negb (str_lt b a).

(** [needle in hay] (also pandas [str.contains] with a pattern free of
    regular-expression metacharacters). *)
Fixpoint contains (needle hay : string) : bool :=
  String.prefix needle hay ||
  match hay with EmptyString => false | String _ hay' => contains needle hay' end.

(** ** Python lists *)

(** Normalisation of a slice bound: negative bounds count from the end,
    and bounds are clamped to [0, n]. *)
Definition slice_bound (n : nat) (i : Z) : nat :=
  if (i <? 0)%Z then Z.to_nat (Z.max 0 (i + Z.of_nat n))
  else Nat.min (Z.to_nat i) n.

(** [l[a:b]]. *)
Definition slice {A} (l : list A) (a b : Z) : list A :=
  let n := length l in
  let i := slice_bound n a in
  let j := slice_bound n b in
  take (j - i) (drop i l).

(** [l[-1]]: [None] stands for the [IndexError] of an empty list. *)
Definition last_elem {A} (l : list A) : option A := last l.

(** [list.sort()] is stable and only calls [<]: an element is placed after
    every element it is not smaller than.  Insertion sort has exactly that
    output. *)
Section Sort.
Context {A : Type} (lt : A -> A -> bool).

Fixpoint insert (x : A) (l : list A) : list A :=
  match l with
  | [] => [x]
  | y :: ys => if lt x y then x :: y :: ys else y :: insert x ys
  end.

Definition sort (l : list A) : list A := fold_left (fun acc x => insert x acc) l [].
End Sort.

(** [sorted(l, key=k, reverse=True)] / [l.sort(key=k, reverse=True)]:
    descending by key, equal keys keep their order. *)
Definition sort_by_key_desc {A} (key : A -> nat) (l : list A) : list A :=
  sort (fun a b => key b <? key a) l.

(** [Series.unique()]: the distinct values in order of first appearance. *)
Fixpoint unique {A} `{EqDecision A} (l : list A) : list A :=
  match l with
  | [] => []
  | x :: l' => x :: filter (fun y => y <> x) (unique l')
  end.

(** [df.groupby(key)]: one group per distinct key, keys in ascending order,
    each group keeping the frame order of its rows. *)
Definition groupby {K A} `{EqDecision K} (lt : K -> K -> bool) (key : A -> K) (l : list A)
  : list (K * list A) :=
  map (fun k => (k, filter (fun x => key x = k) l)) (sort lt (unique (map key l))).


(** [l[i]] with Python's negative indices; [None] is the [IndexError]. *)
Definition index {A} (l : list A) (i : Z) : option A :=
  if (i <? 0)%Z then
    if (Z.of_nat (length l) + i <? 0)%Z then None
    else l !! Z.to_nat (Z.of_nat (length l) + i)
  else l !! Z.to_nat i.

(** [s.replace(c, r)] for a one-character [c]. *)
Fixpoint replace_char (c : Ascii.ascii) (r : string) (s : string) : string :=
  match s with
  | EmptyString => EmptyString
  | String a s' =>
      if Ascii.eqb a c then String.append r (replace_char c r s')
      else String a (replace_char c r s')
  end.

(** [s.rfind(c)]: the last position of [c], or [-1]. *)
Fixpoint rfind_aux (c : Ascii.ascii) (pos : Z) (best : Z) (s : string) : Z :=
  match s with
  | EmptyString => best
  | String a s' => rfind_aux c (pos + 1) (if Ascii.eqb a c then pos else best) s'
  end.

Definition rfind (c : Ascii.ascii) (s : string) : Z := rfind_aux c 0 (-1) s.

(** [s[a:b]] on a string. *)
Definition str_slice (s : string) (a b : Z) : string :=
  String.string_of_list_ascii (slice (String.list_ascii_of_string s) a b).

(** [s.strip()]: whitespace removed at both ends. *)
Definition lstrip_chars (l : list Ascii.ascii) : list Ascii.ascii :=
  match list_find (fun c => is_space c = false) l with
  | Some (i, _) => drop i l
  | None => []
  end.

Definition strip (s : string) : string :=
  String.string_of_list_ascii
    (rev (lstrip_chars (rev (lstrip_chars (String.list_ascii_of_string s))))).

(** The value of a non-empty run of ASCII decimal digits. *)
Definition is_digit (c : Ascii.ascii) : bool :=
  (48 <=? Ascii.nat_of_ascii c) && (Ascii.nat_of_ascii c <=? 57).

Definition digits_value (l : list Ascii.ascii) : option Z :=
  if bool_decide (l <> []) && forallb is_digit l then
    Some (fold_left (fun acc c => acc * 10 + Z.of_nat (Ascii.nat_of_ascii c - 48)) l 0)%Z
  else None.

(** An optional sign, then the body. *)
Definition sign_of (l : list Ascii.ascii) : Z * list Ascii.ascii :=
  match l with
  | "-"%char :: l' => (-1, l')%Z
  | "+"%char :: l' => (1, l')%Z
  | _ => (1, l)%Z
  end.

(** The whitespace [int()] skips around its literal ([Py_ISSPACE]):
    space and [\t \n \v \f \r], not the separators 28-31 that
    [str.strip] also removes. *)
Definition is_int_space (c : Ascii.ascii) : bool :=
  let n := Ascii.nat_of_ascii c in (9 <=? n) && (n <=? 13) || (n =? 32).

Definition lstrip_int (l : list Ascii.ascii) : list Ascii.ascii :=
  match list_find (fun c => is_int_space c = false) l with
  | Some (i, _) => drop i l
  | None => []
  end.

Definition int_strip (l : list Ascii.ascii) : list Ascii.ascii :=
  rev (lstrip_int (rev (lstrip_int l))).

(** The digit grouping of a decimal literal, [digit (["_"] digit)*]:
    every underscore stands between two digits. *)
Definition is_underscore (c : Ascii.ascii) : bool := Ascii.eqb c "_".

Fixpoint underscores_between (after_digit : bool) (l : list Ascii.ascii) : bool :=
  match l with
  | [] => true
  | c :: l' =>
      if is_underscore c then
        after_digit && (match l' with d :: _ => is_digit d | [] => false end) &&
        underscores_between false l'
      else underscores_between (is_digit c) l'
  end.

Definition grouped_digits_value (l : list Ascii.ascii) : option Z :=
  if underscores_between false l
  then digits_value (List.filter (fun c => negb (is_underscore c)) l)
  else None.

(** [int(s)] on ASCII text: surrounding whitespace, a sign, then decimal
    digits, with single underscores allowed between them ([int("1_0")]
    is 10).  [None] is the [ValueError]. *)
Definition int_of_str (s : string) : option Z :=
  let '(sg, body) := sign_of (int_strip (String.list_ascii_of_string s)) in
  v ← grouped_digits_value body; Some (sg * v)%Z.

(** [float(s)] on decimal text [d+], [d+.d*] or [.d+] (each digit part
    grouped by single underscores as in [int()]), read as a number of
    microseconds (the six decimals of a perf timestamp; further decimals
    are dropped).  Other spellings ([1e3], [inf]) are not modelled: they
    give [None] here, where Python would return a float. *)
Definition micro_digits (l : list Ascii.ascii) : list Ascii.ascii :=
  take 6 (l ++ replicate 6 "0"%char).

Definition digits_only (l : list Ascii.ascii) : list Ascii.ascii :=
  List.filter (fun c => negb (is_underscore c)) l.

Definition float_us (s : string) : option Z :=
  let '(sg, body) := sign_of (int_strip (String.list_ascii_of_string s)) in
  match split_on "." (String.string_of_list_ascii body) with
  | [ip] => v ← grouped_digits_value (String.list_ascii_of_string ip); Some (sg * v * 1000000)%Z
  | [ip; fp] =>
      let ipl := String.list_ascii_of_string ip in
      let fpl := String.list_ascii_of_string fp in
      if bool_decide (ipl = []) && bool_decide (fpl = []) then None else
      v ← (if bool_decide (ipl = []) then Some 0%Z else grouped_digits_value ipl);
      if bool_decide (fpl = []) ||
         underscores_between false fpl && forallb is_digit (digits_only fpl)
      then f ← digits_value (micro_digits (digits_only fpl)); Some (sg * (v * 1000000 + f))%Z
      else None
  | _ => None
  end.

End Py.

Notation "a <ₛ b" := (Py.str_lt a b) (at level 70) : py_scope.

(** ** Shared lemmas *)

Section SortFacts.
Context {A : Type} (lt : A -> A -> bool).

Lemma py_insert_perm x l : Py.insert lt x l ≡ₚ x :: l.
Proof.
  induction l as [|y ys IH]; simpl; [done|].
  destruct (lt x y); [done|]. rewrite IH. apply Permutation_swap.
Qed.

Lemma py_sort_perm_aux l acc :
  fold_left (fun acc x => Py.insert lt x acc) l acc ≡ₚ acc ++ l.
Proof.
  revert acc; induction l as [|x l IH]; intros acc; simpl.
  - by rewrite app_nil_r.
  - rewrite IH, py_insert_perm. simpl. by rewrite <- Permutation_middle.
Qed.

Lemma py_sort_perm l : Py.sort lt l ≡ₚ l.
Proof. unfold Py.sort. by rewrite py_sort_perm_aux. Qed.

(** The sorted order [list.sort] guarantees: no element is followed by a
    smaller one.  It needs only that [<] is asymmetric. *)
Definition py_sorted : list A -> Prop := Sorted (fun a b => lt b a = false).

Hypothesis lt_asym : forall a b, lt a b = true -> lt b a = false.

Lemma py_insert_sorted x l : py_sorted l -> py_sorted (Py.insert lt x l).
Proof.
  unfold py_sorted. induction 1 as [|y ys Hs IH Hhd]; simpl.
  - repeat constructor.
  - destruct (lt x y) eqn:E.
    + constructor; [by constructor|]. constructor. by apply lt_asym.
    + constructor; [done|]. destruct ys as [|z zs]; simpl.
      * constructor. done.
      * inversion Hhd; subst. destruct (lt x z); constructor; done.
Qed.

Lemma py_sort_sorted l : py_sorted (Py.sort lt l).
Proof.
  unfold Py.sort. cut (forall acc, py_sorted acc ->
    py_sorted (fold_left (fun acc x => Py.insert lt x acc) l acc)).
  { intros H. apply H. constructor. }
  induction l as [|x l IH]; intros acc Hacc; simpl; [done|].
  apply IH, py_insert_sorted, Hacc.
Qed.
End SortFacts.

#[export] Hint Resolve py_sort_perm py_sort_sorted : tcsa.

Lemma Forall_py_sort {A} (lt : A -> A -> bool) (P : A -> Prop) l :
  Forall P l -> Forall P (Py.sort lt l).
Proof. intros H. by rewrite py_sort_perm. Qed.
#[export] Hint Resolve Forall_py_sort : tcsa.

Lemma length_py_sort {A} (lt : A -> A -> bool) l : length (Py.sort lt l) = length l.
Proof. apply Permutation_length, py_sort_perm. Qed.
#[export] Hint Rewrite @length_py_sort : tcsa_rw.

(** [Py.slice] from the start is [take]. *)
Lemma py_slice_prefix {A} (l : list A) (k : nat) :
  Py.slice l 0 (Z.of_nat k) = take k l.
Proof.
  unfold Py.slice, Py.slice_bound. simpl.
  destruct (Z.ltb_spec (Z.of_nat k) 0); [lia|].
  rewrite Nat2Z.id, Nat.sub_0_r, drop_0.
  destruct (decide (k <= length l)).
  - by rewrite Nat.min_l.
  - rewrite Nat.min_r by lia. rewrite !take_ge; auto; lia.
Qed.

(** Destruct the boolean tests of the code in the goal. *)
Ltac py_case :=
  repeat match goal with
  | |- context [if ?b then _ else _] =>
      lazymatch b with
      | context [if _ then _ else _] => fail
      | _ => destruct b eqn:?
      end
  end.

(** Sorting a list that is already in order changes nothing. *)
Lemma py_insert_last {A} (lt : A -> A -> bool) x acc :
  Forall (fun y => lt x y = false) acc -> Py.insert lt x acc = acc ++ [x].
Proof. induction 1 as [|y acc Hy _ IH]; simpl; [done|]. by rewrite Hy, IH. Qed.

Lemma py_sort_id_aux {A} (lt : A -> A -> bool) l acc :
  StronglySorted (fun a b => lt b a = false) (acc ++ l) ->
  fold_left (fun acc x => Py.insert lt x acc) l acc = acc ++ l.
Proof.
  revert acc. induction l as [|x l IH]; intros acc Hs; simpl.
  - by rewrite app_nil_r.
  - rewrite py_insert_last.
    + rewrite (IH (acc ++ [x])); [by rewrite <- app_assoc|]. by rewrite <- app_assoc.
    + apply Forall_forall. intros y Hy.
      exact (StronglySorted_app_1_elem_of _ acc (x :: l) y x Hs Hy ltac:(set_solver)).
Qed.

Lemma py_sort_id {A} (lt : A -> A -> bool) l :
  StronglySorted (fun a b => lt b a = false) l -> Py.sort lt l = l.
Proof. intros Hs. apply (py_sort_id_aux lt l []), Hs. Qed.

Lemma filter_all_id {A} (P : A -> Prop) `{forall x, Decision (P x)} (l : list A) :
  Forall P l -> filter P l = l.
Proof. induction 1; [done|]. rewrite filter_cons_True; congruence. Qed.

Lemma filter_none_nil {A} (P : A -> Prop) `{forall x, Decision (P x)} (l : list A) :
  Forall (fun x => ~ P x) l -> filter P l = [].
Proof. induction 1; [done|]. rewrite filter_cons_False; congruence. Qed.

Section Unique.
Context {A : Type} `{EqDecision A}.

Lemma elem_of_py_unique (x : A) (l : list A) : x ∈ Py.unique l <-> x ∈ l.
Proof.
  induction l as [|y l IH]; simpl; [done|].
  rewrite !elem_of_cons, list_elem_of_filter, IH.
  destruct (decide (x = y)); naive_solver.
Qed.

Lemma NoDup_py_unique (l : list A) : NoDup (Py.unique l).
Proof.
  induction l as [|y l IH]; simpl; constructor.
  - rewrite list_elem_of_filter. naive_solver.
  - by apply NoDup_filter.
Qed.

(** Appending values that already occur does not change [unique]. *)
Lemma py_unique_filter_fresh (x : A) (l : list A) : x ∉ l -> filter (fun y => y <> x) (Py.unique l) = Py.unique l.
Proof.
  intros Hx. apply filter_all_id. apply Forall_forall. intros y Hy ->.
  by apply Hx, elem_of_py_unique.
Qed.
End Unique.

(** [omap id] over an [imap] whose function never fails. *)
Lemma lookup_omap_id_imap {A B} (F : nat -> A -> option B) (l : list A) i :
  (forall j x, l !! j = Some x -> is_Some (F j x)) ->
  omap id (imap F l) !! i = l !! i ≫= F i.
Proof.
  revert F i. induction l as [|x l IH]; intros F i HF; [done|].
  rewrite imap_cons. destruct (HF 0 x eq_refl) as [y Hy]. simpl. rewrite Hy.
  destruct i as [|i]; simpl; [done|].
  rewrite IH; [done|]. intros j z Hz. apply (HF (S j) z Hz).
Qed.

Lemma StronglySorted_map_inv {A B} (f : A -> B) (R : B -> B -> Prop) (l : list A) :
  StronglySorted R (map f l) -> StronglySorted (fun a b => R (f a) (f b)) l.
Proof.
  induction l as [|x l IH]; simpl; intros H; constructor; inversion H; subst; [auto|].
  apply Forall_forall. intros y Hy. eapply Forall_forall; [eassumption|].
  apply list_elem_of_In, in_map, list_elem_of_In, Hy.
Qed.

(** A sorted concatenation is made of sorted blocks, each before the next. *)
Lemma StronglySorted_concat {A} (R : A -> A -> Prop) (Ls : list (list A)) :
  StronglySorted R (concat Ls) ->
  StronglySorted (fun L L' => forall x y, x ∈ L -> y ∈ L' -> R x y) Ls /\
  Forall (StronglySorted R) Ls.
Proof.
  induction Ls as [|L Ls IH]; simpl; intros H; [split; constructor|].
  apply StronglySorted_app in H as (Hcross & HL & HLs).
  destruct (IH HLs) as [IH1 IH2]. split; constructor; auto.
  apply Forall_forall. intros L' HL' x y Hx Hy. apply Hcross; [done|].
  apply list_elem_of_In, in_concat. exists L'. by split; apply list_elem_of_In.
Qed.

Lemma head_last_le (L : list Z) a b :
  StronglySorted Z.lt L -> head L = Some a -> last L = Some b -> (a <= b)%Z.
Proof.
  destruct L as [|x L]; simpl; intros H Ha Hb; [done|]. injection Ha as ->.
  inversion H as [|? ? _ Hx]; subst. destruct L as [|y L]; simpl in Hb.
  - injection Hb as ->. lia.
  - assert (b ∈ y :: L) as Hin.
    { destruct (last (y :: L)) eqn:E; [|by apply last_None in E]. 
      rewrite last_Some in E. destruct E as [l' E]. rewrite E. simplify_eq. set_solver. }
    eapply Forall_forall in Hx; [|exact Hin]. lia.
Qed.

Lemma StronglySorted_impl_in {A} (R R' : A -> A -> Prop) (l : list A) :
  (forall x y, x ∈ l -> y ∈ l -> R x y -> R' x y) ->
  StronglySorted R l -> StronglySorted R' l.
Proof.
  intros HRR'. induction 1 as [|x l Hl IH Hx]; constructor.
  - apply IH. intros a b Ha Hb. apply HRR'; set_solver.
  - apply Forall_forall. intros y Hy. apply HRR'; [set_solver|set_solver|].
    by eapply Forall_forall.
Qed.

Lemma head_elem_of {A} (l : list A) x : head l = Some x -> x ∈ l.
Proof. destruct l; simpl; [done|]. intros [= ->]. set_solver. Qed.

Lemma Sorted_impl {A} (R R' : A -> A -> Prop) (l : list A) :
  (forall a b, R a b -> R' a b) -> Sorted R l -> Sorted R' l.
Proof.
  intros HR. induction 1 as [|x l _ IH Hhd]; constructor; [done|].
  destruct Hhd; constructor. by apply HR.
Qed.

(** Prove a decidable proposition about concrete data by evaluation. *)
Ltac decide_vm := apply (bool_decide_unpack _); vm_compute; reflexivity.

(** Close a goal equating comparisons by case analysis and arithmetic. *)
Ltac compare_lia :=
  repeat match goal with
  | |- context [Z.compare ?a ?b] => destruct (Z.compare_spec a b)
  | |- context [Nat.compare ?a ?b] => destruct (Nat.compare_spec a b)
  end; try reflexivity; exfalso; lia.

(** Selecting, for each requested key, the rows carrying it returns at
    least one row per key when every key occurs ([df.loc[labels]],
    [concat(df[df.col == v] for v in values)]). *)
Lemma length_bind_filter_ge {A K} `{EqDecision K} (key : A -> K) (l : list A) (ks : list K) :
  Forall (fun k => exists x, x ∈ l /\ key x = k) ks ->
  length ks <= length (ks ≫= (fun k => filter (fun x => key x = k) l)).
Proof.
  induction 1 as [|k ks (x & Hx & Hk) _ IH]; [simpl; lia|].
  rewrite bind_cons, length_app. simpl length.
  destruct (filter (fun y => key y = k) l) eqn:E; simpl length; [|lia].
  exfalso. eapply (filter_nil_not_elem_of _ _ x E); done.
Qed.

(** ** [int()] reads back the decimal text of [str()]

    stdpp's [pretty] prints an integer as CPython's [str] does: an
    optional minus sign, then the digits without leading zeros. *)

Lemma pretty_N_char_digit (y : N) :
  (y < 10)%N ->
  Py.is_digit (pretty_N_char y) = true /\
  Z.of_nat (Ascii.nat_of_ascii (pretty_N_char y) - 48) = Z.of_N y.
Proof.
  intros Hy.
  assert (y = 0 \/ y = 1 \/ y = 2 \/ y = 3 \/ y = 4 \/ y = 5 \/ y = 6 \/ y = 7 \/ y = 8 \/ y = 9)%N
    as H by lia.
  repeat (destruct H as [->|H]; [split; reflexivity|]). subst. split; reflexivity.
Qed.

Lemma pretty_N_go_digits (x : N) (s : string) :
  Forall (fun c => Py.is_digit c = true) (String.list_ascii_of_string s) ->
  Forall (fun c => Py.is_digit c = true) (String.list_ascii_of_string (pretty_N_go x s)) /\
  fold_left (fun acc c => acc * 10 + Z.of_nat (Ascii.nat_of_ascii c - 48))%Z
    (String.list_ascii_of_string (pretty_N_go x s)) 0%Z =
  fold_left (fun acc c => acc * 10 + Z.of_nat (Ascii.nat_of_ascii c - 48))%Z
    (String.list_ascii_of_string s) (Z.of_N x).
Proof.
  revert s. induction (N.lt_wf_0 x) as [x _ IH]; intros s Hs.
  destruct (decide (x = 0)%N) as [->|Hx]; [by rewrite pretty_N_go_0|].
  rewrite pretty_N_go_step by lia.
  destruct (pretty_N_char_digit (x `mod` 10)) as [Hd Hv]; [apply N.mod_lt; lia|].
  destruct (IH (x `div` 10)%N ltac:(apply N.div_lt; lia) (String (pretty_N_char (x `mod` 10)) s))
    as [H1 H2]; [by constructor|].
  split; [done|]. rewrite H2. cbn [String.list_ascii_of_string fold_left]. f_equal.
  rewrite Hv. pose proof (N.div_mod x 10 ltac:(lia)). lia.
Qed.

Lemma is_digit_not_space c : Py.is_digit c = true -> Py.is_int_space c = false.
Proof.
  unfold Py.is_digit, Py.is_int_space. set (n := Ascii.nat_of_ascii c).
  destruct (Nat.leb_spec 48 n), (Nat.leb_spec n 57), (Nat.leb_spec 9 n), (Nat.leb_spec n 13),
    (Nat.eqb_spec n 32); simpl; try discriminate; try reflexivity; lia.
Qed.

Lemma is_digit_not_underscore c : Py.is_digit c = true -> Py.is_underscore c = false.
Proof. unfold Py.is_underscore. by destruct (Ascii.eqb_spec c "_") as [->|]. Qed.

(** Text without surrounding whitespace is not changed by [int]'s strip. *)
Lemma int_strip_id l :
  Forall (fun c => Py.is_int_space c = false) l -> Py.int_strip l = l.
Proof.
  assert (Hl : forall l, Forall (fun c => Py.is_int_space c = false) l -> Py.lstrip_int l = l).
  { intros [|c l'] H; [done|]. inversion H; subst. unfold Py.lstrip_int. cbn.
    by rewrite decide_True. }
  intros H. unfold Py.int_strip. rewrite (Hl l H), Hl; [apply rev_involutive|].
  by apply Forall_rev.
Qed.

(** A run of digits is its own digit grouping. *)
Lemma grouped_digits_value_plain l :
  Forall (fun c => Py.is_digit c = true) l -> Py.grouped_digits_value l = Py.digits_value l.
Proof.
  intros H. unfold Py.grouped_digits_value.
  assert (Hb : forall b, Py.underscores_between b l = true).
  { induction H as [|c l Hc _ IH]; intros b; [done|]. cbn. by rewrite is_digit_not_underscore. }
  rewrite Hb. f_equal.
  clear Hb. induction H as [|c l Hc _ IH]; [done|]. cbn [List.filter]. rewrite is_digit_not_underscore by done. cbn [negb]. by rewrite IH.
Qed.

Lemma sign_of_digit c l : Py.is_digit c = true -> Py.sign_of (c :: l) = (1%Z, c :: l).
Proof. intros H. destruct c as [[] [] [] [] [] [] [] []]; try reflexivity; vm_compute in H; discriminate H. Qed.

Lemma pretty_pos_digits (p : positive) :
  Forall (fun c => Py.is_digit c = true) (String.list_ascii_of_string (pretty (Npos p))) /\
  Py.digits_value (String.list_ascii_of_string (pretty (Npos p))) = Some (Z.pos p).
Proof.
  unfold pretty, pretty_N. rewrite decide_False by lia.
  destruct (pretty_N_go_digits (Npos p) "") as [Hd Hf]; [constructor|].
  cbn [String.list_ascii_of_string fold_left Z.of_N] in Hf.
  split; [done|]. unfold Py.digits_value.
  destruct (String.list_ascii_of_string (pretty_N_go (N.pos p) "")) as [|c l] eqn:E; [done|].
  rewrite bool_decide_true by done.
  replace (forallb Py.is_digit (c :: l)) with true; [by rewrite Hf|].
  symmetry. apply forallb_forall. intros x Hx. apply list_elem_of_In in Hx.
  by eapply Forall_forall in Hd.
Qed.

(** [int(str(z)) == z]. *)
Lemma int_of_str_pretty (z : Z) : Py.int_of_str (pretty z) = Some z.
Proof.
  destruct z as [|p|p]; [reflexivity| |].
  - change (pretty (Zpos p)) with (pretty (Npos p)). destruct (pretty_pos_digits p) as [Hd Hv].
    unfold Py.int_of_str. rewrite int_strip_id by (eapply Forall_impl; [exact Hd|apply is_digit_not_space]).
    destruct (String.list_ascii_of_string (pretty (N.pos p))) as [|c l] eqn:E; [done|].
    rewrite sign_of_digit by (by inversion Hd). cbv iota beta.
    by rewrite grouped_digits_value_plain, Hv.
  - change (pretty (Zneg p)) with ("-" +:+ pretty (Npos p)). destruct (pretty_pos_digits p) as [Hd Hv].
    unfold Py.int_of_str.
    change (String.list_ascii_of_string ("-" +:+ pretty (N.pos p)))
      with ("-"%char :: String.list_ascii_of_string (pretty (N.pos p))).
    rewrite int_strip_id.
    2:{ constructor; [reflexivity|]. eapply Forall_impl; [exact Hd|apply is_digit_not_space]. }
    cbn [Py.sign_of]. by rewrite grouped_digits_value_plain, Hv.
Qed.
