(* ===== verification/PyText.v ===== *)
(** Lemmas on the Python string primitives of [Module Py] that the text
    readers and writers ([Loader.v], [Report.v], [GprofDot.v]) share: strings
    seen as their lists of characters, [str.replace], [str.rfind], slices
    and [str.split()] of a concatenation. *)

From S2P Require Import Prelude.

Infix "+:+" := String.append (at level 60, right associativity) : py_scope.
Local Open Scope py_scope.

Abbreviation chars := String.list_ascii_of_string.

(** [c in s] for a character. *)
Definition has_char (c : Ascii.ascii) (s : string) : bool :=
  existsb (Ascii.eqb c) (chars s).

(** A field without whitespace. *)
Definition no_space (s : string) : bool :=
  forallb (fun c => negb (Py.is_space c)) (chars s).

(** [String.append] does not unfold under [simpl]; these are its equations. *)
Lemma string_app_nil_l s : "" +:+ s = s.
Proof. reflexivity. Qed.

Lemma string_app_cons a s1 s2 : String a s1 +:+ s2 = String a (s1 +:+ s2).
Proof. reflexivity. Qed.

Lemma string_app_single a s : String a "" +:+ s = String a s.
Proof. reflexivity. Qed.

Lemma chars_app s1 s2 : chars (s1 +:+ s2) = chars s1 ++ chars s2.
Proof. induction s1; [done|]. rewrite string_app_cons. simpl. by f_equal. Qed.

Lemma string_length_chars s : String.length s = length (chars s).
Proof. induction s; simpl; congruence. Qed.

Lemma string_app_assoc s1 s2 s3 : (s1 +:+ s2) +:+ s3 = s1 +:+ (s2 +:+ s3).
Proof. induction s1 as [|a s1 IH]; [done|]. by rewrite !string_app_cons, IH. Qed.

Lemma string_app_nil_r s : s +:+ "" = s.
Proof. induction s as [|a s IH]; [done|]. by rewrite string_app_cons, IH. Qed.

Lemma has_char_app c s1 s2 : has_char c (s1 +:+ s2) = has_char c s1 || has_char c s2.
Proof. unfold has_char. by rewrite chars_app, existsb_app. Qed.

Lemma no_space_app s1 s2 : no_space (s1 +:+ s2) = no_space s1 && no_space s2.
Proof. unfold no_space. by rewrite chars_app, forallb_app. Qed.

#[export] Hint Rewrite chars_app has_char_app no_space_app string_app_assoc : tcsa_rw.

(** ** [str.replace] *)

Lemma replace_char_app c r s1 s2 :
  Py.replace_char c r (s1 +:+ s2) = Py.replace_char c r s1 +:+ Py.replace_char c r s2.
Proof.
  induction s1 as [|a s1 IH]; simpl; [done|].
  destruct (Ascii.eqb a c); simpl; by rewrite IH, ?string_app_assoc.
Qed.

Lemma replace_char_id c r s : has_char c s = false -> Py.replace_char c r s = s.
Proof.
  unfold has_char. induction s as [|a s IH]; simpl; [done|].
  intros [Ha Hs]%orb_false_iff. rewrite Ascii.eqb_sym, Ha, IH; done.
Qed.

Lemma replace_char_hit c r s : Py.replace_char c r (String c s) = r +:+ Py.replace_char c r s.
Proof. simpl. by rewrite Ascii.eqb_refl. Qed.

Lemma replace_char_miss c r a s :
  Ascii.eqb a c = false -> Py.replace_char c r (String a s) = String a (Py.replace_char c r s).
Proof. simpl. by intros ->. Qed.

#[export] Hint Rewrite replace_char_app replace_char_hit : tcsa_rw.

(** ** [str.rfind] *)

Lemma rfind_aux_none c pos best s : has_char c s = false -> Py.rfind_aux c pos best s = best.
Proof.
  unfold has_char. revert pos best. induction s as [|a s IH]; intros pos best; simpl; [done|].
  intros [Ha Hs]%orb_false_iff. rewrite Ascii.eqb_sym, Ha. by apply IH.
Qed.

Lemma rfind_aux_app c pos best s1 s2 :
  Py.rfind_aux c pos best (s1 +:+ s2) =
  Py.rfind_aux c (pos + Z.of_nat (String.length s1)) (Py.rfind_aux c pos best s1) s2.
Proof.
  revert pos best. induction s1 as [|a s1 IH]; intros pos best; simpl.
  - by rewrite Z.add_0_r.
  - rewrite IH. f_equal. lia.
Qed.

(** The last [c] of [s1 ++ c ++ s2] is the one after [s1] when [s2] has none. *)
Lemma rfind_last c s1 s2 :
  has_char c s2 = false -> Py.rfind c (s1 +:+ String c s2) = Z.of_nat (String.length s1).
Proof.
  intros H. unfold Py.rfind. rewrite rfind_aux_app. simpl. rewrite Ascii.eqb_refl.
  by rewrite rfind_aux_none.
Qed.

(** ** Slices *)

Lemma slice_prefix {A} (l1 l2 : list A) :
  Py.slice (l1 ++ l2) 0 (Z.of_nat (length l1)) = l1.
Proof.
  unfold Py.slice, Py.slice_bound. rewrite length_app. simpl.
  rewrite Nat2Z.id, Nat.sub_0_r.
  destruct (Z.ltb_spec (Z.of_nat (length l1)) 0); [lia|].
  rewrite Nat.min_l by lia. by rewrite drop_0, take_app_length.
Qed.

Lemma slice_suffix {A} (l1 l2 : list A) :
  Py.slice (l1 ++ l2) (Z.of_nat (length l1)) (Z.of_nat (length (l1 ++ l2))) = l2.
Proof.
  unfold Py.slice, Py.slice_bound. rewrite !Nat2Z.id.
  destruct (Z.ltb_spec (Z.of_nat (length l1)) 0); [lia|].
  destruct (Z.ltb_spec (Z.of_nat (length (l1 ++ l2))) 0); [lia|].
  rewrite !Nat.min_l by (rewrite ?length_app; lia). rewrite drop_app_length, length_app.
  replace (length l1 + length l2 - length l1) with (length l2) by lia. apply take_ge. lia.
Qed.

Lemma str_slice_prefix s1 s2 :
  Py.str_slice (s1 +:+ s2) 0 (Z.of_nat (String.length s1)) = s1.
Proof.
  unfold Py.str_slice. rewrite chars_app, string_length_chars, slice_prefix.
  apply String.string_of_list_ascii_of_string.
Qed.

Lemma str_slice_suffix s1 s2 :
  Py.str_slice (s1 +:+ s2) (Z.of_nat (String.length s1)) (Z.of_nat (String.length (s1 +:+ s2))) = s2.
Proof.
  unfold Py.str_slice. rewrite !string_length_chars, !chars_app.
  rewrite <- chars_app, <- (chars_app s1 s2) at 1. rewrite chars_app, slice_suffix.
  apply String.string_of_list_ascii_of_string.
Qed.

(** [l[:-1]] and [l[len(l) - 1]] of a list that ends in [x]. *)
Lemma slice_init {A} (l : list A) (x : A) :
  Py.slice (l ++ [x]) 0 (Z.of_nat (length (l ++ [x])) - 1) = l.
Proof.
  rewrite length_app. simpl. replace (Z.of_nat (length l + 1) - 1)%Z with (Z.of_nat (length l)) by lia.
  apply slice_prefix.
Qed.

Lemma index_last {A} (l : list A) (x : A) :
  Py.index (l ++ [x]) (Z.of_nat (length (l ++ [x])) - 1) = Some x.
Proof.
  unfold Py.index. rewrite length_app. simpl.
  destruct (Z.ltb_spec (Z.of_nat (length l + 1) - 1) 0); [lia|].
  replace (Z.to_nat (Z.of_nat (length l + 1) - 1)) with (length l) by lia.
  by rewrite lookup_app_r, Nat.sub_diag by lia.
Qed.

(** ** [str.split()] *)

Lemma split_ws_aux_app_space cur s1 sp s2 :
  Py.is_space sp = true ->
  Py.split_ws_aux cur (s1 +:+ String sp s2) = Py.split_ws_aux cur s1 ++ Py.split_ws s2.
Proof.
  intros Hsp. revert cur. induction s1 as [|a s1 IH]; intros cur; simpl.
  - rewrite Hsp. by destruct cur.
  - destruct (Py.is_space a); [|apply IH]. destruct cur; rewrite IH; done.
Qed.

Lemma split_ws_aux_token cur s :
  no_space s = true -> Py.split_ws_aux cur s =
    match rev cur ++ chars s with [] => [] | l => [String.string_of_list_ascii l] end.
Proof.
  unfold no_space. revert cur. induction s as [|a s IH]; intros cur; simpl.
  - rewrite app_nil_r. destruct cur as [|b cur]; [done|]. simpl.
    by destruct (rev cur ++ [b]) eqn:E; [destruct (app_cons_not_nil (rev cur) [] b)|].
  - intros [Ha Hs]%andb_prop. apply negb_true_iff in Ha. rewrite Ha, IH by done.
    simpl. by rewrite <- app_assoc.
Qed.

(** A non-empty field without whitespace splits to itself. *)
Lemma split_ws_token s : no_space s = true -> s <> "" -> Py.split_ws s = [s].
Proof.
  intros Hs Hne. unfold Py.split_ws. rewrite split_ws_aux_token by done. simpl.
  destruct s; [done|]. simpl. by rewrite String.string_of_list_ascii_of_string.
Qed.

Lemma split_ws_cons_token s sp rest :
  no_space s = true -> s <> "" -> Py.is_space sp = true ->
  Py.split_ws (s +:+ String sp rest) = s :: Py.split_ws rest.
Proof.
  intros Hs Hne Hsp. unfold Py.split_ws at 1.
  rewrite split_ws_aux_app_space by done. fold (Py.split_ws s). by rewrite split_ws_token.
Qed.

Lemma split_ws_app_space s1 sp s2 :
  Py.is_space sp = true -> Py.split_ws (s1 +:+ String sp s2) = Py.split_ws s1 ++ Py.split_ws s2.
Proof. apply split_ws_aux_app_space. Qed.
