(* ===== verification/Frames.v ===== *)
(** The pandas DataFrames of [src/filtering.py] as lists of row records.

    [Sample.t] is a row of [perf_records_df] (one perf sample) once
    [DataPreparation.data_processing] and the signature step have run;
    [Cicp.t] is a row of [records_df], the run-length compressed frame.
    Its fields are the columns in the order [DataFrame.itertuples] yields
    them ([Index] first), because [divide_TOCC_optimized] sorts tuples
    that contain these rows and Python compares them field by field.
    Every row keeps its index label: after [pd.concat] of the per-thread
    frames the labels repeat, and [df.loc[labels]] returns all rows with a
    requested label. *)

From S2P Require Import Prelude.

Module Sample.
(** Columns: timestamp, command, tid, cpu, event, call_stack (from
    [data_loading]), top_function, function_call_stack (from
    [data_processing]) and user_defined_indentical_call_stacks (the
    signature, added by [identify_consecutive_identical_call_stacks*]). *)
Record t := mk {
  Index : nat;
  timestamp : Z;
  command : string;
  tid : Z;
  cpu : Z;
  event : string;
  call_stack : list string;
  top_function : string;
  function_call_stack : string;
  user_defined_indentical_call_stacks : string
}.
End Sample.

Module Cicp.
(** Columns after [groupby(["token"], as_index=False).aggregate(list)] and
    the assignments of [_process_single_thread_cics]: the aggregated
    columns [timestamp], [cpu] and [top_function] stay lists, the others
    keep their first element, and [duration_length], [ts_begin],
    [ts_end] are appended. *)
Record t := mk {
  Index : nat;
  token : nat;
  timestamp : list Z;
  command : string;
  tid : Z;
  cpu : list Z;
  event : string;
  call_stack : list string;
  top_function : list string;
  function_call_stack : string;
  user_defined_indentical_call_stacks : string;
  duration_length : nat;
  ts_begin : Z;
  ts_end : Z
}.
End Cicp.

(** ** Python's ordering of tuples, lists and the row namedtuple *)

(** Lexicographic combination: the first component that differs decides. *)
Definition lex (c1 : comparison) (c2 : comparison) : comparison :=
  match c1 with Eq => c2 | _ => c1 end.

(** [list < list]: lexicographic, a proper prefix is smaller. *)
Fixpoint list_compare {A} (cmp : A -> A -> comparison) (l1 l2 : list A) : comparison :=
  match l1 with
  | [] => if l2 is [] then Eq else Lt
  | x :: xs =>
      match l2 with
      | [] => Gt
      | y :: ys => lex (cmp x y) (list_compare cmp xs ys)
      end
  end.

(** Comparison of two [itertuples] rows, field by field. *)
Definition cicp_compare (a b : Cicp.t) : comparison :=
  lex (Nat.compare (Cicp.Index a) (Cicp.Index b))
 (lex (Nat.compare (Cicp.token a) (Cicp.token b))
 (lex (list_compare Z.compare (Cicp.timestamp a) (Cicp.timestamp b))
 (lex (String.compare (Cicp.command a) (Cicp.command b))
 (lex (Z.compare (Cicp.tid a) (Cicp.tid b))
 (lex (list_compare Z.compare (Cicp.cpu a) (Cicp.cpu b))
 (lex (String.compare (Cicp.event a) (Cicp.event b))
 (lex (list_compare String.compare (Cicp.call_stack a) (Cicp.call_stack b))
 (lex (list_compare String.compare (Cicp.top_function a) (Cicp.top_function b))
 (lex (String.compare (Cicp.function_call_stack a) (Cicp.function_call_stack b))
 (lex (String.compare (Cicp.user_defined_indentical_call_stacks a)
                      (Cicp.user_defined_indentical_call_stacks b))
 (lex (Nat.compare (Cicp.duration_length a) (Cicp.duration_length b))
 (lex (Z.compare (Cicp.ts_begin a) (Cicp.ts_begin b))
      (Z.compare (Cicp.ts_end a) (Cicp.ts_end b)))))))))))))).

(** ** DataFrame operations *)

(** [df.loc[labels]]: for each requested label, every row carrying it, in
    frame order. *)
Definition loc (df : list Cicp.t) (labels : list nat) : list Cicp.t :=
  labels ≫= (fun l => filter (fun r => Cicp.Index r = l) df).

Lemma elem_of_loc df labels r :
  r ∈ loc df labels <-> r ∈ df /\ Cicp.Index r ∈ labels.
Proof.
  unfold loc. rewrite list_elem_of_bind. split.
  - intros (l & Hr & Hl). apply list_elem_of_filter in Hr as [-> Hr]. done.
  - intros [Hr Hl]. exists (Cicp.Index r). split; [|done].
    by apply list_elem_of_filter.
Qed.
#[export] Hint Rewrite elem_of_loc : tcsa_rw.

(** Rows are never lost by [loc]: asking for the labels of rows of the
    frame returns at least as many rows. *)
Lemma length_loc_ge df (cur : list Cicp.t) :
  Forall (fun c => c ∈ df) cur -> length cur <= length (loc df (Cicp.Index <$> cur)).
Proof.
  intros Hcur. unfold loc. rewrite <- (length_fmap Cicp.Index cur).
  apply length_bind_filter_ge. apply Forall_fmap.
  eapply Forall_impl; [exact Hcur|]. intros c Hc. by exists c.
Qed.

(** Python's comparisons are antisymmetric: swapping the operands
    reverses the result. *)
Lemma lex_antisym a b c d : a = CompOpp b -> c = CompOpp d -> lex a c = CompOpp (lex b d).
Proof. intros -> ->. by destruct b. Qed.

Lemma list_compare_antisym {A} (cmp : A -> A -> comparison) :
  (forall x y, cmp x y = CompOpp (cmp y x)) ->
  forall l1 l2, list_compare cmp l1 l2 = CompOpp (list_compare cmp l2 l1).
Proof.
  intros Hcmp. induction l1 as [|x l1 IH]; intros [|y l2]; simpl; try done.
  by apply lex_antisym.
Qed.

Lemma cicp_compare_antisym a b : cicp_compare a b = CompOpp (cicp_compare b a).
Proof.
  unfold cicp_compare.
  repeat apply lex_antisym;
    auto using Nat.compare_antisym, Z.compare_antisym, String.compare_antisym,
      list_compare_antisym.
Qed.
