(* ===== verification/Loader.v ===== *)
(** The perf text loader of [src/timing.py]: [DataPreparation.data_loading]
    (lines 12-67), a line-by-line state machine over [readlines()], and
    [data_processing] (143-159), which converts the text columns and adds
    [top_function] and [function_call_stack].

    The loop variables of [data_loading] ([top_message], [perf_records],
    [call_stack] and the five header fields) are the record [lstate]; one
    iteration is [load_line].  An [IndexError] ([each_line[0]] on an empty
    line, a missing header token) is [None]; so is a [ValueError] of
    [astype]. *)

From S2P Require Import Prelude PyText Frames.

Local Open Scope string_scope.

Module Loader.

(** One tuple [(timestamp, command, tid, cpu, event, call_stack)] of
    [perf_records], all fields still text. *)
Record raw := mk_raw {
  r_timestamp : string;
  r_command : string;
  r_tid : string;
  r_cpu : string;
  r_event : string;
  r_call_stack : list string
}.

Record lstate := mk_lstate {
  top_message : list string;
  perf_records : list raw;
  call_stack : list string;
  command : string;
  timestamp : string;
  event : string;
  cpu : string;
  tid : string
}.

Definition lstate_init : lstate := mk_lstate [] [] [] "" "" "" "" "".

(** The header branch with a ["["] (line 40): [command] and [tid] from the
    text before the last ["["], [cpu], [timestamp] and [event] from the
    text after it with [:], [[] and []] removed. *)
Definition header_bracket (st : lstate) (each_line : string) (position_flag : Z)
  : option lstate :=
  let tmp := Py.split_ws (Py.str_slice each_line 0 (position_flag - 1)) in
  let command := Py.join " " (Py.slice tmp 0 (Z.of_nat (length tmp) - 1)) in
  tid ← Py.index tmp (Z.of_nat (length tmp) - 1);
  let tmp2 := Py.split_ws (Py.replace_char "]" "" (Py.replace_char "[" ""
                 (Py.replace_char ":" ""
                   (Py.str_slice each_line position_flag (Z.of_nat (String.length each_line)))))) in
  cpu ← Py.index tmp2 0;
  timestamp ← Py.index tmp2 1;
  event ← Py.index tmp2 2;
  Some (mk_lstate (top_message st) (perf_records st) (call_stack st)
          command timestamp event cpu tid).

(** The header branch without ["["] (line 58). *)
Definition header_plain (st : lstate) (each_line : string) : option lstate :=
  let tmp := Py.split_ws (Py.strip each_line) in
  timestamp ← Py.index tmp (-3);
  event ← Py.index tmp (-1);
  tid ← Py.index tmp (-4);
  let command := Py.join "" (Py.slice tmp 0 (-4)) in
  Some (mk_lstate (top_message st) (perf_records st) (call_stack st)
          command timestamp event (cpu st) tid).

(** One iteration of [for each_line in perf_file]. *)
Definition load_line (st : lstate) (each_line : string) : option lstate :=
  match each_line with
  | EmptyString => None
  | String c _ =>
      if Ascii.eqb c "#" then
        Some (mk_lstate (top_message st ++ [each_line]) (perf_records st) (call_stack st)
                (command st) (timestamp st) (event st) (cpu st) (tid st))
      else if Ascii.eqb c "009" then
        Some (mk_lstate (top_message st) (perf_records st)
                (call_stack st ++ [Py.replace_char "010" "" (Py.replace_char "009" "" each_line)])
                (command st) (timestamp st) (event st) (cpu st) (tid st))
      else if Ascii.eqb c "010" then
        Some (mk_lstate (top_message st)
                (perf_records st ++ [mk_raw (timestamp st) (command st) (tid st) (cpu st)
                                            (event st) (rev (call_stack st))])
                [] "" "" "" "" "")
      else
        let position_flag := Py.rfind "[" each_line in
        if (position_flag =? -1)%Z then header_plain st each_line
        else header_bracket st each_line position_flag
  end.

Fixpoint load_lines (st : lstate) (lines : list string) : option lstate :=
  match lines with
  | [] => Some st
  | l :: rest => st' ← load_line st l; load_lines st' rest
  end.

(** [data_loading] on the list [readlines()] returns. *)
Definition data_loading (perf_file : list string) : option (list raw) :=
  st ← load_lines lstate_init perf_file; Some (perf_records st).

(** [lambda x: ";".join([" ".join(j.split()[1:-1]) for j in x])]: each
    frame without its address (first token) and module (last token). *)
Definition function_call_stack_of (x : list string) : string :=
  Py.join ";" (map (fun j => Py.join " " (Py.slice (Py.split_ws j) 1 (-1))) x).

(** [x.call_stack[0] if len(x.call_stack) > 0 else []], then [astype(str)]:
    an empty stack gives the text ["[]"]. *)
Definition top_function_of (x : list string) : string :=
  match x with [] => "[]" | f :: _ => f end.

(** [data_processing]: the row at position [i] of the loaded frame. *)
Definition process_row (i : nat) (r : raw) : option Sample.t :=
  tid ← Py.int_of_str (r_tid r);
  cpu ← Py.int_of_str (r_cpu r);
  ts ← Py.float_us (r_timestamp r);
  Some (Sample.mk i ts (r_command r) tid cpu (r_event r) (r_call_stack r)
          (top_function_of (r_call_stack r)) (function_call_stack_of (r_call_stack r)) "").

Definition data_processing (perf_records_df : list raw) : option (list Sample.t) :=
  mapM id (imap process_row perf_records_df).

(** ** The text [perf script] prints, and what the loader reads back *)

(** One sample as [perf script] prints it: a header line
    [command tid [cpu] timestamp: period event:] and one tab-indented line
    per frame, innermost first, then an empty line. *)
Record perf_sample := mk_perf_sample {
  p_command : string;
  p_tid : string;
  p_cpu : string;
  p_timestamp : string;
  p_period : string;
  p_event : string;
  p_frames : list string
}.

Definition nl : string := String "010" EmptyString.

Definition perf_header (p : perf_sample) : string :=
  (p_command p +:+ " " +:+ p_tid p +:+ " ") +:+
  String "[" (p_cpu p +:+ "] " +:+ p_timestamp p +:+ ": " +:+ p_period p +:+ " " +:+
              p_event p +:+ ":" +:+ nl).

Definition perf_frame (f : string) : string := String "009" (f +:+ nl).

Definition perf_script_sample (p : perf_sample) : list string :=
  perf_header p :: map perf_frame (p_frames p) ++ [nl].

(** A numeric header field: one token without [:], [[] or []]. *)
Definition field_ok (s : string) : bool :=
  no_space s && negb (String.eqb s "") &&
  negb (has_char ":" s) && negb (has_char "[" s) && negb (has_char "]" s).

Definition command_ok (s : string) : bool :=
  match s with
  | EmptyString => true
  | String c _ => negb (Ascii.eqb c "#" || Ascii.eqb c "009" || Ascii.eqb c "010")
  end.

Definition frame_ok (f : string) : bool := negb (has_char "009" f) && negb (has_char "010" f).

Definition sample_ok (p : perf_sample) : bool :=
  command_ok (p_command p) && no_space (p_tid p) && negb (String.eqb (p_tid p) "") &&
  negb (has_char "[" (p_tid p)) &&
  field_ok (p_cpu p) && field_ok (p_timestamp p) && field_ok (p_period p) &&
  negb (has_char "[" (p_event p)) && forallb frame_ok (p_frames p).

(** The record the loader builds: the command with its whitespace runs
    collapsed, the period in the [event] column, the stack reversed. *)
Definition expected_raw (p : perf_sample) : raw :=
  mk_raw (p_timestamp p) (Py.join " " (Py.split_ws (p_command p))) (p_tid p) (p_cpu p)
         (p_period p) (rev (p_frames p)).

(** ** The loader reads the printed text back *)

Lemma load_frame st f :
  frame_ok f = true ->
  load_line st (perf_frame f) =
  Some (mk_lstate (top_message st) (perf_records st) (call_stack st ++ [f])
          (command st) (timestamp st) (event st) (cpu st) (tid st)).
Proof.
  unfold frame_ok. intros [Ht Hn]%andb_prop. apply negb_true_iff in Ht, Hn.
  unfold load_line, perf_frame. simpl. rewrite !replace_char_app.
  rewrite (replace_char_id "009" _ f Ht), (replace_char_id "010" _ f Hn). unfold nl. simpl.
  by rewrite !string_app_nil_l, string_app_nil_r.
Qed.

Lemma load_frames st fs :
  forallb frame_ok fs = true ->
  load_lines st (map perf_frame fs) =
  Some (mk_lstate (top_message st) (perf_records st) (call_stack st ++ fs)
          (command st) (timestamp st) (event st) (cpu st) (tid st)).
Proof.
  revert st. induction fs as [|f fs IH]; intros st; cbn [load_lines map forallb].
  - intros _. rewrite app_nil_r. by destruct st.
  - intros [Hf Hfs]%andb_prop. rewrite load_frame by done. cbn [mbind option_bind].
    rewrite IH by done. simpl. by rewrite <- app_assoc.
Qed.

(** A line that is not a comment, a frame or an empty line is a header. *)
Definition header_start (l : string) : bool :=
  match l with
  | EmptyString => false
  | String c _ => negb (Ascii.eqb c "#" || Ascii.eqb c "009" || Ascii.eqb c "010")
  end.

Lemma load_line_header st l :
  header_start l = true ->
  load_line st l =
  (let position_flag := Py.rfind "[" l in
   if (position_flag =? -1)%Z then header_plain st l else header_bracket st l position_flag).
Proof.
  destruct l as [|c l]; [done|]. simpl.
  destruct (Ascii.eqb c "#"), (Ascii.eqb c "009"), (Ascii.eqb c "010"); done.
Qed.

Lemma header_start_perf_header p :
  command_ok (p_command p) = true -> header_start (perf_header p) = true.
Proof. unfold perf_header. by destruct (p_command p). Qed.

Lemma perf_header_split p :
  perf_header p =
  (p_command p +:+ String " " (p_tid p)) +:+ (" " +:+ String "[" (p_cpu p +:+ "] " +:+
     p_timestamp p +:+ ": " +:+ p_period p +:+ " " +:+ p_event p +:+ ":" +:+ nl)).
Proof. unfold perf_header. by rewrite !string_app_assoc. Qed.

Lemma field_ok_spec s :
  field_ok s = true ->
  no_space s = true /\ s <> "" /\ has_char ":" s = false /\ has_char "[" s = false /\
  has_char "]" s = false.
Proof.
  unfold field_ok. intros H. repeat (apply andb_prop in H as [H ?]).
  repeat split; try apply negb_true_iff; try done.
  intros ->. done.
Qed.

(** The text after the last [[], with [:], [[] and []] removed, splits into
    [cpu], [timestamp], [period] and the event's tokens. *)
Lemma perf_header_tail_tokens cpu ts per ev :
  field_ok cpu = true -> field_ok ts = true -> field_ok per = true ->
  exists rest,
  Py.split_ws (Py.replace_char "]" "" (Py.replace_char "[" "" (Py.replace_char ":" ""
    (String "[" (cpu +:+ "] " +:+ ts +:+ ": " +:+ per +:+ " " +:+ ev +:+ ":" +:+ nl))))) =
  cpu :: ts :: per :: rest.
Proof.
  intros (Hc1 & Hc2 & Hc3 & Hc4 & Hc5)%field_ok_spec (Ht1 & Ht2 & Ht3 & Ht4 & Ht5)%field_ok_spec
    (Hp1 & Hp2 & Hp3 & Hp4 & Hp5)%field_ok_spec.
  simpl. rewrite !replace_char_app. rewrite !(replace_char_id ":" _ cpu), !(replace_char_id ":" _ ts), !(replace_char_id ":" _ per) by done. simpl.
  rewrite !(replace_char_id "[" _ cpu), !(replace_char_id "[" _ ts), !(replace_char_id "[" _ per),
    !(replace_char_id "]" _ cpu), !(replace_char_id "]" _ ts), !(replace_char_id "]" _ per)
    by done.
  rewrite !string_app_nil_l, !string_app_single, !split_ws_cons_token by done.
  by eexists.
Qed.

Lemma load_header st p :
  sample_ok p = true ->
  load_line st (perf_header p) =
  Some (mk_lstate (top_message st) (perf_records st) (call_stack st)
          (Py.join " " (Py.split_ws (p_command p))) (p_timestamp p) (p_period p)
          (p_cpu p) (p_tid p)).
Proof.
  unfold sample_ok. destruct p as [cmd tid cpu ts per ev frames]; cbn [p_command p_tid p_cpu
    p_timestamp p_period p_event p_frames].
  intros H. repeat (apply andb_prop in H as [H ?]).
  rewrite load_line_header by (by apply header_start_perf_header).
  apply negb_true_iff in H1, H5, H6. apply String.eqb_neq in H6.
  destruct (perf_header_tail_tokens cpu ts per ev) as [rest Hrest]; [done..|].
  pose proof (field_ok_spec _ H4) as (_ & _ & _ & Hc & _).
  pose proof (field_ok_spec _ H3) as (_ & _ & _ & Ht & _).
  pose proof (field_ok_spec _ H2) as (_ & _ & _ & Hp & _).
  unfold perf_header. cbn [p_command p_tid p_cpu p_timestamp p_period p_event].
  rewrite rfind_last by (rewrite !has_char_app, Hc, Ht, Hp, H1; done).
  cbv zeta. rewrite (proj2 (Z.eqb_neq _ _)) by lia.
  unfold header_bracket. rewrite str_slice_suffix, Hrest.
  replace (Z.of_nat (String.length (cmd +:+ " " +:+ tid +:+ " ")) - 1)%Z
    with (Z.of_nat (String.length (cmd +:+ String " " tid)))
    by (rewrite !string_length_chars, !chars_app, !length_app; simpl; lia).
  rewrite <- (string_app_single " " tid), !string_app_assoc, <- (string_app_assoc " " tid),
    <- (string_app_assoc cmd), str_slice_prefix, string_app_single.
  rewrite split_ws_app_space, (split_ws_token tid) by first [reflexivity | assumption].
  by rewrite index_last, slice_init.
Qed.

Lemma load_lines_app st l1 l2 :
  load_lines st (l1 ++ l2) = st' ← load_lines st l1; load_lines st' l2.
Proof.
  revert st. induction l1 as [|l l1 IH]; intros st; simpl; [done|].
  destruct (load_line st l); simpl; [apply IH|done].
Qed.

Lemma load_comments st comments :
  exists st', load_lines st (map (String "#") comments) = Some st' /\
    perf_records st' = perf_records st /\ call_stack st' = call_stack st.
Proof.
  revert st. induction comments as [|c cs IH]; intros st; simpl; [by eexists|].
  destruct (IH (mk_lstate (top_message st ++ [String "#" c]) (perf_records st) (call_stack st)
          (command st) (timestamp st) (event st) (cpu st) (tid st))) as (st' & -> & ? & ?).
  by exists st'.
Qed.

(** One printed sample appends its record and leaves the frame buffer empty. *)
Lemma load_sample st p :
  sample_ok p = true -> call_stack st = [] ->
  load_lines st (perf_script_sample p) =
  Some (mk_lstate (top_message st) (perf_records st ++ [expected_raw p]) [] "" "" "" "" "").
Proof.
  intros Hp Hst. unfold perf_script_sample. cbn [load_lines].
  rewrite load_header by done. cbn [mbind option_bind].
  rewrite load_lines_app, load_frames; cbn [mbind option_bind load_lines top_message
    perf_records call_stack command timestamp event cpu tid].
  - rewrite Hst. simpl. done.
  - unfold sample_ok in Hp. repeat (apply andb_prop in Hp as [Hp ?]). done.
Qed.

Lemma load_samples st ps :
  Forall (fun p => sample_ok p = true) ps -> call_stack st = [] ->
  exists st', load_lines st (concat (map perf_script_sample ps)) = Some st' /\
    perf_records st' = (perf_records st ++ map expected_raw ps)%list.
Proof.
  revert st. induction ps as [|p ps IH]; intros st Hps Hst; cbn [concat map].
  - exists st. by rewrite app_nil_r.
  - inversion Hps as [|? ? Hp Hps']; subst.
    rewrite load_lines_app, load_sample by done. cbn [mbind option_bind].
    edestruct IH as (st' & -> & Hr); [exact Hps'|reflexivity|]. exists st'. split; [done|].
    rewrite Hr. simpl. by rewrite <- app_assoc.
Qed.

(** A file holding only well-formed samples loads as one record each. *)
Lemma data_loading_samples ps :
  Forall (fun p => sample_ok p = true) ps ->
  data_loading (concat (map perf_script_sample ps)) = Some (map expected_raw ps).
Proof.
  intros Hps. unfold data_loading.
  destruct (load_samples lstate_init ps Hps eq_refl) as (st' & -> & Hr). simpl. by rewrite Hr.
Qed.

(** C13: the loader reads back what [perf script] prints: after any
    comment lines, a sequence of well-formed samples is loaded as one
    record each, in order, with the command's whitespace collapsed, the
    sample period (not the event name) in the [event] column and the
    frames in reverse order (outermost caller first). *)
Theorem data_loading_perf_script comments ps :
  Forall (fun p => sample_ok p = true) ps ->
  data_loading (map (String "#") comments ++ concat (map perf_script_sample ps)) =
  Some (map expected_raw ps).
Proof.
  intros Hps. unfold data_loading. rewrite load_lines_app.
  destruct (load_comments lstate_init comments) as (st & -> & Hr & Hc). cbn [mbind option_bind].
  destruct (load_samples st ps Hps Hc) as (st' & -> & Hr'). simpl. by rewrite Hr', Hr.
Qed.

(** C14: a sample whose text is not followed by an empty line is lost:
    [data_loading] appends a record only when it reads the empty line. *)
Theorem data_loading_drops_unterminated p :
  sample_ok p = true ->
  data_loading (perf_header p :: map perf_frame (p_frames p)) = Some [].
Proof.
  intros Hp. unfold data_loading. cbn [load_lines]. rewrite load_header by done.
  cbn [mbind option_bind]. rewrite load_frames; [done|].
  unfold sample_ok in Hp. repeat (apply andb_prop in Hp as [Hp ?]). done.
Qed.

(** A frame as [perf script] prints it after the tab: address, symbol,
    module, separated by spaces. *)
Definition frame_text (addr sym module : string) : string :=
  addr +:+ " " +:+ sym +:+ " " +:+ module.

Definition token_ok (s : string) : bool := no_space s && negb (String.eqb s "").

Lemma split_ws_frame_text a sym m :
  token_ok a = true -> token_ok sym = true -> token_ok m = true ->
  Py.split_ws (frame_text a sym m) = [a; sym; m].
Proof.
  unfold token_ok, frame_text. intros [Ha Ha']%andb_prop [Hs Hs']%andb_prop [Hm Hm']%andb_prop.
  apply negb_true_iff, String.eqb_neq in Ha', Hs', Hm'.
  by rewrite !string_app_single, !split_ws_cons_token, split_ws_token.
Qed.

(** [function_call_stack] is the list of the frames' symbols joined
    by [;]: the address and the module of each frame are dropped. *)
Theorem function_call_stack_of_symbols (frames : list (string * string * string)) :
  Forall (fun '(a, sym, m) => token_ok a = true /\ token_ok sym = true /\ token_ok m = true)
    frames ->
  function_call_stack_of (map (fun '(a, sym, m) => frame_text a sym m) frames) =
  Py.join ";" (map (fun '(_, sym, _) => sym) frames).
Proof.
  intros H. unfold function_call_stack_of. f_equal. rewrite map_map.
  apply map_ext_Forall. eapply Forall_impl; [exact H|].
  intros [[a sym] m] (Ha & Hs & Hm). rewrite split_ws_frame_text by done. reflexivity.
Qed.

(** ** Concrete traces *)

Definition kernel_frames : list string :=
  [frame_text "ffffffff81000e" "native_safe_halt+0xe" "([kernel.kallsyms])";
   frame_text "ffffffff81002a" "default_idle+0x1a" "([kernel.kallsyms])"].

Definition swapper_sample : perf_sample :=
  mk_perf_sample "swapper" "0" "000" "691089.368816" "250000" "cpu-clock:pppH:" kernel_frames.

Lemma data_loading_perf_script_witness :
  data_loading (map (String "#") [" cmdline : perf script"] ++
                concat (map perf_script_sample [swapper_sample; swapper_sample])) =
  Some (map expected_raw [swapper_sample; swapper_sample]).
Proof. apply data_loading_perf_script. repeat constructor. Defined.

Lemma data_loading_drops_unterminated_witness :
  data_loading (perf_header swapper_sample :: map perf_frame (p_frames swapper_sample)) = Some [].
Proof. apply data_loading_drops_unterminated. reflexivity. Defined.

Lemma function_call_stack_of_symbols_witness :
  function_call_stack_of kernel_frames = "native_safe_halt+0xe;default_idle+0x1a".
Proof.
  apply (function_call_stack_of_symbols
           [("ffffffff81000e", "native_safe_halt+0xe", "([kernel.kallsyms])");
            ("ffffffff81002a", "default_idle+0x1a", "([kernel.kallsyms])")]).
  repeat constructor.
Defined.

(** A header line without a [[cpu]] field (line 58) keeps the colon
    that ends the timestamp: [data_loading] stores ["691089.368816:"],
    and [data_processing] then fails on [astype(float)]. *)
Theorem data_processing_plain_header_fails :
  let text := ["app 123 691089.368816: 250000 cpu-clock:" +:+ nl; perf_frame "ffffffff81000e f (k)"; nl] in
  option_map (map r_timestamp) (data_loading text) = Some ["691089.368816:"] /\
  (r ← data_loading text; data_processing r) = None.
Proof. split; vm_compute; reflexivity. Qed.

End Loader.
