(* ===== verification/Signature.v ===== *)
(** The signature extractor, [get_user_defined_indentical_call_stacks]
    (src/filtering.py:200-223), and the [top_function] column derived from
    it in [identify_consecutive_identical_call_stacks*].

    The depth [degrees_of_freedom] and the [direction] are Python ints
    ([Z]); the frame selection is a Python slice, negative bounds
    included.  Theorems: the bottom-up selection is the first [k] frames
    (the contract of the spec), a depth below [-1] silently drops frames
    from the end, and the top-down selection is the slice [[n-k : k]],
    which is empty as soon as [2k <= n]. *)

From S2P Require Import Prelude.
Local Open Scope string_scope.

Section Signature.

(** [" ".join(j.split()[1:])]: the frame without its address token. *)
Definition frame_symbol (j : string) : string := Py.join " " (drop 1 (Py.split_ws j)).

(** The frame slice the function keeps. *)
Definition selected_frames (function_list : list string) (degrees_of_freedom direction : Z)
  : list string :=
  let original_length := Z.of_nat (length function_list) in
  let length0 := Z.min degrees_of_freedom original_length in
  let length := if (length0 =? -1)%Z then Z.of_nat (length function_list) else length0 in
  if (direction =? 0)%Z then Py.slice function_list 0 length
  else Py.slice function_list (original_length - length) length.

Definition get_user_defined_indentical_call_stacks
  (function_list : list string) (degrees_of_freedom direction : Z) : string :=
  Py.join ";" (map frame_symbol (selected_frames function_list degrees_of_freedom direction)).

(** [x.split(";")[-1]], the [top_function] column. *)
Definition top_function_of (signature : string) : string :=
  default "" (Py.last_elem (Py.split_on ";"%char signature)).

(** ** Slices with non-negative bounds *)

Lemma slice_bound_nonneg n (i : Z) : (0 <= i)%Z -> Py.slice_bound n i = Nat.min (Z.to_nat i) n.
Proof. intros H. unfold Py.slice_bound. destruct (Z.ltb_spec i 0); [lia|done]. Qed.

Lemma slice_bound_neg n (i : Z) : (i < 0)%Z -> Py.slice_bound n i = Z.to_nat (Z.max 0 (i + Z.of_nat n)).
Proof. intros H. unfold Py.slice_bound. destruct (Z.ltb_spec i 0); [done|lia]. Qed.

Lemma py_slice_nat {A} (l : list A) (a b : nat) :
  a <= length l -> b <= length l ->
  Py.slice l (Z.of_nat a) (Z.of_nat b) = take (b - a) (drop a l).
Proof.
  intros Ha Hb. unfold Py.slice.
  rewrite !slice_bound_nonneg by lia. rewrite !Nat2Z.id, !Nat.min_l by lia. done.
Qed.

(** ** The selection, branch by branch *)

(** Bottom-up with a depth [k >= 0], or unbounded ([-1]): the first
    [min k n] frames. *)
Lemma selected_bottom_up l (dof : Z) :
  (-1 <= dof)%Z ->
  selected_frames l dof 0 =
  take (if (dof =? -1)%Z then length l else Nat.min (Z.to_nat dof) (length l)) l.
Proof.
  intros Hd. unfold selected_frames. simpl.
  destruct (Z.eqb_spec dof (-1)) as [->|Hne].
  - replace (Z.min (-1) (Z.of_nat (length l))) with (-1)%Z by lia. simpl.
    by rewrite py_slice_prefix.
  - destruct (Z.eqb_spec (Z.min dof (Z.of_nat (length l))) (-1)); [lia|].
    replace (Z.min dof (Z.of_nat (length l)))
      with (Z.of_nat (Nat.min (Z.to_nat dof) (length l))) by lia.
    by rewrite py_slice_prefix.
Qed.

(** A depth below [-1] is a negative slice bound: the last [-dof] frames
    are dropped instead of the configuration being rejected. *)
Lemma selected_bottom_up_negative l (dof : Z) :
  (dof < -1)%Z -> selected_frames l dof 0 = take (Z.to_nat (Z.max 0 (dof + Z.of_nat (length l)))) l.
Proof.
  intros Hd. unfold selected_frames. simpl.
  replace (Z.min dof (Z.of_nat (length l))) with dof by lia.
  destruct (Z.eqb_spec dof (-1)); [lia|].
  unfold Py.slice. rewrite (slice_bound_nonneg _ 0) by lia.
  rewrite slice_bound_neg by lia. simpl. by rewrite Nat.sub_0_r, drop_0.
Qed.

(** Top-down with a depth [0 <= k <= n]: the slice [[n-k : k]]. *)
Lemma selected_top_down l (dof direction : Z) :
  direction <> 0%Z -> (0 <= dof <= Z.of_nat (length l))%Z ->
  selected_frames l dof direction =
  take (Z.to_nat dof - (length l - Z.to_nat dof)) (drop (length l - Z.to_nat dof) l).
Proof.
  intros Hdir Hd. unfold selected_frames.
  destruct (Z.eqb_spec direction 0); [done|].
  replace (Z.min dof (Z.of_nat (length l))) with dof by lia.
  destruct (Z.eqb_spec dof (-1)); [lia|].
  replace (Z.of_nat (length l) - dof)%Z with (Z.of_nat (length l - Z.to_nat dof)) by lia.
  replace dof with (Z.of_nat (Z.to_nat dof)) at 2 by lia.
  rewrite py_slice_nat by lia. done.
Qed.

(** ** Properties of the extractor *)

(** Scenario C of the spec: depth 2, bottom-up, on the frames
    [0x1 main], [0x2 foo], [0x3 bar] gives ["main;foo"]. *)
Theorem signature_scenario_C :
  get_user_defined_indentical_call_stacks ["0x1 main"; "0x2 foo"; "0x3 bar"] 2 0
  = "main;foo".
Proof. reflexivity. Qed.

(** C9: bottom-up ([direction = 0]) with a depth [k >= 0] the signature is
    made of the first [min k n] frames, address stripped, joined by [;];
    with the unbounded depth [-1] it is made of all frames. *)
Theorem signature_bottom_up l (k : Z) :
  (-1 <= k)%Z ->
  get_user_defined_indentical_call_stacks l k 0 =
  Py.join ";" (map frame_symbol
    (take (if (k =? -1)%Z then length l else Nat.min (Z.to_nat k) (length l)) l)).
Proof. intros Hk. unfold get_user_defined_indentical_call_stacks. by rewrite selected_bottom_up. Qed.

Lemma signature_bottom_up_witness :
  get_user_defined_indentical_call_stacks ["0x1 main"; "0x2 foo"; "0x3 bar"] 2 0 =
  Py.join ";" (map frame_symbol (take 2 ["0x1 main"; "0x2 foo"; "0x3 bar"])).
Proof. rewrite signature_bottom_up by lia. reflexivity. Defined.

(** Top-down ([direction <> 0]) with a depth [0 <= k] and [2k <= n]
    the code selects the empty slice [[n-k : k]], so the signature is the
    empty string whatever the stack: all such samples share one
    signature. *)
Theorem signature_top_down_empty l (k direction : Z) :
  direction <> 0%Z -> (0 <= k)%Z -> (2 * k <= Z.of_nat (length l))%Z ->
  get_user_defined_indentical_call_stacks l k direction = "".
Proof.
  intros Hdir Hk Hn. unfold get_user_defined_indentical_call_stacks.
  rewrite selected_top_down by lia.
  replace (Z.to_nat k - (length l - Z.to_nat k)) with 0 by lia. done.
Qed.

Lemma signature_top_down_empty_witness :
  get_user_defined_indentical_call_stacks ["0x1 main"; "0x2 foo"; "0x3 bar"] 1 1 = "".
Proof. apply signature_top_down_empty; simpl; lia.
Defined.

(** A depth below [-1] is not rejected: bottom-up it keeps all but
    the last [-k] frames (a negative Python slice bound). *)
Theorem signature_negative_depth l (k : Z) :
  (k < -1)%Z ->
  get_user_defined_indentical_call_stacks l k 0 =
  Py.join ";" (map frame_symbol (take (Z.to_nat (Z.max 0 (k + Z.of_nat (length l)))) l)).
Proof.
  intros Hk. unfold get_user_defined_indentical_call_stacks. by rewrite selected_bottom_up_negative.
Qed.

Lemma signature_negative_depth_witness :
  get_user_defined_indentical_call_stacks ["0x1 main"; "0x2 foo"; "0x3 bar"] (-2) 0 = "main".
Proof. rewrite signature_negative_depth by lia. reflexivity.
Defined.

End Signature.
