(* ===== verification/Compress.v ===== *)
(** The stack-pattern compressor: per thread, consecutive samples with
    the same signature become one CICP row.

    - [with_signature]: the two column assignments at the top of
      [identify_consecutive_identical_call_stacks*] (filtering.py:121-130,
      159-168);
    - [token_scan]: [(compare_key != compare_key.shift()).cumsum()]
      (filtering.py:80-81), the first row compared with [NaN];
    - [groups_by_token] and [cicp_of_group]: the [groupby(["token"],
      as_index=False).aggregate(list)] and the column rewrites of
      [_process_single_thread_cics] (filtering.py:75-105);
    - [identify_consecutive_identical_call_stacks_parallel]: the per-tid
      [groupby] fan-out and the [pd.concat] fan-in (filtering.py:108-143);
      [identify_consecutive_identical_call_stacks] (146-197) is the same
      with the threads in order of first appearance.

    The reference [runs] (maximal runs of equal signatures) is what the
    token trick computes; the theorems show it, and that the CICPs of a
    thread cover its samples exactly. *)

From S2P Require Import Prelude Frames Signature.

Section Compress.

Implicit Types (l : list Sample.t) (r : Sample.t).

Abbreviation sig := Sample.user_defined_indentical_call_stacks.

Definition with_signature (degrees_of_freedom direction : Z) (r : Sample.t) : Sample.t :=
  let s := get_user_defined_indentical_call_stacks (Sample.call_stack r) degrees_of_freedom direction in
  {| Sample.Index := Sample.Index r; Sample.timestamp := Sample.timestamp r;
     Sample.command := Sample.command r; Sample.tid := Sample.tid r;
     Sample.cpu := Sample.cpu r; Sample.event := Sample.event r;
     Sample.call_stack := Sample.call_stack r;
     Sample.top_function := top_function_of s;
     Sample.function_call_stack := Sample.function_call_stack r;
     Sample.user_defined_indentical_call_stacks := s |}.

(** The token column: the running count of rows whose signature differs
    from the previous row's ([prev = None] is the [NaN] of [shift()]). *)
Fixpoint token_scan (prev : option string) (acc : nat) l : list (nat * Sample.t) :=
  match l with
  | [] => []
  | r :: l' =>
      let acc' := if decide (prev = Some (sig r)) then acc else S acc in
      (acc', r) :: token_scan (Some (sig r)) acc' l'
  end.

Definition groups_by_token l : list (nat * list Sample.t) :=
  map (fun '(k, ps) => (k, map snd ps)) (Py.groupby Nat.ltb fst (token_scan None 0 l)).

(** One aggregated row; [i] is its label in the fresh [RangeIndex].  An
    empty group (which [groupby] never produces) would make [x[0]] raise. *)
Definition cicp_of_group (i : nat) (g : nat * list Sample.t) : option Cicp.t :=
  match g with
  | (_, []) => None
  | (tok, r :: rs) =>
      Some {| Cicp.Index := i; Cicp.token := tok;
              Cicp.timestamp := map Sample.timestamp (r :: rs);
              Cicp.command := Sample.command r; Cicp.tid := Sample.tid r;
              Cicp.cpu := map Sample.cpu (r :: rs); Cicp.event := Sample.event r;
              Cicp.call_stack := Sample.call_stack r;
              Cicp.top_function := map Sample.top_function (r :: rs);
              Cicp.function_call_stack := Sample.function_call_stack r;
              Cicp.user_defined_indentical_call_stacks := sig r;
              Cicp.duration_length := length (r :: rs);
              Cicp.ts_begin := Sample.timestamp r;
              Cicp.ts_end := default (Sample.timestamp r)
                               (last (map Sample.timestamp (r :: rs))) |}
  end.

Definition process_single_thread_cics (thread_df : list Sample.t) : list Cicp.t :=
  omap id (imap cicp_of_group (groups_by_token thread_df)).

(** [pd.concat(results_list)]: the per-thread frames one after the
    other, each keeping its own labels; an empty list of frames (a trace
    without samples) raises [ValueError] ([None]). *)
Definition concat_frames (frames : list (list Cicp.t)) : option (list Cicp.t) :=
  match frames with [] => None | _ => Some (concat frames) end.

Definition identify_consecutive_identical_call_stacks_parallel
  (perf_records_df : list Sample.t) (degrees_of_freedom direction : Z) : option (list Cicp.t) :=
  let df := map (with_signature degrees_of_freedom direction) perf_records_df in
  let thread_groups := map snd (Py.groupby Z.ltb Sample.tid df) in
  concat_frames (map process_single_thread_cics thread_groups).

Definition identify_consecutive_identical_call_stacks
  (perf_records_df : list Sample.t) (degrees_of_freedom direction : Z) : option (list Cicp.t) :=
  let df := map (with_signature degrees_of_freedom direction) perf_records_df in
  concat_frames (map (fun thread => process_single_thread_cics (filter (fun r => Sample.tid r = thread) df))
                     (Py.unique (map Sample.tid df))).

(** ** The reference: maximal runs of equal signatures *)

Fixpoint runs l : list (list Sample.t) :=
  match l with
  | [] => []
  | r :: l' =>
      match runs l' with
      | (r' :: g) :: gs =>
          if decide (sig r = sig r') then (r :: r' :: g) :: gs
          else [r] :: (r' :: g) :: gs
      | gs => [r] :: gs
      end
  end.

(** Tokens assigned run by run, from [b] on. *)
Fixpoint tokenize (b : nat) (gs : list (list Sample.t)) : list (nat * Sample.t) :=
  match gs with
  | [] => []
  | g :: gs' => map (pair b) g ++ tokenize (S b) gs'
  end.

(** ** Facts about the reference [runs] *)

Lemma runs_cons_unfold r l :
  runs (r :: l) =
  match runs l with
  | (r' :: g) :: gs =>
      if decide (sig r = sig r') then (r :: r' :: g) :: gs else [r] :: (r' :: g) :: gs
  | gs => [r] :: gs
  end.
Proof. reflexivity. Qed.

Lemma runs_cons_shape r l : exists g gs, runs (r :: l) = (r :: g) :: gs.
Proof.
  cbn [runs]. destruct (runs l) as [|[|r' g] gs]; eauto.
  case_decide; eauto.
Qed.

Lemma runs_concat l : concat (runs l) = l.
Proof.
  induction l as [|r l IH]; [done|]. cbn [runs].
  destruct (runs l) as [|[|r' g] gs]; simpl in *; subst; try done.
  case_decide; done.
Qed.

Lemma runs_nonempty l : Forall (fun g => g <> []) (runs l).
Proof.
  induction l as [|r l IH]; cbn [runs]; [done|].
  destruct (runs l) as [|[|r' g] gs]; try by constructor.
  inversion IH; subst. case_decide; repeat constructor; done.
Qed.

(** Every run is made of samples of one signature. *)
Lemma runs_same_sig l : Forall (fun g => forall r r', r ∈ g -> r' ∈ g -> sig r = sig r') (runs l).
Proof.
  induction l as [|r l IH]; cbn [runs]; [done|].
  destruct (runs l) as [|[|r' g] gs] eqn:E; try (constructor; [set_solver|done]).
  inversion IH as [|? ? Hg Hgs]; subst. destruct (decide (sig r = sig r')) as [Hs|Hs].
  - constructor; [|done]. intros a b Ha Hb.
    assert (forall x, x ∈ r :: r' :: g -> sig x = sig r').
    { intros x Hx. apply elem_of_cons in Hx as [->|Hx]; [done|]. apply Hg; set_solver. }
    rewrite (H a Ha), (H b Hb). done.
  - constructor; [set_solver|]. by constructor.
Qed.

(** Two adjacent runs have different signatures: the runs are maximal. *)
Lemma runs_adjacent_differ l i g g' :
  runs l !! i = Some g -> runs l !! S i = Some g' ->
  forall r r', last g = Some r -> head g' = Some r' -> sig r <> sig r'.
Proof.
  revert i g g'. induction l as [|x l IH]; intros i g g' Hi Hi' r r' Hr Hr'; [done|].
  cbn [runs] in Hi, Hi'. destruct (runs l) as [|[|y h] gs] eqn:E.
  - by destruct i as [|[]].
  - pose proof (runs_nonempty l) as Hne. rewrite E in Hne. inversion Hne; congruence.
  - destruct (decide (sig x = sig y)) as [Hs|Hs].
    + destruct i as [|i]; simpl in Hi, Hi'.
      * injection Hi as <-. assert (Hl : last (y :: h) = Some r)
          by (rewrite <- Hr; by destruct h). 
        by apply (IH 0 (y :: h) g' eq_refl Hi' r r').
      * by apply (IH (S i) g g' Hi Hi' r r').
    + destruct i as [|i]; simpl in Hi, Hi'.
      * injection Hi as <-. injection Hi' as <-. simpl in Hr, Hr'.
        injection Hr as <-. injection Hr' as <-. done.
      * by apply (IH i g g' Hi Hi' r r').
Qed.

(** ** The token trick computes the runs *)

Lemma tokenize_fst_ge b gs x : x ∈ tokenize b gs -> b <= fst x.
Proof.
  revert b. induction gs as [|g gs IH]; intros b Hx; simpl in Hx; [set_solver|].
  apply elem_of_app in Hx as [Hx|Hx].
  - apply list_elem_of_fmap in Hx as (r & -> & _). done.
  - apply IH in Hx. lia.
Qed.

Lemma token_scan_runs prev acc l :
  token_scan prev acc l =
  tokenize (match l with
            | [] => acc
            | r :: _ => if decide (prev = Some (sig r)) then acc else S acc
            end) (runs l).
Proof.
  revert prev acc. induction l as [|r l IH]; intros prev acc; [done|].
  cbn [token_scan]. rewrite IH. clear IH.
  set (acc' := if decide (prev = Some (sig r)) then acc else S acc).
  destruct l as [|r' l]; [done|].
  destruct (runs_cons_shape r' l) as (g & gs & Hr).
  rewrite (runs_cons_unfold r (r' :: l)), Hr.
  destruct (decide (sig r = sig r')) as [Hs|Hs].
  - rewrite decide_True by congruence. done.
  - rewrite decide_False by congruence. done.
Qed.

Lemma py_unique_replicate_app (b n : nat) (rest : list nat) :
  b ∉ rest -> 0 < n -> Py.unique (repeat b n ++ rest) = b :: Py.unique rest.
Proof.
  intros Hb Hn. induction n as [|[|n] IH]; [lia| |].
  - simpl. by rewrite py_unique_filter_fresh.
  - change (repeat b (S (S n)) ++ rest) with (b :: (repeat b (S n) ++ rest)).
    cbn [Py.unique]. rewrite IH by lia. rewrite filter_cons_False by tauto.
    by rewrite py_unique_filter_fresh.
Qed.

Lemma tokenize_keys b gs :
  Forall (fun g => g <> []) gs -> Py.unique (map fst (tokenize b gs)) = seq b (length gs).
Proof.
  revert b. induction gs as [|g gs IH]; intros b Hne; [done|].
  inversion Hne as [|? ? Hg Hgs]; subst. cbn [tokenize length seq].
  rewrite map_app, map_map. simpl (map (fun x => fst (b, x)) g).
  rewrite map_const, py_unique_replicate_app, IH; try done.
  - intros Hin. apply list_elem_of_fmap in Hin as (x & Hx & Hin).
    apply tokenize_fst_ge in Hin. lia.
  - destruct g; [done|simpl; lia].
Qed.

Lemma seq_py_sorted b n : StronglySorted (fun a c => Nat.ltb c a = false) (seq b n).
Proof.
  revert b. induction n as [|n IH]; intros b; simpl; constructor; [done|].
  apply Forall_forall. intros x Hx. apply elem_of_seq in Hx. apply Nat.ltb_ge. lia.
Qed.

Lemma groupby_tokenize b gs :
  Forall (fun g => g <> []) gs ->
  Py.groupby Nat.ltb fst (tokenize b gs) = imap (fun i g => (b + i, map (pair (b + i)) g)) gs.
Proof.
  intros Hne. unfold Py.groupby. rewrite tokenize_keys, py_sort_id by auto using seq_py_sorted.
  revert b. induction gs as [|g gs IH]; intros b; [done|].
  inversion Hne as [|? ? Hg Hgs]; subst. cbn [tokenize length seq map].
  rewrite imap_cons, Nat.add_0_r. f_equal.
  - f_equal. rewrite filter_app, (filter_none_nil _ (tokenize _ _)).
    + rewrite app_nil_r. apply filter_all_id. apply Forall_forall.
      intros x Hx. apply list_elem_of_fmap in Hx as (? & -> & _). done.
    + apply Forall_forall. intros x Hx. apply tokenize_fst_ge in Hx. simpl. lia.
  - rewrite (imap_ext _ (fun i h => (S b + i, map (pair (S b + i)) h)))
      by (intros i h _; simpl; by rewrite Nat.add_succ_r).
    rewrite <- (IH Hgs (S b)). apply map_ext_in. intros k Hk.
    apply list_elem_of_In, elem_of_seq in Hk.
    rewrite filter_app, (filter_none_nil _ (map _ g)); [done|].
    apply Forall_forall. intros x Hx. apply list_elem_of_fmap in Hx as (? & -> & _). simpl. lia.
Qed.

Lemma map_snd_pair {A B} (k : A) (g : list B) : map snd (map (pair k) g) = g.
Proof. induction g; simpl; congruence. Qed.

Lemma groups_by_token_imap_runs l : groups_by_token l = imap (fun i g => (S i, g)) (runs l).
Proof.
  unfold groups_by_token. rewrite token_scan_runs.
  destruct l as [|r l]; [done|]. rewrite decide_False by done.
  rewrite groupby_tokenize by apply runs_nonempty.
  change (map ?f ?l) with (f <$> l). rewrite fmap_imap. apply imap_ext.
  intros i g _. simpl. by rewrite map_snd_pair.
Qed.

(** C6: the token column and the [groupby(["token"])] of
    [_process_single_thread_cics] compute the maximal runs of equal
    signatures: the [i]-th group has token [i + 1] and is the [i]-th run. *)
Theorem groups_by_token_runs l : groups_by_token l = imap (fun i g => (S i, g)) (runs l).
Proof. apply groups_by_token_imap_runs. Qed.

Lemma process_single_thread_cics_lookup l i :
  process_single_thread_cics l !! i = runs l !! i ≫= (fun g => cicp_of_group i (S i, g)).
Proof.
  unfold process_single_thread_cics. rewrite lookup_omap_id_imap.
  - rewrite groups_by_token_imap_runs, list_lookup_imap. by destruct (runs l !! i).
  - intros j x Hx. rewrite groups_by_token_imap_runs, list_lookup_imap in Hx.
    destruct (runs l !! j) as [g|] eqn:Hg; simpl in Hx; [|done]. injection Hx as <-.
    pose proof (Forall_lookup_1 _ _ _ _ (runs_nonempty l) Hg) as Hne.
    destruct g; [done|]. eauto.
Qed.

(** A column of the CICP frame is a function of the run it aggregates. *)
Lemma process_single_thread_cics_map {B} (P : Cicp.t -> B) (Q : list Sample.t -> B) l :
  (forall i r rs c, cicp_of_group i (S i, r :: rs) = Some c -> P c = Q (r :: rs)) ->
  map P (process_single_thread_cics l) = map Q (runs l).
Proof.
  intros HPQ. apply list_eq. intros i.
  rewrite !list_lookup_fmap, process_single_thread_cics_lookup.
  destruct (runs l !! i) as [g|] eqn:Hg; [|done].
  pose proof (Forall_lookup_1 _ _ _ _ (runs_nonempty l) Hg) as Hne.
  destruct g as [|r rs]; [done|]. simpl. f_equal. by eapply HPQ.
Qed.

Lemma process_single_thread_cics_timestamps l :
  map Cicp.timestamp (process_single_thread_cics l) = map (map Sample.timestamp) (runs l).
Proof. apply process_single_thread_cics_map. by intros i r rs c [= <-]. Qed.

(** The shape of one CICP row: it aggregates a run [g] of the thread. *)
Lemma process_single_thread_cics_row l c :
  c ∈ process_single_thread_cics l ->
  exists g r, g ∈ runs l /\ head g = Some r /\
    Cicp.timestamp c = map Sample.timestamp g /\
    Cicp.duration_length c = length g /\
    Cicp.tid c = Sample.tid r /\ Cicp.command c = Sample.command r /\
    Cicp.user_defined_indentical_call_stacks c = sig r /\
    head (Cicp.timestamp c) = Some (Cicp.ts_begin c) /\
    last (Cicp.timestamp c) = Some (Cicp.ts_end c).
Proof.
  intros Hc. apply list_elem_of_lookup in Hc as [i Hi].
  rewrite process_single_thread_cics_lookup in Hi.
  destruct (runs l !! i) as [[|r rs]|] eqn:Hg; simpl in Hi; try done.
  injection Hi as <-. exists (r :: rs), r. simpl.
  repeat split; try done. { by eapply list_elem_of_lookup_2. }
  destruct (last (Sample.timestamp r :: map Sample.timestamp rs)) eqn:E; [done|].
  by apply last_None in E.
Qed.

Lemma cics_timestamps_concat l :
  concat (map Cicp.timestamp (process_single_thread_cics l)) = map Sample.timestamp l.
Proof. by rewrite process_single_thread_cics_timestamps, <- concat_map, runs_concat. Qed.

(** C7: the CICPs of one thread cover its samples exactly: concatenating
    their [timestamp] lists, in order, gives back the thread's sample
    timestamps (no gap, no overlap, no reordering). *)
Theorem process_single_thread_cics_cover l :
  concat (map Cicp.timestamp (process_single_thread_cics l)) = map Sample.timestamp l.
Proof. apply cics_timestamps_concat. Qed.

(** [duration_length] counts the merged samples: over one thread the
    durations add up to the number of samples. *)
Theorem process_single_thread_cics_durations l :
  list_sum (map Cicp.duration_length (process_single_thread_cics l)) = length l.
Proof.
  rewrite (process_single_thread_cics_map _ length) by (by intros i r rs c [= <-]).
  by rewrite <- length_concat, runs_concat.
Qed.

(** C8: Two consecutive CICPs of a thread carry different signatures. *)
Theorem process_single_thread_cics_maximal l i c c' :
  process_single_thread_cics l !! i = Some c ->
  process_single_thread_cics l !! S i = Some c' ->
  Cicp.user_defined_indentical_call_stacks c <> Cicp.user_defined_indentical_call_stacks c'.
Proof.
  rewrite !process_single_thread_cics_lookup.
  destruct (runs l !! i) as [[|r rs]|] eqn:Hg; simpl; try done.
  destruct (runs l !! S i) as [[|r' rs']|] eqn:Hg'; simpl; try done.
  intros [= <-] [= <-]. simpl.
  assert (Hsame := runs_same_sig l). eapply Forall_lookup_1 in Hsame; [|exact Hg].
  destruct (last (r :: rs)) as [z|] eqn:Hz; [|by apply last_None in Hz].
  rewrite (Hsame r z) by (set_solver || (apply last_Some_elem_of; done)).
  eapply runs_adjacent_differ; [exact Hg|exact Hg'|exact Hz|done].
Qed.

(** When the samples of a thread have strictly increasing timestamps,
    every CICP satisfies [ts_begin <= ts_end] and every CICP ends strictly
    before any later CICP of the thread begins. *)
Theorem process_single_thread_cics_separated l :
  StronglySorted Z.lt (map Sample.timestamp l) ->
  Forall (fun c => (Cicp.ts_begin c <= Cicp.ts_end c)%Z) (process_single_thread_cics l) /\
  StronglySorted (fun c c' => (Cicp.ts_end c < Cicp.ts_begin c')%Z) (process_single_thread_cics l).
Proof.
  intros Hs. rewrite <- cics_timestamps_concat in Hs.
  apply StronglySorted_concat in Hs as [Hblocks Hsorted].
  apply StronglySorted_map_inv in Hblocks. rewrite Forall_map in Hsorted. split.
  - apply Forall_forall. intros c Hc.
    destruct (process_single_thread_cics_row l c Hc) as (g & r & _ & _ & _ & _ & _ & _ & _ & Hb & He).
    eapply head_last_le; [|exact Hb|exact He].
    rewrite Forall_forall in Hsorted. exact (Hsorted c Hc).
  - eapply StronglySorted_impl_in; [|exact Hblocks]. intros c c' Hc Hc' Hcc'.
    destruct (process_single_thread_cics_row l c Hc) as (_ & _ & _ & _ & _ & _ & _ & _ & _ & _ & He).
    destruct (process_single_thread_cics_row l c' Hc') as (_ & _ & _ & _ & _ & _ & _ & _ & _ & Hb & _).
    apply Hcc'; [by apply last_Some_elem_of|by apply head_elem_of].
Qed.

(** ** The labels of the concatenated frame *)

(** [groupby(["token"], as_index=False)] gives each thread's frame a
    fresh [RangeIndex]: the [i]-th CICP of a thread carries label [i]. *)
Lemma process_single_thread_cics_labels l i c :
  process_single_thread_cics l !! i = Some c -> Cicp.Index c = i.
Proof.
  rewrite process_single_thread_cics_lookup.
  destruct (runs l !! i) as [[|r rs]|]; simpl; try done. by intros [= <-].
Qed.

(** The CICPs of a thread's frame belong to that thread. *)
Lemma process_single_thread_cics_tid l th c :
  Forall (fun r => Sample.tid r = th) l -> c ∈ process_single_thread_cics l -> Cicp.tid c = th.
Proof.
  intros Hl Hc. destruct (process_single_thread_cics_row l c Hc) as (g & r & Hg & Hr & _ & _ & -> & _).
  rewrite Forall_forall in Hl. apply Hl. rewrite <- (runs_concat l).
  apply list_elem_of_In, in_concat. exists g. split; apply list_elem_of_In; [done|by apply head_elem_of].
Qed.

(** Selecting one thread of frames with distinct threads. *)
Lemma filter_concat_keys (keys : list Z) (F : Z -> list Cicp.t) th :
  NoDup keys -> (forall k c, c ∈ F k -> Cicp.tid c = k) ->
  filter (fun c => Cicp.tid c = th) (concat (map F keys)) = if decide (th ∈ keys) then F th else [].
Proof.
  intros Hnd HF. induction Hnd as [|k keys Hk _ IH]; [done|]. cbn [map concat].
  rewrite filter_app, IH. destruct (decide (k = th)) as [->|Hne].
  - rewrite filter_all_id by (apply Forall_forall; eauto).
    destruct (decide (th ∈ keys)); [done|].
    destruct (decide (th ∈ th :: keys)); [apply app_nil_r|set_solver].
  - rewrite filter_none_nil by (apply Forall_forall; intros c Hc; by rewrite (HF k c Hc)).
    cbn [app]. destruct (decide (th ∈ keys)), (decide (th ∈ k :: keys)); try reflexivity; set_solver.
Qed.

(** In the concatenated frame the CICPs of one thread are the frame
    [_process_single_thread_cics] built for it. *)
Lemma identify_thread data dof dir cs th :
  identify_consecutive_identical_call_stacks_parallel data dof dir = Some cs ->
  filter (fun c => Cicp.tid c = th) cs =
  process_single_thread_cics (filter (fun r => Sample.tid r = th) (map (with_signature dof dir) data)).
Proof.
  unfold identify_consecutive_identical_call_stacks_parallel, concat_frames, Py.groupby.
  set (df := map (with_signature dof dir) data). rewrite !map_map. cbn [snd].
  intros Hcs.
  assert (Heq : concat (map (fun k => process_single_thread_cics (filter (fun r => Sample.tid r = k) df))
                        (Py.sort Z.ltb (Py.unique (map Sample.tid df)))) = cs).
  { revert Hcs. destruct (Py.sort Z.ltb (Py.unique (map Sample.tid df))); cbn; congruence. }
  rewrite <- Heq.
  rewrite (filter_concat_keys _ (fun k => process_single_thread_cics (filter (fun r => Sample.tid r = k) df))).
  - case_decide as Hth; [done|]. rewrite filter_none_nil; [reflexivity|].
    apply Forall_forall. intros r Hr <-. apply Hth.
    rewrite py_sort_perm, elem_of_py_unique. by apply list_elem_of_fmap_2.
  - rewrite py_sort_perm. apply NoDup_py_unique.
  - intros k c. apply process_single_thread_cics_tid. apply Forall_forall.
    intros r Hr. by apply list_elem_of_filter in Hr as [? _].
Qed.

(** The [i]-th CICP of any thread in the concatenated frame carries
    label [i]: the labels of different threads collide. *)
Lemma identify_labels data dof dir cs th i c :
  identify_consecutive_identical_call_stacks_parallel data dof dir = Some cs ->
  filter (fun x => Cicp.tid x = th) cs !! i = Some c -> Cicp.Index c = i.
Proof.
  intros Hcs. rewrite (identify_thread data dof dir cs th Hcs). apply process_single_thread_cics_labels.
Qed.

(** A thread of three samples: two in frame [a], then one in frame [b]. *)
Definition compress_sample (idx : nat) (ts : Z) (s : string) : Sample.t :=
  Sample.mk idx ts "app" 7 0 "cpu-clock" [] "" "" s.

Definition compress_thread : list Sample.t :=
  [compress_sample 0 0 "a"; compress_sample 1 1 "a"; compress_sample 2 2 "b"].

Lemma process_single_thread_cics_maximal_witness :
  exists c c', process_single_thread_cics compress_thread !! 0 = Some c /\
    process_single_thread_cics compress_thread !! 1 = Some c' /\
    Cicp.user_defined_indentical_call_stacks c <> Cicp.user_defined_indentical_call_stacks c'.
Proof.
  do 2 eexists. split; [reflexivity|]. split; [reflexivity|].
  apply (process_single_thread_cics_maximal compress_thread 0); reflexivity.
Defined.

Lemma process_single_thread_cics_separated_witness :
  Forall (fun c => (Cicp.ts_begin c <= Cicp.ts_end c)%Z) (process_single_thread_cics compress_thread) /\
  StronglySorted (fun c c' => (Cicp.ts_end c < Cicp.ts_begin c')%Z)
    (process_single_thread_cics compress_thread).
Proof.
  apply process_single_thread_cics_separated.
  repeat constructor; simpl; lia.
Defined.

End Compress.
