(* ===== verification/Sweep.v ===== *)
(** The scan-line partitioner [divide_TOCC_optimized]
    (src/filtering.py:5-72).

    Events are the tuples [(ts, event_type, cicp)] the code builds, with
    [event_type = 1] for a start and [-1] for an end, sorted by Python's
    tuple order: timestamp, then type (so an END sorts before a START at
    the same instant), then the row namedtuple field by field.  The sweep
    is a fold of [sweep_step] over the sorted events; its state is the
    three local variables of the loop.  [reachable] is the step relation's
    reachability, used for the invariants. *)

From S2P Require Import Prelude Frames.

Section Sweep.

Definition event : Type := Z * Z * Cicp.t.

Definition event_compare (e1 e2 : event) : comparison :=
  let '(ts1, ty1, c1) := e1 in
  let '(ts2, ty2, c2) := e2 in
  lex (Z.compare ts1 ts2) (lex (Z.compare ty1 ty2) (cicp_compare c1 c2)).

Definition event_lt (e1 e2 : event) : bool :=
  match event_compare e1 e2 with Lt => true | _ => false end.

(** [for cicp in df.itertuples(): events.append(...); events.append(...)]. *)
Definition build_events (df : list Cicp.t) : list event :=
  df ≫= (fun c => [(Cicp.ts_begin c, 1%Z, c); (Cicp.ts_end c, (-1)%Z, c)]).

Record sweep_state := mk_sweep {
  tocc_list : list (list Cicp.t);
  active_threads : gset Z;
  current_tocc_cicps : list Cicp.t
}.

Definition sweep_init : sweep_state := mk_sweep [] ∅ [].

(** One iteration of the loop body. *)
Definition sweep_step (df : list Cicp.t) (st : sweep_state) (e : event) : sweep_state :=
  let '(_, event_type, cicp) := e in
  if (event_type =? 1)%Z then
    let cur := if decide (active_threads st = ∅) then [] else current_tocc_cicps st in
    mk_sweep (tocc_list st) ({[Cicp.tid cicp]} ∪ active_threads st) (cur ++ [cicp])
  else
    let act := active_threads st ∖ {[Cicp.tid cicp]} in
    if decide (act = ∅) then
      let cur := current_tocc_cicps st in
      let tl := if 1 <? length cur
                then tocc_list st ++ [loc df (Cicp.Index <$> cur)]
                else tocc_list st in
      mk_sweep tl act []
    else mk_sweep (tocc_list st) act (current_tocc_cicps st).

Definition sweep (df : list Cicp.t) (events : list event) : sweep_state :=
  fold_left (sweep_step df) events sweep_init.

Definition divide_TOCC_optimized (df : list Cicp.t) : list (list Cicp.t) :=
  match df with
  | [] => []
  | _ =>
      let events := Py.sort event_lt (build_events df) in
      Py.sort_by_key_desc length (tocc_list (sweep df events))
  end.

(** Input frames for the scenarios: one CICP of two samples per row. *)
Definition scenario_cicp (idx : nat) (thread b e : Z) : Cicp.t :=
  Cicp.mk idx 1 [b; e] "cmd" thread [0; 0]%Z "cpu-clock" [] [] "" "f" 2 b e.

(** ** The step relation and its invariant *)

Inductive reachable (df : list Cicp.t) : sweep_state -> Prop :=
  | reachable_init : reachable df sweep_init
  | reachable_step st e : reachable df st -> e.2 ∈ df -> reachable df (sweep_step df st e).

(** What every reachable state satisfies: the accumulator only holds rows
    of the frame, it is empty whenever no thread is active, and every
    emitted TOCC has more than one row. *)
Definition sweep_inv (df : list Cicp.t) (st : sweep_state) : Prop :=
  Forall (fun c => c ∈ df) (current_tocc_cicps st) /\
  (active_threads st = ∅ -> current_tocc_cicps st = []) /\
  Forall (fun t => 1 < length t) (tocc_list st).

(** The emitted TOCCs are [df.loc] of the labels of a window of CICPs
    satisfying [P], and the accumulator holds such CICPs. *)
Definition windows_of (df : list Cicp.t) (P : Cicp.t -> Prop) (st : sweep_state) : Prop :=
  Forall P (current_tocc_cicps st) /\
  Forall (fun t => exists w, Forall P w /\ t = loc df (Cicp.Index <$> w)) (tocc_list st).

(** The order of the first two tuple fields, timestamp then event type,
    which the sorted event list never decreases. *)
Definition ev_key_le (e1 e2 : event) : Prop :=
  (e1.1.1 < e2.1.1)%Z \/ (e1.1.1 = e2.1.1 /\ (e1.1.2 <= e2.1.2)%Z).


Lemma sweep_inv_step df st e : sweep_inv df st -> e.2 ∈ df -> sweep_inv df (sweep_step df st e).
Proof.
  destruct e as [[ts ty] c]; simpl. intros (Hcur & Hemp & Htl) Hc.
  destruct (Z.eqb_spec ty 1).
  - repeat split; simpl.
    + apply Forall_app; split; [|by constructor].
      case_decide; [constructor|done].
    + set_solver.
    + done.
  - case_decide as Hact; repeat split; simpl; try done.
    destruct (Nat.ltb_spec 1 (length (current_tocc_cicps st))); [|done].
    apply Forall_app; split; [done|]. constructor; [|done].
    pose proof (length_loc_ge df _ Hcur). lia.
Qed.

Lemma reachable_inv df st : reachable df st -> sweep_inv df st.
Proof.
  induction 1; [repeat split; done|]. by apply sweep_inv_step.
Qed.

Lemma reachable_fold df events st :
  reachable df st -> Forall (fun e => e.2 ∈ df) events ->
  reachable df (fold_left (sweep_step df) events st).
Proof.
  intros Hst He. revert st Hst. induction He as [|e events He _ IH]; intros st Hst; [done|].
  apply IH. by constructor.
Qed.

Lemma build_events_in df : Forall (fun e => e.2 ∈ df) (build_events df).
Proof.
  apply Forall_forall. intros e He. unfold build_events in He.
  apply list_elem_of_bind in He as (c & He & Hc).
  rewrite !elem_of_cons, elem_of_nil in He. by destruct He as [->|[->|[]]].
Qed.

Lemma sweep_reachable df : reachable df (sweep df (Py.sort event_lt (build_events df))).
Proof.
  apply reachable_fold; [constructor|]. apply Forall_py_sort, build_events_in.
Qed.

(** ** Properties of the partitioner *)

(** C2: the step relation preserves the sweep invariant: every state
    reachable from the initial one by loop iterations on rows of the
    frame keeps only rows of the frame in its accumulator, has an empty
    accumulator whenever no thread is active, and has only emitted TOCCs
    with more than one row. *)
Theorem sweep_invariant df st : reachable df st -> sweep_inv df st.
Proof. apply reachable_inv. Qed.

Lemma sweep_invariant_witness :
  sweep_inv [scenario_cicp 0 1 0 3]
    (sweep_step [scenario_cicp 0 1 0 3] sweep_init (0%Z, 1%Z, scenario_cicp 0 1 0 3)).
Proof.
  apply sweep_invariant. constructor; [constructor|]. simpl. set_solver.
Defined.

(** C1: every TOCC returned by [divide_TOCC_optimized] has at least two
    rows (single-CICP windows are discarded). *)
Theorem divide_TOCC_optimized_nontrivial df t :
  t ∈ divide_TOCC_optimized df -> 2 <= length t.
Proof.
  unfold divide_TOCC_optimized. destruct df as [|c df']; [set_solver|].
  intros Ht. unfold Py.sort_by_key_desc in Ht. rewrite py_sort_perm in Ht.
  destruct (reachable_inv _ _ (sweep_reachable (c :: df'))) as (_ & _ & Htl).
  rewrite Forall_forall in Htl. specialize (Htl t Ht). lia.
Qed.

Lemma divide_TOCC_optimized_nontrivial_witness :
  2 <= length [scenario_cicp 0 1 0 3; scenario_cicp 1 2 2 5].
Proof.
  apply (divide_TOCC_optimized_nontrivial
           [scenario_cicp 0 1 0 3; scenario_cicp 1 2 2 5; scenario_cicp 2 3 10 12]).
  vm_compute. left.
Defined.

(** ** The windows behind the TOCCs *)

Lemma windows_step df (P : Cicp.t -> Prop) st e :
  windows_of df P st -> (e.1.2 = 1%Z -> P e.2) -> windows_of df P (sweep_step df st e).
Proof.
  destruct e as [[ts ty] c]; cbn [fst snd]. intros [Hcur Htl] HP. simpl.
  destruct (Z.eqb_spec ty 1) as [->|Hty].
  - split; [|done]. apply Forall_app. split; [case_decide; [constructor|done]|].
    constructor; [by apply HP|constructor].
  - case_decide; split; cbn [current_tocc_cicps tocc_list]; try done.
    destruct (1 <? length _); [|done]. apply Forall_app. split; [done|].
    constructor; [|constructor]. by exists (current_tocc_cicps st).
Qed.

Lemma windows_fold df (P : Cicp.t -> Prop) evs st :
  windows_of df P st -> Forall (fun e => e.1.2 = 1%Z -> P e.2) evs ->
  windows_of df P (fold_left (sweep_step df) evs st).
Proof.
  intros Hst He. revert st Hst. induction He as [|e evs He _ IH]; intros st Hst; [done|].
  apply IH. by apply windows_step.
Qed.

Lemma windows_init df (P : Cicp.t -> Prop) : windows_of df P sweep_init.
Proof. split; constructor. Qed.

(** Every TOCC is [df.loc] of the labels of a window of rows of [df]. *)
Lemma divide_TOCC_optimized_windows df t :
  t ∈ divide_TOCC_optimized df ->
  exists w, Forall (fun c => c ∈ df) w /\ t = loc df (Cicp.Index <$> w).
Proof.
  unfold divide_TOCC_optimized. destruct df as [|c df']; [set_solver|].
  intros Ht. unfold Py.sort_by_key_desc in Ht. rewrite py_sort_perm in Ht.
  destruct (windows_fold (c :: df') (fun x => x ∈ c :: df') (Py.sort event_lt (build_events (c :: df')))
              sweep_init (windows_init _ _)) as [_ Htl].
  { apply Forall_py_sort. eapply Forall_impl; [apply build_events_in|]. auto. }
  rewrite Forall_forall in Htl. exact (Htl t Ht).
Qed.

(** The shape of an event: the START or the END of a row of the frame. *)
Lemma build_events_shape df e :
  e ∈ build_events df ->
  exists c, c ∈ df /\ (e = (Cicp.ts_begin c, 1%Z, c) \/ e = (Cicp.ts_end c, (-1)%Z, c)).
Proof.
  unfold build_events. rewrite list_elem_of_bind. intros (c & He & Hc). exists c.
  split; [done|]. rewrite !elem_of_cons, elem_of_nil in He. tauto.
Qed.

Lemma event_compare_antisym e1 e2 : event_compare e1 e2 = CompOpp (event_compare e2 e1).
Proof.
  destruct e1 as [[t1 y1] c1], e2 as [[t2 y2] c2]. unfold event_compare.
  apply lex_antisym; [apply Z.compare_antisym|].
  apply lex_antisym; [apply Z.compare_antisym|apply cicp_compare_antisym].
Qed.

Lemma event_lt_asym a b : event_lt a b = true -> event_lt b a = false.
Proof. unfold event_lt. rewrite (event_compare_antisym b a). by destruct (event_compare a b). Qed.

(** Python's sort leaves the events by timestamp, then type. *)
Lemma event_not_lt_key a b : event_lt b a = false -> ev_key_le a b.
Proof.
  destruct a as [[ta ya] ca], b as [[tb yb] cb]. unfold event_lt, event_compare, ev_key_le; cbn [fst snd].
  destruct (Z.compare_spec tb ta) as [->|Hlt|Hgt]; cbn [lex]; [|discriminate|lia].
  destruct (Z.compare_spec yb ya); cbn [lex]; [lia|discriminate|lia].
Qed.

#[local] Instance ev_key_le_trans : Transitive ev_key_le.
Proof. intros a b c; unfold ev_key_le; lia. Qed.

Lemma sorted_events_key df : StronglySorted ev_key_le (Py.sort event_lt (build_events df)).
Proof.
  apply Sorted_StronglySorted; [exact ev_key_le_trans|].
  eapply Sorted_impl; [|apply py_sort_sorted, event_lt_asym].
  intros a b. apply event_not_lt_key.
Qed.

(** A thread that no later END removes stays active, and no window
    closes: the emitted TOCCs stay as they are. *)
Lemma active_persists df th evs st :
  th ∈ active_threads st ->
  Forall (fun e => e.1.2 = 1%Z \/ Cicp.tid e.2 <> th) evs ->
  tocc_list (fold_left (sweep_step df) evs st) = tocc_list st.
Proof.
  intros Hth He. revert st Hth. induction He as [|[[ts ty] c] evs He _ IH]; intros st Hth; [done|].
  cbn [fold_left]. rewrite IH; cbn [fst snd] in He; unfold sweep_step.
  - destruct (Z.eqb_spec ty 1); [done|]. rewrite decide_False by set_solver. done.
  - destruct (Z.eqb_spec ty 1); cbn [active_threads]; [set_solver|].
    destruct He as [|Hc]; [done|]. case_decide; cbn [active_threads]; set_solver.
Qed.

(** A CICP [c] whose thread has no CICP ending after [c] starts: from
    the START of [c] on, its thread stays active, so every emitted TOCC
    comes from a window of CICPs that start no later than [c]. *)
Lemma zero_length_windows df c :
  c ∈ df ->
  (forall c', c' ∈ df -> Cicp.tid c' = Cicp.tid c -> (Cicp.ts_end c' <= Cicp.ts_begin c)%Z) ->
  Forall (fun t => exists w, Forall (fun c' => c' ∈ df /\ (Cicp.ts_begin c' <= Cicp.ts_begin c)%Z) w /\
                             t = loc df (Cicp.Index <$> w))
    (tocc_list (sweep df (Py.sort event_lt (build_events df)))).
Proof.
  intros Hc Hlast. set (s := (Cicp.ts_begin c, 1%Z, c)).
  assert (Hs : s ∈ Py.sort event_lt (build_events df)).
  { rewrite py_sort_perm. unfold build_events. apply list_elem_of_bind. exists c. split; [left|done]. }
  pose proof (sorted_events_key df) as Hsort.
  apply list_elem_of_split in Hs as (l1 & l2 & Hsplit). rewrite Hsplit in Hsort.
  assert (Hin : forall e, e ∈ l1 ++ s :: l2 -> e ∈ build_events df).
  { intros e He. rewrite <- (py_sort_perm event_lt (build_events df)), Hsplit. done. }
  unfold sweep. rewrite Hsplit, fold_left_app. cbn [fold_left].
  rewrite (active_persists df (Cicp.tid c)).
  - destruct (windows_fold df (fun c' => c' ∈ df /\ (Cicp.ts_begin c' <= Cicp.ts_begin c)%Z)
                (l1 ++ [s]) sweep_init (windows_init _ _)) as [_ Htl].
    + apply Forall_forall. intros e He Hty.
      destruct (build_events_shape df e) as (c' & Hc' & [->| ->]); [apply Hin; set_solver| |done].
      split; [done|]. apply elem_of_app in He as [He|He%list_elem_of_singleton].
      * pose proof (StronglySorted_app_1_elem_of _ _ _ _ _ Hsort He (list_elem_of_here s l2)) as Hk.
        unfold ev_key_le, s in Hk; cbn in Hk |- *. lia.
      * unfold s in He. injection He as Hts _. cbn. lia.
    + by rewrite fold_left_app in Htl.
  - unfold sweep_step, s. cbn. set_solver.
  - apply StronglySorted_app_1_r, StronglySorted_cons in Hsort as [Hs2 _].
    apply Forall_forall. intros e He.
    destruct (build_events_shape df e) as (c' & Hc' & [->| ->]); [apply Hin; set_solver|by left|right].
    cbn. intros Htid. pose proof (Hlast c' Hc' Htid).
    rewrite Forall_forall in Hs2. specialize (Hs2 _ He). unfold ev_key_le, s in Hs2; cbn in Hs2. lia.
Qed.

(** C3: [df.loc] returns every row carrying a requested label: a TOCC
    that holds a row labelled [l] holds every row of the frame labelled
    [l], also rows of CICPs outside the window, when the frame's labels
    repeat (as they do after [pd.concat] of the per-thread frames). *)
Theorem divide_TOCC_optimized_loc_closed df t c c' :
  t ∈ divide_TOCC_optimized df -> c ∈ t -> c' ∈ df -> Cicp.Index c' = Cicp.Index c -> c' ∈ t.
Proof.
  intros Ht Hc Hc' Hl. destruct (divide_TOCC_optimized_windows df t Ht) as (w & _ & ->).
  rewrite elem_of_loc in Hc |- *. destruct Hc as [_ Hc]. split; [done|]. by rewrite Hl.
Qed.

Lemma divide_TOCC_optimized_loc_closed_witness :
  scenario_cicp 0 3 10 12 ∈
    [scenario_cicp 0 1 0 3; scenario_cicp 0 2 2 5; scenario_cicp 0 3 10 12;
     scenario_cicp 0 1 0 3; scenario_cicp 0 2 2 5; scenario_cicp 0 3 10 12].
Proof.
  apply (divide_TOCC_optimized_loc_closed
           [scenario_cicp 0 1 0 3; scenario_cicp 0 2 2 5; scenario_cicp 0 3 10 12] _
           (scenario_cicp 0 1 0 3)).
  - vm_compute. left.
  - left.
  - right. right. left.
  - reflexivity.
Defined.

(** C5: an END sorts before a START at the same timestamp, so a CICP [c]
    of one instant ([ts_begin = ts_end]) has its END processed before
    its START.  When no CICP of its thread ends after [c] starts (applied
    to [c] itself, [c] lasts one instant), its thread stays in the
    active set for the rest of the sweep and no later window closes:
    every TOCC returned is built from CICPs that start no later than
    [c], and the windows after [c] are lost. *)
Theorem divide_TOCC_optimized_zero_length df c :
  c ∈ df ->
  (forall c', c' ∈ df -> Cicp.tid c' = Cicp.tid c -> (Cicp.ts_end c' <= Cicp.ts_begin c)%Z) ->
  forall t, t ∈ divide_TOCC_optimized df ->
  exists w, t = loc df (Cicp.Index <$> w) /\
            Forall (fun c' => c' ∈ df /\ (Cicp.ts_begin c' <= Cicp.ts_begin c)%Z) w.
Proof.
  intros Hc Hlast t. unfold divide_TOCC_optimized. destruct df as [|c0 df']; [set_solver|].
  unfold Py.sort_by_key_desc. rewrite py_sort_perm. intros Ht.
  pose proof (zero_length_windows _ _ Hc Hlast) as Hw. rewrite Forall_forall in Hw.
  destruct (Hw t Ht) as (w & Hw' & ->). by exists w.
Qed.

(** T1 and T2 overlap on [0,5]; T3 has one sample at 8; T4 and T5
    overlap on [10,13].  The TOCC {T1, T2} is returned, built from CICPs
    that start before 8; {T4, T5} is lost. *)
Lemma divide_TOCC_optimized_zero_length_witness :
  exists w, [scenario_cicp 0 1 0 3; scenario_cicp 1 2 2 5] =
    loc [scenario_cicp 0 1 0 3; scenario_cicp 1 2 2 5; scenario_cicp 2 3 8 8;
         scenario_cicp 3 4 10 12; scenario_cicp 4 5 11 13] (Cicp.Index <$> w) /\
    Forall (fun c' => c' ∈ [scenario_cicp 0 1 0 3; scenario_cicp 1 2 2 5; scenario_cicp 2 3 8 8;
                           scenario_cicp 3 4 10 12; scenario_cicp 4 5 11 13] /\
                      (Cicp.ts_begin c' <= Cicp.ts_begin (scenario_cicp 2 3 8 8))%Z) w.
Proof.
  apply (divide_TOCC_optimized_zero_length _ (scenario_cicp 2 3 8 8)).
  - right. right. left.
  - intros c' Hc' Htid. apply list_elem_of_In in Hc'.
    repeat destruct Hc' as [<-|Hc']; cbn in *; try lia.
  - vm_compute. left.
Defined.

(** Scenario A of the spec on a frame with distinct labels: T1 on
    [0,3] and T2 on [2,5] form one TOCC; T3 on [10,12] alone is dropped. *)
Theorem divide_TOCC_optimized_scenario_A :
  divide_TOCC_optimized [scenario_cicp 0 1 0 3; scenario_cicp 1 2 2 5; scenario_cicp 2 3 10 12]
  = [[scenario_cicp 0 1 0 3; scenario_cicp 1 2 2 5]].
Proof. vm_compute. reflexivity. Qed.

(** Scenario B: three threads nested around one instant form exactly
    one TOCC with all three CICPs. *)
Theorem divide_TOCC_optimized_scenario_B :
  divide_TOCC_optimized [scenario_cicp 0 1 0 5; scenario_cicp 1 2 1 4; scenario_cicp 2 3 2 3]
  = [[scenario_cicp 0 1 0 5; scenario_cicp 1 2 1 4; scenario_cicp 2 3 2 3]].
Proof. vm_compute. reflexivity. Qed.

(** Scenario D: a thread contributing two back-to-back CICPs inside a
    window of another thread does not close the window early. *)
Theorem divide_TOCC_optimized_scenario_D :
  divide_TOCC_optimized [scenario_cicp 0 1 0 10; scenario_cicp 1 2 1 3; scenario_cicp 2 2 4 6]
  = [[scenario_cicp 0 1 0 10; scenario_cicp 1 2 1 3; scenario_cicp 2 2 4 6]].
Proof. vm_compute. reflexivity. Qed.

(** An END sorts before a START at the same timestamp ([-1 < 1]), so
    two CICPs of different threads that only share an endpoint are not
    merged into a TOCC. *)
Theorem divide_TOCC_optimized_touching :
  divide_TOCC_optimized [scenario_cicp 0 1 0 3; scenario_cicp 1 2 3 5] = [].
Proof. vm_compute. reflexivity. Qed.

(** The emptiness test counts CICPs, not threads: a thread whose
    first CICP has [ts_begin = ts_end] stays active until its next CICP
    ends, and the two CICPs of that one thread are reported as a TOCC,
    although the spec (section 8) requires at least two distinct
    threads. *)
Theorem divide_TOCC_optimized_single_thread :
  divide_TOCC_optimized [scenario_cicp 0 1 5 5; scenario_cicp 1 1 6 8]
  = [[scenario_cicp 0 1 5 5; scenario_cicp 1 1 6 8]].
Proof. vm_compute. reflexivity. Qed.

End Sweep.
