(* ===== verification/Filter.v ===== *)
(** The quality filter [filtering_operation] (src/filtering.py:226-239):
    drop CICPs of a single sample, then drop the rows whose command
    contains an ignored name ([str.contains] with the literal pattern
    ["swapper"]).  The theorems characterise the survivors exactly and
    show that the filter keeps the frame order. *)

From S2P Require Import Prelude Frames.

Section Filter.

Definition threshold_duration_length : nat := 1.

Definition useless_command_list : list string := ["swapper"%string].

Definition filtering_operation (df : list Cicp.t) : list Cicp.t :=
  fold_left (fun df command => filter (fun c => Py.contains command (Cicp.command c) = false) df)
    useless_command_list
    (filter (fun c => threshold_duration_length < Cicp.duration_length c) df).

(** C10: a row survives the filter exactly when it is a row of the frame,
    it merges at least two samples, and its command does not contain
    ["swapper"]. *)
Theorem filtering_operation_spec df c :
  c ∈ filtering_operation df <->
  c ∈ df /\ 2 <= Cicp.duration_length c /\ Py.contains "swapper" (Cicp.command c) = false.
Proof.
  unfold filtering_operation, threshold_duration_length. simpl.
  rewrite !list_elem_of_filter. split; intros; destruct_and!; repeat split; auto; lia.
Qed.

(** The filter is a pure selection: the survivors are a sub-list of the
    frame, in frame order. *)
Theorem filtering_operation_sublist df : sublist (filtering_operation df) df.
Proof.
  unfold filtering_operation. simpl.
  etrans; [apply sublist_filter|]. apply sublist_filter.
Qed.

End Filter.
