(* ===== verification/Mode.v ===== *)
(** The execution-mode classifier: [judge_execution_mode] and
    [distinguish_execution_mode] (src/filtering.py:293-345).

    The code takes the address token of the innermost frame
    ([call_stack[-1].split(" ")[0]]) and compares it with string bounds,
    lexicographically, against ["ffffffff80000000"]..["ffffffffffffffff"]
    when it has more than 10 characters and ["c0000000"]..["xffffffff"]
    otherwise.  The spec (4.5) asks for a numeric comparison of the
    hexadecimal value; [kernel_address_numeric] states that contract.
    The theorems show that the two agree on lowercase addresses of 8 or
    16 digits (the widths perf prints) and give inputs where they do not. *)

From S2P Require Import Prelude Frames.

Section Mode.

Local Open Scope string_scope.

(** Kernel mode is 0, user mode 1, as in the code. *)
Definition address_mode (function_address : string) : Z :=
  if (10 <? String.length function_address)%nat then
    if Py.str_le "ffffffff80000000" function_address &&
       Py.str_le function_address "ffffffffffffffff" then 0%Z else 1%Z
  else
    if Py.str_le "c0000000" function_address &&
       Py.str_le function_address "xffffffff" then 0%Z else 1%Z.

(** [None] is the [IndexError] of [call_stack[-1]] on an empty stack. *)
Definition judge_execution_mode (call_stack : list string) : option Z :=
  match Py.last_elem call_stack with
  | None => None
  | Some top_function =>
      let function_address := default "" (head (Py.split_on " "%char top_function)) in
      Some (address_mode function_address)
  end.

(** Each TOCC becomes its pair [[kernel rows, user rows]]; the [apply]
    fails as a whole if one row has an empty stack. *)
Definition distinguish_execution_mode (df_list : list (list Cicp.t))
  : option (list (list Cicp.t * list Cicp.t)) :=
  mapM (fun each_df =>
          if decide (Forall (fun c => is_Some (judge_execution_mode (Cicp.call_stack c))) each_df)
          then Some (filter (fun c => judge_execution_mode (Cicp.call_stack c) = Some 0%Z) each_df,
                     filter (fun c => judge_execution_mode (Cicp.call_stack c) = Some 1%Z) each_df)
          else None) df_list.

(** ** The numeric contract of the spec *)

Definition hex_digit (c : Ascii.ascii) : option Z :=
  let n := Z.of_nat (Ascii.nat_of_ascii c) in
  if ((48 <=? n) && (n <=? 57))%Z then Some (n - 48)%Z
  else if ((97 <=? n) && (n <=? 102))%Z then Some (n - 87)%Z
  else if ((65 <=? n) && (n <=? 70))%Z then Some (n - 55)%Z
  else None.

Fixpoint hex_value_aux (acc : Z) (s : string) : option Z :=
  match s with
  | EmptyString => Some acc
  | String c s' => d ← hex_digit c; hex_value_aux (acc * 16 + d)%Z s'
  end.

Definition hex_value (s : string) : option Z := hex_value_aux 0 s.

(** Kernel iff the value is in the kernel range of its width (more than
    10 hex digits: 64-bit). *)
Definition kernel_address_numeric (addr : string) : option bool :=
  v ← hex_value addr;
  Some (if (10 <? String.length addr)%nat
        then (0xffffffff80000000 <=? v)%Z && (v <=? 0xffffffffffffffff)%Z
        else (0xc0000000 <=? v)%Z && (v <=? 0xffffffff)%Z).

(** ** Lowercase hexadecimal strings: lexicographic order is numeric order *)

Definition is_lhex (c : Ascii.ascii) : bool :=
  let n := Ascii.nat_of_ascii c in ((48 <=? n) && (n <=? 57) || (97 <=? n) && (n <=? 102))%nat.

Fixpoint all_lhex (s : string) : bool :=
  match s with EmptyString => true | String c s' => is_lhex c && all_lhex s' end.

Definition dval (c : Ascii.ascii) : Z :=
  let n := Z.of_nat (Ascii.nat_of_ascii c) in if (n <=? 57)%Z then (n - 48)%Z else (n - 87)%Z.

(** Big-endian value of a digit string. *)
Fixpoint hval (s : string) : Z :=
  match s with
  | EmptyString => 0%Z
  | String c s' => (dval c * 16 ^ Z.of_nat (String.length s') + hval s')%Z
  end.

Lemma code_bound (c : Ascii.ascii) : (Ascii.nat_of_ascii c < 256)%nat.
Proof. apply Ascii.nat_ascii_bounded. Qed.

Lemma is_lhex_digit c : is_lhex c = true -> hex_digit c = Some (dval c) /\ (0 <= dval c < 16)%Z.
Proof.
  unfold is_lhex, hex_digit, dval. intros H.
  apply orb_true_iff in H as [H|H]; apply andb_true_iff in H as [H1 H2];
    apply Nat.leb_le in H1, H2;
    repeat match goal with |- context [Z.leb ?a ?b] => destruct (Z.leb_spec a b) end;
    simpl; split; try lia; try reflexivity; f_equal; lia.
Qed.

Lemma hex_value_aux_lhex s acc :
  all_lhex s = true -> hex_value_aux acc s = Some (acc * 16 ^ Z.of_nat (String.length s) + hval s)%Z.
Proof.
  revert acc. induction s as [|c s IH]; intros acc H; simpl in *; [f_equal; lia|].
  apply andb_true_iff in H as [Hc Hs]. destruct (is_lhex_digit c Hc) as [-> _]. simpl.
  rewrite IH by done. f_equal. rewrite Nat2Z.inj_succ, Z.pow_succ_r by lia. ring.
Qed.

Lemma hval_bound s : all_lhex s = true -> (0 <= hval s < 16 ^ Z.of_nat (String.length s))%Z.
Proof.
  induction s as [|c s IH]; intros H; simpl in *; [lia|].
  apply andb_true_iff in H as [Hc Hs]. destruct (is_lhex_digit c Hc) as [_ Hd].
  specialize (IH Hs). rewrite Nat2Z.inj_succ, Z.pow_succ_r by lia. nia.
Qed.

Lemma ascii_compare_lhex c1 c2 :
  is_lhex c1 = true -> is_lhex c2 = true -> Ascii.compare c1 c2 = Z.compare (dval c1) (dval c2).
Proof.
  unfold Ascii.compare, is_lhex, dval, Ascii.nat_of_ascii. intros H1 H2.
  rewrite N2Nat.inj_compare.
  generalize dependent (N.to_nat (Ascii.N_of_ascii c1)). intros n1 H1.
  generalize dependent (N.to_nat (Ascii.N_of_ascii c2)). intros n2 H2.
  apply orb_true_iff in H1 as [H1|H1]; apply andb_true_iff in H1 as [H1 H1'];
  apply orb_true_iff in H2 as [H2|H2]; apply andb_true_iff in H2 as [H2 H2'];
  apply Nat.leb_le in H1, H1', H2, H2';
  repeat match goal with |- context [Z.leb ?a ?b] => destruct (Z.leb_spec a b) end;
  compare_lia.
Qed.

Lemma string_compare_lhex a b :
  all_lhex a = true -> all_lhex b = true -> String.length a = String.length b ->
  String.compare a b = Z.compare (hval a) (hval b).
Proof.
  revert b. induction a as [|c1 a IH]; intros [|c2 b] Ha Hb Hl; simpl in *; try done.
  apply andb_true_iff in Ha as [Hc1 Ha], Hb as [Hc2 Hb]. injection Hl as Hl.
  rewrite ascii_compare_lhex by done. rewrite Hl.
  destruct (is_lhex_digit c1 Hc1) as [_ Hd1], (is_lhex_digit c2 Hc2) as [_ Hd2].
  pose proof (hval_bound a Ha) as Ba. pose proof (hval_bound b Hb) as Bb. rewrite Hl in Ba.
  set (P := (16 ^ Z.of_nat (String.length b))%Z) in *.
  destruct (Z.compare_spec (dval c1) (dval c2)) as [E|E|E].
  - rewrite IH by done. rewrite E. compare_lia.
  - symmetry. apply Z.compare_lt_iff. nia.
  - symmetry. apply Z.compare_gt_iff. nia.
Qed.

Lemma str_le_lhex a b :
  all_lhex a = true -> all_lhex b = true -> String.length a = String.length b ->
  Py.str_le a b = (hval a <=? hval b)%Z.
Proof.
  intros Ha Hb Hl. unfold Py.str_le, Py.str_lt. rewrite string_compare_lhex by auto.
  destruct (Z.compare_spec (hval b) (hval a)); destruct (Z.leb_spec (hval a) (hval b)); simpl; lia.
Qed.

(** Every lowercase hex string of positive length sorts below ["xffffffff"]. *)
Lemma str_le_below_x a : all_lhex a = true -> a <> EmptyString -> Py.str_le a "xffffffff" = true.
Proof.
  destruct a as [|c a]; [done|]. intros Ha _. simpl in Ha. apply andb_true_iff in Ha as [Hc _].
  unfold Py.str_le, Py.str_lt. simpl.
  assert (Ascii.compare "x" c = Gt) as ->; [|done].
  unfold is_lhex, Ascii.nat_of_ascii in Hc. unfold Ascii.compare. rewrite N2Nat.inj_compare.
  change (N.to_nat (Ascii.N_of_ascii "x"%char)) with 120%nat.
  generalize dependent (N.to_nat (Ascii.N_of_ascii c)). intros n Hn.
  apply orb_true_iff in Hn as [Hn|Hn]; apply andb_true_iff in Hn as [_ Hn];
    apply Nat.leb_le in Hn; compare_lia.
Qed.

(** C11: on lowercase hexadecimal addresses of 16 digits (64-bit) or 8
    digits (32-bit), the string comparisons of [judge_execution_mode] give
    exactly the numeric kernel-range classification the spec requires. *)
Theorem address_mode_agrees a :
  all_lhex a = true -> String.length a = 16%nat \/ String.length a = 8%nat ->
  kernel_address_numeric a = Some (bool_decide (address_mode a = 0%Z)).
Proof.
  intros Ha Hl. unfold kernel_address_numeric, hex_value.
  rewrite hex_value_aux_lhex by done. simpl.
  pose proof (hval_bound a Ha) as Hb. unfold address_mode.
  destruct Hl as [Hl|Hl]; rewrite Hl in *; simpl.
  - rewrite (str_le_lhex "ffffffff80000000" a), (str_le_lhex a "ffffffffffffffff") by (done || by rewrite Hl).
    replace (hval "ffffffff80000000") with 0xffffffff80000000%Z by reflexivity.
    replace (hval "ffffffffffffffff") with 0xffffffffffffffff%Z by reflexivity.
    simpl in Hb. f_equal.
    destruct (Z.leb_spec 0xffffffff80000000 (hval a)), (Z.leb_spec (hval a) 0xffffffffffffffff);
      simpl; rewrite ?bool_decide_eq_true_2, ?bool_decide_eq_false_2 by done; try done; lia.
  - rewrite (str_le_lhex "c0000000" a) by (done || by rewrite Hl).
    rewrite str_le_below_x by (done || (intros ->; discriminate)).
    replace (hval "c0000000") with 0xc0000000%Z by reflexivity.
    simpl in Hb. f_equal.
    destruct (Z.leb_spec 0xc0000000 (hval a)), (Z.leb_spec (hval a) 0xffffffff);
      simpl; rewrite ?bool_decide_eq_true_2, ?bool_decide_eq_false_2 by done; try done; lia.
Qed.

Lemma address_mode_agrees_witness :
  kernel_address_numeric "ffffffff81000000" =
  Some (bool_decide (address_mode "ffffffff81000000" = 0%Z)).
Proof. apply address_mode_agrees; [reflexivity|left; reflexivity]. Defined.

(** Outside those widths the string comparison diverges from the
    numeric contract: a 12-digit user-space address ["ffffffff9000"] is
    classified kernel, an uppercase kernel address is classified user,
    and the one-digit address ["d"] is classified kernel. *)
Theorem address_mode_diverges :
  (address_mode "ffffffff9000" = 0%Z /\ kernel_address_numeric "ffffffff9000" = Some false) /\
  (address_mode "FFFFFFFF81000000" = 1%Z /\ kernel_address_numeric "FFFFFFFF81000000" = Some true) /\
  (address_mode "d" = 0%Z /\ kernel_address_numeric "d" = Some false).
Proof. vm_compute. tauto. Qed.

(** Every frame stack that is not empty gets a mode, and the mode is
    kernel (0) or user (1); an empty stack is the [IndexError] of
    [call_stack[-1]]. *)
Theorem judge_execution_mode_total call_stack :
  (call_stack = [] -> judge_execution_mode call_stack = None) /\
  (call_stack <> [] -> exists m, judge_execution_mode call_stack = Some m /\ (m = 0 \/ m = 1)%Z).
Proof.
  unfold judge_execution_mode, Py.last_elem. split.
  - by intros ->.
  - intros Hne. destruct (last call_stack) eqn:E; [|by apply last_None in E].
    eexists; split; [reflexivity|]. unfold address_mode.
    repeat case_match; auto.
Qed.

End Mode.
