(* ===== verification/FastLoader.v ===== *)
(** The streaming loader [DataPreparation.data_loading_optimized]
    (src/timing.py:69-141): the generator [record_generator] and the
    compiled header expression

      ^(?P<command>.+?)\s+(?P<tid>\d+)\s+\[(?P<cpu>\d+)\]\s+(?P<timestamp>[\d\.]+):\s+.*

    The pattern after the lazy [command] group is deterministic (each
    quantified class is disjoint from what follows it), so [tail_match]
    reads it greedily; [lazy_command] tries the command lengths 1, 2, ...
    in order, as [.+?] does, never crossing a newline ([.] does not match
    one).  The generator's two variables [call_stack] and [current_record]
    are the state [gstate]; [current_record = {}] is [None]. *)

From S2P Require Import Prelude PyText Frames Loader Mode.

Local Open Scope string_scope.

Module FastLoader.

Import Loader.

Definition is_lf (c : Ascii.ascii) : bool := Ascii.eqb c "010".
Definition is_ts_char (c : Ascii.ascii) : bool := Py.is_digit c || Ascii.eqb c ".".

(** [X+] for a character class [X], greedy: the longest non-empty prefix. *)
Fixpoint span (p : Ascii.ascii -> bool) (l : list Ascii.ascii) : list Ascii.ascii * list Ascii.ascii :=
  match l with
  | c :: l' => if p c then let '(a, b) := span p l' in (c :: a, b) else ([], l)
  | [] => ([], [])
  end.

Definition plus (p : Ascii.ascii -> bool) (l : list Ascii.ascii)
  : option (list Ascii.ascii * list Ascii.ascii) :=
  match span p l with
  | ([], _) => None
  | r => Some r
  end.

Definition lit (c : Ascii.ascii) (l : list Ascii.ascii) : option (list Ascii.ascii) :=
  match l with
  | d :: l' => if Ascii.eqb c d then Some l' else None
  | [] => None
  end.

(** [\s+(?P<tid>\d+)\s+\[(?P<cpu>\d+)\]\s+(?P<timestamp>[\d\.]+):\s+.*]
    after the command: the groups [tid], [cpu], [timestamp]. *)
Definition tail_match (l : list Ascii.ascii) : option (string * string * string) :=
  '(_, l) ← plus Py.is_space l;
  '(tid, l) ← plus Py.is_digit l;
  '(_, l) ← plus Py.is_space l;
  l ← lit "[" l;
  '(cpu, l) ← plus Py.is_digit l;
  l ← lit "]" l;
  '(_, l) ← plus Py.is_space l;
  '(ts, l) ← plus is_ts_char l;
  l ← lit ":" l;
  '(_, _) ← plus Py.is_space l;
  Some (String.string_of_list_ascii tid, String.string_of_list_ascii cpu,
        String.string_of_list_ascii ts).

(** [(?P<command>.+?)] followed by the tail: the shortest command that
    lets the tail match. *)
Fixpoint lazy_command (acc : list Ascii.ascii) (l : list Ascii.ascii)
  : option (string * (string * string * string)) :=
  match l with
  | [] => None
  | c :: l' =>
      if is_lf c then None
      else match tail_match l' with
           | Some groups => Some (String.string_of_list_ascii (acc ++ [c]), groups)
           | None => lazy_command (acc ++ [c]) l'
           end
  end.

(** [match.groupdict()] with [event] added: a record without its stack. *)
Record header := mk_header {
  h_command : string;
  h_tid : string;
  h_cpu : string;
  h_timestamp : string;
  h_event : string
}.

Definition header_regex_match (line : string) : option header :=
  '(command, (tid, cpu, ts)) ← lazy_command [] (chars line);
  Some (mk_header command tid cpu ts
          (Py.strip (default "" (Py.index (Py.split_on ":" line) (-1))))).

Record gstate := mk_gstate {
  g_call_stack : list string;
  current_record : option header;
  yielded : list raw
}.

Definition gstate_init : gstate := mk_gstate [] None [].

Definition emit (h : header) (call_stack : list string) : raw :=
  mk_raw (h_timestamp h) (h_command h) (h_tid h) (h_cpu h) (h_event h) call_stack.

(** [if current_record and call_stack: ... yield current_record]. *)
Definition flush (st : gstate) : list raw :=
  match current_record st, g_call_stack st with
  | Some h, _ :: _ => yielded st ++ [emit h (g_call_stack st)]
  | _, _ => yielded st
  end.

(** One iteration of [for line in f]. *)
Definition gen_line (st : gstate) (line : string) : gstate :=
  if String.prefix "#" line then st
  else if String.prefix (String "009" "") line || String.prefix "  " line then
    mk_gstate (g_call_stack st ++ [Py.strip line]) (current_record st) (yielded st)
  else if String.eqb (Py.strip line) "" then
    mk_gstate [] None (flush st)
  else
    match header_regex_match line with
    | Some h => mk_gstate (g_call_stack st) (Some h) (yielded st)
    | None => st
    end.

(** The records [pd.DataFrame.from_records] receives.  Every record has
    all six keys, so the column check of lines 136-139 adds nothing. *)
Definition data_loading_optimized (lines : list string) : list raw :=
  flush (fold_left gen_line lines gstate_init).

(** ** The two loaders disagree *)

(** A user process interrupted in the kernel: the innermost frame is a
    kernel address, the outermost a user one. *)
Definition mixed_sample : perf_sample :=
  mk_perf_sample "app" "4242" "001" "12.000500" "250000" "cpu-clock:pppH:"
    [frame_text "ffffffff81000e" "native_safe_halt+0xe" "([kernel.kallsyms])";
     frame_text "55d0c0a01234" "main" "(/usr/bin/app)"].

(** The comment of [data_loading_optimized] (lines 100-103) says it
    keeps the original code's stack order, but [data_loading] reverses
    every stack and the optimized loader does not.  On one sample of a
    user process running in the kernel, [judge_execution_mode] (which reads
    [call_stack[-1]]) classifies the row as kernel after [data_loading]
    and as user after [data_loading_optimized]; the [event] column also
    differs (the period, against the empty text after the last colon). *)
Theorem loaders_disagree :
  let text := perf_script_sample mixed_sample in
  option_map (map (fun r => judge_execution_mode (r_call_stack r))) (data_loading text)
    = Some [Some 0%Z] /\
  map (fun r => judge_execution_mode (r_call_stack r)) (data_loading_optimized text)
    = [Some 1%Z] /\
  option_map (map r_event) (data_loading text) = Some ["250000"] /\
  map r_event (data_loading_optimized text) = [""].
Proof. repeat split; vm_compute; reflexivity. Qed.

End FastLoader.
