(* ===== verification/Prune.v ===== *)
(** The threshold pruner: [pruning_by_threshold] and
    [duration_threshold_setting] (src/filtering.py:348-395).

    The local variable [duration_length_threshold] starts as the int the
    caller passes and, when it is the sentinel [-1], is overwritten by the
    mean [sum / n] of the group being pruned.  Because the assignment is
    not undone, the groups after the first see the first group's mean and
    no longer the sentinel.  A Python float mean is modelled exactly as
    the pair [(sum, n)]: [d >= sum / n] iff [d * n >= sum] for [n > 0];
    with [n = 0] numpy yields [nan] and every comparison with it is
    false. *)

From S2P Require Import Prelude Frames.

Section Prune.

Inductive threshold :=
  | ThrInt (z : Z)            (** an int passed by the caller *)
  | ThrMean (sum n : nat).    (** the float [sum / n] *)

Definition is_sentinel (t : threshold) : bool :=
  match t with ThrInt z => (z =? -1)%Z | ThrMean _ _ => false end.

(** [each_df.duration_length >= duration_length_threshold]. *)
Definition keep (t : threshold) (d : nat) : bool :=
  match t with
  | ThrInt z => (z <=? Z.of_nat d)%Z
  | ThrMean sum n => if n =? 0 then false else sum <=? d * n
  end.

Definition group_mean (each_df : list Cicp.t) : threshold :=
  ThrMean (list_sum (map Cicp.duration_length each_df)) (length each_df).

(** The loop of [pruning_by_threshold], the threshold variable threaded
    from one iteration to the next. *)
Fixpoint prune_loop (duration_length_threshold : threshold) (df_list : list (list Cicp.t))
  : list (list Cicp.t) :=
  match df_list with
  | [] => []
  | each_df :: rest =>
      let t := if is_sentinel duration_length_threshold then group_mean each_df
               else duration_length_threshold in
      filter (fun c => keep t (Cicp.duration_length c) = true) each_df :: prune_loop t rest
  end.

Definition pruning_by_threshold (df_list : list (list Cicp.t)) (duration_length_threshold : Z)
  : list (list Cicp.t) :=
  prune_loop (ThrInt duration_length_threshold) df_list.

(** [df_list] holds one [[kernel, user]] pair per TOCC; the empty halves
    are skipped, the kernel halves and the user halves are pruned as two
    separate lists. *)
Definition duration_threshold_setting (df_list : list (list Cicp.t * list Cicp.t))
  (duration_length_threshold : Z) : list (list Cicp.t) * list (list Cicp.t) :=
  let kernel_tocc_df_list := filter (fun d => d <> []) (map fst df_list) in
  let user_tocc_df_list := filter (fun d => d <> []) (map snd df_list) in
  (pruning_by_threshold kernel_tocc_df_list duration_length_threshold,
   pruning_by_threshold user_tocc_df_list duration_length_threshold).

(** The contract of the spec (4.6): each group pruned with its own mean. *)
Definition prune_own_mean (each_df : list Cicp.t) : list Cicp.t :=
  filter (fun c => keep (group_mean each_df) (Cicp.duration_length c) = true) each_df.

(** ** Properties of the pruner *)

(** Once the threshold is no longer the sentinel, every group is pruned
    with it. *)
Lemma prune_loop_fixed t df_list :
  is_sentinel t = false ->
  prune_loop t df_list = map (filter (fun c => keep t (Cicp.duration_length c) = true)) df_list.
Proof.
  intros Ht. induction df_list as [|df rest IH]; simpl; [done|]. by rewrite Ht, IH.
Qed.

(** C12: with the sentinel [-1], the first group is pruned with its own
    mean, and every later group with that same first mean, not with its
    own (the spec, 4.6 and section 8, asks for each group's own mean). *)
Theorem pruning_by_threshold_first_mean df rest :
  pruning_by_threshold (df :: rest) (-1) =
  prune_own_mean df ::
  map (filter (fun c => keep (group_mean df) (Cicp.duration_length c) = true)) rest.
Proof. unfold pruning_by_threshold. simpl. by rewrite prune_loop_fixed. Qed.

Definition prune_cicp (thread : Z) (d : nat) : Cicp.t :=
  Cicp.mk 0 1 [0; 1]%Z "cmd" thread [0; 0]%Z "cpu-clock" [] [] "" "f" d 0 1.

(** On the groups [[2; 2]] and [[10; 20]] (durations) the code keeps
    both CICPs of the second group (threshold 2, the first mean) where
    its own mean 15 keeps only the CICP of duration 20. *)
Theorem pruning_by_threshold_not_own_mean :
  pruning_by_threshold [[prune_cicp 1 2; prune_cicp 2 2]; [prune_cicp 3 10; prune_cicp 4 20]] (-1)
  = [[prune_cicp 1 2; prune_cicp 2 2]; [prune_cicp 3 10; prune_cicp 4 20]] /\
  map prune_own_mean [[prune_cicp 1 2; prune_cicp 2 2]; [prune_cicp 3 10; prune_cicp 4 20]]
  = [[prune_cicp 1 2; prune_cicp 2 2]; [prune_cicp 4 20]].
Proof. split; reflexivity. Qed.

(** With an explicit threshold [z <> -1] every group keeps exactly its
    CICPs of duration at least [z]. *)
Theorem pruning_by_threshold_explicit df_list (z : Z) :
  z <> (-1)%Z ->
  pruning_by_threshold df_list z =
  map (filter (fun c => (z <= Z.of_nat (Cicp.duration_length c))%Z)) df_list.
Proof.
  intros Hz. unfold pruning_by_threshold. rewrite prune_loop_fixed by (simpl; lia).
  apply map_ext. intros df. apply list_filter_iff. intros c. simpl. apply Z.leb_le.
Qed.

Lemma pruning_by_threshold_explicit_witness :
  pruning_by_threshold [[prune_cicp 3 10; prune_cicp 4 20]] 15 =
  map (filter (fun c => (15 <= Z.of_nat (Cicp.duration_length c))%Z))
      [[prune_cicp 3 10; prune_cicp 4 20]].
Proof. apply pruning_by_threshold_explicit. lia. Defined.

(** A non-empty group has a member at least as long as its mean. *)
Lemma exists_ge_mean (l : list Cicp.t) :
  l <> [] -> exists c, c ∈ l /\
    list_sum (map Cicp.duration_length l) <= Cicp.duration_length c * length l.
Proof.
  induction l as [|x l IH]; intros Hne; [done|].
  destruct l as [|y l]. { exists x. simpl. split; [set_solver|lia]. }
  destruct IH as (c & Hc & Hle); [done|].
  set (S' := list_sum (map Cicp.duration_length (y :: l))) in *.
  set (n := length (y :: l)) in *.
  assert (list_sum (map Cicp.duration_length (x :: y :: l)) = Cicp.duration_length x + S')
    as -> by reflexivity.
  assert (length (x :: y :: l) = S n) as -> by reflexivity.
  destruct (decide (Cicp.duration_length c <= Cicp.duration_length x)).
  - exists x. split; [set_solver|]. nia.
  - exists c. split; [set_solver|]. nia.
Qed.

(** With the sentinel, the first non-empty kernel group and the first
    non-empty user group each keep at least one CICP: the mean is never
    taken over an empty group and never exceeds the longest CICP. *)
Theorem duration_threshold_setting_keeps_longest df_list ks us :
  duration_threshold_setting df_list (-1) = (ks, us) ->
  (forall k, head ks = Some k -> k <> []) /\ (forall u, head us = Some u -> u <> []).
Proof.
  unfold duration_threshold_setting, pruning_by_threshold. intros [= <- <-].
  assert (forall L : list (list Cicp.t), forall k,
            head (prune_loop (ThrInt (-1)) (filter (fun d => d <> []) L)) = Some k -> k <> []) as H.
  { intros L k. induction L as [|df L IH]; [done|]. rewrite filter_cons.
    case_decide as Hdf; [|exact IH]. simpl. intros [= <-].
    destruct (exists_ge_mean df Hdf) as (c & Hc & Hge).
    assert (length df <> 0) by (destruct df; simpl; [done|lia]).
    intros Hnil. refine (filter_nil_not_elem_of _ _ c Hnil _ Hc). simpl.
    destruct (Nat.eqb_spec (length df) 0); [done|]. apply Nat.leb_le. lia. }
  split; apply H.
Qed.

Lemma duration_threshold_setting_keeps_longest_witness :
  exists k, head (duration_threshold_setting [([prune_cicp 1 2; prune_cicp 2 4], [])] (-1)).1
            = Some k /\ k <> [].
Proof.
  eexists. split; [reflexivity|].
  eapply (proj1 (duration_threshold_setting_keeps_longest
                   [([prune_cicp 1 2; prune_cicp 2 4], [])] _ _ eq_refl)).
  reflexivity.
Defined.

End Prune.
