(* ===== verification/SubTOCC.v ===== *)
(** The recursive subdivider: [divide_TOCC] (src/filtering.py:242-290),
    the quadratic partitioner the code still uses for sub-windows,
    [divide_each_subTOCC] (398-415) and [divide_subTOCC] (418-433).

    [divide_TOCC] first calls [df.sort_values(by=["ts_begin"])], whose
    default algorithm (quicksort) leaves the order of equal keys
    unspecified; the section therefore takes the row sort as a parameter
    [sort_values].  The dictionary [ts_begin_dic] keyed by [str(ts_begin)]
    is a set of timestamps; [inner_loop] is the [for j] loop with its
    bounds [ts_begin_bound], [ts_end_bound] and the list [tocc] of
    start timestamps; [outer_loop] is the [for i in range(length - 1)]
    loop, the dictionary shared by all its iterations. *)

From S2P Require Import Prelude Frames Sweep.

Section SubTOCC.

Variable sort_values : list Cicp.t -> list Cicp.t.

Fixpoint inner_loop (ts_begin_bound ts_end_bound : Z) (ts_begin_dic : gset Z) (tocc : list Z)
  (rows : list Cicp.t) : gset Z * list Z :=
  match rows with
  | [] => (ts_begin_dic, tocc)
  | r :: rest =>
      let tmp_ts_begin := Cicp.ts_begin r in
      let tmp_ts_end := Cicp.ts_end r in
      if decide (tmp_ts_begin ∈ ts_begin_dic) then
        inner_loop ts_begin_bound ts_end_bound ts_begin_dic tocc rest
      else if (tmp_ts_end <? ts_begin_bound)%Z || (ts_end_bound <? tmp_ts_begin)%Z then
        inner_loop ts_begin_bound ts_end_bound ts_begin_dic tocc rest
      else
        let bb := if (tmp_ts_begin <? ts_begin_bound)%Z then tmp_ts_begin else ts_begin_bound in
        let eb := if (ts_end_bound <? tmp_ts_end)%Z then tmp_ts_end else ts_end_bound in
        inner_loop bb eb ({[tmp_ts_begin]} ∪ ts_begin_dic) (tocc ++ [tmp_ts_begin]) rest
  end.

(** Row [i] is visited only when a row follows it ([range(length - 1)]). *)
Fixpoint outer_loop (ts_begin_dic : gset Z) (tocc_list : list (list Z)) (rows : list Cicp.t)
  : list (list Z) :=
  match rows with
  | [] => tocc_list
  | r :: rest =>
      match rest with
      | [] => tocc_list
      | _ =>
          let current_ts_begin := Cicp.ts_begin r in
          if decide (current_ts_begin ∈ ts_begin_dic) then outer_loop ts_begin_dic tocc_list rest
          else
            let '(dic, tocc) := inner_loop current_ts_begin (Cicp.ts_end r)
                                  ({[current_ts_begin]} ∪ ts_begin_dic) [current_ts_begin] rest in
            outer_loop dic (if 1 <? length tocc then tocc_list ++ [tocc] else tocc_list) rest
      end
  end.

(** [pd.concat([df[df.ts_begin == v] for v in tocc])]. *)
Definition rows_of_tocc (df : list Cicp.t) (tocc : list Z) : list Cicp.t :=
  tocc ≫= (fun v => filter (fun c => Cicp.ts_begin c = v) df).

Definition divide_TOCC (df : list Cicp.t) : list (list Cicp.t) :=
  let df' := sort_values df in
  map (rows_of_tocc df') (Py.sort_by_key_desc length (outer_loop ∅ [] df')).

Definition divide_each_subTOCC (df_list : list (list Cicp.t)) : list (list Cicp.t) :=
  Py.sort_by_key_desc length (df_list ≫= divide_TOCC).

(** The input is the pair [[kernel groups, user groups]] of
    [duration_threshold_setting]. *)
Definition divide_subTOCC (df_list : list (list Cicp.t) * list (list Cicp.t))
  : list (list Cicp.t) * list (list Cicp.t) :=
  (divide_each_subTOCC df_list.1, divide_each_subTOCC df_list.2).

(** ** Invariant of the two loops *)

(** A list of start timestamps is sound for the sorted frame [df'] when
    its values are distinct and each is the [ts_begin] of a row. *)
Definition tocc_sound (df' : list Cicp.t) (tocc : list Z) : Prop :=
  NoDup tocc /\ Forall (fun v => exists r, r ∈ df' /\ Cicp.ts_begin r = v) tocc.

Lemma inner_loop_sound df' bb eb dic tocc rows :
  (forall r, r ∈ rows -> r ∈ df') ->
  tocc_sound df' tocc -> Forall (fun v => v ∈ dic) tocc ->
  tocc_sound df' (inner_loop bb eb dic tocc rows).2.
Proof.
  revert bb eb dic tocc. induction rows as [|r rows IH]; intros bb eb dic tocc Hrows [Hnd Hex] Hdic;
    simpl; [by split|].
  case_decide as Hin; [apply IH; auto; [set_solver|done]|].
  destruct (_ || _); [apply IH; auto; [set_solver|done]|].
  apply IH; [set_solver| |].
  - split.
    + apply NoDup_app. split; [done|]. split; [|apply NoDup_singleton].
      intros v Hv Hv2. apply list_elem_of_singleton in Hv2 as ->. apply Hin. rewrite Forall_forall in Hdic. by apply Hdic.
    + apply Forall_app. split; [done|]. constructor; [|done]. exists r. split; [set_solver|done].
  - apply Forall_app. split; [eapply Forall_impl; [exact Hdic|set_solver]|]. constructor; [set_solver|done].
Qed.

Lemma outer_loop_sound df' dic acc rows :
  (forall r, r ∈ rows -> r ∈ df') ->
  Forall (fun t => 1 < length t /\ tocc_sound df' t) acc ->
  Forall (fun t => 1 < length t /\ tocc_sound df' t) (outer_loop dic acc rows).
Proof.
  revert dic acc. induction rows as [|r rows IH]; intros dic acc Hrows Hacc; simpl; [done|].
  destruct rows as [|r' rows']; [done|].
  case_decide; [apply IH; auto; set_solver|].
  destruct (inner_loop _ _ _ _ _) as [dic' tocc] eqn:E. apply IH; [set_solver|].
  destruct (Nat.ltb_spec 1 (length tocc)); [|done].
  apply Forall_app. split; [done|]. constructor; [|done]. split; [done|].
  replace tocc with (inner_loop (Cicp.ts_begin r) (Cicp.ts_end r)
                       ({[Cicp.ts_begin r]} ∪ dic) [Cicp.ts_begin r] (r' :: rows')).2 by (by rewrite E).
  apply inner_loop_sound; [set_solver| |].
  - split; [apply NoDup_singleton|]. constructor; [|done]. exists r. split; [set_solver|done].
  - constructor; [set_solver|done].
Qed.

Lemma divide_TOCC_groups df :
  Forall (fun g => 2 <= length g) (divide_TOCC df).
Proof.
  unfold divide_TOCC. apply Forall_fmap, Forall_forall. intros t Ht.
  unfold Py.sort_by_key_desc in Ht. rewrite py_sort_perm in Ht.
  pose proof (outer_loop_sound (sort_values df) ∅ [] (sort_values df) (fun r Hr => Hr)
                ltac:(constructor)) as Hs.
  rewrite Forall_forall in Hs. destruct (Hs t Ht) as (Hlen & _ & Hex).
  pose proof (length_bind_filter_ge Cicp.ts_begin (sort_values df) t Hex). unfold compose, rows_of_tocc. simpl. lia.
Qed.

(** Every sub-window [divide_subTOCC] reports, kernel or user, has
    at least two rows, whatever order [sort_values] gives equal keys. *)
Theorem divide_subTOCC_nontrivial df_list :
  Forall (fun g => 2 <= length g) (divide_subTOCC df_list).1 /\
  Forall (fun g => 2 <= length g) (divide_subTOCC df_list).2.
Proof.
  unfold divide_subTOCC, divide_each_subTOCC. simpl.
  split; apply Forall_py_sort, Forall_bind; apply Forall_forall; intros df _; apply divide_TOCC_groups.
Qed.

End SubTOCC.

(** A stable sort by [ts_begin]: what [sort_values] does on frames of at
    most 16 rows, where numpy's quicksort runs an insertion sort. *)
Definition sort_values_stable (df : list Cicp.t) : list Cicp.t :=
  Py.sort (fun a b => (Cicp.ts_begin a <? Cicp.ts_begin b)%Z) df.

(** [divide_TOCC] depends on the order of rows with equal
    [ts_begin]: T1 on [0,1] and T2 on [0,10] overlap and T3 on [5,6]
    overlaps T2, yet with T1 first the only start value visited is 0 with
    end bound 1 (T2's row, sharing the key 0, is skipped without widening
    the bound) and nothing is reported; with T2 first all three rows form
    one sub-window.  Both frames hold the same rows. *)
Theorem divide_TOCC_tie_order :
  divide_TOCC sort_values_stable
    [scenario_cicp 0 1 0 1; scenario_cicp 1 2 0 10; scenario_cicp 2 3 5 6] = [] /\
  divide_TOCC sort_values_stable
    [scenario_cicp 1 2 0 10; scenario_cicp 0 1 0 1; scenario_cicp 2 3 5 6] =
  [[scenario_cicp 1 2 0 10; scenario_cicp 0 1 0 1; scenario_cicp 2 3 5 6]].
Proof. split; vm_compute; reflexivity. Qed.

(** Two threads whose CICPs start at the same instant and overlap give
    no sub-window: their common [ts_begin] counts once, the group has a
    single start value and is discarded. *)
Theorem divide_TOCC_equal_begin :
  divide_TOCC sort_values_stable [scenario_cicp 0 1 0 5; scenario_cicp 1 2 0 4] = [].
Proof. vm_compute. reflexivity. Qed.

(** The two partitioners disagree on CICPs that only share an
    endpoint: [divide_TOCC] (closed intervals) merges them into a
    sub-window, [divide_TOCC_optimized] (END before START) does not. *)
Theorem partitioners_disagree_touching :
  divide_TOCC sort_values_stable [scenario_cicp 0 1 0 3; scenario_cicp 1 2 3 5] =
    [[scenario_cicp 0 1 0 3; scenario_cicp 1 2 3 5]] /\
  divide_TOCC_optimized [scenario_cicp 0 1 0 3; scenario_cicp 1 2 3 5] = [].
Proof. split; vm_compute; reflexivity. Qed.
