(* ===== verification/Pipeline.v ===== *)
(** The orchestration of [src/main.py]: the detection sequence of the
    [__main__] block (lines 84-91) and the numbering of the report tasks
    (lines 106-114).  Loading, timing output and the report writers are
    collaborators (see the root file).  The raised [IndexError] of
    [distinguish_execution_mode] is the [None] of the result.

    The end-to-end theorem composes the per-thread labels of
    [Compress.v] with the [df.loc] windows of [Sweep.v]: the label
    collision of [pd.concat] reaches every reported TOCC. *)

From S2P Require Import Prelude Frames Signature Compress Filter Sweep Mode Prune SubTOCC.

Section Pipeline.

Variable sort_values : list Cicp.t -> list Cicp.t.

Record detection := mk_detection {
  tocc_df_list : list (list Cicp.t);
  subTocc_df_list : list (list Cicp.t) * list (list Cicp.t)
}.

Definition detect (timing_call_stacks_data : list Sample.t)
  (direction degrees_of_freedom threshold : Z) : option detection :=
  records_df ← identify_consecutive_identical_call_stacks_parallel
                  timing_call_stacks_data degrees_of_freedom direction;
  let records_df := filtering_operation records_df in
  let tocc_df_list := divide_TOCC_optimized records_df in
  match distinguish_execution_mode tocc_df_list with
  | None => None
  | Some split_list =>
      let tocc_df_list_pruning := duration_threshold_setting split_list threshold in
      Some (mk_detection tocc_df_list (divide_subTOCC sort_values tocc_df_list_pruning))
  end.

(** [file_name = f"res_{num}"]: kernel sub-windows first, then user ones,
    numbered from 1. *)
Definition report_tasks (subTocc : list (list Cicp.t) * list (list Cicp.t))
  : list (nat * list Cicp.t) :=
  imap (fun i df => (S i, df)) (subTocc.1 ++ subTocc.2).

(** Every sub-window the program reports has at least two rows. *)
Theorem detect_reports_nontrivial data direction dof threshold d :
  detect data direction dof threshold = Some d ->
  Forall (fun t => 2 <= length t.2) (report_tasks (subTocc_df_list d)).
Proof.
  unfold detect. intros (records & _ & Hd)%bind_Some.
  destruct (distinguish_execution_mode _); [|done]. injection Hd as <-. cbn [subTocc_df_list].
  destruct (divide_subTOCC_nontrivial sort_values
              (duration_threshold_setting l threshold)) as [Hk Hu].
  unfold report_tasks. apply Forall_forall. intros [n t] Ht.
  apply elem_of_lookup_imap in Ht as (i & g & Heq & Hi). injection Heq as -> ->.
  simpl. eapply (Forall_lookup_1 (fun g => 2 <= length g)); [|exact Hi]. by apply Forall_app.
Qed.

End Pipeline.

(** A perf sample of thread [thread] at time [ts] in the frame [main;work]. *)
Definition pipeline_sample (idx : nat) (thread ts : Z) : Sample.t :=
  Sample.mk idx ts "app" thread 0 "cpu-clock"
    ["7f0000001000 main"; "7f0000002000 work"] "" "" "".

(** T1 sampled at 0..3, T2 at 2..5, T3 at 10..12, each in one frame. *)
Definition pipeline_trace : list Sample.t :=
  [pipeline_sample 0 1 0; pipeline_sample 1 1 1; pipeline_sample 2 2 2; pipeline_sample 3 1 2;
   pipeline_sample 4 2 3; pipeline_sample 5 1 3; pipeline_sample 6 2 4; pipeline_sample 7 2 5;
   pipeline_sample 8 3 10; pipeline_sample 9 3 11; pipeline_sample 10 3 12].

Lemma detect_reports_nontrivial_witness :
  Forall (fun t => 2 <= length t.2)
    (report_tasks (subTocc_df_list
       (default (mk_detection [] ([], [])) (detect sort_values_stable pipeline_trace 0 (-1) (-1))))).
Proof.
  destruct (detect sort_values_stable pipeline_trace 0 (-1) (-1)) as [d|] eqn:E; simpl.
  - by apply (detect_reports_nontrivial sort_values_stable pipeline_trace 0 (-1) (-1) d).
  - constructor.
Defined.

(** C4: end to end, the label collision of [pd.concat] reaches the
    reported TOCCs: each thread's CICPs are labelled 0, 1, 2, ... in its
    own frame, and [df.loc] returns every row of a requested label, so a
    TOCC that holds a CICP labelled [i] holds the [i]-th CICP of every
    thread that passes [filtering_operation], whether or not that CICP
    overlaps the window. *)
Theorem detect_label_collision data direction dof threshold d t c cs th c' :
  detect sort_values_stable data direction dof threshold = Some d ->
  t ∈ tocc_df_list d -> c ∈ t ->
  identify_consecutive_identical_call_stacks_parallel data dof direction = Some cs ->
  filter (fun x => Cicp.tid x = th) cs !! Cicp.Index c = Some c' ->
  c' ∈ filtering_operation cs -> c' ∈ t.
Proof.
  intros Hd Ht Hc Hcs Hc' Hf. unfold detect in Hd. rewrite Hcs in Hd. cbn in Hd.
  destruct (distinguish_execution_mode _); [|done]. injection Hd as <-. cbn [tocc_df_list] in Ht.
  destruct (divide_TOCC_optimized_windows _ t Ht) as (w & _ & ->).
  apply elem_of_loc in Hc as [_ Hc]. apply elem_of_loc. split; [done|].
  by rewrite (identify_labels data dof direction cs th _ c' Hcs Hc').
Qed.

(** The run on [pipeline_trace]: its TOCC, the first CICP of thread 1
    in it, and the first CICP of thread 3, which runs alone later. *)
Definition pipeline_detection : detection :=
  default (mk_detection [] ([], [])) (detect sort_values_stable pipeline_trace 0 (-1) (-1)).

Definition pipeline_cicps : list Cicp.t :=
  default [] (identify_consecutive_identical_call_stacks_parallel pipeline_trace (-1) 0).

Definition pipeline_tocc : list Cicp.t := default [] (head (tocc_df_list pipeline_detection)).

Definition pipeline_c1 : Cicp.t := default (scenario_cicp 0 0 0 0) (head pipeline_tocc).

Definition pipeline_c3 : Cicp.t :=
  default (scenario_cicp 0 0 0 0)
    (filter (fun x => Cicp.tid x = 3%Z) pipeline_cicps !! Cicp.Index pipeline_c1).

Lemma detect_label_collision_witness :
  Cicp.tid pipeline_c1 = 1%Z /\ Cicp.tid pipeline_c3 = 3%Z /\ pipeline_c3 ∈ pipeline_tocc.
Proof.
  split; [vm_compute; reflexivity|]. split; [vm_compute; reflexivity|].
  apply (detect_label_collision pipeline_trace 0 (-1) (-1) pipeline_detection pipeline_tocc
           pipeline_c1 pipeline_cicps 3%Z pipeline_c3).
  - vm_compute. reflexivity.
  - vm_compute. left.
  - vm_compute. left.
  - vm_compute. reflexivity.
  - vm_compute. reflexivity.
  - vm_compute. right. right. left.
Defined.
