(* ===== verification/GprofModel.v ===== *)
(** The profile model of the vendored [src/gprof2dot.py] (lines 64-929),
    which [modeling.gen_call_chains] runs on the stacks of each reported
    sub-window ([-f perf -n0 -e0]).

    [Object.events] is a finite map from the [Event] constants to values;
    every value is a number, kept exactly as a rational ([Q]) where Python
    has an int or a float.  [Function], [Call] and [Profile] are records;
    the [functions] and [calls] dictionaries are [gmap]s keyed by id.  The
    writer sorts both dictionaries before printing and the arithmetic is
    exact, so the iteration order of the dictionaries does not show in
    what is printed.  A cycle is the index of its member list in
    [p_cycles] ([Cycle] objects are compared by identity). *)

From Stdlib Require Import QArith Qminmax Lqa.
From S2P Require Import Prelude.

Local Open Scope Q_scope.

Module Gprof.

(** The [Event] constants the perf path uses ([CALLS], [TIME] and
    [TOTAL_TIME] belong to other input formats). *)
Inductive event := SAMPLES | SAMPLES2 | TOTAL_SAMPLES | TIME_RATIO | TOTAL_TIME_RATIO | CALLS.

#[global] Instance event_eq_dec : EqDecision event.
Proof. solve_decision. Defined.

Definition event_to_nat (e : event) : nat :=
  match e with
  | SAMPLES => 0 | SAMPLES2 => 1 | TOTAL_SAMPLES => 2 | TIME_RATIO => 3
  | TOTAL_TIME_RATIO => 4 | CALLS => 5
  end%nat.

Definition event_of_nat (n : nat) : option event :=
  match n with
  | 0 => Some SAMPLES | 1 => Some SAMPLES2 | 2 => Some TOTAL_SAMPLES
  | 3 => Some TIME_RATIO | 4 => Some TOTAL_TIME_RATIO | 5 => Some CALLS | _ => None
  end%nat.

#[global] Program Instance event_countable : Countable event :=
  inj_countable event_to_nat event_of_nat _.
Next Obligation. by intros []. Qed.

Abbreviation events := (gmap event Q).

Record call := mk_call {
  callee_id : string;
  c_ratio : option Q;
  c_weight : option Q;
  c_events : events
}.

Record function := mk_function {
  f_id : string;
  f_name : string;
  f_module : option string;
  f_calls : gmap string call;
  f_weight : option Q;
  f_cycle : option nat;
  f_self_weight : option Q;
  f_events : events
}.

Record profile := mk_profile {
  p_functions : gmap string function;
  p_cycles : list (list string);
  p_events : events
}.

(** A loop over a dictionary whose body may raise: the new dictionary, or
    [None] when the body raises for some entry. *)
Definition gmap_mapM {K A B} `{Countable K} (g : A -> option B) (m : gmap K A)
  : option (gmap K B) :=
  list_to_map <$> mapM (fun '(k, a) => b ← g a; Some (k, b)) (map_to_list m).

(** [Object.__setitem__] with a value. *)
Definition set_call_event (c : call) (e : event) (v : Q) : call :=
  mk_call (callee_id c) (c_ratio c) (c_weight c) (<[e := v]> (c_events c)).

Definition set_function_event (f : function) (e : event) (v : Q) : function :=
  mk_function (f_id f) (f_name f) (f_module f) (f_calls f) (f_weight f) (f_cycle f)
    (f_self_weight f) (<[e := v]> (f_events f)).

Definition set_calls (f : function) (cs : gmap string call) : function :=
  mk_function (f_id f) (f_name f) (f_module f) cs (f_weight f) (f_cycle f)
    (f_self_weight f) (f_events f).

Definition set_profile_event (p : profile) (e : event) (v : Q) : profile :=
  mk_profile (p_functions p) (p_cycles p) (<[e := v]> (p_events p)).

Definition set_functions (p : profile) (fs : gmap string function) : profile :=
  mk_profile fs (p_cycles p) (p_events p).

(** ** [ratio] (lines 91-109) *)

(** [tol] and the warnings only decide what is written to stderr. *)
Definition ratio (numerator denominator : Q) : Q :=
  if Qeq_bool denominator 0 then 1
  else
    let r := numerator / denominator in
    if Qlt_le_dec r 0 then 0
    else if Qlt_le_dec 1 r then 1
    else r.

(** ** [Profile.validate] (342-353): calls to undefined functions are
    dropped. *)
Definition validate (p : profile) : profile :=
  set_functions p
    ((fun f => set_calls f (filter (fun '(callee, _) => is_Some (p_functions p !! callee))
                                   (f_calls f))) <$> p_functions p).

(** ** [Profile.ratio] (805-816) *)

(** [None] is a failed [assert] or an [UndefinedEvent]. *)
Definition profile_ratio (outevent inevent : event) (p : profile) : option profile :=
  total ← p_events p !! inevent;
  if decide (is_Some (p_events p !! outevent)) then None else
  fs ← gmap_mapM (fun f =>
          if decide (is_Some (f_events f !! outevent)) then None else
          v ← f_events f !! inevent;
          let f := set_function_event f outevent (ratio v total) in
          cs ← gmap_mapM (fun c =>
                 if decide (is_Some (c_events c !! outevent)) then None else
                 Some (match c_events c !! inevent with
                       | Some cv => set_call_event c outevent (ratio cv total)
                       | None => c
                       end)) (f_calls f);
          Some (set_calls f cs)) (p_functions p);
  Some (set_profile_event (set_functions p fs) outevent 1).

(** ** [Profile.call_ratios] (525-576) *)

Definition entering_cycle (p : profile) (caller callee : function) : option nat :=
  match f_cycle callee with
  | Some cy => if decide (f_cycle caller = Some cy) then None else Some cy
  | None => None
  end.

(** Pass 1: [function_totals] and [cycle_totals]. *)
Definition function_total (event : event) (p : profile) (callee_key : string) : Q :=
  map_fold (fun _ f acc =>
    map_fold (fun _ c acc =>
      if decide (callee_id c <> f_id f /\ callee_id c = callee_key) then
        acc + default 0 (c_events c !! event)
      else acc) acc (f_calls f)) 0 (p_functions p).

Definition cycle_total (event : event) (p : profile) (cy : nat) : Q :=
  map_fold (fun _ f acc =>
    map_fold (fun _ c acc =>
      if decide (callee_id c <> f_id f) then
        match p_functions p !! callee_id c with
        | Some callee =>
            if decide (entering_cycle p f callee = Some cy) then
              acc + default 0 (c_events c !! event)
            else acc
        | None => acc
        end
      else acc) acc (f_calls f)) 0 (p_functions p).

(** Pass 2: the ratio of each call, [None] for a self call. *)
Definition call_ratio_of (event : event) (p : profile) (f : function) (c : call) : option (option Q) :=
  if decide (callee_id c = f_id f) then Some (c_ratio c) else
  callee ← p_functions p !! callee_id c;
  match c_events c !! event with
  | Some v =>
      let total := match entering_cycle p f callee with
                   | Some cy => cycle_total event p cy
                   | None => function_total event p (callee_id c)
                   end in
      Some (Some (ratio v total))
  | None => Some (Some 0)
  end.

Definition call_ratios (event : event) (p : profile) : option profile :=
  fs ← gmap_mapM (fun f =>
         cs ← gmap_mapM (fun c =>
                if decide (is_Some (c_ratio c)) then None else
                r ← call_ratio_of event p f c;
                Some (mk_call (callee_id c) r (c_weight c) (c_events c))) (f_calls f);
         Some (set_calls f cs)) (p_functions p);
  Some (set_functions p fs).

(** ** [Profile.prune] (818-905) with [paths = None] *)

Definition function_weight (f : function) : function :=
  match f_events f !! TOTAL_TIME_RATIO with
  | Some w => mk_function (f_id f) (f_name f) (f_module f) (f_calls f) (Some w) (f_cycle f)
                (f_self_weight f) (f_events f)
  | None => f
  end.

Definition call_weight (p : profile) (f : function) (c : call) : option call :=
  callee ← p_functions p !! callee_id c;
  Some (match c_events c !! TOTAL_TIME_RATIO with
        | Some w => mk_call (callee_id c) (c_ratio c) (Some w) (c_events c)
        | None =>
            match f_events f !! TOTAL_TIME_RATIO, f_events callee !! TOTAL_TIME_RATIO with
            | Some a, Some b => mk_call (callee_id c) (c_ratio c) (Some (Qmin a b)) (c_events c)
            | _, _ => c
            end
        end).

Definition below (w : option Q) (thres : Q) : bool :=
  match w with Some w => if Qlt_le_dec w thres then true else false | None => false end.

Definition prune (node_thres edge_thres : Q) (p : profile) : option profile :=
  (* the prune ratios *)
  fs ← gmap_mapM (fun f =>
         cs ← gmap_mapM (call_weight p f) (f_calls f);
         Some (function_weight (set_calls f cs))) (p_functions p);
  (* the nodes *)
  let fs := filter (fun '(_, f) => below (f_weight f) node_thres = false) fs in
  (* the edges *)
  let fs := (fun f => set_calls f (filter (fun '(callee, c) =>
                 is_Some (fs !! callee) /\ below (c_weight c) edge_thres = false) (f_calls f))) <$> fs in
  (* the colouring weights *)
  let weights := omap (fun '(_, f) => f_events f !! TIME_RATIO) (map_to_list fs) in
  let max_ratio := foldr Qmax (default 1 (head weights)) weights in
  let fs := (fun f => match f_events f !! TIME_RATIO with
                      | Some t => if Qeq_bool max_ratio 0 then f
                                  else mk_function (f_id f) (f_name f) (f_module f) (f_calls f)
                                         (f_weight f) (f_cycle f) (Some (t / max_ratio)) (f_events f)
                      | None => f
                      end) <$> fs in
  Some (set_functions p fs).

(** ** Well-formed call graphs *)

(** Every call is stored under its callee's id, as [Function.add_call]
    does. *)
Definition calls_keyed (p : profile) : Prop :=
  map_Forall (fun _ f => map_Forall (fun k c => callee_id c = k) (f_calls f)) (p_functions p).

(** Every call leads to a function of the profile. *)
Definition calls_closed (p : profile) : Prop :=
  map_Forall (fun _ f => map_Forall (fun k _ => is_Some (p_functions p !! k)) (f_calls f))
    (p_functions p).

#[global] Instance calls_keyed_dec p : Decision (calls_keyed p).
Proof. unfold calls_keyed. apply _. Defined.

#[global] Instance calls_closed_dec p : Decision (calls_closed p).
Proof. unfold calls_closed. apply _. Defined.

(** A small profile as the perf reader builds it: [main] calls [work] and
    an undefined [lib], [work] holds the only sample. *)
Definition sample_function (fid : string) (calls : list string) (samples : Q) : function :=
  mk_function fid fid None
    (list_to_map ((fun callee => (callee, mk_call callee None None (<[SAMPLES2 := 1]> ∅))) <$> calls))
    None None None (<[TOTAL_SAMPLES := 1]> (<[SAMPLES := samples]> ∅)).

Definition sample_profile : profile :=
  mk_profile (list_to_map [("main", sample_function "main" ["work"; "lib"] 0);
                           ("work", sample_function "work" [] 1)])
    [] (<[SAMPLES := 1]> ∅).

(** [sample_profile] after [Profile.ratio(TIME_RATIO, SAMPLES)], and its
    function [work]. *)
Definition ratio_sample : profile :=
  Eval vm_compute in default sample_profile (profile_ratio TIME_RATIO SAMPLES sample_profile).

Definition ratio_work : function :=
  Eval vm_compute in default (sample_function "work" [] 0) (p_functions ratio_sample !! "work").

(** ** Lemmas on dictionary loops *)

Lemma list_to_map_Forall2 {K A B} `{Countable K} (g : A -> option B)
    (l1 : list (K * A)) (l2 : list (K * B)) k :
  Forall2 (fun x y => (let '(k, a) := x in b ← g a; Some (k, b)) = Some y) l1 l2 ->
  (list_to_map l2 : gmap K B) !! k = (list_to_map l1 : gmap K A) !! k ≫= g.
Proof.
  induction 1 as [|[k1 a] [k2 b] l1 l2 Hy _ IH]; [done|]; simpl.
  destruct (g a) eqn:E; simplify_eq/=.
  destruct (decide (k = k2)) as [->|Hne].
  - rewrite !lookup_insert_eq; simpl. by rewrite E.
  - by rewrite !lookup_insert_ne.
Qed.

(** A successful loop maps each entry by [g]. *)
Lemma gmap_mapM_lookup {K A B} `{Countable K} (g : A -> option B) (m : gmap K A) m' k :
  gmap_mapM g m = Some m' -> m' !! k = m !! k ≫= g.
Proof.
  unfold gmap_mapM. intros (l & Hl & ->)%fmap_Some.
  apply mapM_Some_1 in Hl.
  rewrite <-(list_to_map_to_list m) at 1. by apply list_to_map_Forall2.
Qed.

(** The loop succeeds when the body succeeds on every entry. *)
Lemma gmap_mapM_is_Some {K A B} `{Countable K} (g : A -> option B) (m : gmap K A) :
  map_Forall (fun _ a => is_Some (g a)) m -> is_Some (gmap_mapM g m).
Proof.
  intros Hm. unfold gmap_mapM. apply fmap_is_Some, mapM_is_Some_2.
  apply Forall_forall. intros [k a] Hka%elem_of_map_to_list. simpl.
  destruct (Hm k a Hka) as [b ->]. by eexists.
Qed.

Lemma gmap_mapM_Some_lookup {K A B} `{Countable K} (g : A -> option B) (m : gmap K A) m' k b :
  gmap_mapM g m = Some m' -> m' !! k = Some b -> exists a, m !! k = Some a /\ g a = Some b.
Proof.
  intros Hm Hk. rewrite (gmap_mapM_lookup g m m' k Hm) in Hk.
  destruct (m !! k) as [a|]; simplify_eq/=. eauto.
Qed.

Lemma call_weight_callee p f c c' :
  call_weight p f c = Some c' -> callee_id c' = callee_id c.
Proof. unfold call_weight. intros (? & _ & Hc)%bind_Some. injection Hc as <-. by repeat case_match. Qed.

Lemma function_weight_calls f : f_calls (function_weight f) = f_calls f.
Proof. unfold function_weight. by case_match. Qed.

Lemma call_weight_is_Some p f c :
  is_Some (p_functions p !! callee_id c) -> is_Some (call_weight p f c).
Proof. unfold call_weight. intros [callee ->]. by eexists. Qed.

(** ** Properties *)

(** [ratio] always returns a value between 0 and 1, whatever the
    numerator and the denominator (a zero denominator gives 1). *)
Theorem ratio_bounds (numerator denominator : Q) :
  0 <= ratio numerator denominator <= 1.
Proof. unfold ratio. repeat destruct (Qlt_le_dec _ _); destruct (Qeq_bool _ _); lra. Qed.

(** After [validate] every call leads to a function of the profile,
    and the calls stay keyed by their callee. *)
Theorem validate_wf (p : profile) :
  calls_keyed p -> calls_keyed (validate p) /\ calls_closed (validate p).
Proof.
  intros Hk. split.
  - intros k f Hf. simpl in Hf. rewrite lookup_fmap in Hf.
    destruct (p_functions p !! k) as [f0|] eqn:E; simplify_eq/=.
    intros k' c (Hc & _)%map_lookup_filter_Some. exact (Hk k f0 E k' c Hc).
  - intros k f Hf. simpl in Hf. rewrite lookup_fmap in Hf.
    destruct (p_functions p !! k) as [f0|] eqn:E; simplify_eq/=.
    intros k' c (_ & Hc)%map_lookup_filter_Some. simpl in Hc.
    by rewrite lookup_fmap, fmap_is_Some.
Qed.

(** C21: [prune] (node, edge and colouring passes) never fails on a profile
    whose calls lead to its functions, and it keeps that property: the
    edges to pruned nodes are removed. *)
Theorem prune_wf (node_thres edge_thres : Q) (p : profile) :
  calls_keyed p -> calls_closed p ->
  exists p', prune node_thres edge_thres p = Some p' /\ calls_keyed p' /\ calls_closed p'.
Proof.
  intros Hk Hc. unfold prune.
  destruct (gmap_mapM_is_Some (fun f => cs ← gmap_mapM (call_weight p f) (f_calls f);
                                        Some (function_weight (set_calls f cs))) (p_functions p))
    as [fs0 Hfs0].
  { intros k f Hf. destruct (gmap_mapM_is_Some (call_weight p f) (f_calls f)) as [cs ->].
    - intros k' c Hc'. apply call_weight_is_Some. rewrite (Hk k f Hf k' c Hc'). exact (Hc k f Hf k' c Hc').
    - by eexists. }
  rewrite Hfs0. simpl. eexists. split; [reflexivity|]. split.
  - intros k f Hf. simpl in Hf. rewrite !lookup_fmap in Hf.
    destruct (filter _ fs0 !! k) as [f1|] eqn:E1; simplify_eq/=.
    apply map_lookup_filter_Some in E1 as [E1 _].
    apply (gmap_mapM_Some_lookup _ _ _ _ _ Hfs0) in E1 as (f0 & Ef0 & Hf0).
    apply bind_Some in Hf0 as (cs & Hcs & Hf0). injection Hf0 as <-.
    intros k' c Hc'. assert (Hc'' : (filter (fun '(callee, c) => is_Some (filter (fun '(_, f) =>
       below (f_weight f) node_thres = false) fs0 !! callee) /\ below (c_weight c) edge_thres = false)
       (f_calls (function_weight (set_calls f0 cs)))) !! k' = Some c)
      by (revert Hc'; by repeat case_match).
    apply map_lookup_filter_Some in Hc'' as [Hc'' _].
    rewrite function_weight_calls in Hc''.
    apply (gmap_mapM_Some_lookup _ _ _ _ _ Hcs) in Hc'' as (c0 & Ec0 & Hc0).
    rewrite (call_weight_callee _ _ _ _ Hc0). exact (Hk k f0 Ef0 k' c0 Ec0).
  - intros k f Hf. simpl in Hf. rewrite !lookup_fmap in Hf.
    destruct (filter _ fs0 !! k) as [f1|] eqn:E1; simplify_eq/=.
    intros k' c Hc'.
    assert (Hc'' : (filter (fun '(callee, c) => is_Some (filter (fun '(_, f) =>
       below (f_weight f) node_thres = false) fs0 !! callee) /\ below (c_weight c) edge_thres = false)
       (f_calls f1)) !! k' = Some c) by (revert Hc'; by repeat case_match).
    apply map_lookup_filter_Some in Hc'' as [_ [Hin _]].
    simpl. by rewrite !lookup_fmap, !fmap_is_Some.
Qed.

(** C25: [Profile.ratio] (805-816), which computes [TIME_RATIO] from
    [SAMPLES], gives every function of the result a value of the new
    event between 0 and 1, and every call that has the new event a value
    between 0 and 1. *)
Theorem profile_ratio_bounds outevent inevent p p' k f :
  profile_ratio outevent inevent p = Some p' -> p_functions p' !! k = Some f ->
  (exists v, f_events f !! outevent = Some v /\ 0 <= v <= 1) /\
  map_Forall (fun _ c => forall v, c_events c !! outevent = Some v -> 0 <= v <= 1) (f_calls f).
Proof.
  unfold profile_ratio. intros (total & _ & Hp)%bind_Some Hk.
  case_decide; [done|]. apply bind_Some in Hp as (fs & Hfs & Hp). injection Hp as <-. simpl in Hk.
  apply (gmap_mapM_Some_lookup _ _ _ _ _ Hfs) in Hk as (f0 & _ & Hf0).
  case_decide; [done|]. apply bind_Some in Hf0 as (v & _ & Hf0).
  apply bind_Some in Hf0 as (cs & Hcs & Hf0). injection Hf0 as <-. simpl. split.
  - rewrite lookup_insert_eq. eexists. split; [done|]. apply ratio_bounds.
  - intros k' c Hc w Hw.
    apply (gmap_mapM_Some_lookup _ _ _ _ _ Hcs) in Hc as (c0 & _ & Hc0).
    case_decide as Hnone; [done|]. injection Hc0 as <-.
    destruct (c_events c0 !! inevent) as [cv|]; simpl in Hw.
    + rewrite lookup_insert_eq in Hw. injection Hw as <-. apply ratio_bounds.
    + destruct Hnone. by eexists.
Qed.

Lemma validate_wf_witness :
  calls_keyed (validate sample_profile) /\ calls_closed (validate sample_profile).
Proof. apply validate_wf. decide_vm. Defined.

Lemma prune_wf_witness :
  exists p', prune 0 0 (validate sample_profile) = Some p' /\ calls_keyed p' /\ calls_closed p'.
Proof. apply prune_wf; decide_vm. Defined.

Lemma profile_ratio_bounds_witness :
  (exists v, f_events ratio_work !! TIME_RATIO = Some v /\ 0 <= v <= 1) /\
  map_Forall (fun _ c => forall v, c_events c !! TIME_RATIO = Some v -> 0 <= v <= 1) (f_calls ratio_work).
Proof.
  apply (profile_ratio_bounds TIME_RATIO SAMPLES sample_profile ratio_sample "work");
    vm_compute; reflexivity.
Defined.

End Gprof.
