(* ===== verification/GprofRank.v ===== *)
(** [Profile._rank_cycle_function] of [src/gprof2dot.py] (lines 683-732):
    Dijkstra's algorithm over the calls inside one cycle, run by
    [_integrate_cycle] from every function through which time enters the
    cycle.  The ranks it computes decide which calls inside the cycle
    propagate time.

    The heap [Q] of [heapq] is a list; [heappop] returns its least item,
    which is what [heapq] guarantees while the heap invariant holds, and
    the code restores it after the in-place decrease of [Qd[callee]] with
    [_siftdown].  Items are the lists [[cost, parent, member]] compared as
    Python compares lists: the costs, then the parents (the same object,
    or [id()] order, [Object.__lt__]), then the members.  The [id()] order
    is a parameter [id_lt].  Theorems: whatever that order, on a keyed and
    closed call graph the loop ends within its fuel, never raises, and
    its ranks are the lengths of the shortest call paths inside the
    cycle; so they do not depend on the order of objects in memory. *)

From Stdlib Require Import QArith.
From S2P Require Import Prelude GprofModel.

Module GprofRank.

Import Gprof.

(** A loop whose body may raise. *)
Fixpoint opt_fold {A B} (body : B -> A -> option B) (l : list A) (b : B) : option B :=
  match l with
  | [] => Some b
  | x :: l => b' ← body b x; opt_fold body l b'
  end.

Section Rank.

Variable fs : gmap string function.
Variable cy : nat.
(** [Object.__lt__]: [id(self) < id(other)]. *)
Variable id_lt : string -> string -> bool.

(** A heap item [[cost, parent, member]]. *)
Definition item : Type := (nat * string * string)%type.

Definition item_cost (it : item) : nat := it.1.1.
Definition item_member (it : item) : string := it.2.

(** [<] on two items: lexicographic, [==] on functions is identity. *)
Definition item_lt (a b : item) : bool :=
  let '(c1, p1, m1) := a in
  let '(c2, p2, m2) := b in
  Nat.ltb c1 c2 ||
  (Nat.eqb c1 c2 && (if String.eqb p1 p2 then id_lt m1 m2 else id_lt p1 p2)).

Fixpoint min_item (x : item) (l : list item) : item :=
  match l with
  | [] => x
  | y :: l => min_item (if item_lt y x then y else x) l
  end.

Fixpoint remove_item (x : item) (l : list item) : list item :=
  match l with
  | [] => []
  | y :: l => if decide (y = x) then l else y :: remove_item x l
  end.

(** [heapq.heappop]: the least item, removed. *)
Definition heappop (q : list item) : option (item * list item) :=
  match q with
  | [] => None
  | x :: l => let m := min_item x l in Some (m, remove_item m q)
  end.

(** [callee.cycle is cycle], with the [KeyError] of
    [self.functions[call.callee_id]]. *)
Definition in_cycle (fid : string) : option bool :=
  f ← fs !! fid; Some (bool_decide (f_cycle f = Some cy)).

(** The calls of a function, in the order of its [calls] dictionary. *)
Definition calls_of (f : function) : list call := snd <$> map_to_list (f_calls f).

(** One call of [member] (whose [id] is [mid]) in the inner loop of
    lines 713-732: a shorter
    path to a ranked callee updates its item in place ([Q.index] raises
    [ValueError] when the item was popped already), an unranked callee
    is ranked and pushed. *)
Definition relax (member mid : string) (st : list item * gmap string nat) (c : call)
  : option (list item * gmap string nat) :=
  let '(q, ranks) := st in
  if String.eqb (callee_id c) mid then Some st else
  inc ← in_cycle (callee_id c);
  if negb inc then Some st else
  member_rank ← ranks !! member;
  match ranks !! callee_id c with
  | Some rank =>
      if Nat.ltb (1 + member_rank) rank then
        if existsb (fun it => String.eqb (item_member it) (callee_id c)) q
        then Some ((fun it => if String.eqb (item_member it) (callee_id c)
                              then (1 + member_rank, member, callee_id c) else it) <$> q,
                   <[callee_id c := 1 + member_rank]> ranks)
        else None
      else Some st
  | None => Some (q ++ [(1 + member_rank, member, callee_id c)],
                  <[callee_id c := 1 + member_rank]> ranks)
  end.

(** The [while Q] loop (lines 710-732). *)
Fixpoint rank_loop (fuel : nat) (q : list item) (visited : gset string) (ranks : gmap string nat)
  : option (gmap string nat) :=
  match heappop q with
  | None => Some ranks
  | Some (it, q) =>
      match fuel with
      | 0 => None
      | S fuel =>
          let member := item_member it in
          if decide (member ∈ visited) then rank_loop fuel q visited ranks else
          f ← fs !! member;
          '(q, ranks) ← opt_fold (relax member (f_id f)) (calls_of f) (q, ranks);
          rank_loop fuel q ({[member]} ∪ visited) ranks
      end
  end.

(** The first pushes (lines 700-708): the callees in the cycle get rank 1. *)
Definition push_callees (entry eid : string) (st : list item * gmap string nat) (c : call)
  : option (list item * gmap string nat) :=
  let '(q, ranks) := st in
  if String.eqb (callee_id c) eid then Some st else
  inc ← in_cycle (callee_id c);
  if (inc : bool) then Some (q ++ [(1, entry, callee_id c)], <[callee_id c := 1]> ranks)
  else Some st.

(** [_rank_cycle_function(cycle, function, ranks)]: the [ranks] it fills. *)
Definition rank_cycle_function (entry : string) : option (gmap string nat) :=
  f ← fs !! entry;
  '(q, ranks) ← opt_fold (push_callees entry (f_id f)) (calls_of f)
                   ([] : list item, {[entry := 0]} : gmap string nat);
  rank_loop (S (size fs)) q {[entry]} ranks.

End Rank.

(** ** What the ranks mean *)

Section Spec.

Variable fs : gmap string function.
Variable cy : nat.

(** A function of the cycle. *)
Definition member (k : string) : Prop :=
  exists f, fs !! k = Some f /\ f_cycle f = Some cy.

(** A call the walk follows: from [p] to another member of the cycle. *)
Definition edge (p m : string) : Prop :=
  exists fp c, fs !! p = Some fp /\ c ∈ calls_of fp /\ callee_id c = m /\ m <> f_id fp /\
    member m.

(** [R] ranks every function reachable from [entry] inside the cycle
    by the length of a shortest path: [entry] has rank 0, every other
    ranked function is one step further than one of its callers, and no
    call shortens a rank. *)
Definition shortest_ranks (entry : string) (R : gmap string nat) : Prop :=
  R !! entry = Some 0 /\
  (forall m r, R !! m = Some r -> m <> entry ->
     exists p rp, R !! p = Some rp /\ edge p m /\ r = S rp) /\
  (forall p rp m, R !! p = Some rp -> edge p m -> exists rm, R !! m = Some rm /\ rm <= S rp).

(** The members of the cycle not ranked yet. *)
Definition unranked (R : gmap string nat) : gset string :=
  filter (fun k => R !! k = None) (dom (filter (fun kf => f_cycle kf.2 = Some cy) fs)).

(** The measure of the [while Q] loop: every iteration pops an item, and
    an item is only pushed for a member that was not ranked. *)
Definition rank_measure (q : list item) (R : gmap string nat) : nat :=
  length q + size (unranked R).

(** The invariant of the [while Q] loop for the entry [e], the visited
    set [V], the heap [q] and the ranks [R]: the entry has rank 0 and is
    visited; visited functions are ranked; each item carries the rank of
    its member, one more than its visited parent's; every ranked function
    is visited or waits in the heap; visited ranks are at most the cost of
    any item; every visited function but the entry is one step from a
    visited one; ranked functions are members. *)
Definition rank_inv (e : string) (V : gset string) (q : list item) (R : gmap string nat) : Prop :=
  R !! e = Some 0 /\ e ∈ V /\
  (forall v, v ∈ V -> is_Some (R !! v)) /\
  (forall it, it ∈ q -> R !! item_member it = Some (item_cost it) /\
     exists rp, it.1.2 ∈ V /\ R !! it.1.2 = Some rp /\ edge it.1.2 (item_member it) /\
                item_cost it = S rp) /\
  (forall m r, R !! m = Some r -> m ∈ V \/ exists it, it ∈ q /\ item_member it = m) /\
  (forall v rv it, v ∈ V -> R !! v = Some rv -> it ∈ q -> rv <= item_cost it) /\
  (forall v rv, v ∈ V -> v <> e -> R !! v = Some rv ->
     exists p rp, p ∈ V /\ R !! p = Some rp /\ edge p v /\ rv = S rp) /\
  (forall m, m <> e -> is_Some (R !! m) -> member m).

(** The calls of the visited functions have been relaxed. *)
Definition rank_closed (V : gset string) (R : gmap string nat) : Prop :=
  forall p rp m, p ∈ V -> R !! p = Some rp -> edge p m -> exists rm, R !! m = Some rm /\ rm <= S rp.

End Spec.

(** A profile with a cycle: [main] calls [a], [a] and [b] call each
    other, [b] calls [leaf]. *)
Definition cycle_function (fid : string) (cy : option nat) (calls : list string) : function :=
  mk_function fid fid None
    (list_to_map ((fun callee => (callee, mk_call callee (Some 1%Q) None ∅)) <$> calls))
    None cy None ∅.

Definition rank_profile : profile :=
  mk_profile (list_to_map [("main", cycle_function "main" None ["a"]);
                           ("a", cycle_function "a" (Some 0) ["b"]);
                           ("b", cycle_function "b" (Some 0) ["a"; "leaf"]);
                           ("leaf", cycle_function "leaf" None [])])
    [["a"; "b"]] ∅.

(** ** The heap *)

Lemma item_lt_cost id_lt a b :
  (item_lt id_lt a b = true -> item_cost a <= item_cost b) /\
  (item_lt id_lt a b = false -> item_cost b <= item_cost a).
Proof.
  destruct a as [[c1 p1] m1], b as [[c2 p2] m2]. unfold item_lt, item_cost; simpl.
  split; intros H.
  - apply orb_true_iff in H as [H|H]; [apply Nat.ltb_lt in H; lia|].
    apply andb_true_iff in H as [H _]. apply Nat.eqb_eq in H. lia.
  - apply orb_false_iff in H as [H1 _]. apply Nat.ltb_ge in H1. lia.
Qed.

Lemma min_item_spec id_lt x l :
  min_item id_lt x l ∈ x :: l /\
  forall y, y ∈ x :: l -> item_cost (min_item id_lt x l) <= item_cost y.
Proof.
  revert x. induction l as [|z l IH]; intros x; simpl.
  - split; [set_solver|]. intros y ->%list_elem_of_singleton. lia.
  - pose proof (item_lt_cost id_lt z x) as [Ht Hf].
    destruct (IH (if item_lt id_lt z x then z else x)) as [Hin Hle].
    split; [destruct (item_lt id_lt z x); set_solver|].
    intros y Hy. rewrite !elem_of_cons in Hy.
    assert (Hz : z ∈ z :: l) by apply list_elem_of_here.
    assert (Hx : x ∈ x :: l) by apply list_elem_of_here.
    destruct (item_lt id_lt z x) eqn:E; destruct Hy as [-> | [-> | Hy]].
    + etrans; [apply Hle, Hz|]. auto.
    + apply Hle, Hz.
    + apply Hle. by apply list_elem_of_further.
    + apply Hle, Hx.
    + etrans; [apply Hle, Hx|]. auto.
    + apply Hle. by apply list_elem_of_further.
Qed.

Lemma remove_item_spec x l : x ∈ l ->
  length (remove_item x l) = pred (length l) /\
  (forall y, y ∈ remove_item x l -> y ∈ l) /\ (forall y, y ∈ l -> y = x \/ y ∈ remove_item x l).
Proof.
  induction l as [|z l IH]; intros Hx; [set_solver|]. simpl. case_decide as E.
  - subst. split_and!; [done|set_solver|set_solver].
  - assert (Hl : x ∈ l) by set_solver. destruct (IH Hl) as (Hlen & H1 & H2).
    split_and!.
    + simpl. rewrite Hlen. destruct l; [set_solver|simpl; lia].
    + intros y Hy. apply elem_of_cons in Hy as [->|Hy]; set_solver.
    + intros y Hy. apply elem_of_cons in Hy as [->|Hy]; [set_solver|].
      destruct (H2 y Hy); set_solver.
Qed.

Lemma heappop_None id_lt q : heappop id_lt q = None -> q = [].
Proof. by destruct q. Qed.

Lemma heappop_Some id_lt q it q' : heappop id_lt q = Some (it, q') ->
  it ∈ q /\ length q' = pred (length q) /\ (forall y, y ∈ q' -> y ∈ q) /\
  (forall y, y ∈ q -> y = it \/ y ∈ q') /\ (forall y, y ∈ q -> item_cost it <= item_cost y).
Proof.
  destruct q as [|x l]; [done|]. unfold heappop. intros H. injection H as <- <-.
  destruct (min_item_spec id_lt x l) as [Hin Hle].
  destruct (remove_item_spec _ _ Hin) as (? & ? & ?). split_and!; auto.
Qed.

Lemma calls_of_lookup f c : c ∈ calls_of f <-> exists k, f_calls f !! k = Some c.
Proof.
  unfold calls_of. rewrite list_elem_of_fmap. split.
  - intros ([k c'] & -> & Hkc). apply elem_of_map_to_list in Hkc. by exists k.
  - intros [k Hk]. exists (k, c). split; [done|]. by apply elem_of_map_to_list.
Qed.

Lemma elem_of_unranked fs cy R k : k ∈ unranked fs cy R <-> member fs cy k /\ R !! k = None.
Proof.
  unfold unranked, member. rewrite elem_of_filter, elem_of_dom. split.
  - intros [HR [f Hf]]. apply map_lookup_filter_Some in Hf as [Hf Hc]. eauto.
  - intros [(f & Hf & Hc) HR]. split; [done|]. exists f. by apply map_lookup_filter_Some.
Qed.

Lemma unranked_insert_None fs cy R k r :
  member fs cy k -> R !! k = None ->
  S (size (unranked fs cy (<[k := r]> R))) = size (unranked fs cy R).
Proof.
  intros Hm HR.
  assert (Heq : unranked fs cy R = {[k]} ∪ unranked fs cy (<[k := r]> R)).
  { apply set_eq. intros x. rewrite elem_of_union, elem_of_singleton, !elem_of_unranked.
    destruct (decide (x = k)) as [->|Hne]; [rewrite lookup_insert_eq; naive_solver|].
    rewrite lookup_insert_ne by congruence. naive_solver. }
  rewrite Heq, size_union, size_singleton; [lia|].
  apply disjoint_singleton_l. rewrite elem_of_unranked, lookup_insert_eq. naive_solver.
Qed.

Lemma unranked_insert_Some fs cy R k r :
  is_Some (R !! k) -> unranked fs cy (<[k := r]> R) = unranked fs cy R.
Proof.
  intros [r0 Hr0]. apply set_eq. intros x. rewrite !elem_of_unranked.
  destruct (decide (x = k)) as [->|Hne]; [rewrite lookup_insert_eq, Hr0; naive_solver|].
  by rewrite lookup_insert_ne by congruence.
Qed.

Lemma unranked_size fs cy R : size (unranked fs cy R) <= size fs.
Proof.
  unfold unranked. etrans; [apply subseteq_size; intros x Hx; by apply elem_of_filter in Hx as [_ ?]|].
  rewrite <-size_dom. apply subseteq_size, dom_filter_subseteq.
Qed.

(** ** The loop keeps its invariant *)

Section Proofs.

Context (fs : gmap string function) (cy : nat) (id_lt : string -> string -> bool).

(** The profile [PerfParser] builds (see [GprofTyped]): functions stored
    under their ids, calls under their callees, every call leading to a
    function. *)
Hypothesis Hid : forall k f, fs !! k = Some f -> f_id f = k.
Hypothesis Hkeyed : forall k f k' c, fs !! k = Some f -> f_calls f !! k' = Some c -> callee_id c = k'.
Hypothesis Hclosed : forall k f c, fs !! k = Some f -> c ∈ calls_of f -> is_Some (fs !! callee_id c).

Lemma edge_of_call m f c :
  fs !! m = Some f -> c ∈ calls_of f -> callee_id c <> m -> member fs cy (callee_id c) ->
  edge fs cy m (callee_id c).
Proof. intros Hf Hc Hne Hm. exists f, c. rewrite (Hid _ _ Hf). auto. Qed.

Lemma edge_call m f k :
  fs !! m = Some f -> edge fs cy m k ->
  exists c, c ∈ calls_of f /\ callee_id c = k /\ k <> m /\ member fs cy k.
Proof.
  intros Hf (fp & c & Hfp & Hc & <- & Hne & Hm). rewrite Hf in Hfp. injection Hfp as <-.
  rewrite (Hid _ _ Hf) in Hne. eauto.
Qed.

Lemma rank_inv_decrease e V q R m rm k :
  rank_inv fs cy e V q R -> m ∈ V -> R !! m = Some rm -> edge fs cy m k -> k ∉ V ->
  (exists it, it ∈ q /\ item_member it = k) ->
  (forall v rv, v ∈ V -> R !! v = Some rv -> rv <= rm) ->
  rank_inv fs cy e V
    ((fun it => if String.eqb (item_member it) k then (1 + rm, m, k) else it) <$> q)
    (<[k := 1 + rm]> R).
Proof.
  intros (H0 & He & HV & Hq & Hd & Hle & Hp & Hm) Hmv HRm Hedge Hk [it0 [Hit0 Hmem0]] Hvis.
  assert (Hne : forall v, v ∈ V -> v <> k) by (intros v Hv ->; contradiction).
  split_and!.
  - rewrite lookup_insert_ne by (apply not_eq_sym, Hne, He). done.
  - done.
  - intros v Hv. rewrite lookup_insert_ne by (apply not_eq_sym, Hne, Hv). auto.
  - intros it' (it & -> & Hit)%list_elem_of_fmap.
    destruct (String.eqb_spec (item_member it) k) as [Hmk|Hmk].
    + unfold item_member, item_cost; simpl. rewrite lookup_insert_eq. split; [done|].
      exists rm. rewrite lookup_insert_ne by (apply not_eq_sym, Hne, Hmv). auto.
    + destruct (Hq it Hit) as (Hc & rp & HpV & Hrp & Hed & Hcost).
      rewrite !lookup_insert_ne by (done || apply not_eq_sym, Hne, HpV). eauto 10.
  - intros x r Hx. destruct (decide (x = k)) as [->|Hxk].
    + right. exists (1 + rm, m, k). split; [|done]. apply list_elem_of_fmap.
      exists it0. split; [|done]. by rewrite Hmem0, String.eqb_refl.
    + rewrite lookup_insert_ne in Hx by congruence.
      destruct (Hd x r Hx) as [?|(it & Hit & Hmx)]; [by left|right].
      exists it. split; [|done]. apply list_elem_of_fmap. exists it. split; [|done].
      destruct (String.eqb_spec (item_member it) k); [congruence|done].
  - intros v rv it' Hv Hrv (it & -> & Hit)%list_elem_of_fmap.
    rewrite lookup_insert_ne in Hrv by (apply not_eq_sym, Hne, Hv).
    destruct (String.eqb (item_member it) k).
    + unfold item_cost; simpl. specialize (Hvis v rv Hv Hrv). lia.
    + eauto.
  - intros v rv Hv Hve Hrv. rewrite lookup_insert_ne in Hrv by (apply not_eq_sym, Hne, Hv).
    destruct (Hp v rv Hv Hve Hrv) as (p & rp & HpV & Hrp & Hed & ->).
    exists p, rp. rewrite lookup_insert_ne by (apply not_eq_sym, Hne, HpV). auto.
  - intros x Hxe Hx. destruct (decide (x = k)) as [->|Hxk].
    + by destruct Hedge as (_ & _ & _ & _ & _ & _ & ?).
    + rewrite lookup_insert_ne in Hx by congruence. auto.
Qed.

Lemma rank_inv_push e V q R m rm k :
  rank_inv fs cy e V q R -> m ∈ V -> R !! m = Some rm -> edge fs cy m k -> R !! k = None ->
  (forall v rv, v ∈ V -> R !! v = Some rv -> rv <= rm) ->
  rank_inv fs cy e V (q ++ [(1 + rm, m, k)]) (<[k := 1 + rm]> R).
Proof.
  intros (H0 & He & HV & Hq & Hd & Hle & Hp & Hm) Hmv HRm Hedge Hk Hvis.
  assert (Hne : forall v, v ∈ V -> v <> k).
  { intros v Hv ->. destruct (HV k Hv) as [? Hk']. congruence. }
  assert (Hqk : forall it, it ∈ q -> item_member it <> k).
  { intros it Hit Hik. destruct (Hq it Hit) as [Hc _]. congruence. }
  split_and!.
  - rewrite lookup_insert_ne by (apply not_eq_sym, Hne, He). done.
  - done.
  - intros v Hv. rewrite lookup_insert_ne by (apply not_eq_sym, Hne, Hv). auto.
  - intros it' Hit'. apply elem_of_app in Hit' as [Hit| ->%list_elem_of_singleton].
    + destruct (Hq it' Hit) as (Hc & rp & HpV & Hrp & Hed & Hcost).
      rewrite !lookup_insert_ne by (apply Hqk in Hit; congruence || apply not_eq_sym, Hne, HpV).
      eauto 10.
    + unfold item_member, item_cost; simpl. rewrite lookup_insert_eq. split; [done|].
      exists rm. rewrite lookup_insert_ne by (apply not_eq_sym, Hne, Hmv). auto.
  - intros x r Hx. destruct (decide (x = k)) as [->|Hxk].
    + right. exists (1 + rm, m, k). split; [set_solver|done].
    + rewrite lookup_insert_ne in Hx by congruence.
      destruct (Hd x r Hx) as [?|(it & Hit & Hmx)]; [by left|right]. exists it. split; [set_solver|done].
  - intros v rv it' Hv Hrv Hit'. rewrite lookup_insert_ne in Hrv by (apply not_eq_sym, Hne, Hv).
    apply elem_of_app in Hit' as [Hit| ->%list_elem_of_singleton]; [eauto|].
    unfold item_cost; simpl. specialize (Hvis v rv Hv Hrv). lia.
  - intros v rv Hv Hve Hrv. rewrite lookup_insert_ne in Hrv by (apply not_eq_sym, Hne, Hv).
    destruct (Hp v rv Hv Hve Hrv) as (p & rp & HpV & Hrp & Hed & ->).
    exists p, rp. rewrite lookup_insert_ne by (apply not_eq_sym, Hne, HpV). auto.
  - intros x Hxe Hx. destruct (decide (x = k)) as [->|Hxk].
    + by destruct Hedge as (_ & _ & _ & _ & _ & _ & ?).
    + rewrite lookup_insert_ne in Hx by congruence. auto.
Qed.

Lemma relax_step e V q R m rm f c :
  rank_inv fs cy e V q R -> m ∈ V -> R !! m = Some rm -> fs !! m = Some f -> c ∈ calls_of f ->
  (forall v rv, v ∈ V -> R !! v = Some rv -> rv <= rm) ->
  exists q' R', relax fs cy m (f_id f) (q, R) c = Some (q', R') /\ rank_inv fs cy e V q' R' /\
    (forall k r, R !! k = Some r -> exists r', R' !! k = Some r' /\ r' <= r) /\
    (forall v, v ∈ V -> R' !! v = R !! v) /\
    (edge fs cy m (callee_id c) -> exists r', R' !! callee_id c = Some r' /\ r' <= S rm) /\
    rank_measure fs cy q' R' <= rank_measure fs cy q R.
Proof.
  intros Hinv Hm HRm Hf Hc Hvis. pose proof Hinv as (_ & _ & HV & _ & Hd & _).
  rewrite (Hid _ _ Hf). unfold relax.
  assert (Hsame : forall k r, R !! k = Some r -> exists r', R !! k = Some r' /\ r' <= r)
    by (intros k r Hk; exists r; split; [done|lia]).
  destruct (String.eqb_spec (callee_id c) m) as [Hself|Hne].
  { exists q, R. split_and!; auto. intros He. by destruct (edge_call _ _ _ Hf He) as (_ & _ & _ & ? & _). }
  destruct (Hclosed _ _ _ Hf Hc) as [fc Hfc]. unfold in_cycle. rewrite Hfc. simpl.
  destruct (decide (f_cycle fc = Some cy)) as [Hcy|Hcy].
  2:{ rewrite bool_decide_eq_false_2 by done. simpl. exists q, R. split_and!; auto.
      intros He. destruct (edge_call _ _ _ Hf He) as (_ & _ & _ & _ & (fc' & Hfc' & Hcy')).
      congruence. }
  rewrite bool_decide_eq_true_2 by done. simpl. rewrite HRm. simpl.
  assert (Hedge : edge fs cy m (callee_id c)) by (apply edge_of_call with f; eauto; by exists fc).
  destruct (R !! callee_id c) as [rank|] eqn:Hr.
  - destruct (Nat.ltb_spec (S rm) rank) as [Hlt|Hge].
    + assert (HkV : callee_id c ∉ V) by (intros Hv; specialize (Hvis _ _ Hv Hr); lia).
      destruct (Hd _ _ Hr) as [?|Hitem]; [done|].
      destruct Hitem as (it & Hit & Hmem).
      rewrite (proj2 (existsb_exists _ _))
        by (exists it; split; [by apply list_elem_of_In|by rewrite Hmem, String.eqb_refl]).
      eexists _, _. split; [reflexivity|]. split_and!.
      * apply rank_inv_decrease; eauto.
      * intros k r Hk. destruct (decide (k = callee_id c)) as [->|Hkc].
        -- rewrite lookup_insert_eq. exists (1 + rm). split; [done|]. rewrite Hr in Hk. injection Hk. lia.
        -- rewrite lookup_insert_ne by congruence. eauto.
      * intros v Hv. rewrite lookup_insert_ne; [done|]. intros <-. contradiction.
      * intros _. rewrite lookup_insert_eq. eauto.
      * unfold rank_measure. rewrite length_fmap, unranked_insert_Some by (by exists rank). lia.
    + exists q, R. split_and!; auto. intros _. exists rank. split; [done|lia].
  - eexists _, _. split; [reflexivity|]. split_and!.
    + by apply rank_inv_push.
    + intros k r Hk. rewrite lookup_insert_ne by congruence. eauto.
    + intros v Hv. rewrite lookup_insert_ne; [done|]. intros <-.
      destruct (HV _ Hv). congruence.
    + intros _. rewrite lookup_insert_eq. eauto.
    + unfold rank_measure. rewrite length_app.
      rewrite <-(unranked_insert_None fs cy R (callee_id c) (1 + rm)); [simpl; lia| |done].
      by exists fc.
Qed.

Lemma relax_fold e V q R m rm f cs :
  rank_inv fs cy e V q R -> m ∈ V -> R !! m = Some rm -> fs !! m = Some f ->
  (forall c, c ∈ cs -> c ∈ calls_of f) ->
  (forall v rv, v ∈ V -> R !! v = Some rv -> rv <= rm) ->
  exists q' R', opt_fold (relax fs cy m (f_id f)) cs (q, R) = Some (q', R') /\
    rank_inv fs cy e V q' R' /\
    (forall k r, R !! k = Some r -> exists r', R' !! k = Some r' /\ r' <= r) /\
    (forall v, v ∈ V -> R' !! v = R !! v) /\
    (forall c, c ∈ cs -> edge fs cy m (callee_id c) ->
       exists r', R' !! callee_id c = Some r' /\ r' <= S rm) /\
    rank_measure fs cy q' R' <= rank_measure fs cy q R.
Proof.
  revert q R. induction cs as [|c cs IH]; intros q R Hinv Hm HRm Hf Hcs Hvis; cbn [opt_fold].
  { exists q, R. split_and!; auto; [intros k r Hk; exists r; split; [done|lia]|set_solver]. }
  destruct (relax_step e V q R m rm f c) as (q1 & R1 & Hr & Hinv1 & Hmono1 & Hvis1 & Hedge1 & Hmeas1);
    auto; [apply Hcs; set_solver|].
  rewrite Hr. simpl.
  destruct (IH q1 R1) as (q2 & R2 & Hr2 & Hinv2 & Hmono2 & Hvis2 & Hedge2 & Hmeas2); auto.
  { by rewrite Hvis1. }
  { intros c' Hc'. apply Hcs. set_solver. }
  { intros v rv Hv Hrv. rewrite Hvis1 in Hrv by done. eauto. }
  exists q2, R2. split_and!; auto.
  - intros k r Hk. destruct (Hmono1 _ _ Hk) as (r1 & Hr1 & Hle1).
    destruct (Hmono2 _ _ Hr1) as (r2 & ? & ?). exists r2. split; [done|lia].
  - intros v Hv. by rewrite Hvis2, Hvis1.
  - intros c' Hc' He. apply elem_of_cons in Hc' as [-> | Hc']; [|auto].
    destruct (Hedge1 He) as (r1 & Hr1 & Hle1). destruct (Hmono2 _ _ Hr1) as (r2 & ? & ?).
    exists r2. split; [done|lia].
  - lia.
Qed.

Lemma calls_of_nodup e fe : fs !! e = Some fe -> NoDup (callee_id <$> calls_of fe).
Proof.
  intros Hfe. unfold calls_of. rewrite <-list_fmap_compose.
  rewrite (list_fmap_ext _ fst); [apply NoDup_fst_map_to_list|].
  intros i [k c] Hi. simpl. apply (Hkeyed e fe); [done|].
  apply elem_of_map_to_list. by eapply list_elem_of_lookup_2.
Qed.

(** The first pushes are the relaxation of the entry's calls, each callee
    being unranked when it is reached. *)
Lemma push_callees_relax e fe cs q R :
  fs !! e = Some fe -> R !! e = Some 0 -> NoDup (callee_id <$> cs) ->
  (forall c, c ∈ cs -> callee_id c = e \/ R !! callee_id c = None) ->
  opt_fold (push_callees fs cy e (f_id fe)) cs (q, R) = opt_fold (relax fs cy e (f_id fe)) cs (q, R).
Proof.
  intros Hfe. rewrite (Hid _ _ Hfe). revert q R.
  induction cs as [|c cs IH]; intros q R He Hnd Hfresh; [done|].
  rewrite fmap_cons in Hnd. apply NoDup_cons in Hnd as [Hnin Hnd].
  assert (Htail : forall c', c' ∈ cs -> callee_id c' <> callee_id c).
  { intros c' Hc' Heq. apply Hnin, list_elem_of_fmap. eauto. }
  cbn [opt_fold]. unfold push_callees, relax.
  destruct (String.eqb_spec (callee_id c) e) as [Hself|Hne].
  { simpl. apply IH; auto. intros c' Hc'. apply Hfresh. set_solver. }
  destruct (in_cycle fs cy (callee_id c)) as [[|]|]; simpl; [|apply IH; auto; intros c' Hc'; apply Hfresh; set_solver|done].
  rewrite He. simpl. destruct (Hfresh c) as [?| ->]; [set_solver|congruence|]. simpl.
  apply IH; auto.
  - rewrite lookup_insert_ne by congruence. done.
  - intros c' Hc'. destruct (Hfresh c') as [?|Hn]; [set_solver|by left|right].
    rewrite lookup_insert_ne; [done|]. apply not_eq_sym, Htail, Hc'.
Qed.

Lemma rank_loop_spec e fuel q V R :
  rank_inv fs cy e V q R -> rank_closed fs cy V R -> rank_measure fs cy q R < fuel ->
  exists R', rank_loop fs cy id_lt fuel q V R = Some R' /\ shortest_ranks fs cy e R'.
Proof.
  revert q V R. induction fuel as [|fuel IH]; intros q V R Hinv Hcl Hmeas; [lia|].
  pose proof Hinv as (H0 & He & HV & Hq & Hd & Hle & Hp & Hmem).
  destruct (heappop id_lt q) as [[it q']|] eqn:Hpop.
  2:{ apply heappop_None in Hpop as ->. exists R. split; [done|]. split_and!; [done| |].
      - intros x r Hx Hxe. destruct (Hd x r Hx) as [HxV|(? & ? & _)]; [|set_solver].
        destruct (Hp x r HxV Hxe Hx) as (p & rp & _ & ?). eauto.
      - intros p rp x Hrp Hex. destruct (Hd p rp Hrp) as [HpV|(? & ? & _)]; [eauto|set_solver]. }
  destruct (heappop_Some _ _ _ _ Hpop) as (Hit & Hlen & Hsub & Hsplit & Hmin).
  assert (Hmeas' : rank_measure fs cy q' R < fuel).
  { unfold rank_measure in *. destruct q; [set_solver|simpl in *; lia]. }
  cbn [rank_loop]. rewrite Hpop.
  destruct (decide (item_member it ∈ V)) as [HitV|HitV].
  { apply IH; [|done|done]. split_and!; [done|done|done| | | |done|done].
    - intros it' Hit'. apply Hq, Hsub, Hit'.
    - intros x r Hx. destruct (Hd x r Hx) as [?|(it' & Hit' & <-)]; [by left|].
      destruct (Hsplit it' Hit') as [-> | ?]; [by left|right; eauto].
    - intros v rv it' Hv Hrv Hit'. exact (Hle v rv it' Hv Hrv (Hsub it' Hit')). }
  destruct (Hq it Hit) as (Hrm & rp & HpV & Hrp & Hedge & Hcost).
  assert (Hme : item_member it <> e) by (intros Heq; apply HitV; rewrite Heq; done).
  destruct (Hmem _ Hme (ex_intro _ _ Hrm)) as (f & Hf & _).
  rewrite Hf. cbn [mbind option_bind].
  assert (Hinv' : rank_inv fs cy e ({[item_member it]} ∪ V) q' R).
  { split_and!; [done|set_solver| | | | | |done].
    - intros v Hv. apply elem_of_union in Hv as [->%elem_of_singleton | Hv]; [by eexists|auto].
    - intros it' Hit'. destruct (Hq it' (Hsub it' Hit')) as (? & rp' & ? & ? & ? & ?).
      split; [done|]. exists rp'. split_and!; [set_solver|done..].
    - intros x r Hx. destruct (Hd x r Hx) as [?|(it' & Hit' & <-)]; [left; set_solver|].
      destruct (Hsplit it' Hit') as [-> | ?]; [left; set_solver|right; eauto].
    - intros v rv it' Hv Hrv Hit'. apply elem_of_union in Hv as [->%elem_of_singleton | Hv].
      + rewrite Hrm in Hrv. injection Hrv as <-. apply Hmin, Hsub, Hit'.
      + exact (Hle v rv it' Hv Hrv (Hsub it' Hit')).
    - intros v rv Hv Hve Hrv. apply elem_of_union in Hv as [->%elem_of_singleton | Hv].
      + rewrite Hrm in Hrv. injection Hrv as <-. exists it.1.2, rp. split_and!; [set_solver|done..].
      + destruct (Hp v rv Hv Hve Hrv) as (p & rp' & ? & ? & ? & ?).
        exists p, rp'. split_and!; [set_solver|done..]. }
  assert (Hvis : forall v rv, v ∈ {[item_member it]} ∪ V -> R !! v = Some rv -> rv <= item_cost it).
  { intros v rv Hv Hrv. apply elem_of_union in Hv as [->%elem_of_singleton | Hv].
    - rewrite Hrm in Hrv. injection Hrv as <-. done.
    - exact (Hle v rv it Hv Hrv Hit). }
  destruct (relax_fold e ({[item_member it]} ∪ V) q' R (item_member it) (item_cost it) f (calls_of f))
    as (q2 & R2 & Hfold & Hinv2 & Hmono & Hvis2 & Hedges & Hmeas2); auto; [set_solver|].
  rewrite Hfold. cbn [mbind option_bind]. apply IH; [done| |lia].
  intros p rp' x Hp' Hrp' Hex. apply elem_of_union in Hp' as [->%elem_of_singleton | Hp'].
  - rewrite Hvis2 in Hrp' by set_solver. rewrite Hrm in Hrp'. injection Hrp' as <-.
    destruct (edge_call _ _ _ Hf Hex) as (c & Hc & <- & _). auto.
  - rewrite Hvis2 in Hrp' by set_solver. destruct (Hcl p rp' x Hp' Hrp' Hex) as (rx & Hrx & Hle').
    destruct (Hmono _ _ Hrx) as (r2 & ? & ?). exists r2. split; [done|lia].
Qed.

(** [_rank_cycle_function] ends within its fuel, never raises, and ranks
    by shortest paths. *)
Lemma rank_cycle_function_spec e fe :
  fs !! e = Some fe ->
  exists R, rank_cycle_function fs cy id_lt e = Some R /\ shortest_ranks fs cy e R.
Proof.
  intros Hfe. unfold rank_cycle_function. rewrite Hfe. cbn [mbind option_bind].
  rewrite push_callees_relax; [|done|apply lookup_singleton_eq|by eapply calls_of_nodup|].
  2:{ intros c _. destruct (decide (callee_id c = e)) as [->|Hne]; [by left|right].
      by rewrite lookup_singleton_ne by congruence. }
  assert (Hinv0 : rank_inv fs cy e {[e]} [] {[e := 0]}).
  { split_and!; [apply lookup_singleton_eq|set_solver| | |  | | |].
    - intros v ->%elem_of_singleton. rewrite lookup_singleton_eq. by eexists.
    - set_solver.
    - intros x r Hx. left. apply lookup_singleton_Some in Hx as [-> _]. set_solver.
    - set_solver.
    - intros v rv ->%elem_of_singleton. done.
    - intros x Hxe [r Hx]. apply lookup_singleton_Some in Hx as [-> _]. done. }
  destruct (relax_fold e {[e]} [] {[e := 0]} e 0 fe (calls_of fe))
    as (q & R & Hfold & Hinv & Hmono & Hvis & Hedges & Hmeas); auto.
  { set_solver. }
  { apply lookup_singleton_eq. }
  { intros v rv ->%elem_of_singleton Hrv. rewrite lookup_singleton_eq in Hrv. injection Hrv. lia. }
  rewrite Hfold. cbn [mbind option_bind]. apply rank_loop_spec; [done| |].
  - intros p rp x ->%elem_of_singleton Hrp Hex.
    rewrite Hvis, lookup_singleton_eq in Hrp by set_solver. injection Hrp as <-.
    destruct (edge_call _ _ _ Hfe Hex) as (c & Hc & <- & _). auto.
  - unfold rank_measure in *. simpl in Hmeas. pose proof (unranked_size fs cy {[e := 0]}). lia.
Qed.

End Proofs.

(** ** The ranks *)

Lemma shortest_ranks_le fs cy e R1 R2 :
  shortest_ranks fs cy e R1 -> shortest_ranks fs cy e R2 ->
  forall n m r1, R1 !! m = Some r1 -> r1 <= n -> exists r2, R2 !! m = Some r2 /\ r2 <= r1.
Proof.
  intros (H10 & H1p & H1e) (H20 & H2p & H2e) n. induction n as [|n IH]; intros m r1 Hm Hr1;
    (destruct (decide (m = e)) as [->|Hne];
     [rewrite H10 in Hm; injection Hm as <-; exists 0; split; [done|lia]|]);
    destruct (H1p m r1 Hm Hne) as (p & rp & Hp & Hedge & ->); [lia|].
  destruct (IH p rp Hp) as (r2p & Hr2p & Hle); [lia|].
  destruct (H2e p r2p m Hr2p Hedge) as (r2 & Hr2 & Hle2). exists r2. split; [done|lia].
Qed.

Lemma shortest_ranks_unique fs cy e R1 R2 :
  shortest_ranks fs cy e R1 -> shortest_ranks fs cy e R2 -> R1 = R2.
Proof.
  intros H1 H2. apply map_eq. intros m.
  destruct (R1 !! m) as [r1|] eqn:E1; destruct (R2 !! m) as [r2|] eqn:E2; [|exfalso..|done].
  - destruct (shortest_ranks_le _ _ _ _ _ H1 H2 r1 m r1 E1 (le_n _)) as (r2' & E2' & ?).
    destruct (shortest_ranks_le _ _ _ _ _ H2 H1 r2 m r2 E2 (le_n _)) as (r1' & E1' & ?).
    simplify_eq. f_equal. lia.
  - destruct (shortest_ranks_le _ _ _ _ _ H1 H2 r1 m r1 E1 (le_n _)) as (? & ? & _). congruence.
  - destruct (shortest_ranks_le _ _ _ _ _ H2 H1 r2 m r2 E2 (le_n _)) as (? & ? & _). congruence.
Qed.

(** C31: [_rank_cycle_function] is Dijkstra's algorithm on the calls
    inside the cycle.  On a profile whose functions are stored under their
    ids and whose calls are stored under their callees and lead to
    functions (as [PerfParser] builds them), from any function of the
    profile and whatever the [id()] order that breaks ties in the heap,
    the [while Q] loop ends within its fuel, the in-place update of
    [Qd[callee]] always finds its item in the heap (no [ValueError]), and
    the ranks are the lengths of the shortest call paths inside the
    cycle; so every order of the objects in memory gives the same ranks. *)
Theorem rank_cycle_function_shortest p cy id_lt e fe :
  map_Forall (fun k f => f_id f = k) (p_functions p) -> calls_keyed p -> calls_closed p ->
  p_functions p !! e = Some fe ->
  exists R, rank_cycle_function (p_functions p) cy id_lt e = Some R /\
    shortest_ranks (p_functions p) cy e R /\
    forall id_lt', rank_cycle_function (p_functions p) cy id_lt' e = Some R.
Proof.
  intros Hid Hkeyed Hclosed Hfe.
  assert (Hcl : forall k f c, p_functions p !! k = Some f -> c ∈ calls_of f ->
                  is_Some (p_functions p !! callee_id c)).
  { intros k f c Hf (k' & Hk')%calls_of_lookup. rewrite (Hkeyed k f Hf k' c Hk').
    exact (Hclosed k f Hf k' c Hk'). }
  assert (Hk : forall k f k' c, p_functions p !! k = Some f -> f_calls f !! k' = Some c ->
                 callee_id c = k') by (intros k f k' c Hf; exact (Hkeyed k f Hf k' c)).
  destruct (rank_cycle_function_spec (p_functions p) cy id_lt Hid Hk Hcl e fe Hfe)
    as (R & HR & Hs).
  exists R. split_and!; [done|done|]. intros id_lt'.
  destruct (rank_cycle_function_spec (p_functions p) cy id_lt' Hid Hk Hcl e fe Hfe)
    as (R' & HR' & Hs').
  by rewrite HR', (shortest_ranks_unique _ _ _ _ _ Hs' Hs).
Qed.

Lemma rank_cycle_function_shortest_witness :
  exists R, rank_cycle_function (p_functions rank_profile) 0 String.ltb "a" = Some R /\
    R !! "b" = Some 1.
Proof.
  destruct (rank_cycle_function_shortest rank_profile 0 String.ltb "a"
              (cycle_function "a" (Some 0) ["b"])) as (R & HR & _ & _);
    [decide_vm|decide_vm|decide_vm|reflexivity|].
  exists R. split; [done|]. vm_compute in HR. by injection HR as <-.
Defined.

End GprofRank.
