(* ===== verification/GprofCallRatios.v ===== *)
(** Flow conservation of [Profile.call_ratios] ([src/gprof2dot.py],
    lines 525-576).  Pass 1 sums the [SAMPLES2] of the calls entering each
    function ([function_totals]) and of the calls entering each cycle from
    outside it ([cycle_totals]); pass 2 divides each call's count by the
    total of its callee, or of the callee's cycle for a call from outside.
    Theorem: the ratios of the calls entering a function outside cycles,
    and those of the calls entering a cycle from outside, add up to one,
    so [integrate] hands the whole time of a callee (or cycle) to its
    callers.  Sums of floats are sums of exact rationals, compared with
    [==]. *)

From Stdlib Require Import QArith Qfield Lqa.
From S2P Require Import Prelude GprofModel.

Module GprofCallRatios.

Import Gprof.

Local Open Scope Q_scope.

(** Every call of the profile, with its caller, in dictionary order. *)
Definition all_calls (fs : gmap string function) : list (function * call) :=
  map_to_list fs ≫= (fun kf => (fun kc => (kf.2, kc.2)) <$> map_to_list (f_calls kf.2)).

Definition sumQ (l : list Q) : Q := foldr Qplus 0 l.

(** The sum of [w] over the calls satisfying [P]. *)
Definition calls_sum (P : function * call -> bool) (w : function * call -> Q)
    (fs : gmap string function) : Q :=
  sumQ (w <$> filter (fun x => P x = true) (all_calls fs)).

(** A call counted in [function_totals[g]]: not a self call, to [g]. *)
Definition into_function (g : string) (x : function * call) : bool :=
  bool_decide (callee_id x.2 <> f_id x.1 /\ callee_id x.2 = g).

(** A call counted in [cycle_totals[cy]]: from outside the cycle into it. *)
Definition into_cycle (p : profile) (cy : nat) (x : function * call) : bool :=
  bool_decide (callee_id x.2 <> f_id x.1) &&
  match p_functions p !! callee_id x.2 with
  | Some callee => bool_decide (entering_cycle p x.1 callee = Some cy)
  | None => false
  end.

Definition event_of (e : event) (x : function * call) : Q := default 0 (c_events x.2 !! e).
Definition ratio_of (x : function * call) : Q := default 0 (c_ratio x.2).

(** What pass 2 makes of a call, and of a function. *)
Definition ratio_call (e : event) (p : profile) (f : function) (c : call) : call :=
  mk_call (callee_id c) (match call_ratio_of e p f c with Some r => r | None => c_ratio c end)
    (c_weight c) (c_events c).

Definition ratio_function (e : event) (p : profile) (f : function) : function :=
  set_calls f (ratio_call e p f <$> f_calls f).

(** A call after pass 2, with its caller after pass 2. *)
Definition ratio_pair (e : event) (p : profile) (x : function * call) : function * call :=
  (ratio_function e p x.1, ratio_call e p x.1 x.2).

(** The counts of [e] on the calls are not negative. *)
Definition calls_nonneg (e : event) (p : profile) : Prop :=
  map_Forall (fun _ f => map_Forall (fun _ c => Qle_bool 0 (default 0 (c_events c !! e)) = true)
                           (f_calls f)) (p_functions p).

(** A diamond [main -> a, b -> leaf] with a self call of [b]: [leaf] is
    entered by 3 calls from [a] and 1 from [b]. *)
Definition flow_function (fid : string) (calls : list (string * Q)) : function :=
  mk_function fid fid None
    (list_to_map ((fun '(callee, n) => (callee, mk_call callee None None (<[SAMPLES2 := n]> ∅))) <$> calls))
    None None None ∅.

Definition flow_profile : profile :=
  mk_profile (list_to_map [("main", flow_function "main" [("a", 2); ("b", 1)]);
                           ("a", flow_function "a" [("leaf", 3)]);
                           ("b", flow_function "b" [("leaf", 1); ("b", 5)]);
                           ("leaf", flow_function "leaf" [])]) [] ∅.

(** ** Sums *)

Lemma sumQ_app l1 l2 : sumQ (l1 ++ l2) == sumQ l1 + sumQ l2.
Proof. unfold sumQ. induction l1 as [|x l1 IH]; cbn [foldr fmap list_fmap app]; [ring|]. rewrite IH. ring. Qed.

Lemma sumQ_ext {A} (f g : A -> Q) l :
  (forall x, x ∈ l -> f x == g x) -> sumQ (f <$> l) == sumQ (g <$> l).
Proof.
  unfold sumQ. induction l as [|x l IH]; intros Hfg; cbn [foldr fmap list_fmap app]; [reflexivity|].
  rewrite (Hfg x) by set_solver. rewrite IH by (intros y Hy; apply Hfg; set_solver). reflexivity.
Qed.

Lemma sumQ_div {A} (v : A -> Q) l T : sumQ ((fun x => v x / T) <$> l) == sumQ (v <$> l) / T.
Proof.
  unfold sumQ. induction l as [|x l IH]; cbn [foldr fmap list_fmap app]; [unfold Qdiv; ring|]. rewrite IH. unfold Qdiv. ring.
Qed.

Lemma sumQ_nonneg {A} (v : A -> Q) l : (forall x, x ∈ l -> 0 <= v x) -> 0 <= sumQ (v <$> l).
Proof.
  unfold sumQ. induction l as [|x l IH]; intros Hv; cbn [foldr fmap list_fmap app]; [apply Qle_refl|].
  pose proof (Hv x ltac:(set_solver)). pose proof (IH (fun y Hy => Hv y ltac:(set_solver))). lra.
Qed.

Lemma elem_le_sumQ {A} (v : A -> Q) l x :
  (forall y, y ∈ l -> 0 <= v y) -> x ∈ l -> v x <= sumQ (v <$> l).
Proof.
  induction l as [|y l IH]; intros Hv Hx; [set_solver|].
  change (sumQ (v <$> y :: l)) with (v y + sumQ (v <$> l)).
  apply elem_of_cons in Hx as [->|Hx].
  - pose proof (sumQ_nonneg v l (fun z Hz => Hv z ltac:(set_solver))). lra.
  - pose proof (IH (fun z Hz => Hv z ltac:(set_solver)) Hx). pose proof (Hv y ltac:(set_solver)). lra.
Qed.

(** [ratio] of a part of a positive total is the plain quotient. *)
Lemma ratio_part v T : 0 < T -> 0 <= v -> v <= T -> ratio v T == v / T.
Proof.
  intros HT Hv HvT. unfold ratio.
  destruct (Qeq_bool T 0) eqn:E; [apply Qeq_bool_eq in E; rewrite E in HT; discriminate|].
  destruct (Qlt_le_dec (v / T) 0) as [Hlt|_].
  { exfalso. apply (Qlt_not_le _ _ Hlt). apply Qle_shift_div_l; [done|]. lra. }
  destruct (Qlt_le_dec 1 (v / T)) as [Hlt|_]; [|reflexivity].
  exfalso. apply (Qlt_not_le _ _ Hlt). apply Qle_shift_div_r; [done|]. lra.
Qed.

(** Dividing the parts of a positive total by it gives ratios adding up
    to one. *)
Lemma ratios_sum_one {A} (v : A -> Q) l T :
  (forall x, x ∈ l -> 0 <= v x) -> T == sumQ (v <$> l) -> 0 < T ->
  sumQ ((fun x => ratio (v x) T) <$> l) == 1.
Proof.
  intros Hv HT HT0. rewrite (sumQ_ext _ (fun x => v x / T)).
  - rewrite sumQ_div, <- HT. field. intros H0. rewrite H0 in HT0. discriminate.
  - intros x Hx. apply ratio_part; [done|by apply Hv|]. rewrite HT. by apply elem_le_sumQ.
Qed.

(** ** The double loops of pass 1 *)

Lemma foldr_calls_sum (step : function -> call -> Q -> Q) (P : function * call -> bool) (w : function * call -> Q) f (cl : list (string * call)) a :
  (forall c acc, step f c acc = if P (f, c) then acc + w (f, c) else acc) ->
  foldr (uncurry (fun (_ : string) c acc => step f c acc)) a cl ==
  a + sumQ (w <$> filter (fun x => P x = true) ((fun kc => (f, kc.2)) <$> cl)).
Proof.
  intros Hstep. unfold sumQ. induction cl as [|[k c] cl IH]; cbn [foldr fmap list_fmap uncurry].
  { rewrite filter_nil. cbn [foldr fmap list_fmap]. ring. }
  rewrite Hstep, filter_cons. cbn [snd]. destruct (P (f, c)) eqn:EP.
  - rewrite decide_True by done. cbn [foldr fmap list_fmap]. rewrite IH. ring.
  - rewrite decide_False by done. exact IH.
Qed.

Lemma fold_calls_sum (step : function -> call -> Q -> Q) (P : function * call -> bool) (w : function * call -> Q) fs :
  (forall f c acc, step f c acc = if P (f, c) then acc + w (f, c) else acc) ->
  map_fold (fun _ f acc => map_fold (fun _ c acc => step f c acc) acc (f_calls f)) 0 fs ==
  calls_sum P w fs.
Proof.
  intros Hstep. unfold calls_sum, all_calls. rewrite map_fold_foldr.
  generalize (map_to_list fs) as L. intros L.
  induction L as [|[k f] L IH]; simpl; [reflexivity|].
  rewrite map_fold_foldr, foldr_calls_sum by apply Hstep.
  rewrite IH, filter_app, fmap_app, sumQ_app. apply Qplus_comm.
Qed.

Lemma function_total_sum e p g :
  function_total e p g == calls_sum (into_function g) (event_of e) (p_functions p).
Proof.
  unfold function_total. apply fold_calls_sum. intros f c acc.
  unfold into_function, event_of; cbn [fst snd].
  case_bool_decide; [rewrite decide_True|rewrite decide_False]; done.
Qed.

Lemma cycle_total_sum e p cy :
  cycle_total e p cy == calls_sum (into_cycle p cy) (event_of e) (p_functions p).
Proof.
  unfold cycle_total. apply fold_calls_sum. intros f c acc.
  unfold into_cycle, event_of; cbn [fst snd].
  destruct (decide (callee_id c ≠ f_id f)) as [Hn|Hn].
  - rewrite bool_decide_true by done. cbn [andb].
    destruct (p_functions p !! callee_id c) as [callee|]; [|done].
    destruct (decide (entering_cycle p f callee = Some cy));
      [rewrite bool_decide_true|rewrite bool_decide_false]; done.
  - rewrite bool_decide_false by done. reflexivity.
Qed.

(** ** Pass 2 maps every call by [ratio_call] *)

Lemma gmap_mapM_Some_is_Some {K A B} `{Countable K} (g : A -> option B) (m : gmap K A) m' k a :
  gmap_mapM g m = Some m' -> m !! k = Some a -> is_Some (g a).
Proof.
  unfold gmap_mapM. intros (l & Hl & _)%fmap_Some Hk.
  apply mapM_Some_1 in Hl. apply elem_of_map_to_list, list_elem_of_lookup_1 in Hk as [i Hi].
  destruct (Forall2_lookup_l _ _ _ _ _ Hl Hi) as (y & _ & Hy). simpl in Hy.
  destruct (g a); [by eexists|discriminate].
Qed.

(** A loop that succeeds and whose body computes [h] maps the dictionary
    by [h]. *)
Lemma gmap_mapM_fmap {K A B} `{Countable K} (g : A -> option B) (h : A -> B) (m : gmap K A) m' :
  gmap_mapM g m = Some m' -> (forall k a b, m !! k = Some a -> g a = Some b -> b = h a) ->
  m' = h <$> m.
Proof.
  intros Hm Hh. apply map_eq. intros k. rewrite (gmap_mapM_lookup g m m' k Hm), lookup_fmap.
  destruct (m !! k) as [a|] eqn:Ek; simpl; [|done].
  destruct (gmap_mapM_Some_is_Some g m m' k a Hm Ek) as [b Eb]. rewrite Eb. f_equal. eauto.
Qed.

Lemma call_ratios_functions e p p' :
  call_ratios e p = Some p' -> p_functions p' = ratio_function e p <$> p_functions p.
Proof.
  unfold call_ratios. destruct (gmap_mapM _ (p_functions p)) as [fs|] eqn:E; intros; simplify_eq/=.
  apply (gmap_mapM_fmap _ _ _ _ E). intros k f b _ Hb.
  destruct (gmap_mapM _ (f_calls f)) as [cs|] eqn:Ec; simplify_eq/=.
  unfold ratio_function. f_equal. apply (gmap_mapM_fmap _ _ _ _ Ec). intros k' c c' _ Hc.
  destruct (decide (is_Some (c_ratio c))); [discriminate|].
  unfold ratio_call. destruct (call_ratio_of e p f c); by simplify_eq/=.
Qed.

Lemma all_calls_ratio e p fs :
  all_calls (ratio_function e p <$> fs) = ratio_pair e p <$> all_calls fs.
Proof.
  unfold all_calls. rewrite map_to_list_fmap.
  induction (map_to_list fs) as [|[k f] l IH]; [done|]. csimpl. rewrite IH, fmap_app. f_equal.
  change (f_calls (ratio_function e p f)) with (ratio_call e p f <$> f_calls f).
  rewrite map_to_list_fmap, <- !list_fmap_compose. by apply list_fmap_ext.
Qed.

Lemma filter_fmap_stable (P : function * call -> bool) (h : function * call -> function * call)
    (l : list (function * call)) :
  (forall x, P (h x) = P x) ->
  filter (fun x => P x = true) (h <$> l) = h <$> filter (fun x => P x = true) l.
Proof.
  intros HP. induction l as [|x l IH]; [done|]. rewrite fmap_cons, !filter_cons.
  repeat case_decide; rewrite ?fmap_cons, IH; congruence.
Qed.

Lemma elem_of_all_calls fs x :
  x ∈ all_calls fs -> exists k k', fs !! k = Some x.1 /\ f_calls x.1 !! k' = Some x.2.
Proof.
  unfold all_calls. intros ([k f] & Hx & Hf)%list_elem_of_bind.
  apply list_elem_of_fmap in Hx as ([k' c] & -> & Hc). apply elem_of_map_to_list in Hf, Hc.
  by exists k, k'.
Qed.

Lemma calls_nonneg_event e p x :
  calls_nonneg e p -> x ∈ all_calls (p_functions p) -> 0 <= event_of e x.
Proof.
  intros Hnn (k & k' & Hf & Hc)%elem_of_all_calls. apply Qle_bool_iff. exact (Hnn _ _ Hf _ _ Hc).
Qed.

Lemma ratio_zero T : 0 < T -> 0 == ratio 0 T.
Proof. intros HT. rewrite ratio_part; [|done|apply Qle_refl|lra]. unfold Qdiv. ring. Qed.

(** The ratio pass 2 gives a call entering [g], a function outside cycles. *)
Lemma ratio_pair_function e p x g fg :
  into_function g x = true -> p_functions p !! g = Some fg -> f_cycle fg = None ->
  0 < function_total e p g -> ratio_of (ratio_pair e p x) == ratio (event_of e x) (function_total e p g).
Proof.
  intros Hin Hg Hcy HT. apply bool_decide_eq_true in Hin as [Hne Heq].
  unfold ratio_of, ratio_pair, ratio_call, call_ratio_of, event_of; cbn [fst snd c_ratio].
  rewrite decide_False by done. rewrite Heq, Hg. cbn [mbind option_bind].
  unfold entering_cycle. rewrite Hcy.
  destruct (c_events x.2 !! e); simpl; [reflexivity|by apply ratio_zero].
Qed.

(** The ratio pass 2 gives a call entering cycle [cy] from outside. *)
Lemma ratio_pair_cycle e p cy x :
  into_cycle p cy x = true -> 0 < cycle_total e p cy ->
  ratio_of (ratio_pair e p x) == ratio (event_of e x) (cycle_total e p cy).
Proof.
  unfold into_cycle. intros [Hne Hc]%andb_true_iff HT. apply bool_decide_eq_true in Hne.
  destruct (p_functions p !! callee_id x.2) as [callee|] eqn:Ecallee; [|discriminate].
  apply bool_decide_eq_true in Hc.
  unfold ratio_of, ratio_pair, ratio_call, call_ratio_of, event_of; cbn [fst snd c_ratio].
  rewrite decide_False by done. rewrite Ecallee. cbn [mbind option_bind]. rewrite Hc.
  destruct (c_events x.2 !! e); simpl; [reflexivity|by apply ratio_zero].
Qed.

(** The calls selected by [P] share the total [T]: their ratios after pass
    2 add up to one. *)
Lemma calls_sum_ratio_one e p (P : function * call -> bool) T :
  calls_nonneg e p -> (forall x, P (ratio_pair e p x) = P x) ->
  T == calls_sum P (event_of e) (p_functions p) -> 0 < T ->
  (forall x, P x = true -> ratio_of (ratio_pair e p x) == ratio (event_of e x) T) ->
  calls_sum P ratio_of (ratio_function e p <$> p_functions p) == 1.
Proof.
  intros Hnn HP HT HT0 Hr. unfold calls_sum.
  rewrite all_calls_ratio, filter_fmap_stable by done. rewrite <- list_fmap_compose.
  rewrite (sumQ_ext _ (fun x => ratio (event_of e x) T)).
  - apply ratios_sum_one; [|done..]. intros x [_ Hx]%list_elem_of_filter.
    by apply (calls_nonneg_event e p).
  - intros x [Hx _]%list_elem_of_filter. by apply Hr.
Qed.

(** ** Flow conservation *)

(** C32: After [Profile.call_ratios(event)] succeeds on a profile whose
    call counts are not negative, the ratios of the calls entering a
    function outside cycles (self calls excluded) add up to one when that
    function's incoming total is positive, and so do the ratios of the
    calls entering a cycle from outside it when the cycle's total is
    positive. *)
Theorem call_ratios_conserve e p p' :
  calls_nonneg e p -> call_ratios e p = Some p' ->
  (forall g fg, p_functions p !! g = Some fg -> f_cycle fg = None -> 0 < function_total e p g ->
     calls_sum (into_function g) ratio_of (p_functions p') == 1) /\
  (forall cy, 0 < cycle_total e p cy -> calls_sum (into_cycle p cy) ratio_of (p_functions p') == 1).
Proof.
  intros Hnn Hp. rewrite (call_ratios_functions e p p' Hp). split.
  - intros g fg Hg Hcy HT.
    apply (calls_sum_ratio_one e p _ (function_total e p g)); [done|done|apply function_total_sum|done|].
    intros x Hx. by apply (ratio_pair_function e p x g fg).
  - intros cy HT.
    apply (calls_sum_ratio_one e p _ (cycle_total e p cy)); [done|done|apply cycle_total_sum|done|].
    intros x Hx. by apply ratio_pair_cycle.
Qed.

Lemma call_ratios_conserve_witness :
  exists p', call_ratios SAMPLES2 flow_profile = Some p' /\
    calls_sum (into_function "leaf") ratio_of (p_functions p') == 1.
Proof.
  destruct (call_ratios SAMPLES2 flow_profile) as [p'|] eqn:E; [|vm_compute in E; discriminate].
  exists p'. split; [reflexivity|].
  assert (Hnn : calls_nonneg SAMPLES2 flow_profile) by (apply (bool_decide_unpack _); vm_compute; reflexivity).
  apply (proj1 (call_ratios_conserve SAMPLES2 flow_profile p' Hnn E) "leaf" (flow_function "leaf" []));
    vm_compute; reflexivity.
Defined.

End GprofCallRatios.
