(* ===== verification/GprofReach.v ===== *)
(** [Profile.prune_root] and [Profile.prune_leaf] of [src/gprof2dot.py]
    (lines 375-428), run by [main] for the [--root] and [--leaf] options
    (lines 3988-4007).

    Both methods run the same loop: a [frontier] set of (node, depth)
    pairs from which [frontier.pop()] takes an element, a [visited] set,
    and a successor set per node (the keys of [self.functions[node].calls]
    going down from the roots, which raises [KeyError] for an unknown
    node; the callers collected in the defaultdict [edgesUp] going up from
    the leaves).  CPython pops a set in hash order, and string hashes are
    randomised per process, so the pop order is a parameter: the loop is
    a step relation [wstep] (any element may be popped) and an executable
    [walk] over a chooser [pick].  The loop state is [wstate]; one
    iteration is [pop_step]; [None] is the [KeyError].

    Theorems: every run of the loop ends (a lexicographic measure on the
    unvisited nodes and the frontier pairs of visited nodes, [wlt_wf]);
    with no depth limit ([depth < 0], the default [-1]) the loop visits
    exactly the nodes reachable from its start nodes, whatever the pop
    order, so [prune_root] keeps the functions reachable from the roots
    with all their calls and [prune_leaf] the functions from which a leaf
    is reachable with their calls among them; with a depth limit
    [d >= 0] the loop stays within [d] steps of the start nodes and
    visits the start nodes and, for [d <> 0], their successors, while the
    rest depends on the pop order and can miss a function within the
    depth. *)

From S2P Require Import Prelude GprofModel.

Module GprofReach.

Import Gprof.

(** The loop's [visited] and [frontier] sets. *)
Record wstate := mk_wstate {
  w_visited : gset string;
  w_frontier : gset (string * Z)
}.

(** What a loop of the module returns: its result, the [KeyError] of a
    dictionary lookup, or the end of the fuel of the executable model. *)
Inductive outcome (A : Type) := Done (a : A) | KeyError | NoFuel.
Arguments Done {A} a.
Arguments KeyError {A}.
Arguments NoFuel {A}.

Definition outcome_bind {A B} (m : outcome A) (f : A -> outcome B) : outcome B :=
  match m with Done a => f a | KeyError => KeyError | NoFuel => NoFuel end.

Definition of_option {A} (m : option A) : outcome A :=
  match m with Some a => Done a | None => KeyError end.

Section Walk.

(** The successors of a node, [None] when looking them up raises. *)
Variable succ : string -> option (gset string).

(** One iteration of [while len(frontier) > 0] on the pair
    [frontier.pop()] returned:
    [visited.add(node)]; unless [node_depth == 0], the successors not yet
    visited join the frontier one level deeper. *)
Definition pop_step (st : wstate) (x : string * Z) : option wstate :=
  let '(node, node_depth) := x in
  let frontier := w_frontier st ∖ {[x]} in
  let visited := {[node]} ∪ w_visited st in
  if decide (node_depth = 0%Z) then Some (mk_wstate visited frontier)
  else
    newNodes ← succ node;
    Some (mk_wstate visited
            (frontier ∪ set_map (fun n => (n, (node_depth - 1)%Z)) (newNodes ∖ visited))).

(** The loop as a step relation: any element of the frontier may be
    popped. *)
Inductive wstep : wstate -> wstate -> Prop :=
  | wstep_pop st x st' :
      x ∈ w_frontier st -> pop_step st x = Some st' -> wstep st st'.

(** [frontier = set([(root_node, depth) for root_node in roots])] with
    nothing visited. *)
Definition walk_init (starts : list string) (depth : Z) : wstate :=
  mk_wstate ∅ (list_to_set ((fun r => (r, depth)) <$> starts)).

(** The executable loop: [pick] is [frontier.pop()], [None] on an empty
    frontier. *)
Fixpoint walk (pick : gset (string * Z) -> option (string * Z)) (fuel : nat) (st : wstate)
    : outcome wstate :=
  match pick (w_frontier st) with
  | None => Done st
  | Some x =>
      match fuel with
      | 0 => NoFuel
      | S fuel => outcome_bind (of_option (pop_step st x)) (walk pick fuel)
      end
  end.

(** A chooser behaves as [set.pop]: it returns an element of a non-empty
    set and nothing of the empty set. *)
Definition pick_valid (pick : gset (string * Z) -> option (string * Z)) : Prop :=
  forall F, (pick F = None -> F = ∅) /\ (forall x, pick F = Some x -> x ∈ F).

(** A successor of a node, and the nodes reachable from a start node. *)
Definition edge (n m : string) : Prop := exists S, succ n = Some S /\ m ∈ S.

Definition reach (starts : list string) (n : string) : Prop :=
  exists r, r ∈ starts /\ rtc edge r n.

(** The termination measure, over a set [U] holding every successor. *)
Definition nodes (F : gset (string * Z)) : gset string := set_map fst F.

Definition unvisited (U : gset string) (st : wstate) : nat :=
  size ((U ∪ nodes (w_frontier st)) ∖ w_visited st).

Definition revisits (st : wstate) : nat :=
  size (filter (fun x => x.1 ∈ w_visited st) (w_frontier st)).

Definition wlt (U : gset string) (st' st : wstate) : Prop :=
  unvisited U st' < unvisited U st \/
  (unvisited U st' = unvisited U st /\ revisits st' < revisits st).

(** The invariant of a run without depth limit: every depth is negative,
    every start node and every successor of a visited node is visited or
    waits in the frontier, and every node met is reachable. *)
Definition neg_inv (starts : list string) (st : wstate) : Prop :=
  (forall x, x ∈ w_frontier st -> (x.2 < 0)%Z) /\
  (forall r, r ∈ starts -> r ∈ w_visited st \/ exists d, (r, d) ∈ w_frontier st) /\
  (forall n, n ∈ w_visited st -> exists S, succ n = Some S /\
     forall m, m ∈ S -> m ∈ w_visited st \/ exists d, (m, d) ∈ w_frontier st) /\
  (forall n, (n ∈ w_visited st \/ exists d, (n, d) ∈ w_frontier st) -> reach starts n).

(** The nodes at most [k] successor steps from a start node. *)
Definition within (starts : list string) (n : string) (k : nat) : Prop :=
  exists r j, r ∈ starts /\ j <= k /\ nsteps edge j r n.

(** The invariant of a run with depth limit [d >= 0]: a pair [(m, e)]
    waits with [0 <= e <= d] and [m] within [d - e] steps, every visited
    node is within [d] steps, and every start pair still waits or its
    node is visited with, when [d <> 0], its successors visited or
    waiting. *)
Definition depth_inv (starts : list string) (d : Z) (st : wstate) : Prop :=
  (forall m e, (m, e) ∈ w_frontier st -> (0 <= e <= d)%Z /\ within starts m (Z.to_nat (d - e))) /\
  (forall n, n ∈ w_visited st -> within starts n (Z.to_nat d)) /\
  (forall r, r ∈ starts -> (r, d) ∈ w_frontier st \/
     (r ∈ w_visited st /\ (d <> 0%Z -> exists S, succ r = Some S /\
        forall m, m ∈ S -> m ∈ w_visited st \/ exists e, (m, e) ∈ w_frontier st))).

End Walk.

(** ** The two methods *)

(** [set(f.calls.keys())] for [f = self.functions[node]]: [None] is the
    [KeyError] of an unknown node. *)
Definition root_succ (p : profile) (n : string) : option (gset string) :=
  (fun f => dom (f_calls f)) <$> p_functions p !! n.

(** [edgesUp = collections.defaultdict(set)]; [for f in
    self.functions.keys(): for n in self.functions[f].calls.keys():
    edgesUp[n].add(f)]. *)
Definition edges_up (p : profile) : gmap string (gset string) :=
  map_fold (fun k f acc =>
    map_fold (fun n _ acc => <[n := {[k]} ∪ default ∅ (acc !! n)]> acc) acc (f_calls f))
    ∅ (p_functions p).

(** [edgesUp[node]]: a defaultdict never raises. *)
Definition leaf_succ (p : profile) (n : string) : option (gset string) :=
  Some (default ∅ (edges_up p !! n)).

(** [newCalls]: the calls to kept nodes. *)
Definition restrict_calls (keep : gset string) (f : function) : function :=
  set_calls f (filter (fun kc => kc.1 ∈ keep) (f_calls f)).

(** The second loop of both methods: [for n in visited: f =
    self.functions[n]; f.calls = newCalls; subtreeFunctions[n] = f], then
    [self.functions = subtreeFunctions]. *)
Definition restrict (keep : gset string) (p : profile) : option profile :=
  fs ← mapM (fun n => f ← p_functions p !! n; Some (n, restrict_calls keep f)) (elements keep);
  Some (set_functions p (list_to_map fs)).

(** [Profile.prune_root(roots, depth)] (375-397). *)
Definition prune_root (pick : gset (string * Z) -> option (string * Z)) (fuel : nat)
    (roots : list string) (depth : Z) (p : profile) : outcome profile :=
  outcome_bind (walk (root_succ p) pick fuel (walk_init roots depth))
    (fun st => of_option (restrict (w_visited st) p)).

(** [Profile.prune_leaf(leafs, depth)] (399-428): [path] is
    [set(self.functions.keys())] intersected with the visited nodes. *)
Definition prune_leaf (pick : gset (string * Z) -> option (string * Z)) (fuel : nat)
    (leafs : list string) (depth : Z) (p : profile) : outcome profile :=
  outcome_bind (walk (leaf_succ p) pick fuel (walk_init leafs depth))
    (fun st => of_option (restrict (dom (p_functions p) ∩ w_visited st) p)).

(** Every successor of [root_succ] is a callee of some function. *)
Definition callees_of (p : profile) : gset string :=
  ⋃ ((fun kf : string * function => dom (f_calls kf.2)) <$> map_to_list (p_functions p)).

(** A call from [n] to [m], and the functions reachable from a list of
    start functions. *)
Definition call_edge (p : profile) (n m : string) : Prop :=
  exists f, p_functions p !! n = Some f /\ m ∈ dom (f_calls f).

Definition reachable (p : profile) (starts : list string) (n : string) : Prop :=
  exists r, r ∈ starts /\ rtc (call_edge p) r n.

(** The functions of [A], each with its calls into [A]. *)
Definition keep_functions (A : gset string) (fs : gmap string function) : gmap string function :=
  restrict_calls A <$> filter (fun kf => kf.1 ∈ A) fs.

(** A chooser that pops the pairs of the nodes in the order of [prio],
    then in the order of [elements]. *)
Fixpoint pick_prio (prio : list string) (F : gset (string * Z)) : option (string * Z) :=
  match prio with
  | [] => head (elements F)
  | n :: prio =>
      match head (filter (fun x => x.1 = n) (elements F)) with
      | Some x => Some x
      | None => pick_prio prio F
      end
  end.

(** A profile in which [x] is three calls below [a] along
    [a -> p -> c -> x], while [c] is also three calls below [a] along
    [a -> b -> q -> c]. *)
Definition reach_function (fid : string) (callees : list string) : function :=
  mk_function fid fid None
    (list_to_map ((fun c => (c, mk_call c None None ∅)) <$> callees)) None None None ∅.

Definition depth_profile : profile :=
  mk_profile (list_to_map [("a", reach_function "a" ["b"; "p"]);
                           ("b", reach_function "b" ["q"]);
                           ("q", reach_function "q" ["c"]);
                           ("p", reach_function "p" ["c"]);
                           ("c", reach_function "c" ["x"]);
                           ("x", reach_function "x" [])]) [] ∅.

(** ** The loop ends *)

Section WalkProofs.

Variable succ : string -> option (gset string).

Lemma elem_of_nodes n F : n ∈ nodes F <-> exists d, (n, d) ∈ F.
Proof.
  unfold nodes. rewrite elem_of_map. split.
  - intros ([n' d] & -> & Hx). by exists d.
  - intros [d Hd]. by exists (n, d).
Qed.

(** Popping [x] from a frontier holding it, in one of the two outcomes of
    [pop_step]. *)
Lemma pop_step_Some st n d st' :
  pop_step succ st (n, d) = Some st' ->
  w_visited st' = {[n]} ∪ w_visited st /\
  exists New, w_frontier st' = (w_frontier st ∖ {[(n, d)]}) ∪ New /\
    forall m e, (m, e) ∈ New -> d <> 0%Z /\ e = (d - 1)%Z /\
      exists S, succ n = Some S /\ m ∈ S /\ m ∉ {[n]} ∪ w_visited st.
Proof.
  unfold pop_step. case_decide as Hd.
  - intros [= <-]. split; [done|]. exists ∅. split; [set_solver|]. set_solver.
  - destruct (succ n) as [S|] eqn:ES; [|discriminate]. intros [= <-]. split; [done|].
    eexists. split; [reflexivity|]. intros m e (m' & [= -> ->] & Hm)%elem_of_map.
    split_and!; [done|done|]. exists S. set_solver.
Qed.

Lemma size_lt_sub {A} `{Countable A} (X Y : gset A) y : X ⊆ Y -> y ∈ Y -> y ∉ X -> size X < size Y.
Proof. intros HXY Hy HX. apply subset_size. set_solver. Qed.

Lemma pop_step_wlt U st x st' :
  (forall n S, succ n = Some S -> S ⊆ U) ->
  x ∈ w_frontier st -> pop_step succ st x = Some st' -> wlt U st' st.
Proof.
  intros HU Hx. destruct x as [n d]. intros (HV & New & HF & HNew)%pop_step_Some.
  assert (Hnodes : U ∪ nodes (w_frontier st') ⊆ U ∪ nodes (w_frontier st)).
  { intros k. rewrite !elem_of_union, !elem_of_nodes, HF. intros [Hk|[e He]]; [by left|].
    apply elem_of_union in He as [He|He]; [right; exists e; set_solver|].
    destruct (HNew _ _ He) as (_ & _ & S & ES & Hk & _). left. by apply (HU n S). }
  unfold wlt, unvisited, revisits. rewrite HV.
  destruct (decide (n ∈ w_visited st)) as [Hn|Hn].
  - replace ({[n]} ∪ w_visited st) with (w_visited st) by set_solver.
    destruct (decide (size ((U ∪ nodes (w_frontier st')) ∖ w_visited st) =
                      size ((U ∪ nodes (w_frontier st)) ∖ w_visited st))) as [Heq|Hne].
    + right. split; [done|]. apply (size_lt_sub _ _ (n, d)).
      * intros y. rewrite !elem_of_filter, HF, elem_of_union. intros [Hy [Hy'|Hy']]; [set_solver|].
        destruct y as [m e]. destruct (HNew _ _ Hy') as (_ & _ & _ & _ & _ & Hm). set_solver.
      * by apply elem_of_filter.
      * rewrite elem_of_filter, HF, elem_of_union. intros [_ [Hy|Hy]]; [set_solver|].
        destruct (HNew _ _ Hy) as (_ & _ & _ & _ & _ & Hm). set_solver.
    + left. pose proof (subseteq_size ((U ∪ nodes (w_frontier st')) ∖ w_visited st)
                          ((U ∪ nodes (w_frontier st)) ∖ w_visited st) ltac:(set_solver)). lia.
  - left. apply (size_lt_sub _ _ n); [set_solver| |set_solver].
    apply elem_of_difference. split; [|done]. apply elem_of_union_r, elem_of_nodes. by exists d.
Qed.

Lemma wlt_wf U : well_founded (wlt U).
Proof.
  intros st. remember (unvisited U st) as a eqn:Ha. revert st Ha.
  induction a as [a IHa] using lt_wf_ind. intros st Ha.
  remember (revisits st) as b eqn:Hb. revert st Ha Hb.
  induction b as [b IHb] using lt_wf_ind. intros st Ha Hb.
  constructor. intros st' [Hlt|[Heq Hlt]].
  - eapply IHa; [|reflexivity]. lia.
  - eapply IHb; [|lia|reflexivity]. lia.
Qed.

(** Every run of the executable loop ends, with its result or the
    [KeyError], for every chooser: past some fuel the result no longer
    changes. *)
Lemma walk_total U pick st :
  pick_valid pick -> (forall n S, succ n = Some S -> S ⊆ U) ->
  exists N r, r <> NoFuel /\ forall fuel, N <= fuel -> walk succ pick fuel st = r.
Proof.
  intros Hpick HU. induction st as [st IH] using (well_founded_induction (wlt_wf U)).
  destruct (pick (w_frontier st)) as [x|] eqn:E.
  - assert (Hx : x ∈ w_frontier st) by (by apply (proj2 (Hpick (w_frontier st)))).
    destruct (pop_step succ st x) as [st'|] eqn:Ep.
    + destruct (IH st' (pop_step_wlt U st x st' HU Hx Ep)) as (N & r & Hr & HN).
      exists (S N), r. split; [done|]. intros [|fuel] Hf; [lia|].
      cbn [walk]. rewrite E, Ep. apply HN. lia.
    + exists 1, KeyError. split; [done|]. intros [|fuel] Hf; [lia|]. cbn [walk]. by rewrite E, Ep.
  - exists 0, (Done st). split; [done|]. intros [|fuel] _; cbn [walk]; by rewrite E.
Qed.

(** The executable loop follows the step relation. *)
Lemma walk_Done pick fuel st st' :
  pick_valid pick -> walk succ pick fuel st = Done st' ->
  rtc (wstep succ) st st' /\ w_frontier st' = ∅.
Proof.
  intros Hpick. revert st. induction fuel as [|fuel IH]; intros st; cbn [walk];
    destruct (pick (w_frontier st)) as [x|] eqn:E.
  - discriminate.
  - intros [= <-]. split; [done|]. by apply (Hpick _).
  - destruct (pop_step succ st x) as [st1|] eqn:Ep; cbn; [|discriminate].
    intros (Hr & HF)%IH. split; [|done]. eapply rtc_l; [|exact Hr].
    econstructor; [by apply (proj2 (Hpick _))|exact Ep].
  - intros [= <-]. split; [done|]. by apply (Hpick _).
Qed.

Lemma walk_KeyError pick fuel st :
  pick_valid pick -> walk succ pick fuel st = KeyError ->
  exists st1 x, rtc (wstep succ) st st1 /\ x ∈ w_frontier st1 /\ pop_step succ st1 x = None.
Proof.
  intros Hpick. revert st. induction fuel as [|fuel IH]; intros st; cbn [walk];
    destruct (pick (w_frontier st)) as [x|] eqn:E; try discriminate.
  assert (Hx : x ∈ w_frontier st) by (by apply (proj2 (Hpick _))).
  destruct (pop_step succ st x) as [st1|] eqn:Ep; cbn.
  - intros (st2 & y & Hr & Hy & Hp)%IH. exists st2, y. split_and!; [|done|done].
    eapply rtc_l; [econstructor; [exact Hx|exact Ep]|exact Hr].
  - intros _. by exists st, x.
Qed.

(** ** Without depth limit the loop visits the reachable nodes *)

Lemma neg_inv_init starts d : (d < 0)%Z -> neg_inv succ starts (walk_init starts d).
Proof.
  intros Hd. unfold neg_inv, walk_init; cbn [w_visited w_frontier].
  split_and!.
  - intros x (r & -> & _)%elem_of_list_to_set%list_elem_of_fmap. cbn. lia.
  - intros r Hr. right. exists d. apply elem_of_list_to_set, list_elem_of_fmap. by exists r.
  - set_solver.
  - intros n [Hn|[e He]]; [set_solver|].
    apply elem_of_list_to_set, list_elem_of_fmap in He as (r & [= -> ->] & Hr).
    exists r. split; [done|apply rtc_refl].
Qed.

(** A pop at a depth other than 0. *)
Lemma pop_step_deep st n d st' :
  d <> 0%Z -> pop_step succ st (n, d) = Some st' ->
  exists S, succ n = Some S /\
    st' = mk_wstate ({[n]} ∪ w_visited st)
            ((w_frontier st ∖ {[(n, d)]}) ∪
             set_map (fun m => (m, (d - 1)%Z)) (S ∖ ({[n]} ∪ w_visited st))).
Proof.
  intros Hd. unfold pop_step. rewrite decide_False by done.
  destruct (succ n) as [S|]; [|discriminate]. intros [= <-]. by exists S.
Qed.

Lemma elem_of_deeper (S : gset string) m e d :
  (m, e) ∈ (set_map (fun m => (m, (d - 1)%Z)) S : gset (string * Z)) <-> m ∈ S /\ e = (d - 1)%Z.
Proof. rewrite elem_of_map. split; [by intros (m' & [= -> ->] & ?)|]. intros [? ->]. by exists m. Qed.

Lemma neg_inv_step starts st st' :
  neg_inv succ starts st -> wstep succ st st' -> neg_inv succ starts st'.
Proof.
  intros Hinv Hstep. revert Hinv. destruct Hstep as [st [n d] st' Hx Hp].
  intros (Hneg & Hstart & Hclosed & Hreach).
  pose proof (Hneg _ Hx) as Hd; cbn in Hd.
  destruct (pop_step_deep st n d st' ltac:(lia) Hp) as (S & ES & ->).
  assert (Hrn : reach succ starts n) by (apply Hreach; right; by exists d).
  (* a node waiting in the old frontier is visited or still waits *)
  assert (Hkeep : forall m e, (m, e) ∈ w_frontier st ->
            m ∈ {[n]} ∪ w_visited st \/ exists e', (m, e') ∈ (w_frontier st ∖ {[(n, d)]}) ∪
              set_map (fun m => (m, (d - 1)%Z)) (S ∖ ({[n]} ∪ w_visited st))).
  { intros m e He. destruct (decide ((m, e) = (n, d))) as [[= -> ->]|Hne]; [set_solver|].
    right. exists e. set_solver. }
  unfold neg_inv; cbn [w_visited w_frontier]. split_and!.
  - intros [m e] [Hy|(_ & ->)%elem_of_deeper]%elem_of_union; [apply Hneg; set_solver|]. cbn. lia.
  - intros r Hr. destruct (Hstart r Hr) as [?|[e He]]; [set_solver|]. by apply (Hkeep r e).
  - intros k [->%elem_of_singleton|Hk]%elem_of_union.
    + exists S. split; [done|]. intros m Hm.
      destruct (decide (m ∈ {[n]} ∪ w_visited st)); [by left|].
      right. exists (d - 1)%Z. apply elem_of_union_r, elem_of_deeper. set_solver.
    + destruct (Hclosed k Hk) as (S' & ES' & HS'). exists S'. split; [done|].
      intros m Hm. destruct (HS' m Hm) as [?|[e He]]; [set_solver|]. by apply (Hkeep m e).
  - intros m [[->%elem_of_singleton|Hm]%elem_of_union|[e He]]; [done|by apply Hreach; left|].
    apply elem_of_union in He as [He|(Hm & _)%elem_of_deeper]; [apply Hreach; right; exists e; set_solver|].
    destruct Hrn as (r & Hr & Hrn). exists r. split; [done|].
    eapply rtc_r; [exact Hrn|]. exists S. set_solver.
Qed.

Lemma neg_inv_steps starts st st' :
  neg_inv succ starts st -> rtc (wstep succ) st st' -> neg_inv succ starts st'.
Proof. intros Hinv Hr. induction Hr; eauto using neg_inv_step. Qed.

(** At the end of the loop the visited nodes are the reachable ones. *)
Lemma neg_inv_final starts st :
  neg_inv succ starts st -> w_frontier st = ∅ ->
  forall n, n ∈ w_visited st <-> reach succ starts n.
Proof.
  intros (_ & Hstart & Hclosed & Hreach) HF n. split; [intros Hn; by apply Hreach; left|].
  intros (r & Hr & Hrn).
  assert (Hk : r ∈ w_visited st).
  { destruct (Hstart _ Hr) as [?|[e He]]; [done|]. rewrite HF in He. set_solver. }
  clear Hr. induction Hrn as [|k m n' Hkm _ IH]; [done|]. apply IH.
  destruct Hkm as (S & ES & Hm). destruct (Hclosed k Hk) as (S' & ES' & HS').
  rewrite ES in ES'. injection ES' as <-. destruct (HS' _ Hm) as [?|[e He]]; [done|].
  rewrite HF in He. set_solver.
Qed.

(** Without depth limit no pop raises when every reachable node has its
    successors. *)
Lemma neg_inv_no_raise starts st x :
  neg_inv succ starts st -> (forall n, reach succ starts n -> is_Some (succ n)) ->
  x ∈ w_frontier st -> is_Some (pop_step succ st x).
Proof.
  intros (Hneg & _ & _ & Hreach) Hsucc Hx. destruct x as [n d].
  pose proof (Hneg _ Hx) as Hd; cbn in Hd. unfold pop_step. rewrite decide_False by lia.
  destruct (Hsucc n) as [S ->]; [apply Hreach; right; by exists d|]. by eexists.
Qed.

(** The loop without depth limit, for every pop order: it ends, without
    [KeyError], having visited exactly the reachable nodes. *)
Lemma walk_reach U pick starts d :
  pick_valid pick -> (forall n S, succ n = Some S -> S ⊆ U) -> (d < 0)%Z ->
  (forall n, reach succ starts n -> is_Some (succ n)) ->
  exists N st, (forall fuel, N <= fuel -> walk succ pick fuel (walk_init starts d) = Done st) /\
    forall n, n ∈ w_visited st <-> reach succ starts n.
Proof.
  intros Hpick HU Hd Hsucc. pose proof (neg_inv_init starts d Hd) as Hinv0.
  destruct (walk_total U pick (walk_init starts d) Hpick HU) as (N & r & Hr & HN).
  destruct r as [st| |]; [|exfalso|done].
  - exists N, st. split; [done|].
    destruct (walk_Done pick N _ st Hpick (HN N (le_n N))) as [Hrun HF].
    apply neg_inv_final; [eapply neg_inv_steps; eauto|done].
  - destruct (walk_KeyError pick N _ Hpick (HN N (le_n N))) as (st1 & x & Hrun & Hx & Hp).
    destruct (neg_inv_no_raise starts st1 x) as [? Hp']; [eapply neg_inv_steps; eauto|done|done|].
    congruence.
Qed.


(** ** With a depth limit the loop stays within the depth *)

(** A pop keeps every other waiting pair and visits the popped node. *)
Lemma pop_step_keep st x st' :
  pop_step succ st x = Some st' ->
  x.1 ∈ w_visited st' /\ w_visited st ⊆ w_visited st' /\
  forall y, y ∈ w_frontier st -> y = x \/ y ∈ w_frontier st'.
Proof.
  destruct x as [n d]. intros (HV & New & HF & _)%pop_step_Some. rewrite HV, HF.
  split_and!; [set_solver|set_solver|]. intros y Hy.
  destruct (decide (y = (n, d))); [by left|right; set_solver].
Qed.

Lemma within_mono starts n k k' : k <= k' -> within succ starts n k -> within succ starts n k'.
Proof. intros Hk (r & j & Hr & Hj & Hn). exists r, j. split_and!; [done|lia|done]. Qed.

Lemma within_edge starts n m k :
  within succ starts n k -> edge succ n m -> within succ starts m (S k).
Proof.
  intros (r & j & Hr & Hj & Hn) Hm. exists r, (S j). split_and!; [done|lia|].
  by eapply nsteps_r.
Qed.

Lemma depth_inv_init starts d : (0 <= d)%Z -> depth_inv succ starts d (walk_init starts d).
Proof.
  intros Hd. unfold depth_inv, walk_init; cbn [w_visited w_frontier]. split_and!.
  - intros m e (r & [= -> ->] & Hr)%elem_of_list_to_set%list_elem_of_fmap.
    split; [lia|]. exists r, 0. split_and!; [done|lia|apply nsteps_O].
  - set_solver.
  - intros r Hr. left. apply elem_of_list_to_set, list_elem_of_fmap. by exists r.
Qed.

Lemma depth_inv_step starts d st st' :
  depth_inv succ starts d st -> wstep succ st st' -> depth_inv succ starts d st'.
Proof.
  intros Hinv Hstep. revert Hinv. destruct Hstep as [st [n e] st' Hx Hp].
  intros (Hfr & Hvis & Hst).
  destruct (Hfr n e Hx) as [He Hn].
  destruct (pop_step_keep _ _ _ Hp) as (Hn' & HV & Hkeep); cbn [fst] in Hn'.
  destruct (pop_step_Some st n e st' Hp) as (HV' & New & HF & HNew).
  (* a node visited or waiting before is visited or waiting after *)
  assert (Hstay : forall m, m ∈ w_visited st \/ (exists e', (m, e') ∈ w_frontier st) ->
            m ∈ w_visited st' \/ exists e', (m, e') ∈ w_frontier st').
  { intros m [Hm|[e' Hm]]; [left; set_solver|].
    destruct (Hkeep _ Hm) as [[= -> _]|?]; [by left|right; by exists e']. }
  split_and!.
  - intros m e'. rewrite HF. intros [Hm|Hm]%elem_of_union; [apply Hfr; set_solver|].
    destruct (HNew _ _ Hm) as (He0 & -> & S & ES & HmS & _).
    split; [lia|]. eapply within_mono; [|apply (within_edge _ n); [exact Hn|by exists S]]. lia.
  - intros k. rewrite HV'. intros [->%elem_of_singleton|Hk]%elem_of_union; [|by apply Hvis].
    eapply within_mono; [|exact Hn]. lia.
  - intros r Hr. destruct (Hst r Hr) as [Hrd|[Hrv Hrs]].
    + destruct (Hkeep _ Hrd) as [[= Hrn Hde]|?]; [subst n e; right|by left]. split; [done|].
      intros Hd. destruct (pop_step_deep st r d st' Hd Hp) as (S & ES & ->). exists S.
      split; [done|]. intros m Hm. cbn [w_visited w_frontier].
      destruct (decide (m ∈ {[r]} ∪ w_visited st)); [by left|right].
      exists (d - 1)%Z. apply elem_of_union_r, elem_of_deeper. set_solver.
    + right. split; [set_solver|]. intros Hd. destruct (Hrs Hd) as (S & ES & HS).
      exists S. split; [done|]. intros m Hm. by apply Hstay, HS.
Qed.

Lemma depth_inv_steps starts d st st' :
  depth_inv succ starts d st -> rtc (wstep succ) st st' -> depth_inv succ starts d st'.
Proof. intros Hinv Hr. induction Hr; eauto using depth_inv_step. Qed.

(** No pop raises when the nodes within the depth have their successors. *)
Lemma depth_inv_no_raise starts d st x :
  depth_inv succ starts d st -> (forall n, within succ starts n (Z.to_nat d) -> is_Some (succ n)) ->
  x ∈ w_frontier st -> is_Some (pop_step succ st x).
Proof.
  intros (Hfr & _ & _) Hsucc Hx. destruct x as [n e]. destruct (Hfr n e Hx) as [He Hn].
  unfold pop_step. case_decide; [by eexists|].
  destruct (Hsucc n) as [S ->]; [eapply within_mono; [|exact Hn]; lia|]. by eexists.
Qed.

(** The loop with depth limit [d >= 0], for every pop order: it ends,
    without [KeyError], having visited only nodes within [d] steps, every
    start node, and, when [d <> 0], every successor of a start node. *)
Lemma walk_depth U pick starts d :
  pick_valid pick -> (forall n S, succ n = Some S -> S ⊆ U) -> (0 <= d)%Z ->
  (forall n, within succ starts n (Z.to_nat d) -> is_Some (succ n)) ->
  exists N st, (forall fuel, N <= fuel -> walk succ pick fuel (walk_init starts d) = Done st) /\
    (forall n, n ∈ w_visited st -> within succ starts n (Z.to_nat d)) /\
    (forall r, r ∈ starts -> r ∈ w_visited st /\
       (d <> 0%Z -> exists S, succ r = Some S /\ S ⊆ w_visited st)).
Proof.
  intros Hpick HU Hd Hsucc. pose proof (depth_inv_init starts d Hd) as Hinv0.
  destruct (walk_total U pick (walk_init starts d) Hpick HU) as (N & r & Hr & HN).
  destruct r as [st| |]; [|exfalso|done].
  - exists N, st. split; [done|].
    destruct (walk_Done pick N _ st Hpick (HN N (le_n N))) as [Hrun HF].
    destruct (depth_inv_steps _ _ _ _ Hinv0 Hrun) as (_ & Hvis & Hst).
    split; [done|]. intros r0 Hr0. destruct (Hst r0 Hr0) as [Hrd|[Hrv Hrs]]; [set_solver|].
    split; [done|]. intros Hd0. destruct (Hrs Hd0) as (S & ES & HS). exists S.
    split; [done|]. intros m Hm. destruct (HS m Hm) as [?|[e He]]; [done|set_solver].
  - destruct (walk_KeyError pick N _ Hpick (HN N (le_n N))) as (st1 & x & Hrun & Hx & Hp).
    destruct (depth_inv_no_raise starts d st1 x) as [? Hp']; [eapply depth_inv_steps; eauto|done|done|].
    congruence.
Qed.

End WalkProofs.

(** ** [prune_root] and [prune_leaf] *)

(** The second loop succeeds on nodes that are all functions, and builds
    the dictionary of the kept functions. *)
Lemma mapM_to_map (fs : gmap string function) (h : function -> function) (ks : list string) :
  (forall k, k ∈ ks -> is_Some (fs !! k)) ->
  exists l, mapM (fun n => f ← fs !! n; Some (n, h f)) ks = Some l /\
    forall k, (list_to_map l : gmap string function) !! k =
              if decide (k ∈ ks) then h <$> fs !! k else None.
Proof.
  induction ks as [|k0 ks IH]; intros Hks; [by exists []|].
  destruct (Hks k0 ltac:(set_solver)) as [f Ef].
  destruct IH as (l & Hl & Hlk); [intros k Hk; apply Hks; set_solver|].
  exists ((k0, h f) :: l). split; [cbn; rewrite Ef; cbn; by rewrite Hl|].
  intros k. cbn [list_to_map foldr]. destruct (decide (k = k0)) as [->|Hne].
  - rewrite lookup_insert_eq, decide_True, Ef by set_solver. done.
  - rewrite lookup_insert_ne, Hlk by done. by repeat case_decide; set_solver.
Qed.

Lemma restrict_keep (A : gset string) p :
  A ⊆ dom (p_functions p) ->
  restrict A p = Some (set_functions p (keep_functions A (p_functions p))).
Proof.
  intros HA. destruct (mapM_to_map (p_functions p) (restrict_calls A) (elements A)) as (l & Hl & Hlk).
  { intros k Hk%elem_of_elements. apply elem_of_dom. set_solver. }
  unfold restrict. rewrite Hl. cbn. do 2 f_equal. apply map_eq. intros k.
  unfold keep_functions. rewrite Hlk, lookup_fmap, map_lookup_filter.
  destruct (p_functions p !! k); cbn; repeat case_decide; set_solver.
Qed.

Lemma edge_root_succ p n m : edge (root_succ p) n m <-> call_edge p n m.
Proof.
  unfold edge, call_edge, root_succ. split.
  - intros (S & (f & Ef & ->)%fmap_Some & Hm). by exists f.
  - intros (f & Ef & Hm). exists (dom (f_calls f)). by rewrite Ef.
Qed.

Lemma reach_root_succ p starts n : reach (root_succ p) starts n <-> reachable p starts n.
Proof.
  unfold reach, reachable. f_equiv; intros r. f_equiv.
  split; apply rtc_subrel; intros ??; apply edge_root_succ.
Qed.

(** One function's calls recorded in [edgesUp]. *)
Lemma edges_up_calls k (cl : list (string * call)) (acc : gmap string (gset string)) n m :
  m ∈ default ∅ (foldr (uncurry (fun n' (_ : call) acc =>
                   <[n' := {[k]} ∪ default ∅ (acc !! n')]> acc)) acc cl !! n) <->
  (m = k /\ n ∈ cl.*1) \/ m ∈ default ∅ (acc !! n).
Proof.
  induction cl as [|[n' c] cl IH]; cbn; [set_solver|].
  destruct (decide (n = n')) as [->|Hne].
  - rewrite lookup_insert_eq. cbn. rewrite elem_of_union, IH. set_solver.
  - rewrite lookup_insert_ne by done. rewrite IH. set_solver.
Qed.

Lemma elem_of_keys {A} (m : gmap string A) n : n ∈ (map_to_list m).*1 <-> n ∈ dom m.
Proof.
  rewrite elem_of_dom, list_elem_of_fmap. split.
  - intros ([n' a] & -> & Ha%elem_of_map_to_list). by exists a.
  - intros [a Ha]. exists (n, a). split; [done|]. by apply elem_of_map_to_list.
Qed.

Lemma elem_of_edges_up p n m :
  m ∈ default ∅ (edges_up p !! n) <-> call_edge p m n.
Proof.
  unfold edges_up, call_edge. rewrite map_fold_foldr.
  transitivity (exists f, (m, f) ∈ map_to_list (p_functions p) /\ n ∈ (map_to_list (f_calls f)).*1);
    [|by setoid_rewrite elem_of_map_to_list; setoid_rewrite elem_of_keys].
  induction (map_to_list (p_functions p)) as [|[k f] l IH]; cbn [foldr uncurry].
  { rewrite lookup_empty. cbn. split; [set_solver|]. intros (f & Hf & _). set_solver. }
  rewrite map_fold_foldr, edges_up_calls, IH. split.
  - intros [[-> Hn]|(f' & Hf' & Hn')]; [exists f; split; [by left|done]|exists f'; by split; [right|]].
  - intros (f' & [[= -> ->]|Hf']%elem_of_cons & Hn); [by left|right; by exists f'].
Qed.

Lemma rtc_flip_iff {A} (R : relation A) x y : rtc (fun a b => R b a) x y <-> rtc R y x.
Proof.
  split; induction 1 as [|a b c Hab _ IH];
    [apply rtc_refl|eapply rtc_r; [exact IH|exact Hab]|apply rtc_refl|eapply rtc_r; [exact IH|exact Hab]].
Qed.

Lemma reach_leaf_succ p leafs n :
  reach (leaf_succ p) leafs n <-> exists l, l ∈ leafs /\ rtc (call_edge p) n l.
Proof.
  unfold reach. f_equiv; intros l. f_equiv. rewrite <- rtc_flip_iff.
  split; apply rtc_subrel; intros a b; unfold edge, leaf_succ.
  - intros (S & [= <-] & Hb). by apply elem_of_edges_up.
  - intros Hab. eexists. split; [reflexivity|]. by apply elem_of_edges_up.
Qed.

Lemma root_succ_universe p n S : root_succ p n = Some S -> S ⊆ callees_of p.
Proof.
  unfold root_succ, callees_of. intros (f & Ef & ->)%fmap_Some m Hm.
  apply elem_of_union_list. exists (dom (f_calls f)). split; [|done].
  apply list_elem_of_fmap. exists (n, f). split; [done|]. by apply elem_of_map_to_list.
Qed.

Lemma leaf_succ_universe p n S : leaf_succ p n = Some S -> S ⊆ dom (p_functions p).
Proof.
  intros [= <-] m (f & Ef & _)%elem_of_edges_up. apply elem_of_dom. by exists f.
Qed.

(** On a closed call graph the functions reachable from functions are
    functions. *)
Lemma reachable_dom p roots n :
  calls_closed p -> Forall (fun r => is_Some (p_functions p !! r)) roots ->
  reachable p roots n -> is_Some (p_functions p !! n).
Proof.
  intros Hclosed Hroots (r & Hr & Hrn). rewrite Forall_forall in Hroots.
  pose proof (Hroots r Hr) as H0. clear Hr.
  induction Hrn as [|a b c (f & Ef & Hb) _ IH]; [done|]. apply IH.
  apply elem_of_dom in Hb as [call Hc]. exact (Hclosed a f Ef b call Hc).
Qed.

Lemma restrict_calls_id (A : gset string) f :
  (forall c, c ∈ dom (f_calls f) -> c ∈ A) -> restrict_calls A f = f.
Proof.
  intros HA. unfold restrict_calls. rewrite map_filter_id; [by destruct f|].
  intros c call Hc. apply HA, elem_of_dom. by exists call.
Qed.

Lemma pick_prio_valid prio : pick_valid (pick_prio prio).
Proof.
  intros F. induction prio as [|n prio IH]; cbn [pick_prio].
  - split.
    + destruct (elements F) as [|x l] eqn:E; [|discriminate]. intros _.
      apply leibniz_equiv, elements_empty_iff, E.
    + intros x Hx. apply elem_of_elements. destruct (elements F); [discriminate|]. injection Hx as ->. by left.
  - destruct (filter (fun x => x.1 = n) (elements F)) as [|z l] eqn:Ef; cbn [head]; [done|].
    split; [discriminate|]. intros x [= <-].
    assert (Hz : z ∈ filter (fun x => x.1 = n) (elements F)) by (rewrite Ef; left).
    apply list_elem_of_filter in Hz as [_ Hz]. by apply elem_of_elements.
Qed.

Lemma call_edge_lookup p n f m :
  p_functions p !! n = Some f -> is_Some (f_calls f !! m) -> call_edge p n m.
Proof. intros Ef Hm. exists f. split; [done|]. by apply elem_of_dom. Qed.

(** The loop of [prune_root] without depth limit visits the functions
    reachable from the roots. *)
Lemma root_walk_reach pick roots d p :
  pick_valid pick -> (d < 0)%Z -> calls_closed p ->
  Forall (fun r => is_Some (p_functions p !! r)) roots ->
  exists N st, (forall fuel, N <= fuel -> walk (root_succ p) pick fuel (walk_init roots d) = Done st) /\
    forall n, n ∈ w_visited st <-> reachable p roots n.
Proof.
  intros Hpick Hd Hclosed Hroots.
  destruct (walk_reach (root_succ p) (callees_of p) pick roots d Hpick (root_succ_universe p) Hd)
    as (N & st & Hrun & Hvis).
  { intros n Hn%reach_root_succ. unfold root_succ. apply fmap_is_Some.
    by apply (reachable_dom p roots). }
  exists N, st. split; [done|]. intros n. by rewrite Hvis, reach_root_succ.
Qed.

(** Keeping the reachable functions keeps all their calls. *)
Lemma restrict_reachable roots p (V : gset string) :
  calls_closed p -> Forall (fun r => is_Some (p_functions p !! r)) roots ->
  (forall n, n ∈ V <-> reachable p roots n) ->
  restrict V p = Some (set_functions p (filter (fun kf => kf.1 ∈ V) (p_functions p))).
Proof.
  intros Hclosed Hroots HV. rewrite restrict_keep.
  2:{ intros n Hn%HV. apply elem_of_dom. by apply (reachable_dom p roots). }
  do 2 f_equal. unfold keep_functions. apply map_eq. intros k.
  rewrite lookup_fmap, !map_lookup_filter.
  destruct (p_functions p !! k) as [f|] eqn:Ef; cbn; [|done].
  case_guard as Hk; cbn; [|done]. f_equal. apply restrict_calls_id.
  intros c Hc. apply HV. apply HV in Hk as (r & Hr & Hrk). exists r. split; [done|].
  eapply rtc_r; [exact Hrk|]. by exists f.
Qed.

(** C33: Without depth limit ([depth < 0], the default [-1]),
    [Profile.prune_root] on a closed call graph whose roots are
    functions ends, for every pop order of the frontier set, without
    [KeyError], and keeps exactly the functions reachable from the roots,
    each with all its calls. *)
Theorem prune_root_reachable pick roots d p :
  pick_valid pick -> (d < 0)%Z -> calls_closed p ->
  Forall (fun r => is_Some (p_functions p !! r)) roots ->
  exists N (A : gset string), (forall n, n ∈ A <-> reachable p roots n) /\
    forall fuel, N <= fuel ->
      prune_root pick fuel roots d p = Done (set_functions p (filter (fun kf => kf.1 ∈ A) (p_functions p))).
Proof.
  intros Hpick Hd Hclosed Hroots.
  destruct (root_walk_reach pick roots d p Hpick Hd Hclosed Hroots) as (N & st & Hrun & HV).
  exists N, (w_visited st). split; [done|]. intros fuel Hf.
  unfold prune_root. rewrite (Hrun fuel Hf). cbn [outcome_bind].
  by rewrite (restrict_reachable roots p (w_visited st) Hclosed Hroots HV).
Qed.

Lemma prune_root_reachable_witness :
  exists N (A : gset string), (forall n, n ∈ A <-> reachable depth_profile ["a"] n) /\
    forall fuel, N <= fuel ->
      prune_root (pick_prio []) fuel ["a"] (-1) depth_profile =
        Done (set_functions depth_profile (filter (fun kf => kf.1 ∈ A) (p_functions depth_profile))).
Proof.
  apply (prune_root_reachable (pick_prio []) ["a"] (-1) depth_profile).
  - apply pick_prio_valid.
  - lia.
  - apply (bool_decide_unpack _). vm_compute. reflexivity.
  - repeat constructor. vm_compute. by eexists.
Defined.

(** C34: Without depth limit [Profile.prune_leaf] ends on every profile,
    for every pop order, never raises (edgesUp is a defaultdict), and
    keeps exactly the functions from which a leaf is reachable, each with
    its calls to kept functions. *)
Theorem prune_leaf_ancestors pick leafs d p :
  pick_valid pick -> (d < 0)%Z ->
  exists N (A : gset string), (forall n, n ∈ A <-> n ∈ dom (p_functions p) /\ exists l, l ∈ leafs /\ rtc (call_edge p) n l) /\
    forall fuel, N <= fuel ->
      prune_leaf pick fuel leafs d p = Done (set_functions p (keep_functions A (p_functions p))).
Proof.
  intros Hpick Hd.
  destruct (walk_reach (leaf_succ p) (dom (p_functions p)) pick leafs d Hpick (leaf_succ_universe p) Hd)
    as (N & st & Hrun & Hvis); [by eexists|].
  exists N, (dom (p_functions p) ∩ w_visited st). split.
  - intros n. by rewrite elem_of_intersection, Hvis, reach_leaf_succ.
  - intros fuel Hf. unfold prune_leaf. rewrite (Hrun fuel Hf). cbn [outcome_bind].
    rewrite restrict_keep by set_solver. done.
Qed.

Lemma prune_leaf_ancestors_witness :
  exists N (A : gset string), (forall n, n ∈ A <-> n ∈ dom (p_functions depth_profile) /\
                 exists l, l ∈ ["c"] /\ rtc (call_edge depth_profile) n l) /\
    forall fuel, N <= fuel ->
      prune_leaf (pick_prio []) fuel ["c"] (-1) depth_profile =
        Done (set_functions depth_profile (keep_functions A (p_functions depth_profile))).
Proof.
  apply (prune_leaf_ancestors (pick_prio []) ["c"] (-1) depth_profile); [apply pick_prio_valid|lia].
Defined.

Lemma nsteps_edge_root_succ p k n m : nsteps (edge (root_succ p)) k n m <-> nsteps (call_edge p) k n m.
Proof.
  split; induction 1 as [|k x y z Hxy _ IH]; try constructor;
    (eapply nsteps_l; [apply edge_root_succ; exact Hxy|exact IH]).
Qed.

Lemma within_root_reachable p roots n k : within (root_succ p) roots n k -> reachable p roots n.
Proof.
  intros (r & j & Hr & _ & Hn). exists r. split; [done|].
  by eapply rtc_nsteps_2, nsteps_edge_root_succ.
Qed.

(** C35: With a depth limit [depth >= 0], [Profile.prune_root] on a
    closed call graph whose roots are functions ends, for every pop
    order of the frontier set, without [KeyError]; it keeps only
    functions at most [depth] calls below a root, each with its calls to
    kept functions, and it keeps every root and, when [depth <> 0],
    every function a root calls.  Nothing more is guaranteed: a function
    two or more calls below a root can be lost ([prune_root_depth_order]
    below). *)
Theorem prune_root_depth_bounded pick roots d p :
  pick_valid pick -> (0 <= d)%Z -> calls_closed p ->
  Forall (fun r => is_Some (p_functions p !! r)) roots ->
  exists N (A : gset string),
    (forall fuel, N <= fuel ->
       prune_root pick fuel roots d p = Done (set_functions p (keep_functions A (p_functions p)))) /\
    (forall n, n ∈ A -> exists r k, r ∈ roots /\ k <= Z.to_nat d /\ nsteps (call_edge p) k r n) /\
    (forall r, r ∈ roots -> r ∈ A /\ (d <> 0%Z -> forall m, call_edge p r m -> m ∈ A)).
Proof.
  intros Hpick Hd Hclosed Hroots.
  destruct (walk_depth (root_succ p) (callees_of p) pick roots d Hpick (root_succ_universe p) Hd)
    as (N & st & Hrun & Hvis & Hst).
  { intros n Hn. apply fmap_is_Some. by eapply reachable_dom, within_root_reachable. }
  exists N, (w_visited st). split_and!.
  - intros fuel Hf. unfold prune_root. rewrite (Hrun fuel Hf). cbn [outcome_bind].
    rewrite restrict_keep; [done|]. intros n Hn. apply elem_of_dom.
    by eapply reachable_dom, within_root_reachable, Hvis.
  - intros n Hn. destruct (Hvis n Hn) as (r & j & Hr & Hj & Hnj). exists r, j.
    split_and!; [done|done|by apply nsteps_edge_root_succ].
  - intros r Hr. destruct (Hst r Hr) as [Hrv Hrs]. split; [done|]. intros Hd0 m (f & Ef & Hm).
    destruct (Hrs Hd0) as (S & ES & HS). apply HS. unfold root_succ in ES. rewrite Ef in ES.
    by injection ES as <-.
Qed.

Lemma prune_root_depth_bounded_witness :
  exists N (A : gset string),
    (forall fuel, N <= fuel ->
       prune_root (pick_prio ["a"; "b"; "q"; "c"; "p"]) fuel ["a"] 3 depth_profile =
         Done (set_functions depth_profile (keep_functions A (p_functions depth_profile)))) /\
    (forall n, n ∈ A -> exists r k, r ∈ ["a"] /\ k <= Z.to_nat 3 /\ nsteps (call_edge depth_profile) k r n) /\
    (forall r, r ∈ ["a"] -> r ∈ A /\ (3%Z <> 0%Z -> forall m, call_edge depth_profile r m -> m ∈ A)).
Proof.
  apply prune_root_depth_bounded.
  - apply pick_prio_valid.
  - lia.
  - apply (bool_decide_unpack _). vm_compute. reflexivity.
  - repeat constructor. vm_compute. by eexists.
Defined.

(** With a depth limit the result of [Profile.prune_root] depends on
    the order in which [frontier.pop()] returns the pairs: on
    [depth_profile] with root [a] and depth 3, [x] is three calls below
    [a], yet one pop order keeps it and another drops it, because [c] is
    first visited at depth 0 along [a -> b -> q -> c] and is then never
    added again when [p] reaches it with depth left. *)
Theorem prune_root_depth_order :
  nsteps (call_edge depth_profile) 3 "a" "x" /\
  pick_valid (pick_prio ["a"; "b"; "q"; "c"; "p"]) /\
  pick_valid (pick_prio ["a"; "p"; "c"; "b"; "q"]) /\
  (exists p1, prune_root (pick_prio ["a"; "b"; "q"; "c"; "p"]) 20 ["a"] 3 depth_profile = Done p1 /\
              p_functions p1 !! "x" = None) /\
  (exists p2, prune_root (pick_prio ["a"; "p"; "c"; "b"; "q"]) 20 ["a"] 3 depth_profile = Done p2 /\
              is_Some (p_functions p2 !! "x")).
Proof.
  split_and!; [|apply pick_prio_valid|apply pick_prio_valid| |].
  - apply nsteps_l with (y := "p"); [eapply call_edge_lookup; [reflexivity|by eexists]|].
    apply nsteps_l with (y := "c"); [eapply call_edge_lookup; [reflexivity|by eexists]|].
    apply nsteps_l with (y := "x"); [eapply call_edge_lookup; [reflexivity|by eexists]|].
    apply nsteps_O.
  - destruct (prune_root _ 20 ["a"] 3 depth_profile) as [p1| |] eqn:E; vm_compute in E; try discriminate.
    exists p1. split; [reflexivity|]. injection E as <-. vm_compute. reflexivity.
  - destruct (prune_root _ 20 ["a"] 3 depth_profile) as [p2| |] eqn:E; vm_compute in E; try discriminate.
    exists p2. split; [reflexivity|]. injection E as <-. vm_compute. by eexists.
Qed.

End GprofReach.
