(* ===== verification/GprofStrip.v ===== *)
(** [Function.stripped_name] of [src/gprof2dot.py] (lines 264-289), the
    label [DotWriter.graph] prints under the [-s]/[--strip] option.

    The three regular expressions are modelled by what [re] does with
    them, one left-to-right scan each: [_parenthesis_re] [\([^()]*\)] and
    [_angles_re] [<[^<>]*>] by [sub_pair] (the count it returns is the
    [n] of [subn]); [_const_re] [\s+const$] by [strip_const], whose [$]
    also matches before a final newline.  [\s] is [Py.is_space] (the
    ASCII characters [str.isspace] accepts).  The two [while True] loops
    are [strip_pairs] with fuel; the fuel [String.length name] is proved
    enough.  Theorem: the stripped name keeps the characters of the name
    in order and has every [)] before every [(] and every [>] before
    every [<], so no bracketed group is left. *)

From S2P Require Import Prelude PyText.

Module GprofStrip.

Section Pairs.

Variables op cl : Ascii.ascii.

(** What a failed match attempt leaves: the open character and the
    characters read after it, [pending] being kept reversed. *)
Definition flush (pending : option (list Ascii.ascii)) : list Ascii.ascii :=
  match pending with Some b => op :: rev b | None => [] end.

(** One [subn("", name)] pass of [op [^op cl]* cl]: a match starts at an
    [op] and succeeds at the first [cl] with no [op] in between; a second
    [op] makes the attempt fail and starts a new one. *)
Fixpoint sub_pair (pending : option (list Ascii.ascii)) (s : list Ascii.ascii)
    : list Ascii.ascii * nat :=
  match s with
  | [] => (flush pending, 0)
  | c :: s' =>
      if Ascii.eqb c op then
        let '(r, n) := sub_pair (Some []) s' in (flush pending ++ r, n)
      else if Ascii.eqb c cl then
        match pending with
        | Some _ => let '(r, n) := sub_pair None s' in (r, S n)
        | None => let '(r, n) := sub_pair None s' in (c :: r, n)
        end
      else
        match pending with
        | Some b => sub_pair (Some (c :: b)) s'
        | None => let '(r, n) := sub_pair None s' in (c :: r, n)
        end
  end.

(** [while True: name, n = re.subn("", name); if not n: break]. *)
Fixpoint strip_pairs (fuel : nat) (s : list Ascii.ascii) : list Ascii.ascii :=
  let '(s', n) := sub_pair None s in
  if Nat.eqb n 0 then s'
  else match fuel with 0 => s' | S fuel => strip_pairs fuel s' end.

(** No [op] comes before a [cl]: [seen] says an [op] was read. *)
Fixpoint pairless_from (seen : bool) (s : list Ascii.ascii) : bool :=
  match s with
  | [] => true
  | c :: s' =>
      if Ascii.eqb c op then pairless_from true s'
      else if Ascii.eqb c cl then negb seen && pairless_from seen s'
      else pairless_from seen s'
  end.

Definition pairless (s : list Ascii.ascii) : bool := pairless_from false s.

End Pairs.

(** The trailing whitespace of a list removed. *)
Definition rstrip_ws (l : list Ascii.ascii) : list Ascii.ascii :=
  rev (Py.lstrip_chars (rev l)).

(** [\s+const] at the end of [t]: what precedes the whitespace. *)
Definition try_const (t : list Ascii.ascii) : option (list Ascii.ascii) :=
  let k := length t - 5 in
  if bool_decide (5 <= length t) && bool_decide (drop k t = chars "const") then
    let pre := take k t in
    let kept := rstrip_ws pre in
    if Nat.eqb (length kept) (length pre) then None else Some kept
  else None.

(** [_const_re.sub("", name)]: [$] matches at the end and before a final
    newline. *)
Definition strip_const (l : list Ascii.ascii) : list Ascii.ascii :=
  let at_end := match try_const l with Some k => k | None => l end in
  match last l with
  | Some c =>
      if Ascii.eqb c "010" then
        match try_const (removelast l) with Some k => k ++ ["010"%char] | None => l end
      else at_end
  | None => at_end
  end.

(** [Function.stripped_name]: parentheses, then [const], then angles. *)
Definition stripped_name (name : string) : string :=
  let fuel := String.length name in
  String.string_of_list_ascii
    (strip_pairs "<" ">" fuel (strip_const (strip_pairs "(" ")" fuel (chars name)))).

(** ** Proofs *)

Section PairProofs.

Variables op cl : Ascii.ascii.

Definition seen_of (pending : option (list Ascii.ascii)) : bool :=
  match pending with Some _ => true | None => false end.

(** A pass with no match leaves its input as it was, and the input has
    no [op] before a [cl] (none at all after a pending [op]). *)
Lemma sub_pair_zero p s r :
  sub_pair op cl p s = (r, 0) -> r = flush op p ++ s /\ pairless_from op cl (seen_of p) s = true.
Proof.
  revert p r. induction s as [|c s IH]; intros p r; cbn [sub_pair pairless_from].
  - intros [= <-]. by rewrite app_nil_r.
  - destruct (Ascii.eqb c op) eqn:Eop.
    + destruct (sub_pair op cl (Some []) s) as [r' n] eqn:E. intros [= <- ->].
      destruct (IH _ _ E) as [-> ?]. apply Ascii.eqb_eq in Eop as ->. by split.
    + destruct (Ascii.eqb c cl) eqn:Ecl; destruct p as [b|].
      * destruct (sub_pair op cl None s) as [r' n]. discriminate.
      * destruct (sub_pair op cl None s) as [r' n] eqn:E. intros [= <- ->].
        destruct (IH _ _ E) as [-> ?]. apply Ascii.eqb_eq in Ecl as ->. by split.
      * intros (Hr & Hs)%IH. split; [|done]. rewrite Hr. cbn. by rewrite <- app_assoc.
      * destruct (sub_pair op cl None s) as [r' n] eqn:E. intros [= <- ->].
        destruct (IH _ _ E) as [-> ?]. by split.
Qed.

(** A pass removes two characters or more per match. *)
Lemma sub_pair_length p s r n :
  sub_pair op cl p s = (r, n) -> length r + 2 * n <= length (flush op p) + length s.
Proof.
  revert p r n. induction s as [|c s IH]; intros p r n; cbn [sub_pair].
  - intros [= <- <-]. lia.
  - destruct (Ascii.eqb c op).
    + destruct (sub_pair op cl (Some []) s) as [r' n'] eqn:E. intros [= <- <-].
      pose proof (IH _ _ _ E). rewrite length_app. cbn in *. lia.
    + destruct (Ascii.eqb c cl); destruct p as [b|].
      * destruct (sub_pair op cl None s) as [r' n'] eqn:E. intros [= <- <-].
        pose proof (IH _ _ _ E). cbn in *. lia.
      * destruct (sub_pair op cl None s) as [r' n'] eqn:E. intros [= <- <-].
        pose proof (IH _ _ _ E). cbn in *. lia.
      * intros E. pose proof (IH _ _ _ E). cbn in *. rewrite length_app in *. cbn in *. lia.
      * destruct (sub_pair op cl None s) as [r' n'] eqn:E. intros [= <- <-].
        pose proof (IH _ _ _ E). cbn in *. lia.
Qed.

(** A pass only deletes characters. *)
Lemma sub_pair_sublist p s r n :
  sub_pair op cl p s = (r, n) -> r `sublist_of` flush op p ++ s.
Proof.
  revert p r n. induction s as [|c s IH]; intros p r n; cbn [sub_pair].
  - intros [= <- _]. by rewrite app_nil_r.
  - destruct (Ascii.eqb c op) eqn:Eop.
    + destruct (sub_pair op cl (Some []) s) as [r' n'] eqn:E. intros [= <- _].
      apply Ascii.eqb_eq in Eop as ->. apply sublist_app; [done|]. exact (IH _ _ _ E).
    + destruct (Ascii.eqb c cl); destruct p as [b|].
      * destruct (sub_pair op cl None s) as [r' n'] eqn:E. intros [= <- _].
        replace (flush op (Some b) ++ c :: s) with ((flush op (Some b) ++ [c]) ++ s)
          by (by rewrite <- app_assoc).
        apply sublist_inserts_l. exact (IH _ _ _ E).
      * destruct (sub_pair op cl None s) as [r' n'] eqn:E. intros [= <- _].
        apply sublist_skip. exact (IH _ _ _ E).
      * intros E. cbn. pose proof (IH _ _ _ E) as H. cbn in H.
        by rewrite <- app_assoc in H.
      * destruct (sub_pair op cl None s) as [r' n'] eqn:E. intros [= <- _].
        apply sublist_skip. exact (IH _ _ _ E).
Qed.

Lemma pairless_from_true s : pairless_from op cl true s = true -> forall seen, pairless_from op cl seen s = true.
Proof.
  induction s as [|c s IH]; intros Hs seen; [done|]. cbn in *.
  destruct (Ascii.eqb c op); [done|]. destruct (Ascii.eqb c cl); [discriminate|]. by apply IH.
Qed.

(** Deleting characters keeps a list free of pairs. *)
Lemma pairless_sublist l1 l2 seen :
  l1 `sublist_of` l2 -> pairless_from op cl seen l2 = true -> pairless_from op cl seen l1 = true.
Proof.
  intros Hsub. revert seen. induction Hsub as [|x l1 l2 _ IH|x l1 l2 _ IH]; intros seen; [done| |].
  - cbn. destruct (Ascii.eqb x op); [apply IH|]. destruct (Ascii.eqb x cl); [|apply IH].
    intros [-> ?]%andb_true_iff. by rewrite IH.
  - cbn. intros H. apply IH. destruct (Ascii.eqb x op); [by apply pairless_from_true|].
    destruct (Ascii.eqb x cl); [by apply andb_true_iff in H as [_ ?]|done].
Qed.

(** The loop ends within its fuel once the fuel covers half the length. *)
Lemma strip_pairs_spec fuel s :
  length s <= 2 * fuel + 1 ->
  pairless op cl (strip_pairs op cl fuel s) = true /\ strip_pairs op cl fuel s `sublist_of` s.
Proof.
  revert s. induction fuel as [|fuel IH]; intros s Hs; cbn [strip_pairs];
    destruct (sub_pair op cl None s) as [s' n] eqn:E;
    pose proof (sub_pair_length _ _ _ _ E) as Hlen; pose proof (sub_pair_sublist _ _ _ _ E) as Hsub;
    cbn in Hlen, Hsub.
  - destruct n; [|lia]. apply sub_pair_zero in E as [-> ?]. by split.
  - destruct n as [|n]; cbn.
    + apply sub_pair_zero in E as [-> ?]. by split.
    + destruct (IH s' ltac:(lia)) as [? ?]. split; [done|]. by trans s'.
Qed.

End PairProofs.

Lemma rstrip_ws_prefix l : exists k, l = rstrip_ws l ++ k.
Proof.
  unfold rstrip_ws, Py.lstrip_chars. destruct (list_find _ (rev l)) as [[i c]|].
  - exists (rev (take i (rev l))). rewrite <- rev_app_distr, take_drop. by rewrite rev_involutive.
  - exists l. done.
Qed.

Lemma strip_const_sublist l : strip_const l `sublist_of` l.
Proof.
  assert (Htry : forall t k, try_const t = Some k -> k `sublist_of` t).
  { unfold try_const. intros t k. case_match; [|discriminate]. case_match; [discriminate|].
    intros [= <-]. destruct (rstrip_ws_prefix (take (length t - 5) t)) as [k' Hk].
    trans (take (length t - 5) t); [|apply sublist_take].
    rewrite Hk at 2. by apply sublist_inserts_r. }
  assert (Hend : (match try_const l with Some k => k | None => l end) `sublist_of` l)
    by (destruct (try_const l) eqn:E; [by apply Htry|done]).
  unfold strip_const. destruct (last l) as [c|] eqn:El; [|done].
  destruct (Ascii.eqb c "010") eqn:Ec; [|done].
  apply Ascii.eqb_eq in Ec as ->. apply last_Some in El as [l' ->]. rewrite removelast_last.
  destruct (try_const l') eqn:E; [|done]. apply sublist_app; [by apply Htry|done].
Qed.

(** C36: [Function.stripped_name] ends within its fuel and only deletes
    characters of the name, and what it returns has every [)] before
    every [(] and every [>] before every [<]: no parenthesised or angled
    group is left, however deeply they were nested. *)
Theorem stripped_name_pairless name :
  let r := chars (stripped_name name) in
  pairless "(" ")" r = true /\ pairless "<" ">" r = true /\ r `sublist_of` chars name.
Proof.
  unfold stripped_name. cbn zeta. rewrite String.list_ascii_of_string_of_list_ascii.
  assert (Hn : length (chars name) <= 2 * String.length name + 1)
    by (rewrite string_length_chars; lia).
  destruct (strip_pairs_spec "(" ")" (String.length name) (chars name) Hn) as [Hp1 Hs1].
  set (l1 := strip_pairs "(" ")" (String.length name) (chars name)) in *.
  pose proof (strip_const_sublist l1) as Hs2.
  set (l2 := strip_const l1) in *.
  assert (Hl2 : length l2 <= 2 * String.length name + 1).
  { apply sublist_length in Hs1, Hs2. lia. }
  destruct (strip_pairs_spec "<" ">" (String.length name) l2 Hl2) as [Hp3 Hs3].
  split_and!; [|done|].
  - apply (pairless_sublist _ _ _ l1); [by trans l2|done].
  - by trans l2; [|trans l1].
Qed.

(** A demangled C++ name stripped as [-s] prints it. *)
Example stripped_name_cpp :
  stripped_name "std::vector<int, std::allocator<int> >::push_back(int const&) const" =
  "std::vector::push_back".
Proof. vm_compute. reflexivity. Qed.

End GprofStrip.
