(* ===== verification/GprofCycles.v ===== *)
(** Cycle detection and time propagation of [src/gprof2dot.py]:
    [Profile.find_cycles] with [_tarjan] (lines 355-373, 478-523) and
    [Profile.integrate] with [_integrate_function], [_integrate_call] and,
    for recursion, [_integrate_cycle], [_call_ratios_cycle] and
    [_integrate_cycle_function] (578-792); [_rank_cycle_function] is in
    [GprofRank.v].

    These are recursive walks over the call graph that mutate the objects
    they visit; here they run in a small option-state monad [PM] over the
    profile, the [outevent] stored on each [Cycle] object and the
    [partials] of the cycle entry at hand (or over Tarjan's bookkeeping),
    [None] being a failed [assert], a [KeyError], a [TypeError] on a
    missing ratio or an [UndefinedEvent].  Dictionaries keyed by objects
    ([ranks], [call_ratios], [partials], [callees]) are keyed by function
    ids.  The order in which a set ([cycle.functions]) or a dictionary is
    walked only changes the order of additions of exact rationals.  The
    recursion is bounded by a fuel argument; [find_cycles] and
    [integrate] give it one unit per function plus one, which is enough
    because every nested call visits a function not visited before
    (Tarjan), leaves the current cycle or acyclic part downwards
    ([integrate]), or goes to a higher rank ([_call_ratios_cycle],
    [_integrate_cycle_function]). *)

From Stdlib Require Import QArith Qminmax Qabs.
From S2P Require Import Prelude GprofModel GprofRank.

Module GprofCycles.

Import Gprof.

(** ** The option-state monad *)

Definition PM (S A : Type) := S -> option (A * S).

Definition pm_ret {S A} (a : A) : PM S A := fun s => Some (a, s).
Definition pm_bind {S A B} (m : PM S A) (k : A -> PM S B) : PM S B :=
  fun s => match m s with Some (a, s') => k a s' | None => None end.
Definition pm_fail {S A} : PM S A := fun _ => None.
Definition pm_get {S} : PM S S := fun s => Some (s, s).
Definition pm_put {S} (s : S) : PM S unit := fun _ => Some (tt, s).
Definition pm_lift {S A} (o : option A) : PM S A :=
  fun s => match o with Some a => Some (a, s) | None => None end.

Declare Scope pm_scope.
Delimit Scope pm_scope with pm.
Notation "'let*' x := m 'in' k" := (pm_bind m (fun x => k))
  (at level 200, x name, m at level 100, k at level 200) : pm_scope.
Notation "m ;;; k" := (pm_bind m (fun _ => k))
  (at level 100, k at level 200, right associativity) : pm_scope.

Local Open Scope pm_scope.

Fixpoint pm_foldl {S A B} (body : B -> A -> PM S B) (l : list A) (b : B) : PM S B :=
  match l with
  | [] => pm_ret b
  | x :: l => let* b := body b x in pm_foldl body l b
  end.

Fixpoint pm_iter {S A} (body : A -> PM S unit) (l : list A) : PM S unit :=
  match l with
  | [] => pm_ret tt
  | x :: l => body x ;;; pm_iter body l
  end.

(** ** Tarjan's algorithm *)

Record tarjan_data := mk_tdata { t_order : nat; t_lowlink : nat; t_onstack : bool }.

Record tstate := mk_tstate {
  ts_order : nat;
  ts_stack : list string;
  ts_data : gmap string tarjan_data;
  ts_cycles : list (list string)   (* the cycles found, in order *)
}.

Definition set_data (fid : string) (d : tarjan_data) : PM tstate unit :=
  fun s => Some (tt, mk_tstate (ts_order s) (ts_stack s) (<[fid := d]> (ts_data s)) (ts_cycles s)).

Definition get_data (fid : string) : PM tstate (option tarjan_data) :=
  fun s => Some (ts_data s !! fid, s).

Definition lower_lowlink (fid : string) (v : nat) : PM tstate unit :=
  let* d := get_data fid in
  match d with
  | Some d => set_data fid (mk_tdata (t_order d) (Nat.min (t_lowlink d) v) (t_onstack d))
  | None => pm_fail
  end.

Definition clear_onstack (fid : string) : PM tstate unit :=
  let* d := get_data fid in
  match d with
  | Some d => set_data fid (mk_tdata (t_order d) (t_lowlink d) false)
  | None => pm_fail
  end.

(** The component found at [function]: the stack above [pos] is popped;
    when it has more than one member it becomes a cycle. *)
Definition pop_component (pos : nat) : PM tstate unit :=
  let* s := pm_get in
  let members := drop pos (ts_stack s) in
  pm_put (mk_tstate (ts_order s) (take pos (ts_stack s)) (ts_data s)
            (if 1 <? length members then ts_cycles s ++ [members] else ts_cycles s)) ;;;
  pm_iter clear_onstack members.

Fixpoint tarjan (fuel : nat) (functions : gmap string function) (fid : string)
  : PM tstate unit :=
  let* d := get_data fid in
  match d with
  | Some _ => pm_ret tt
  | None =>
      match fuel with
      | 0 => pm_fail
      | S fuel =>
          let* f := pm_lift (functions !! fid) in
          let* s := pm_get in
          let order := ts_order s in
          let pos := length (ts_stack s) in
          pm_put (mk_tstate (S order) (ts_stack s ++ [fid])
                    (<[fid := mk_tdata order order true]> (ts_data s)) (ts_cycles s)) ;;;
          pm_iter (fun callee =>
              let* cd := get_data callee in
              match cd with
              | Some cd => if t_onstack cd then lower_lowlink fid (t_order cd) else pm_ret tt
              | None =>
                  tarjan fuel functions callee ;;;
                  let* cd' := get_data callee in
                  match cd' with
                  | Some cd' => lower_lowlink fid (t_lowlink cd')
                  | None => pm_fail
                  end
              end) (map callee_id (map snd (map_to_list (f_calls f)))) ;;;
          let* d' := get_data fid in
          match d' with
          | Some d' => if t_lowlink d' =? t_order d' then pop_component pos else pm_ret tt
          | None => pm_fail
          end
      end
  end.

(** Which cycle each function belongs to. *)
Definition cycle_of (cycles : list (list string)) (fid : string) : option nat :=
  fst <$> list_find (fun members => fid ∈ members) cycles.

(** [find_cycles]: Tarjan from every function, then [function.cycle]. *)
Definition find_cycles (p : profile) : option profile :=
  let fs := p_functions p in
  let fuel := S (size fs) in
  r ← pm_iter (tarjan fuel fs) (map fst (map_to_list fs)) (mk_tstate 0 [] ∅ []);
  let cycles := ts_cycles r.2 in
  Some (mk_profile
          ((fun f => mk_function (f_id f) (f_name f) (f_module f) (f_calls f) (f_weight f)
                       (cycle_of cycles (f_id f)) (f_self_weight f) (f_events f)) <$> fs)
          cycles (p_events p)).

(** ** [Profile.integrate] *)

(** The state of [integrate]: the profile, the [outevent] stored on each
    [Cycle] object (lines 636-645), and the [partials] dictionary of the
    cycle entry being processed (line 663). *)
Record istate := mk_istate {
  i_prof : profile;
  i_cycles : gmap nat Q;
  i_partials : gmap string Q
}.

Definition get_function (fid : string) : PM istate function :=
  fun s => match p_functions (i_prof s) !! fid with Some f => Some (f, s) | None => None end.

(** The object stored at [fid], updated in place. *)
Definition put_function (fid : string) (f : function) : PM istate unit :=
  fun s => Some (tt, mk_istate (set_functions (i_prof s) (<[fid := f]> (p_functions (i_prof s))))
                               (i_cycles s) (i_partials s)).

Definition set_cycle_event (cy : nat) (v : Q) : PM istate unit :=
  fun s => Some (tt, mk_istate (i_prof s) (<[cy := v]> (i_cycles s)) (i_partials s)).

Definition set_partials (ps : gmap string Q) : PM istate unit :=
  fun s => Some (tt, mk_istate (i_prof s) (i_cycles s) ps).

(** [callees] of lines 646-655: the summed ratio of the calls entering the
    cycle at each member, from functions outside it. *)
Definition cycle_callees (fs : gmap string function) (cy : nat) : option (gmap string Q) :=
  GprofRank.opt_fold (fun acc f =>
      if decide (f_cycle f = Some cy) then Some acc else
      GprofRank.opt_fold (fun acc c =>
          callee ← fs !! callee_id c;
          if decide (f_cycle callee = Some cy) then
            r ← c_ratio c;
            Some (<[callee_id c := match acc !! callee_id c with Some x => (x + r)%Q | None => r end]> acc)
          else Some acc) (GprofRank.calls_of f) acc)
    (map snd (map_to_list fs)) ∅.

(** [_call_ratios_cycle] (lines 734-746): the depth-first walk along calls
    to higher ranks, summing into [call_ratios] the ratios of the calls
    reaching each member. *)
Fixpoint call_ratios_cycle (fs : gmap string function) (cy : nat) (ranks : gmap string nat)
    (fuel : nat) (fid : string) (st : gset string * gmap string Q)
  : option (gset string * gmap string Q) :=
  let '(visited, crs) := st in
  if decide (fid ∈ visited) then Some st else
  match fuel with
  | 0 => None
  | S fuel =>
      f ← fs !! fid;
      GprofRank.opt_fold (fun st c =>
          let '(visited, crs) := st in
          if decide (callee_id c = f_id f) then Some st else
          callee ← fs !! callee_id c;
          if decide (f_cycle callee = Some cy) then
            rc ← ranks !! callee_id c;
            rf ← ranks !! fid;
            if Nat.ltb rf rc then
              r ← c_ratio c;
              call_ratios_cycle fs cy ranks fuel (callee_id c)
                (visited, <[callee_id c := (default 0 (crs !! callee_id c) + r)%Q]> crs)
            else Some st
          else Some st) (GprofRank.calls_of f) ({[fid]} ∪ visited, crs)
  end.

(** The [id()] order that breaks ties in the heap of
    [_rank_cycle_function]: memory layout is not modelled, the ids' own
    order stands for it; [GprofRank] shows the ranks are the same for
    every order. *)
Definition id_order (a b : string) : bool := String.ltb a b.

Section Integrate.

Local Open Scope Q_scope.

Variables outevent inevent : event.

(** [_integrate_call] (lines 620-626) of the call stored at [k] in the
    calls of [fid], with [rec] the [_integrate_function] it calls. *)
Definition integrate_call (rec : string -> PM istate Q) (fid k : string) (c : call) : PM istate Q :=
  let* f0 := get_function fid in
  let* cur := pm_lift (f_calls f0 !! k) in
  if decide (is_Some (c_events cur !! outevent)) then pm_fail else
  let* r := pm_lift (c_ratio cur) in
  let* _ := get_function (callee_id c) in
  let* sub := rec (callee_id c) in
  let subtotal := r * sub in
  let* f' := get_function fid in
  let* cur' := pm_lift (f_calls f' !! k) in
  put_function fid (set_calls f' (<[k := set_call_event cur' outevent subtotal]> (f_calls f'))) ;;;
  pm_ret subtotal.

(** [function[outevent] += x], or [= x] when it is undefined. *)
Definition add_outevent (fid : string) (x : Q) : PM istate unit :=
  let* f := get_function fid in
  put_function fid (set_function_event f outevent
                      (match f_events f !! outevent with Some o => o + x | None => x end)).

(** [_integrate_cycle_function] (lines 748-792), memoised in [partials]:
    the time [function] passes on, per unit of [partial_ratio], along the
    calls to higher ranks. *)
Fixpoint integrate_cycle_function (cy : nat) (ranks : gmap string nat) (crs : gmap string Q)
    (partial_ratio : Q) (fuel : nat) (fid : string) : PM istate Q :=
  let* s := pm_get in
  match i_partials s !! fid with
  | Some v => pm_ret v
  | None =>
      match fuel with
      | O => pm_fail
      | S fuel =>
          let* f := get_function fid in
          let* v := pm_lift (f_events f !! inevent) in
          let* partial := pm_foldl (fun partial '(k, c) =>
              if decide (callee_id c = f_id f) then pm_ret partial else
              let* callee := get_function (callee_id c) in
              if decide (f_cycle callee = Some cy) then
                let* rc := pm_lift (ranks !! callee_id c) in
                let* rf := pm_lift (ranks !! fid) in
                if Nat.ltb rf rc then
                  let* callee_partial :=
                    integrate_cycle_function cy ranks crs partial_ratio fuel (callee_id c) in
                  let* cr := pm_lift (c_ratio c) in
                  let* total := pm_lift (crs !! callee_id c) in
                  let call_partial := ratio cr total * callee_partial in
                  let* f0 := get_function fid in
                  let* cur := pm_lift (f_calls f0 !! k) in
                  let v' := match c_events cur !! outevent with
                            | Some o => o + call_partial | None => call_partial end in
                  put_function fid (set_calls f0 (<[k := set_call_event cur outevent v']> (f_calls f0))) ;;;
                  pm_ret (partial + call_partial)
                else pm_ret partial
              else
                let* f0 := get_function fid in
                let* cur := pm_lift (f_calls f0 !! k) in
                let* o := pm_lift (c_events cur !! outevent) in
                pm_ret (partial + partial_ratio * o))
            (map_to_list (f_calls f)) (partial_ratio * v) in
          let* s := pm_get in
          set_partials (<[fid := partial]> (i_partials s)) ;;;
          add_outevent fid partial ;;;
          pm_ret partial
      end
  end.

(** [_integrate_cycle] (lines 631-681). *)
Definition integrate_cycle (rec : string -> PM istate Q) (cy : nat) : PM istate Q :=
  let* s := pm_get in
  match i_cycles s !! cy with
  | Some v => pm_ret v
  | None =>
      let* members := pm_lift (p_cycles (i_prof s) !! cy) in
      (* the time of the whole cycle *)
      let* total := pm_foldl (fun total member =>
          let* f := get_function member in
          let* v := pm_lift (f_events f !! inevent) in
          let* subtotal := pm_foldl (fun subtotal '(k, c) =>
              let* callee := get_function (callee_id c) in
              if decide (f_cycle callee = Some cy) then pm_ret subtotal
              else let* x := integrate_call rec member k c in pm_ret (subtotal + x))
            (map_to_list (f_calls f)) v in
          pm_ret (total + subtotal)) members 0 in
      set_cycle_event cy total ;;;
      (* the time propagated to the callers of the cycle *)
      let* s := pm_get in
      let* callees := pm_lift (cycle_callees (p_functions (i_prof s)) cy) in
      pm_iter (fun member =>
          let* f := get_function member in
          put_function member (set_function_event f outevent 0)) members ;;;
      pm_iter (fun '(callee, call_ratio) =>
          let* s := pm_get in
          let fs := p_functions (i_prof s) in
          let* ranks := pm_lift (GprofRank.rank_cycle_function fs cy id_order callee) in
          let* st := pm_lift (call_ratios_cycle fs cy ranks (S (size fs)) callee (∅, ∅)) in
          set_partials ∅ ;;;
          let* partial := integrate_cycle_function cy ranks st.2 call_ratio (S (size fs)) callee in
          let* s := pm_get in
          let max_partial := map_fold (fun _ v m => Qmax v m) partial (i_partials s) in
          if Qle_bool (Qabs (partial - max_partial)) ((1 # 10000000) * max_partial) &&
             Qle_bool (Qabs (call_ratio * total - partial)) ((1 # 1000) * call_ratio * total)
          then pm_ret tt else pm_fail) (map_to_list callees) ;;;
      pm_ret total
  end.

(** [_integrate_function] (lines 611-618). *)
Fixpoint integrate_function (fuel : nat) (fid : string) : PM istate Q :=
  match fuel with
  | O => pm_fail
  | S fuel =>
      let* f := get_function fid in
      match f_cycle f with
      | Some cy => integrate_cycle (integrate_function fuel) cy
      | None =>
          match f_events f !! outevent with
          | Some v => pm_ret v
          | None =>
              let* total := pm_lift (f_events f !! inevent) in
              let* total := pm_foldl (fun acc '(k, c) =>
                  if decide (callee_id c = f_id f) then pm_ret acc else
                  let* x := integrate_call (integrate_function fuel) fid k c in
                  pm_ret (acc + x)) (map_to_list (f_calls f)) total in
              let* f' := get_function fid in
              put_function fid (set_function_event f' outevent total) ;;;
              pm_ret total
          end
      end
  end.

(** The sanity checks of [integrate] (lines 588-597). *)
Definition integrate_ok (p : profile) : bool :=
  bool_decide (p_events p !! outevent = None) &&
  bool_decide (map_Forall (fun _ f =>
     f_events f !! outevent = None /\ is_Some (f_events f !! inevent) /\
     map_Forall (fun _ c => c_events c !! outevent = None /\
                            (callee_id c <> f_id f -> is_Some (c_ratio c))) (f_calls f))
     (p_functions p)).

(** [integrate] (lines 578-609). *)
Definition integrate (p : profile) : option profile :=
  if negb (integrate_ok p) then None else
  let fuel := S (size (p_functions p)) in
  (* the input aggregated for each cycle: the sum over all functions *)
  let sum := map_fold (fun _ f acc => acc + default 0 (f_events f !! inevent)) 0 (p_functions p) in
  let p := if bool_decide (p_cycles p = []) then p else set_profile_event p inevent sum in
  r ← pm_iter (fun fid => integrate_function fuel fid ;;; pm_ret tt)
        (map fst (map_to_list (p_functions p))) (mk_istate p ∅ ∅);
  Some (set_profile_event (i_prof r.2) outevent sum).

End Integrate.

End GprofCycles.
