(* ===== verification/GprofPerf.v ===== *)
(** The perf reader of [src/gprof2dot.py]: [LineParser] (lines 1057-1097)
    and [PerfParser] (2239-2368), and the text [modeling.gen_call_chains]
    (src/modeling.py:153-214) pipes into it.

    The stream is the list of lines [readline()] returns, each with its
    newline; the parser state holds the rest of the stream, the lookahead
    line and the end-of-file flag of [LineParser], and the profile being
    built.  Every loop consumes a line per iteration, so the fuel each one
    receives, the length of the stream plus one, is enough; the theorems
    show the result never depends on more fuel. *)

From Stdlib Require Import QArith Lqa.
From S2P Require Import Prelude PyText GprofModel GprofCycles.

Local Open Scope string_scope.

Module GprofPerf.

Import Gprof.

(** ** Regular expressions of [PerfParser] *)

Definition is_hex (c : Ascii.ascii) : bool :=
  Py.is_digit c ||
  (Nat.leb 97 (Ascii.nat_of_ascii c) && Nat.leb (Ascii.nat_of_ascii c) 102) ||
  (Nat.leb 65 (Ascii.nat_of_ascii c) && Nat.leb (Ascii.nat_of_ascii c) 70).

Definition is_lf (c : Ascii.ascii) : bool := Ascii.eqb c "010".

Fixpoint span (p : Ascii.ascii -> bool) (l : list Ascii.ascii) : list Ascii.ascii * list Ascii.ascii :=
  match l with
  | c :: l' => if p c then let '(a, b) := span p l' in (c :: a, b) else ([], l)
  | [] => ([], [])
  end.

Fixpoint first_some {A B} (f : A -> option B) (l : list A) : option B :=
  match l with
  | [] => None
  | x :: l => match f x with Some b => Some b | None => first_some f l end
  end.

(** The end of [call_re] after the symbol: blanks, an opening
    parenthesis, the module (any characters but a newline, as many as
    possible), a closing parenthesis and the end of the line; [$] also
    matches before a final newline. *)
Definition module_tail (l : list Ascii.ascii) : option (list Ascii.ascii) :=
  let '(ws, r) := span Py.is_space l in
  match ws, r with
  | _ :: _, "("%char :: m =>
      let m' := if bool_decide (last m = Some "010"%char) then removelast m else m in
      match last m' with
      | Some ")"%char =>
          let module := removelast m' in
          if existsb is_lf module then None else Some module
      | _ => None
      end
  | _, _ => None
  end.

(** [call_re] (line 2335): leading blanks, the hexadecimal [address],
    blanks, the [symbol] (greedy, any characters but a newline), then the
    module part above.  Python's backtracking order: the leading blanks and
    the address are forced; the second run of blanks is tried from longest
    to shortest and, for each, the symbol from longest to shortest. *)
Definition call_re_match (line : string)
  : option (string * string * string) :=
  let l := chars line in
  let '(lead, r1) := span Py.is_space l in
  let '(address, r2) := span is_hex r1 in
  if bool_decide (lead = []) || bool_decide (address = []) then None else
  let ws_len := length (span Py.is_space r2).1 in
  first_some (fun w =>
      let s := drop w r2 in
      first_some (fun k =>
          if existsb is_lf (take k s) then None else
          module ← module_tail (drop k s);
          Some (String.string_of_list_ascii address, String.string_of_list_ascii (take k s),
                String.string_of_list_ascii module))
        (rev (seq 0 (S (length s)))))
    (rev (seq 1 ws_len)).

(** [re.sub(addr2_re, "", name)] with [addr2_re = \+0x[0-9a-fA-F]+$]: the
    leftmost position from which the pattern reaches the end. *)
Definition addr2_suffix (l : list Ascii.ascii) : bool :=
  match l with
  | "+"%char :: "0"%char :: "x"%char :: h =>
      let h' := if bool_decide (last h = Some "010"%char) then removelast h else h in
      bool_decide (h' <> []) && forallb is_hex h'
  | _ => false
  end.

Definition strip_addr2 (name : string) : string :=
  let l := chars name in
  match list_find (fun i => addr2_suffix (drop i l) = true) (seq 0 (length l)) with
  | Some (_, i) =>
      let tail := if bool_decide (last l = Some "010"%char) then ["010"%char] else [] in
      String.string_of_list_ascii (take i l ++ tail)
  | None => name
  end.

(** [os.path.basename]: the text after the last [/]. *)
Definition basename (path : string) : string :=
  default "" (last (Py.split_on "/" path)).

(** ** [LineParser] *)

Record pstate := mk_pstate {
  stream : list string;
  lookahead : string;
  at_eof : bool;
  prof : profile
}.

Fixpoint drop_while (p : Ascii.ascii -> bool) (l : list Ascii.ascii) : list Ascii.ascii :=
  match l with
  | c :: l' => if p c then drop_while p l' else l
  | [] => []
  end.

(** [line.rstrip("\r\n")]. *)
Definition rstrip_nl (s : string) : string :=
  String.string_of_list_ascii
    (rev (drop_while (fun c => Ascii.eqb c "013" || Ascii.eqb c "010")
                     (rev (chars s)))).

(** [LineParser.readline]: [""] at the end of the stream sets [eof]. *)
Definition line_readline (st : pstate) : pstate :=
  match stream st with
  | [] => mk_pstate [] "" true (prof st)
  | l :: rest => mk_pstate rest (rstrip_nl l) false (prof st)
  end.

(** [PerfParser.readline]: comment lines are skipped. *)
Fixpoint perf_readline (fuel : nat) (st : pstate) : option pstate :=
  match fuel with
  | 0 => None
  | S fuel =>
      let st := line_readline st in
      if at_eof st || negb (String.prefix "#" (lookahead st)) then Some st
      else perf_readline fuel st
  end.

(** [consume]: the lookahead, and the next line read. *)
Definition consume (fuel : nat) (st : pstate) : option (string * pstate) :=
  st' ← perf_readline fuel st; Some (lookahead st, st').

(** ** [PerfParser.parse_call] *)

Definition new_function (function_id function_name module : string) : function :=
  mk_function function_id function_name (Some (basename module)) ∅ None None None
    (<[TOTAL_SAMPLES := 0%Q]> (<[SAMPLES := 0%Q]> ∅)).

(** The function name of a matched line: the symbol without its
    [+0x...] offset, or the address when that is empty or [[unknown]]. *)
Definition call_function (address symbol : string) : string :=
  let function_name := if String.eqb symbol "" then symbol else strip_addr2 symbol in
  if String.eqb function_name "" || String.eqb function_name "[unknown]" then address
  else function_name.

(** [profile.functions[function_id]], or a new [Function] added. *)
Definition ensure_function (p : profile) (function_id function_name module : string) : profile :=
  match p_functions p !! function_id with
  | Some _ => p
  | None => set_functions p (<[function_id := new_function function_id function_name module]>
                               (p_functions p))
  end.

Definition with_prof (st : pstate) (p : profile) : pstate :=
  mk_pstate (stream st) (lookahead st) (at_eof st) p.

Definition parse_call (fuel : nat) (st : pstate) : option (string * pstate) :=
  '(line, st) ← consume fuel st;
  '(address, symbol, module) ← call_re_match line;
  let function_name := call_function address symbol in
  let function_id := function_name +:+ ":" +:+ module in
  Some (function_id, with_prof st (ensure_function (prof st) function_id function_name module)).

(** [parse_callchain]: calls until an empty lookahead, which is consumed. *)
Fixpoint parse_callchain_loop (fuel : nat) (st : pstate) : option (list string * pstate) :=
  match fuel with
  | 0 => None
  | S fuel' =>
      if String.eqb (lookahead st) "" then Some ([], st)
      else
        '(fid, st) ← parse_call fuel st;
        '(rest, st) ← parse_callchain_loop fuel' st;
        Some (fid :: rest, st)
  end.

Definition parse_callchain (fuel : nat) (st : pstate) : option (list string * pstate) :=
  '(chain, st) ← parse_callchain_loop fuel st;
  if String.eqb (lookahead st) "" then '(_, st) ← consume fuel st; Some (chain, st)
  else Some (chain, st).

(** ** [PerfParser.parse_event] *)

Definition add_event (e : event) (n : Q) (f : function) : function :=
  set_function_event f e (default 0 (f_events f !! e) + n)%Q.

Definition update_function (fid : string) (g : function -> function) (p : profile) : profile :=
  set_functions p (alter g fid (p_functions p)).

(** One step of [for caller in callchain[1:]]: the call from [caller] to
    [callee], created with [SAMPLES2 = 1] or incremented. *)
Definition record_call (callee caller : string) (p : profile) : profile :=
  update_function caller (fun f =>
    match f_calls f !! callee with
    | Some c => set_calls f (<[callee := set_call_event c SAMPLES2
                                   (default 0 (c_events c !! SAMPLES2) + 1)%Q]> (f_calls f))
    | None => set_calls f (<[callee := mk_call callee None None (<[SAMPLES2 := 1%Q]> ∅)]>
                             (f_calls f))
    end) p.

Fixpoint record_calls (callee : string) (callers : list string) (p : profile) : profile :=
  match callers with
  | [] => p
  | caller :: rest => record_calls caller rest (record_call callee caller p)
  end.

Definition record_chain (callchain : list string) (p : profile) : profile :=
  match callchain with
  | [] => p
  | callee :: callers =>
      let p := update_function callee (add_event SAMPLES 1) p in
      let p := set_profile_event p SAMPLES (default 0 (p_events p !! SAMPLES) + 1)%Q in
      let p := record_calls callee callers p in
      foldr (fun fid p => update_function fid (add_event TOTAL_SAMPLES 1) p) p
            (Py.unique callchain)
  end.

(** [None] is the [assert line] of an empty header or a frame line that
    [call_re] does not match. *)
Definition parse_event (fuel : nat) (st : pstate) : option pstate :=
  if at_eof st then Some st else
  '(line, st) ← consume fuel st;
  if String.eqb line "" then None else
  '(callchain, st) ← parse_callchain fuel st;
  Some (with_prof st (record_chain callchain (prof st))).

Fixpoint parse_events (fuel : nat) (st : pstate) : option pstate :=
  match fuel with
  | 0 => None
  | S fuel' => if at_eof st then Some st else st ← parse_event fuel st; parse_events fuel' st
  end.

(** The reading loop of [PerfParser.parse]: the profile before the
    derived data. *)
Definition parse_samples (lines : list string) : option profile :=
  let fuel := S (length lines) in
  st ← perf_readline fuel (mk_pstate lines "" false (mk_profile ∅ [] ∅));
  let st := with_prof st (set_profile_event (prof st) SAMPLES 0%Q) in
  st ← parse_events fuel st;
  Some (prof st).

(** [PerfParser.parse] with [totalMethod = "callratios"]. *)
Definition parse (lines : list string) : option profile :=
  p ← parse_samples lines;
  let p := validate p in
  p ← GprofCycles.find_cycles p;
  p ← profile_ratio TIME_RATIO SAMPLES p;
  p ← call_ratios SAMPLES2 p;
  GprofCycles.integrate TOTAL_TIME_RATIO TIME_RATIO p.

(** ** The input [gen_call_chains] writes to the pipe *)

Definition gen_call_chains_input (rows : list (string * list string)) : string :=
  String.concat "" (map (fun '(command, call_stack) =>
    command +:+ String "010" "" +:+
    String.concat "" (map (fun each_func => String "009" (each_func +:+ String "010" "")) call_stack) +:+
    String "010" "") rows).

(** The lines [readline()] returns from a text: each ends with its
    newline, the last one possibly without. *)
Fixpoint lines_aux (cur : list Ascii.ascii) (l : list Ascii.ascii) : list string :=
  match l with
  | [] => match cur with [] => [] | _ => [String.string_of_list_ascii (rev cur)] end
  | c :: l' =>
      if Ascii.eqb c "010" then String.string_of_list_ascii (rev (c :: cur)) :: lines_aux [] l'
      else lines_aux (c :: cur) l'
  end.

Definition readlines (s : string) : list string := lines_aux [] (chars s).

(** ** What the reader does with the rows it is given *)

Definition nl : string := String "010" EmptyString.

(** A field [gen_call_chains] can write on one line: no [\r], no [\n]. *)
Definition no_eol (s : string) : bool :=
  forallb (fun c => negb (Ascii.eqb c "013" || Ascii.eqb c "010")) (chars s).

(** The lines of one row: the command, a tab-indented line per frame, a
    blank line. *)
Definition tab_line (f : string) : string := String "009" f +:+ nl.

Definition row_lines (row : string * list string) : list string :=
  (row.1 +:+ nl) :: map tab_line row.2 ++ [nl].

(** A row the reader takes as one event: a non-empty command that is not
    a comment line, fields on one line each. *)
Definition row_ok (row : string * list string) : bool :=
  negb (String.eqb row.1 "") && no_eol row.1 && negb (String.prefix "#" row.1) &&
  forallb no_eol row.2.

(** The frames of a chain as [parse_call] reads them, without the text. *)
Fixpoint chain_of (p : profile) (frames : list string) : option (list string * profile) :=
  match frames with
  | [] => Some ([], p)
  | f :: fs =>
      '(address, symbol, module) ← call_re_match (String "009" f);
      let function_name := call_function address symbol in
      let function_id := function_name +:+ ":" +:+ module in
      '(ids, p) ← chain_of (ensure_function p function_id function_name module) fs;
      Some (function_id :: ids, p)
  end.

(** The function id [parse_call] gives the line of a frame. *)
Definition frame_id (f : string) : option string :=
  '(address, symbol, module) ← call_re_match (String "009" f);
  Some (call_function address symbol +:+ ":" +:+ module).

Definition event_spec (p : profile) (row : string * list string) : option profile :=
  '(ids, p) ← chain_of p row.2; Some (record_chain ids p).

Fixpoint events_spec (p : profile) (rows : list (string * list string)) : option profile :=
  match rows with
  | [] => Some p
  | row :: rows => p ← event_spec p row; events_spec p rows
  end.

(** The reader's state after reading the first of [lines]. *)
Definition rd (lines : list string) (p : profile) : pstate :=
  line_readline (mk_pstate lines "" false p).

(** The next line is not a comment. *)
Definition head_ok (lines : list string) : bool :=
  match lines with [] => true | l :: _ => negb (String.prefix "#" (rstrip_nl l)) end.

(** Two rows as [gen_call_chains] receives them: an idle sample and a
    sample without frames. *)
Definition sample_rows : list (string * list string) :=
  [("swapper", ["ffffffff81000e native_safe_halt+0xe ([kernel.kallsyms])";
                "ffffffff81002a default_idle+0x1a ([kernel.kallsyms])"]);
   ("worker", [])].

(** The idle frame alone under a command starting with [#], and under an
    empty command. *)
Definition comment_rows : list (string * list string) :=
  [("#worker", ["ffffffff81000e native_safe_halt+0xe ([kernel.kallsyms])"])].

Definition empty_command_rows : list (string * list string) :=
  [("", ["ffffffff81000e native_safe_halt+0xe ([kernel.kallsyms])"])].

(** ** The counters of [parse_event] *)

(** The value of an event of function [k], 0 when absent. *)
Definition fcount (p : profile) (k : string) (e : event) : Q :=
  default 0%Q (p_functions p !! k ≫= fun f => f_events f !! e).

(** No function has samples yet. *)
Definition no_samples (p : profile) : Prop := forall k, (fcount p k SAMPLES == 0)%Q.

Lemma update_function_lookup fid g p k :
  p_functions (update_function fid g p) !! k =
  if decide (k = fid) then g <$> p_functions p !! k else p_functions p !! k.
Proof.
  unfold update_function; simpl.
  case_decide; subst; [apply lookup_alter_eq | apply lookup_alter_ne; congruence].
Qed.

Lemma update_function_is_Some fid g p k :
  is_Some (p_functions (update_function fid g p) !! k) <-> is_Some (p_functions p !! k).
Proof. rewrite update_function_lookup. case_decide; [apply fmap_is_Some|done]. Qed.

Lemma fcount_update_ne fid g p k e :
  k <> fid -> fcount (update_function fid g p) k e = fcount p k e.
Proof. intros Hne. unfold fcount. rewrite update_function_lookup. by case_decide. Qed.

Lemma fcount_add_event k e e' n p :
  is_Some (p_functions p !! k) ->
  (fcount (update_function k (add_event e n) p) k e' ==
   fcount p k e' + if bool_decide (e' = e) then n else 0)%Q.
Proof.
  intros [f Hf]. unfold fcount. rewrite update_function_lookup, decide_True, Hf by done. simpl.
  unfold add_event, set_function_event; simpl.
  case_bool_decide as He; subst; [rewrite lookup_insert_eq|rewrite lookup_insert_ne by done];
    simpl; ring.
Qed.

(** [record_calls] only touches [calls] dictionaries. *)
Lemma record_calls_events callee callers p k :
  (f_events <$> p_functions (record_calls callee callers p) !! k) = f_events <$> p_functions p !! k.
Proof.
  revert callee p. induction callers as [|caller rest IH]; intros callee p; [done|]. simpl.
  rewrite IH. unfold record_call. rewrite update_function_lookup.
  case_decide; [|done]. destruct (p_functions p !! k); simpl; [by case_match|done].
Qed.

Lemma record_calls_fcount callee callers p k e :
  fcount (record_calls callee callers p) k e = fcount p k e.
Proof.
  unfold fcount. pose proof (record_calls_events callee callers p k) as H.
  destruct (p_functions (record_calls _ _ _) !! k), (p_functions p !! k); simplify_eq/=; congruence.
Qed.

Lemma record_calls_is_Some callee callers p k :
  is_Some (p_functions (record_calls callee callers p) !! k) <-> is_Some (p_functions p !! k).
Proof.
  pose proof (record_calls_events callee callers p k) as H.
  rewrite <-(fmap_is_Some f_events), H. apply fmap_is_Some.
Qed.

Lemma record_calls_p_events callee callers p :
  p_events (record_calls callee callers p) = p_events p.
Proof. revert callee p. induction callers; intros; simpl; [done|]. by rewrite IHcallers. Qed.

Lemma total_pass_p_events l p :
  p_events (foldr (fun fid p => update_function fid (add_event TOTAL_SAMPLES 1) p) p l) = p_events p.
Proof. induction l; simpl; [done|]. by rewrite <-IHl. Qed.

(** The [TOTAL_SAMPLES] pass over a list without duplicates. *)
Lemma fcount_total_pass l p k e :
  NoDup l -> is_Some (p_functions p !! k) ->
  (fcount (foldr (fun fid p => update_function fid (add_event TOTAL_SAMPLES 1) p) p l) k e ==
   fcount p k e + if bool_decide (e = TOTAL_SAMPLES /\ k ∈ l) then 1 else 0)%Q.
Proof.
  intros Hnd Hk. induction Hnd as [|fid l Hfid Hnd IH]; simpl.
  - rewrite bool_decide_eq_false_2 by set_solver. ring.
  - assert (Hs : is_Some (p_functions (foldr (fun fid p => update_function fid (add_event TOTAL_SAMPLES 1) p) p l) !! k)).
    { clear IH Hfid Hnd. induction l; simpl; [done|]. by apply update_function_is_Some. }
    destruct (decide (k = fid)) as [->|Hne].
    + rewrite fcount_add_event by done. rewrite IH.
      destruct (decide (e = TOTAL_SAMPLES)) as [->|He].
      * rewrite bool_decide_eq_false_2, !bool_decide_eq_true_2 by set_solver. ring.
      * rewrite !bool_decide_eq_false_2 by naive_solver. ring.
    + rewrite fcount_update_ne by done. rewrite IH.
      by rewrite (bool_decide_ext (e = TOTAL_SAMPLES /\ k ∈ fid :: l) (e = TOTAL_SAMPLES /\ k ∈ l))
        by set_solver.
Qed.

Lemma fcount_set_profile_event p e v k e' : fcount (set_profile_event p e v) k e' = fcount p k e'.
Proof. reflexivity. Qed.

(** The counters after [record_chain]: the [SAMPLES] step, then one
    [TOTAL_SAMPLES] for each distinct function of the chain. *)
Lemma record_chain_fcount callee callers p k e :
  is_Some (p_functions p !! k) ->
  (fcount (record_chain (callee :: callers) p) k e ==
   fcount (update_function callee (add_event SAMPLES 1) p) k e +
   if bool_decide (e = TOTAL_SAMPLES /\ k ∈ callee :: callers) then 1 else 0)%Q.
Proof.
  intros Hk. unfold record_chain.
  rewrite fcount_total_pass.
  - rewrite record_calls_fcount, fcount_set_profile_event.
    by rewrite (bool_decide_ext _ (e = TOTAL_SAMPLES /\ k ∈ callee :: callers))
      by (rewrite elem_of_py_unique; naive_solver).
  - apply NoDup_py_unique.
  - by rewrite record_calls_is_Some; apply update_function_is_Some.
Qed.

Lemma record_chain_samples callee callers p k :
  is_Some (p_functions p !! callee) -> is_Some (p_functions p !! k) ->
  (fcount (record_chain (callee :: callers) p) k SAMPLES ==
   fcount p k SAMPLES + if bool_decide (head (callee :: callers) = Some k) then 1 else 0)%Q.
Proof.
  intros Hc Hk. rewrite record_chain_fcount by done.
  rewrite (bool_decide_eq_false_2 (_ /\ _)) by naive_solver. simpl.
  destruct (decide (k = callee)) as [->|Hkc].
  - rewrite fcount_add_event by done. rewrite !bool_decide_eq_true_2 by done. ring.
  - rewrite fcount_update_ne by done. rewrite !bool_decide_eq_false_2 by congruence. ring.
Qed.

Lemma record_chain_total_samples callee callers p k :
  is_Some (p_functions p !! callee) -> is_Some (p_functions p !! k) ->
  (fcount (record_chain (callee :: callers) p) k TOTAL_SAMPLES ==
   fcount p k TOTAL_SAMPLES + if bool_decide (k ∈ callee :: callers) then 1 else 0)%Q.
Proof.
  intros Hc Hk. rewrite record_chain_fcount by done.
  rewrite (bool_decide_ext _ (k ∈ callee :: callers)) by naive_solver.
  destruct (decide (k = callee)) as [->|Hkc].
  - rewrite fcount_add_event by done. rewrite bool_decide_eq_false_2 by done. ring.
  - rewrite fcount_update_ne by done. ring.
Qed.

(** C22: One event of [parse_event]: the first function of the call chain
    gains one [SAMPLES], every function of the chain gains exactly one
    [TOTAL_SAMPLES] however often it occurs in the chain (recursion), the
    others are unchanged, and the profile gains one [SAMPLES]. *)
Theorem record_chain_counts chain p k :
  chain <> [] -> Forall (fun fid => is_Some (p_functions p !! fid)) chain ->
  is_Some (p_functions p !! k) ->
  (fcount (record_chain chain p) k SAMPLES ==
     fcount p k SAMPLES + if bool_decide (head chain = Some k) then 1 else 0)%Q /\
  (fcount (record_chain chain p) k TOTAL_SAMPLES ==
     fcount p k TOTAL_SAMPLES + if bool_decide (k ∈ chain) then 1 else 0)%Q /\
  (default 0 (p_events (record_chain chain p) !! SAMPLES) ==
     default 0 (p_events p !! SAMPLES) + 1)%Q.
Proof.
  intros Hne Hall Hk. destruct chain as [|callee callers]; [done|]. apply Forall_cons in Hall as [Hc _].
  split; [|split].
  - by apply record_chain_samples.
  - by apply record_chain_total_samples.
  - unfold record_chain. rewrite total_pass_p_events, record_calls_p_events. simpl.
    by rewrite lookup_insert_eq.
Qed.

(** A recursive chain: [work] called from [main] called from [work]. *)
Lemma record_chain_counts_witness :
  (fcount (record_chain ["work"; "main"; "work"] sample_profile) "work" SAMPLES ==
     fcount sample_profile "work" SAMPLES +
     if bool_decide (head ["work"; "main"; "work"] = Some "work") then 1 else 0)%Q /\
  (fcount (record_chain ["work"; "main"; "work"] sample_profile) "work" TOTAL_SAMPLES ==
     fcount sample_profile "work" TOTAL_SAMPLES +
     if bool_decide ("work" ∈ ["work"; "main"; "work"]) then 1 else 0)%Q /\
  (default 0 (p_events (record_chain ["work"; "main"; "work"] sample_profile) !! SAMPLES) ==
     default 0 (p_events sample_profile !! SAMPLES) + 1)%Q.
Proof. apply record_chain_counts; [discriminate | decide_vm | decide_vm]. Defined.

(** ** Reading the text of [gen_call_chains] *)

Lemma no_eol_spec s :
  no_eol s = true -> Forall (fun c => Ascii.eqb c "013" = false /\ Ascii.eqb c "010" = false) (chars s).
Proof.
  unfold no_eol. intros H. apply Forall_forall. intros c Hc%list_elem_of_In.
  apply (proj1 (forallb_forall _ _)) with (x := c) in H; [|done].
  by apply negb_true_iff, orb_false_iff in H.
Qed.

Lemma drop_while_keep (q : Ascii.ascii -> bool) l : Forall (fun c => q c = false) l -> drop_while q l = l.
Proof. intros Hl. destruct Hl as [|c l Hc _]; simpl; [done|]. by rewrite Hc. Qed.

Lemma rstrip_nl_line s : no_eol s = true -> rstrip_nl (s +:+ nl) = s.
Proof.
  intros Hs%no_eol_spec. unfold rstrip_nl. rewrite chars_app. simpl.
  rewrite rev_app_distr. simpl. rewrite drop_while_keep.
  - by rewrite rev_involutive, String.string_of_list_ascii_of_string.
  - apply Forall_rev. apply (Forall_impl _ _ _ Hs). intros c [-> ->]. done.
Qed.

Lemma no_eol_tab f : no_eol f = true -> no_eol (String "009" f) = true.
Proof. done. Qed.

Lemma lines_aux_line cur l rest :
  Forall (fun c => Ascii.eqb c "010" = false) l ->
  lines_aux cur (l ++ "010"%char :: rest) =
  String.string_of_list_ascii (rev cur ++ l ++ ["010"%char]) :: lines_aux [] rest.
Proof.
  intros Hl. revert cur. induction Hl as [|c l Hc _ IH]; intros cur; simpl; [done|].
  rewrite Hc, IH. simpl. by rewrite <-app_assoc.
Qed.

(** [readlines] gives back the lines of a text made of lines. *)
Lemma lines_aux_lines (L : list string) :
  Forall (fun s => no_eol s = true) L ->
  lines_aux [] (L ≫= fun s => (chars s ++ ["010"%char])%list) = map (fun s => s +:+ nl) L.
Proof.
  induction 1 as [|s L Hs _ IH]; [done|]. rewrite bind_cons, <-app_assoc. cbn [app].
  rewrite lines_aux_line, IH.
  - f_equal. simpl. by rewrite <-(String.string_of_list_ascii_of_string (s +:+ nl)), chars_app.
  - apply no_eol_spec in Hs. apply (Forall_impl _ _ _ Hs). naive_solver.
Qed.

Lemma string_concat_empty_cons x (l : list string) :
  String.concat "" (x :: l) = x +:+ String.concat "" l.
Proof. destruct l; [by rewrite string_app_nil_r|reflexivity]. Qed.

Lemma chars_concat_empty (l : list string) : chars (String.concat "" l) = l ≫= chars.
Proof.
  induction l as [|x l IH]; [done|].
  by rewrite string_concat_empty_cons, chars_app, IH, bind_cons.
Qed.

Lemma chars_frames_text fs :
  map (fun f => String "009" (f +:+ String "010" "")) fs ≫= chars =
  map (String "009") fs ≫= (fun s => (chars s ++ ["010"%char])%list).
Proof.
  induction fs as [|f fs IH]; [done|]. cbn [map]. rewrite !bind_cons, IH. simpl. by rewrite chars_app.
Qed.

(** The lines of the text [gen_call_chains] writes. *)
Lemma readlines_gen_call_chains_input rows :
  Forall (fun row => row_ok row = true) rows ->
  readlines (gen_call_chains_input rows) = rows ≫= row_lines.
Proof.
  intros Hrows. unfold readlines, gen_call_chains_input.
  set (strs := fun row : string * list string => row.1 :: map (String "009") row.2 ++ [""]).
  set (g := fun s => (chars s ++ ["010"%char])%list).
  assert (Hr : rows ≫= row_lines = map (fun s => s +:+ nl) (rows ≫= strs)).
  { clear Hrows. induction rows as [|[c fs] rows IH]; [done|].
    rewrite !bind_cons, map_app, IH. f_equal. unfold row_lines, strs; simpl.
    by rewrite map_app, map_map. }
  rewrite Hr, chars_concat_empty, <-lines_aux_lines.
  - f_equal. clear Hrows Hr. induction rows as [|[c fs] rows IH]; [done|].
    cbn [map]. rewrite !bind_cons, bind_app, IH. f_equal.
    rewrite !chars_app, chars_concat_empty. rewrite chars_frames_text.
    unfold strs; simpl. rewrite bind_app. simpl. rewrite <-!app_assoc. reflexivity.
  - clear Hr. induction Hrows as [|[c fs] rows Hrow _ IH]; [constructor|].
    rewrite bind_cons. apply Forall_app. split; [|done].
    unfold row_ok in Hrow; simpl in Hrow.
    apply andb_prop in Hrow as [Hc Hfs]. apply andb_prop in Hc as [Hc _].
    apply andb_prop in Hc as [_ Hc]. simpl in *.
    constructor; [done|]. apply Forall_app. split; [|by repeat constructor].
    apply Forall_fmap. rewrite forallb_forall in Hfs. apply Forall_forall.
    intros f Hf%list_elem_of_In. by apply no_eol_tab, Hfs.
Qed.

(** ** The reader on those lines *)

Lemma rd_with_prof L p q : with_prof (rd L p) q = rd L q.
Proof. by destruct L. Qed.

Lemma rd_prof L p : prof (rd L p) = p.
Proof. by destruct L. Qed.

Lemma perf_readline_rd n st :
  head_ok (stream st) = true -> perf_readline (S n) st = Some (rd (stream st) (prof st)).
Proof. destruct st as [[|l L] la e p]; simpl; [done|]. intros H. by rewrite H. Qed.

Lemma rstrip_tab_line f : no_eol f = true -> rstrip_nl (tab_line f) = String "009" f.
Proof. intros Hf. by apply rstrip_nl_line, no_eol_tab. Qed.

Lemma head_ok_frames fs rest :
  Forall (fun f => no_eol f = true) fs -> head_ok (map tab_line fs ++ nl :: rest) = true.
Proof. destruct 1 as [|f fs' Hf _]; [done|]. simpl. by rewrite rstrip_tab_line. Qed.

Lemma callchain_loop_spec n fs rest p :
  Forall (fun f => no_eol f = true) fs -> length fs < n ->
  parse_callchain_loop n (rd (map tab_line fs ++ nl :: rest) p) =
  '(ids, p') ← chain_of p fs; Some (ids, rd (nl :: rest) p').
Proof.
  intros Hfs. revert n p. induction Hfs as [|f fs Hf Hfs IH]; intros [|n] p Hn; simpl in Hn; try lia.
  - reflexivity.
  - cbn [parse_callchain_loop map app].
    unfold rd at 1. cbn [line_readline stream lookahead]. rewrite rstrip_tab_line by done.
    cbn [String.eqb]. unfold parse_call, consume.
    rewrite perf_readline_rd by (by apply head_ok_frames). simpl. rewrite rstrip_tab_line by done.
    destruct (call_re_match (String "009" f)) as [[[a sym] m]|]; simpl; [|done].
    rewrite rd_with_prof, IH, rd_prof by lia. simpl. by destruct (chain_of _ fs) as [[ids p']|].
Qed.

Lemma row_ok_inv c fs :
  row_ok (c, fs) = true ->
  c <> "" /\ no_eol c = true /\ String.prefix "#" c = false /\ Forall (fun f => no_eol f = true) fs.
Proof.
  unfold row_ok; simpl. intros H. apply andb_prop in H as [H Hfs]. apply andb_prop in H as [H Hp].
  apply andb_prop in H as [Hne Hc]. apply negb_true_iff in Hne, Hp. apply String.eqb_neq in Hne.
  repeat split; [done|done|done|]. apply Forall_forall. intros f Hf%list_elem_of_In.
  by apply (proj1 (forallb_forall _ _)) with (x := f) in Hfs.
Qed.

Lemma head_ok_rows rows rest :
  Forall (fun row => row_ok row = true) rows -> head_ok rest = true ->
  head_ok ((rows ≫= row_lines) ++ rest)%list = true.
Proof.
  destruct 1 as [|[c fs] rows Hrow _]; [done|]. intros _.
  apply row_ok_inv in Hrow as (_ & Hc & Hp & _). simpl. by rewrite rstrip_nl_line, Hp.
Qed.

Lemma row_lines_cons c fs rest :
  (row_lines (c, fs) ++ rest = (c +:+ nl) :: map tab_line fs ++ nl :: rest)%list.
Proof. unfold row_lines. simpl. by rewrite <-app_assoc. Qed.

(** One event of [parse_events] on the lines of one row. *)
Lemma parse_event_spec n c fs rest p :
  row_ok (c, fs) = true -> head_ok rest = true -> S (length fs) < n ->
  parse_event n (rd ((c +:+ nl) :: map tab_line fs ++ nl :: rest) p) =
  p' ← event_spec p (c, fs); Some (rd rest p').
Proof.
  intros Hrow Hrest Hn. destruct n as [|n]; [lia|].
  pose proof (row_ok_inv c fs Hrow) as (Hne & Hc & _ & Hfs).
  unfold parse_event, consume. cbn [rd line_readline at_eof stream prof lookahead].
  rewrite perf_readline_rd by (by apply head_ok_frames). simpl.
  rewrite rstrip_nl_line by done. apply String.eqb_neq in Hne. rewrite Hne. simpl.
  unfold parse_callchain. rewrite callchain_loop_spec by (done || lia).
  unfold event_spec; simpl. destruct (chain_of p fs) as [[ids p']|]; simpl; [|done].
  unfold consume. rewrite perf_readline_rd by done. simpl.
  by rewrite rd_with_prof, rd_prof.
Qed.

Lemma parse_events_spec n rows p :
  Forall (fun row => row_ok row = true) rows -> length (rows ≫= row_lines) < n ->
  parse_events n (rd (rows ≫= row_lines) p) = p' ← events_spec p rows; Some (rd [] p').
Proof.
  intros Hrows. revert n p. induction Hrows as [|[c fs] rows Hrow Hrows IH]; intros [|n] p Hn;
    try (simpl in Hn; lia); [done|].
  rewrite bind_cons, row_lines_cons. cbn [parse_events].
  rewrite bind_cons, row_lines_cons in Hn. simpl in Hn. rewrite length_app, length_map in Hn.
  cbn [rd line_readline at_eof]. fold (rd ((c +:+ nl) :: map tab_line fs ++ nl :: rows ≫= row_lines) p).
  rewrite parse_event_spec by (done || (rewrite <-(app_nil_r (rows ≫= row_lines));
                                        by apply head_ok_rows) || (simpl; lia)).
  simpl. destruct (event_spec p (c, fs)) as [p'|]; simpl; [|done].
  apply IH. simpl in Hn. lia.
Qed.

(** The reader on the text of [gen_call_chains], for the rows it accepts. *)
Lemma parse_samples_rows rows :
  Forall (fun row => row_ok row = true) rows ->
  parse_samples (readlines (gen_call_chains_input rows)) =
  events_spec (set_profile_event (mk_profile ∅ [] ∅) SAMPLES 0) rows.
Proof.
  intros Hrows. rewrite readlines_gen_call_chains_input by done. unfold parse_samples.
  rewrite perf_readline_rd.
  2:{ simpl. rewrite <-(app_nil_r (rows ≫= row_lines)). by apply head_ok_rows. }
  cbn -[parse_events rd]. rewrite rd_with_prof, rd_prof.
  rewrite parse_events_spec by (done || lia).
  destruct (events_spec _ rows); simpl; [by rewrite ?rd_prof|done].
Qed.

(** C19: on the text [gen_call_chains] writes, the perf reader of
    [gprof2dot] reads one event per row and exactly the frames of the
    row, in the order written: its profile is the one the semantic
    actions of [parse_call] and [parse_event] build from the rows
    ([events_spec]), provided every command is non-empty and is not a
    comment line and no field spans two lines. *)
Theorem parse_samples_gen_call_chains rows :
  Forall (fun row => row_ok row = true) rows ->
  parse_samples (readlines (gen_call_chains_input rows)) =
  events_spec (set_profile_event (mk_profile ∅ [] ∅) SAMPLES 0) rows.
Proof. apply parse_samples_rows. Qed.

Lemma parse_samples_gen_call_chains_witness :
  parse_samples (readlines (gen_call_chains_input sample_rows)) =
  events_spec (set_profile_event (mk_profile ∅ [] ∅) SAMPLES 0) sample_rows.
Proof. apply parse_samples_gen_call_chains. decide_vm. Defined.

(** ** The chain of one event *)

Lemma ensure_function_lookup p fid name module k :
  is_Some (p_functions p !! k) ->
  p_functions (ensure_function p fid name module) !! k = p_functions p !! k.
Proof.
  intros [f Hf]. unfold ensure_function. destruct (p_functions p !! fid) eqn:E; [done|]. simpl.
  rewrite lookup_insert_ne; [done|]. congruence.
Qed.

Lemma ensure_function_has p fid name module :
  is_Some (p_functions (ensure_function p fid name module) !! fid).
Proof.
  unfold ensure_function. destruct (p_functions p !! fid) eqn:E; [by rewrite E|].
  simpl. rewrite lookup_insert_eq. by eexists.
Qed.

Lemma ensure_function_no_samples p fid name module :
  no_samples p -> no_samples (ensure_function p fid name module).
Proof.
  intros Hp k. unfold ensure_function. destruct (p_functions p !! fid) eqn:E; [apply Hp|].
  unfold fcount; simpl. destruct (decide (k = fid)) as [->|Hne].
  - by rewrite lookup_insert_eq.
  - rewrite lookup_insert_ne by congruence. apply Hp.
Qed.

(** When every frame matches [call_re], [chain_of] returns their ids, in
    order, and the profile then has a function for each of them, keeps
    the functions it had, and credits no sample. *)
Lemma chain_of_frames p fs :
  Forall (fun f => is_Some (frame_id f)) fs ->
  exists ids p', chain_of p fs = Some (ids, p') /\ Some <$> ids = frame_id <$> fs /\
    Forall (fun k => is_Some (p_functions p' !! k)) ids /\
    (forall k, is_Some (p_functions p !! k) -> p_functions p' !! k = p_functions p !! k) /\
    (no_samples p -> no_samples p').
Proof.
  intros Hfs. revert p. induction Hfs as [|f fs [fid Hf] _ IH]; intros p.
  - exists [], p. repeat split; auto.
  - unfold frame_id in Hf. destruct (call_re_match (String "009" f)) as [[[a sym] m]|] eqn:E;
      simplify_eq/=.
    destruct (IH (ensure_function p (call_function a sym +:+ ":" +:+ m) (call_function a sym) m))
      as (ids & p' & Hc & Hids & Hin & Hkeep & Hns).
    assert (Hids' : Some <$> ((call_function a sym +:+ ":" +:+ m) :: ids) = frame_id <$> (f :: fs)).
    { rewrite !fmap_cons, Hids. f_equal. unfold frame_id. by rewrite E. }
    exists ((call_function a sym +:+ ":" +:+ m) :: ids), p'. simpl. rewrite E. simpl. rewrite Hc.
    split; [done|]. split; [exact Hids'|]. split; [|split].
    + constructor; [|done]. rewrite Hkeep by apply ensure_function_has. apply ensure_function_has.
    + intros k Hk. rewrite Hkeep; [by apply ensure_function_lookup|].
      by rewrite ensure_function_lookup.
    + intros H0. by apply Hns, ensure_function_no_samples.
Qed.

(** The hypotheses of [parse_samples_gen_call_chains] are needed:
    [gen_call_chains] writes the command unchanged, so a command starting
    with [#] is skipped by [PerfParser.readline] as a comment, its frame
    line is then taken for the command and the sample is lost; an empty
    command fails the [assert line] of [parse_event]. *)
Example gen_call_chains_command_pitfalls :
  (exists p, parse_samples (readlines (gen_call_chains_input comment_rows)) = Some p /\
             p_functions p = ∅ /\ p_events p !! SAMPLES = Some 0%Q) /\
  parse_samples (readlines (gen_call_chains_input empty_command_rows)) = None.
Proof. split; [eexists; split; [vm_compute; reflexivity|]; split; reflexivity|vm_compute; reflexivity]. Qed.

End GprofPerf.
