(* ===== verification/GprofTyped.v ===== *)
(** The shape of the profile the perf reader of [src/gprof2dot.py] builds
    ([PerfParser.parse_event], [parse_call], lines 2260-2368), for any
    input: every [Function] is stored under its id and carries exactly
    the events [SAMPLES] and [TOTAL_SAMPLES], every [Call] is stored under
    its callee, leads to a function of the profile and carries exactly
    [SAMPLES2], and the profile carries [SAMPLES].  These are the
    attributes the later passes read: with them [Profile.ratio] after
    [validate] neither raises [UndefinedEvent] nor fails its asserts, and
    the call graph satisfies the hypotheses of [prune] and [DotWriter]. *)

From Stdlib Require Import QArith.
From S2P Require Import Prelude GprofModel GprofPerf.

Module GprofTyped.

Import Gprof GprofPerf.

(** ** The typing of a profile *)

Definition call_typed (fs : gmap string function) (k : string) (c : call) : Prop :=
  callee_id c = k /\ is_Some (fs !! k) /\ dom (c_events c) = {[SAMPLES2]}.

Definition function_typed (fs : gmap string function) (k : string) (f : function) : Prop :=
  f_id f = k /\ dom (f_events f) = {[SAMPLES; TOTAL_SAMPLES]} /\
  map_Forall (call_typed fs) (f_calls f).

Definition profile_typed (p : profile) : Prop :=
  map_Forall (function_typed (p_functions p)) (p_functions p) /\
  dom (p_events p) = {[SAMPLES]}.

(** [fs'] has every function of [fs]: the reader never removes one. *)
Definition grows (fs fs' : gmap string function) : Prop :=
  forall k, is_Some (fs !! k) -> is_Some (fs' !! k).

(** The functions a call chain names are in the profile after it. *)
Definition chain_in (st : pstate) (chain : list string) : Prop :=
  Forall (fun k => is_Some (p_functions (prof st) !! k)) chain.

(** A loop of [gmap_mapM] in the goal runs to the end when its body
    succeeds on every entry. *)
Ltac gmap_mapM_some :=
  match goal with
  | |- context [gmap_mapM ?g ?m] =>
      let fs := fresh "fs" in let E := fresh "E" in
      destruct (gmap_mapM_is_Some g m) as [fs E]; [|rewrite E; simpl; by eexists]
  end.

(** ** Monotonicity *)

#[local] Instance grows_preorder : PreOrder grows.
Proof. split; [by intros ??|intros ??? H1 H2 k Hk; by apply H2, H1]. Qed.

Lemma function_typed_grows fs fs' k f :
  grows fs fs' -> function_typed fs k f -> function_typed fs' k f.
Proof.
  intros Hg (Hid & Hd & Hc). split_and!; [done|done|].
  eapply map_Forall_impl; [exact Hc|]. intros k' c (? & ? & ?). split_and!; auto.
Qed.

(** A step that keeps the events of the profile and whose functions are
    typed against the functions before it keeps the profile typed. *)
Lemma profile_typed_step p p' :
  grows (p_functions p) (p_functions p') -> p_events p' = p_events p ->
  map_Forall (function_typed (p_functions p)) (p_functions p') ->
  profile_typed p -> profile_typed p'.
Proof.
  intros Hg He Hf [_ Hd]. split; [|by rewrite He].
  eapply map_Forall_impl; [exact Hf|]. intros k f. by apply function_typed_grows.
Qed.

(** ** The reader's steps *)

Lemma perf_readline_prof fuel st st' : perf_readline fuel st = Some st' -> prof st' = prof st.
Proof.
  assert (Hl : forall st, prof (line_readline st) = prof st)
    by (intros st0; unfold line_readline; by destruct (stream st0)).
  revert st. induction fuel as [|fuel IH]; intros st; simpl; [done|].
  case_match; [intros [= <-]; apply Hl|]. intros Hr. by rewrite (IH _ Hr), Hl.
Qed.

Lemma consume_prof fuel st line st' : consume fuel st = Some (line, st') -> prof st' = prof st.
Proof.
  unfold consume. intros (st0 & H & [= _ <-])%bind_Some. by apply perf_readline_prof in H.
Qed.

Lemma set_profile_event_typed p v :
  map_Forall (function_typed (p_functions p)) (p_functions p) -> dom (p_events p) ⊆ {[SAMPLES]} ->
  profile_typed (set_profile_event p SAMPLES v).
Proof. intros Hf Hd. split; [done|]. simpl. rewrite dom_insert_L. set_solver. Qed.

Lemma ensure_function_typed p fid name module :
  profile_typed p ->
  profile_typed (ensure_function p fid name module) /\
  grows (p_functions p) (p_functions (ensure_function p fid name module)) /\
  is_Some (p_functions (ensure_function p fid name module) !! fid).
Proof.
  intros Hp. assert (Hg : grows (p_functions p) (p_functions (ensure_function p fid name module)))
    by (intros k Hk; by rewrite ensure_function_lookup).
  split_and!; [|done|apply ensure_function_has].
  apply (profile_typed_step p); [done| |  |done]; unfold ensure_function;
    destruct (p_functions p !! fid) eqn:E; simpl; try done; [apply Hp|].
  apply map_Forall_insert_2; [|apply Hp].
  split_and!; simpl; [done| |apply map_Forall_empty].
  rewrite !dom_insert_L, dom_empty_L. set_solver.
Qed.

Lemma update_function_typed fid g p :
  (forall f, function_typed (p_functions p) fid f -> function_typed (p_functions p) fid (g f)) ->
  profile_typed p -> profile_typed (update_function fid g p).
Proof.
  intros Hg Hp. apply (profile_typed_step p); [|done| |done].
  { intros k. by rewrite update_function_is_Some. }
  intros k f Hk. rewrite update_function_lookup in Hk. case_decide; subst; [|by apply Hp].
  apply fmap_Some in Hk as (f0 & Hf0 & ->). by apply Hg, Hp.
Qed.

Lemma add_event_typed fs k e n f :
  e ∈ ({[SAMPLES; TOTAL_SAMPLES]} : gset event) ->
  function_typed fs k f -> function_typed fs k (add_event e n f).
Proof.
  intros He (Hid & Hd & Hc). unfold add_event, set_function_event.
  split_and!; simpl; [done| |done]. rewrite dom_insert_L, Hd. set_solver.
Qed.

Lemma record_call_typed callee caller p :
  is_Some (p_functions p !! callee) -> profile_typed p -> profile_typed (record_call callee caller p).
Proof.
  intros Hce. apply update_function_typed. intros f (Hid & Hd & Hc).
  unfold set_calls, set_call_event.
  destruct (f_calls f !! callee) as [c|] eqn:E; (split_and!; simpl; [done|done|]);
    (apply map_Forall_insert_2; [|done]).
  - destruct (Hc _ _ E) as (Hcid & _ & Hcd). split_and!; [done|done|]. simpl.
    rewrite dom_insert_L, Hcd. set_solver.
  - split_and!; [done|done|]. simpl. rewrite dom_insert_L, dom_empty_L. set_solver.
Qed.

Lemma record_calls_typed callee callers p :
  Forall (fun k => is_Some (p_functions p !! k)) (callee :: callers) ->
  profile_typed p -> profile_typed (record_calls callee callers p).
Proof.
  revert callee p. induction callers as [|caller rest IH]; intros callee p Hall Hp; simpl; [done|].
  apply Forall_cons in Hall as [Hce Hall]. apply IH; [|by apply record_call_typed].
  eapply Forall_impl; [exact Hall|]. intros k Hk. unfold record_call. by apply update_function_is_Some.
Qed.

Lemma record_chain_typed chain p :
  Forall (fun k => is_Some (p_functions p !! k)) chain ->
  profile_typed p -> profile_typed (record_chain chain p).
Proof.
  intros Hall Hp. destruct chain as [|callee callers]; [done|]. unfold record_chain.
  induction (Py.unique (callee :: callers)) as [|fid l IH]; simpl.
  - apply record_calls_typed.
    + eapply Forall_impl; [exact Hall|]. intros k Hk. simpl. by apply update_function_is_Some.
    + assert (H : profile_typed (update_function callee (add_event SAMPLES 1) p)).
      { apply update_function_typed; [|done]. intros f. apply add_event_typed. set_solver. }
      apply set_profile_event_typed; [apply H|]. by rewrite (proj2 H).
  - apply update_function_typed; [|exact IH]. intros f. apply add_event_typed. set_solver.
Qed.

Lemma parse_call_typed fuel st fid st' :
  parse_call fuel st = Some (fid, st') -> profile_typed (prof st) ->
  profile_typed (prof st') /\ grows (p_functions (prof st)) (p_functions (prof st')) /\
  is_Some (p_functions (prof st') !! fid).
Proof.
  unfold parse_call. intros ([line st1] & Hc & H)%bind_Some Hp.
  apply bind_Some in H as ([[a s] m] & _ & [= <- <-]). simpl.
  rewrite (consume_prof _ _ _ _ Hc). by apply ensure_function_typed.
Qed.

Lemma parse_callchain_loop_typed fuel st chain st' :
  parse_callchain_loop fuel st = Some (chain, st') -> profile_typed (prof st) ->
  profile_typed (prof st') /\ grows (p_functions (prof st)) (p_functions (prof st')) /\
  chain_in st' chain.
Proof.
  revert st chain. induction fuel as [|fuel IH]; intros st chain; simpl; [done|].
  case_match; [intros [= <- <-] Hp; split_and!; [done|reflexivity|constructor]|].
  intros ([fid st1] & H1 & ([rest st2] & H2 & [= <- <-])%bind_Some)%bind_Some Hp.
  destruct (parse_call_typed _ _ _ _ H1 Hp) as (Hp1 & Hg1 & Hf1).
  destruct (IH _ _ H2 Hp1) as (Hp2 & Hg2 & Hall).
  split_and!; [done|by etrans|]. constructor; [by apply Hg2|done].
Qed.

Lemma parse_callchain_typed fuel st chain st' :
  parse_callchain fuel st = Some (chain, st') -> profile_typed (prof st) ->
  profile_typed (prof st') /\ chain_in st' chain.
Proof.
  unfold parse_callchain. intros ([chain1 st1] & H1 & H)%bind_Some Hp.
  destruct (parse_callchain_loop_typed _ _ _ _ H1 Hp) as (Hp1 & _ & Hall).
  case_match.
  - apply bind_Some in H as ([l st2] & H2 & [= <- <-]).
    unfold chain_in. by rewrite (consume_prof _ _ _ _ H2).
  - by simplify_eq.
Qed.

Lemma parse_event_typed fuel st st' :
  parse_event fuel st = Some st' -> profile_typed (prof st) -> profile_typed (prof st').
Proof.
  unfold parse_event. destruct (at_eof st); [by intros [= <-]|].
  intros ([line st1] & H1 & H)%bind_Some Hp. rewrite <-(consume_prof _ _ _ _ H1) in Hp.
  destruct (String.eqb line ""); [done|]. apply bind_Some in H as ([chain st2] & H2 & [= <-]). simpl.
  destruct (parse_callchain_typed _ _ _ _ H2 Hp). by apply record_chain_typed.
Qed.

Lemma parse_events_typed fuel st st' :
  parse_events fuel st = Some st' -> profile_typed (prof st) -> profile_typed (prof st').
Proof.
  revert st. induction fuel as [|fuel IH]; intros st; simpl; [done|].
  destruct (at_eof st); [by intros [= <-]|]. intros (st1 & H1 & H)%bind_Some Hp.
  eapply IH; [exact H|]. by eapply parse_event_typed.
Qed.

(** ** What the typing gives the later passes *)

Lemma profile_typed_wf p : profile_typed p -> calls_keyed p /\ calls_closed p.
Proof.
  intros [Hf _]. split; intros k f Hk k' c Hc; by destruct (proj2 (proj2 (Hf k f Hk)) k' c Hc)
    as (? & ? & _).
Qed.

Lemma validate_typed p : profile_typed p -> profile_typed (validate p).
Proof.
  intros Hp. apply (profile_typed_step p); [| done | | done].
  { intros k. simpl. by rewrite lookup_fmap, fmap_is_Some. }
  intros k f Hk. simpl in Hk. rewrite lookup_fmap in Hk.
  apply fmap_Some in Hk as (f0 & Hf0 & ->). destruct (proj1 Hp k f0 Hf0) as (Hid & Hd & Hc).
  split_and!; simpl; [done|done|]. intros k' c (Hc' & _)%map_lookup_filter_Some. by apply Hc.
Qed.

Lemma profile_ratio_typed p : profile_typed p -> is_Some (profile_ratio TIME_RATIO SAMPLES p).
Proof.
  intros [Hf He]. unfold profile_ratio.
  destruct (p_events p !! SAMPLES) as [total|] eqn:Et;
    [|apply not_elem_of_dom in Et; rewrite He in Et; set_solver]. simpl.
  rewrite decide_False by (rewrite <-elem_of_dom, He; set_solver).
  gmap_mapM_some. intros k f Hk. destruct (Hf k f Hk) as (_ & Hd & Hc).
  rewrite decide_False by (rewrite <-elem_of_dom, Hd; set_solver).
  destruct (f_events f !! SAMPLES) eqn:Es; [|apply not_elem_of_dom in Es; rewrite Hd in Es; set_solver].
  simpl. gmap_mapM_some. intros k' c Hk'. destruct (Hc _ _ Hk') as (_ & _ & Hcd).
  rewrite decide_False by (rewrite <-elem_of_dom, Hcd; set_solver). by eexists.
Qed.

(** C27: the perf reader returns a well-typed profile on every input it
    accepts: each function is stored under its id with exactly the events
    SAMPLES and TOTAL_SAMPLES, each call is stored under its callee, leads
    to a function of the profile and carries exactly SAMPLES2, and the
    profile carries SAMPLES.  So the call graph is keyed and closed, and
    the ratio pass of [parse], [Profile.ratio(TIME_RATIO, SAMPLES)] after
    [validate], never raises. *)
Theorem parse_samples_typed lines p :
  parse_samples lines = Some p ->
  profile_typed p /\ calls_keyed p /\ calls_closed p /\
  is_Some (profile_ratio TIME_RATIO SAMPLES (validate p)).
Proof.
  unfold parse_samples. intros (st & Hst & (st' & Hst' & [= <-])%bind_Some)%bind_Some.
  assert (Hp : profile_typed (prof st')).
  { eapply parse_events_typed; [exact Hst'|]. simpl.
    rewrite (perf_readline_prof _ _ _ Hst).
    apply set_profile_event_typed; simpl; [apply map_Forall_empty|rewrite dom_empty_L; set_solver]. }
  destruct (profile_typed_wf _ Hp). split_and!; [done|done|done|].
  by apply profile_ratio_typed, validate_typed.
Qed.

Lemma parse_samples_typed_witness :
  match parse_samples (readlines (gen_call_chains_input sample_rows)) with
  | Some p => is_Some (profile_ratio TIME_RATIO SAMPLES (validate p))
  | None => False
  end.
Proof.
  destruct (parse_samples (readlines (gen_call_chains_input sample_rows))) as [p|] eqn:E;
    [|vm_compute in E; discriminate].
  exact (proj2 (proj2 (proj2 (parse_samples_typed _ _ E)))).
Defined.

End GprofTyped.
