(* ===== verification/GprofDot.v ===== *)
(** The DOT output of [src/gprof2dot.py]: the colour functions of [Theme]
    (lines 3229-3388) for the default colormap [TEMPERATURE_COLORMAP]
    ([-c color], gamma 1, skew 1), and [DotWriter] (3504-3730): escaping,
    identifiers, attribute lists, colours, and [graph], which prints the
    pruned profile.

    Floats are exact rationals, so ["%.2f"] is rounding of the exact value
    to two decimals, half to even (Python rounds the binary value, which
    agrees except on values a float cannot hold exactly); [1.0 / 3.0] is
    exactly a third.  [math.sqrt] only occurs in [edge_arrowsize], printed
    with two decimals, which integer square roots compute exactly. *)

From Stdlib Require Import QArith Qround Qminmax Lqa Lia.
From S2P Require Import Prelude PyText GprofModel GprofPerf.
From stdpp Require Import pretty.

Local Open Scope string_scope.

Module GprofDot.

Import Gprof.

Local Open Scope Q_scope.

(** ** Number formatting *)

(** [round(x)] half to even, on an exact rational. *)
Definition round_half_even (q : Q) : Z :=
  let f := Qfloor q in
  let d := (q - inject_Z f)%Q in
  if Qlt_le_dec d (1 # 2) then f
  else if Qeq_bool d (1 # 2) then (if Z.even f then f else f + 1)%Z
  else (f + 1)%Z.

Definition pad2 (n : Z) : string :=
  if (n <? 10)%Z then "0" +:+ pretty n else pretty n.

(** ["%.2f" % x] from the value scaled by 100 and rounded. *)
Definition fixed2_of_cents (negative : bool) (n : Z) : string :=
  (if negative then "-" else "") +:+ pretty (n / 100)%Z +:+ "." +:+ pad2 (n mod 100)%Z.

Definition fmt_f2 (q : Q) : string :=
  let neg := if Qlt_le_dec q 0 then true else false in
  fixed2_of_cents neg (Z.abs (round_half_even (q * 100))).

(** [percentage(p)] (line 76): ["%.02f%%" % (p * 100.0,)]. *)
Definition percentage (p : Q) : string := fmt_f2 (p * 100) +:+ "%".

(** ["%.2f" % (0.5 * math.sqrt(x))] for [x >= 0]: the closest integer to
    [50 * sqrt x] is [(isqrt(floor(10000 * x)) + 1) / 2]. *)
Definition fmt_half_sqrt (x : Q) : string :=
  fixed2_of_cents false ((Z.sqrt (Qfloor (x * 10000)) + 1) / 2)%Z.

(** [hex(v)] of one byte, two lowercase digits ["%02x"]. *)
Definition hex_digit (n : Z) : string :=
  String (Ascii.ascii_of_nat (if (n <? 10)%Z then 48 + Z.to_nat n else 87 + Z.to_nat n)%nat) "".

Definition hex2 (n : Z) : string := hex_digit (n / 16)%Z +:+ hex_digit (n mod 16)%Z.

(** ** [Theme] with the colormap [color] *)

Record theme := mk_theme {
  bgcolor : Q * Q * Q;
  mincolor : Q * Q * Q;
  maxcolor : Q * Q * Q;
  fontname : string;
  fontcolor : string;
  nodestyle : string;
  minfontsize : Q;
  maxfontsize : Q;
  minpenwidth : Q;
  maxpenwidth : Q;
  fillcolor : string
}.

(** [TEMPERATURE_COLORMAP] (3440-3444); [gamma = 1.0] and [skew = 1.0]. *)
Definition temperature_colormap : theme :=
  mk_theme (0, 0, 1)%Q (2 # 3, 4 # 5, 1 # 4)%Q (0, 1, 1 # 2)%Q "Arial" "white" "filled"
    10%Q 10%Q (1 # 2) 4%Q "".

Definition clamp01 (x : Q) : Q := Qmin (Qmax x 0) 1.

Definition hue_to_rgb (m1 m2 h : Q) : Q :=
  let h := if Qlt_le_dec h 0 then h + 1 else if Qlt_le_dec 1 h then h - 1 else h in
  if Qlt_le_dec (h * 6) 1 then m1 + (m2 - m1) * h * 6
  else if Qlt_le_dec (h * 2) 1 then m2
  else if Qlt_le_dec (h * 3) 2 then m1 + (m2 - m1) * ((2 # 3) - h) * 6
  else m1.

(** [hsl_to_rgb]; [x ** 1.0 = x]. *)
Definition hsl_to_rgb (h s l : Q) : Q * Q * Q :=
  let h := h - inject_Z (Qfloor h) in
  let s := clamp01 s in
  let l := clamp01 l in
  let m2 := if Qle_bool l (1 # 2) then l * (s + 1) else l + s - l * s in
  let m1 := l * 2 - m2 in
  (hue_to_rgb m1 m2 (h + (1 # 3)), hue_to_rgb m1 m2 h, hue_to_rgb m1 m2 (h - (1 # 3))).

(** [Theme.color] with [skew = 1.0]. *)
Definition theme_color (t : theme) (weight : Q) : Q * Q * Q :=
  let weight := clamp01 weight in
  let '(hmin, smin, lmin) := mincolor t in
  let '(hmax, smax, lmax) := maxcolor t in
  hsl_to_rgb (hmin + weight * (hmax - hmin)) (smin + weight * (smax - smin))
             (lmin + weight * (lmax - lmin)).

Definition graph_bgcolor (t : theme) : Q * Q * Q :=
  let '(h, s, l) := bgcolor t in hsl_to_rgb h s l.

Definition node_fgcolor (t : theme) (weight : Q) : Q * Q * Q :=
  if String.eqb (nodestyle t) "filled" then graph_bgcolor t else theme_color t weight.

Definition theme_fontsize (t : theme) (weight : Q) : Q :=
  Qmax (weight * weight * maxfontsize t) (minfontsize t).

Definition edge_penwidth (t : theme) (weight : Q) : Q :=
  Qmax (weight * maxpenwidth t) (minpenwidth t).

(** ** [DotWriter] *)

(** [float2int] of [DotWriter.color]. *)
Definition float2int (f : Q) : Z :=
  if Qle_bool f 0 then 0%Z
  else if Qle_bool 1 f then 255%Z
  else Qfloor (255 * f + (1 # 2)).

Definition dot_color (rgb : Q * Q * Q) : string :=
  let '(r, g, b) := rgb in
  "#" +:+ hex2 (float2int r) +:+ hex2 (float2int g) +:+ hex2 (float2int b).

(** The backslash and double quote characters. *)
Definition bs : string := String "092" EmptyString.

Definition dq : string := String "034" EmptyString.

(** [escape]: backslash first, then newline, tab and double quote. *)
Definition escape (s : string) : string :=
  let s := Py.replace_char "092" (bs +:+ bs) s in
  let s := Py.replace_char "010" (String "092" "n") s in
  let s := Py.replace_char "009" (String "092" "t") s in
  let s := Py.replace_char "034" (bs +:+ dq) s in
  dq +:+ s +:+ dq.

(** [str.isalnum] on ASCII. *)
Definition is_alnum (c : Ascii.ascii) : bool :=
  let n := Ascii.nat_of_ascii c in
  (Nat.leb 48 n && Nat.leb n 57) || (Nat.leb 65 n && Nat.leb n 90) || (Nat.leb 97 n && Nat.leb n 122).

Definition isalnum (s : string) : bool :=
  negb (String.eqb s "") && forallb is_alnum (chars s).

(** An attribute value: a string, or a number printed by [str]. *)
Inductive value := VStr (s : string) | VNum (s : string).

(** [DotWriter.id]. *)
Definition dot_id (v : value) : string :=
  match v with
  | VNum s => s
  | VStr s => if isalnum s && negb (String.prefix "0x" s) then s else escape s
  end.

(** [attr_list]: sorted by name, [None] values skipped. *)
Definition attr_list (attrs : list (string * option value)) : string :=
  match attrs with
  | [] => ""
  | _ =>
      let present := omap (fun '(n, v) => (fun v => (n, v)) <$> v) attrs in
      let sorted := Py.sort (fun a b => Py.str_lt a.1 b.1) present in
      " [" +:+ String.concat ", " (map (fun '(n, v) => dot_id (VStr n) +:+ "=" +:+ dot_id v) sorted)
        +:+ "]"
  end.

Definition nl : string := String "010" "".

Definition dot_attr (what : string) (attrs : list (string * option value)) : string :=
  String "009" "" +:+ what +:+ attr_list attrs +:+ ";" +:+ nl.

Definition dot_node (node : string) (attrs : list (string * option value)) : string :=
  String "009" "" +:+ dot_id (VStr node) +:+ attr_list attrs +:+ ";" +:+ nl.

Definition dot_edge (src dst : string) (attrs : list (string * option value)) : string :=
  String "009" "" +:+ dot_id (VStr src) +:+ " -> " +:+ dot_id (VStr dst) +:+ attr_list attrs +:+
  ";" +:+ nl.

(** [MAX_FUNCTION_NAME]: a name of 4096 characters or more keeps its
    first 4095 and ends with [U+2026], written here as its UTF-8 bytes. *)
Definition truncate_name (name : string) : string :=
  if Nat.leb 4096 (String.length name) then
    String.substring 0 4095 name +:+ String "226" (String "128" (String "166" EmptyString))
  else name.

(** The statements for one function and its calls, in [graph]. *)
Definition function_statements (t : theme) (p : profile) (f : function) : option string :=
  let labels := match f_module f with Some m => [m] | None => [] end in
  let labels := app labels [truncate_name (f_name f)] in
  let total_time_ratio := default 0 (f_events f !! TOTAL_TIME_RATIO) in
  let time_ratio := default 0 (f_events f !! TIME_RATIO) in
  let labels := app labels [fmt_f2 (time_ratio * 100) +:+ "%" +:+ nl +:+ "of " +:+
                           fmt_f2 (total_time_ratio * 100) +:+ "%"] in
  let weight := default 0 (f_weight f) in
  let node := dot_node (f_id f)
      [("label", Some (VStr (String.concat nl labels)));
       ("color", Some (VStr (dot_color (node_fgcolor t weight))));
       ("fillcolor", Some (VStr (dot_color (theme_color t weight))));
       ("fontsize", Some (VStr (fmt_f2 (theme_fontsize t time_ratio))));
       ("tooltip", None)] in
  edges ← mapM (fun '(_, c) =>
      callee ← p_functions p !! callee_id c;
      let labels := match c_events c !! TOTAL_TIME_RATIO with
                    | Some v => [percentage v] | None => [] end in
      let weight := match c_weight c, f_weight callee with
                    | Some w, _ => w | None, Some w => w | None, None => 0 end in
      Some (dot_edge (f_id f) (callee_id c)
              [("label", Some (VStr (String.concat nl labels)));
               ("color", Some (VStr (dot_color (theme_color t weight))));
               ("fontsize", Some (VStr (fmt_f2 (theme_fontsize t weight))));
               ("penwidth", Some (VStr (fmt_f2 (edge_penwidth t weight))));
               ("labeldistance", Some (VStr (fmt_f2 (edge_penwidth t weight))));
               ("arrowsize", Some (VStr (fmt_half_sqrt (edge_penwidth t weight))))]))
    (Py.sort (fun a b => Py.str_lt a.1 b.1) (map_to_list (f_calls f)));
  Some (node +:+ String.concat "" edges).

(** [DotWriter.graph]; [None] is the [KeyError] of a call to a pruned
    function, which [prune] rules out. *)
Definition graph (t : theme) (p : profile) : option string :=
  body ← mapM (fun '(_, f) => function_statements t p f)
           (Py.sort (fun a b => Py.str_lt a.1 b.1) (map_to_list (p_functions p)));
  Some ("digraph {" +:+ nl +:+
        dot_attr "graph" [("fontname", Some (VStr (fontname t))); ("ranksep", Some (VNum "0.25"));
                          ("nodesep", Some (VNum "0.125"))] +:+
        dot_attr "node" [("fontname", Some (VStr (fontname t))); ("shape", Some (VStr "box"));
                         ("style", Some (VStr (nodestyle t))); ("fontcolor", Some (VStr (fontcolor t)));
                         ("width", Some (VNum "0")); ("height", Some (VNum "0"));
                         ("fillcolor", Some (VStr (fillcolor t)))] +:+
        dot_attr "edge" [("fontname", Some (VStr (fontname t)))] +:+
        String.concat "" body +:+ "}" +:+ nl).

(** [main] for the command line of [modeling.gen_call_chains]
    ([-f perf -n0 -e0], theme [color]): parse the standard input, prune at
    zero thresholds, write the graph. *)
Definition gprof2dot_perf (input : string) : option string :=
  p ← GprofPerf.parse (GprofPerf.readlines input);
  p ← prune 0 0 p;
  graph temperature_colormap p.

(** ** Readers of what the writer prints *)

(** [escape] one character at a time. *)
Definition esc_char (c : Ascii.ascii) : string :=
  if Ascii.eqb c "092" then bs +:+ bs
  else if Ascii.eqb c "010" then (String "092" "n")
  else if Ascii.eqb c "009" then (String "092" "t")
  else if Ascii.eqb c "034" then bs +:+ dq
  else String c EmptyString.

Fixpoint escape_chars (s : string) : string :=
  match s with
  | EmptyString => EmptyString
  | String c s => esc_char c +:+ escape_chars s
  end.

(** The inside of a quoted DOT string read back: a backslash escapes the
    next character, a bare double quote would end the string. *)
Definition unesc (c : Ascii.ascii) : option Ascii.ascii :=
  if Ascii.eqb c "092" then Some c
  else if Ascii.eqb c "n" then Some "010"%char
  else if Ascii.eqb c "t" then Some "009"%char
  else if Ascii.eqb c "034" then Some c
  else None.

Fixpoint unescape_chars (l : list Ascii.ascii) : option string :=
  match l with
  | [] => Some EmptyString
  | c :: l =>
      if Ascii.eqb c "092" then
        match l with
        | c' :: l' => x ← unesc c'; String x <$> unescape_chars l'
        | [] => None
        end
      else if Ascii.eqb c "034" then None
      else String c <$> unescape_chars l
  end.

Definition unescape (s : string) : option string :=
  match chars s with
  | q :: rest =>
      if Ascii.eqb q "034" && bool_decide (last rest = Some "034"%char)
      then unescape_chars (removelast rest) else None
  | [] => None
  end.

(** A lowercase hexadecimal digit. *)
Definition hex_val (c : Ascii.ascii) : option Z :=
  let n := Ascii.nat_of_ascii c in
  if Nat.leb 48 n && Nat.leb n 57 then Some (Z.of_nat n - 48)%Z
  else if Nat.leb 97 n && Nat.leb n 102 then Some (Z.of_nat n - 87)%Z
  else None.

(** A colour ["#rrggbb"] read back. *)
Definition read_color (s : string) : option (Z * Z * Z) :=
  match chars s with
  | [h; r1; r2; g1; g2; b1; b2] =>
      if Ascii.eqb h "#" then
        r1 ← hex_val r1; r2 ← hex_val r2; g1 ← hex_val g1; g2 ← hex_val g2;
        b1 ← hex_val b1; b2 ← hex_val b2;
        Some (16 * r1 + r2, 16 * g1 + g2, 16 * b1 + b2)%Z
      else None
  | _ => None
  end.

(** ** Escaping *)

Lemma eqb_false (a c : Ascii.ascii) : a <> c -> Ascii.eqb a c = false.
Proof. apply Ascii.eqb_neq. Qed.

(** The four replacements of [escape] act on each character separately. *)
Lemma escape_passes_cons a s :
  let r s := Py.replace_char "034" (bs +:+ dq) (Py.replace_char "009" (String "092" "t")
               (Py.replace_char "010" (String "092" "n") (Py.replace_char "092" (bs +:+ bs) s))) in
  r (String a s) = esc_char a +:+ r s.
Proof.
  intros r. unfold r. rewrite <-(string_app_single a s), !replace_char_app. f_equal.
  unfold esc_char.
  destruct (Ascii.eqb_spec a "092") as [->|H1]; [reflexivity|].
  destruct (Ascii.eqb_spec a "010") as [->|H2]; [reflexivity|].
  destruct (Ascii.eqb_spec a "009") as [->|H3]; [reflexivity|].
  destruct (Ascii.eqb_spec a "034") as [->|H4]; [reflexivity|].
  rewrite !replace_char_miss by (by apply eqb_false). reflexivity.
Qed.

(** [escape] is the one-pass escaping of every character, quoted. *)
Lemma escape_one_pass s : escape s = dq +:+ escape_chars s +:+ dq.
Proof.
  unfold escape. f_equal. f_equal.
  induction s as [|a s IH]; [reflexivity|]. rewrite escape_passes_cons. simpl. by rewrite IH.
Qed.

Lemma unescape_esc_char c l :
  unescape_chars (chars (esc_char c) ++ l) = String c <$> unescape_chars l.
Proof.
  unfold esc_char.
  destruct (Ascii.eqb_spec c "092") as [->|H1]; [reflexivity|].
  destruct (Ascii.eqb_spec c "010") as [->|H2]; [reflexivity|].
  destruct (Ascii.eqb_spec c "009") as [->|H3]; [reflexivity|].
  destruct (Ascii.eqb_spec c "034") as [->|H4]; [reflexivity|].
  simpl. by rewrite !eqb_false.
Qed.

Lemma unescape_escape_chars s : unescape_chars (chars (escape_chars s)) = Some s.
Proof.
  induction s as [|a s IH]; [reflexivity|]. simpl.
  by rewrite chars_app, unescape_esc_char, IH.
Qed.

(** C23: The quoted text [DotWriter.escape] prints reads back as the string
    it was given: backslashes are doubled before the other escapes are
    inserted, so no escape is escaped twice and distinct identifiers stay
    distinct in the DOT file. *)
Theorem escape_roundtrip s : unescape (escape s) = Some s.
Proof.
  rewrite escape_one_pass. unfold unescape. rewrite !chars_app. simpl.
  rewrite last_app. simpl. rewrite removelast_last. apply unescape_escape_chars.
Qed.

(** ** Colours *)

Lemma Qle_bool_false x y : Qle_bool x y = false -> y < x.
Proof. intros E. apply Qnot_le_lt. intros H. apply Qle_bool_iff in H. congruence. Qed.

Lemma float2int_bounds f : (0 <= float2int f <= 255)%Z.
Proof.
  unfold float2int. destruct (Qle_bool f 0) eqn:E0; [lia|].
  destruct (Qle_bool 1 f) eqn:E1; [lia|].
  apply Qle_bool_false in E0, E1.
  pose proof (Qfloor_le (255 * f + (1 # 2))) as Hle.
  pose proof (Qlt_floor (255 * f + (1 # 2))) as Hlt. rewrite inject_Z_plus in Hlt.
  set (z := Qfloor (255 * f + (1 # 2))) in *.
  split; apply Z.nlt_ge; intros Hz.
  - assert (Hz' : inject_Z z <= inject_Z (-1)) by (rewrite <-Zle_Qle; lia).
    change (inject_Z (-1)) with (-1)%Q in Hz'. change (inject_Z 1) with 1%Q in Hlt. lra.
  - assert (Hz' : inject_Z 256 <= inject_Z z) by (rewrite <-Zle_Qle; lia).
    change (inject_Z 256) with 256%Q in Hz'. lra.
Qed.

Lemma hex_digit_val d :
  (0 <= d < 16)%Z -> exists c, hex_digit d = String c EmptyString /\ hex_val c = Some d.
Proof.
  intros Hd.
  assert (d = 0 \/ d = 1 \/ d = 2 \/ d = 3 \/ d = 4 \/ d = 5 \/ d = 6 \/ d = 7 \/ d = 8 \/
          d = 9 \/ d = 10 \/ d = 11 \/ d = 12 \/ d = 13 \/ d = 14 \/ d = 15)%Z as Hcases by lia.
  repeat destruct Hcases as [->|Hcases]; subst; eexists; split; reflexivity.
Qed.

Lemma hex2_val n :
  (0 <= n < 256)%Z ->
  exists c1 c2, hex2 n = String c1 (String c2 EmptyString) /\
                hex_val c1 = Some (n / 16)%Z /\ hex_val c2 = Some (n mod 16)%Z.
Proof.
  intros Hn. unfold hex2.
  destruct (hex_digit_val (n / 16)%Z) as (c1 & -> & H1); [split; [apply Z.div_pos | apply Z.div_lt_upper_bound]; lia|].
  destruct (hex_digit_val (n mod 16)%Z) as (c2 & -> & H2); [apply Z.mod_pos_bound; lia|].
  by exists c1, c2.
Qed.

(** C24: [DotWriter.color] prints ["#"] and two lowercase hexadecimal
    digits for each component; they read back as [float2int] of the
    component, which lies between 0 and 255 for every input (components
    outside [0, 1] are clamped). *)
Theorem dot_color_roundtrip r g b :
  read_color (dot_color (r, g, b)) = Some (float2int r, float2int g, float2int b) /\
  Forall (fun x => 0 <= x <= 255)%Z [float2int r; float2int g; float2int b].
Proof.
  pose proof (float2int_bounds r). pose proof (float2int_bounds g). pose proof (float2int_bounds b).
  split; [|repeat constructor; lia].
  unfold dot_color.
  destruct (hex2_val (float2int r)) as (r1 & r2 & -> & Hr1 & Hr2); [lia|].
  destruct (hex2_val (float2int g)) as (g1 & g2 & -> & Hg1 & Hg2); [lia|].
  destruct (hex2_val (float2int b)) as (b1 & b2 & -> & Hb1 & Hb2); [lia|].
  unfold read_color. simpl. rewrite Hr1, Hr2, Hg1, Hg2, Hb1, Hb2. simpl.
  repeat f_equal; symmetry; apply Z_div_mod_eq_full.
Qed.

(** ** The graph *)

Lemma function_statements_is_Some t p k f :
  calls_keyed p -> calls_closed p -> p_functions p !! k = Some f ->
  is_Some (function_statements t p f).
Proof.
  intros Hk Hc Hf. unfold function_statements.
  match goal with |- is_Some (mapM ?g ?l ≫= _) => destruct (mapM_is_Some_2 g l) as [edges ->] end;
    [|by eexists].
  apply Forall_py_sort, Forall_forall. intros [k' c] Hkc%elem_of_map_to_list. simpl.
  rewrite (Hk k f Hf k' c Hkc). by destruct (Hc k f Hf k' c Hkc) as [callee ->].
Qed.

(** C20: [DotWriter.graph] never raises the [KeyError] of
    [profile.functions[call.callee_id]] on a profile whose calls are keyed
    by their callee and lead to its functions, which [validate] and
    [prune] guarantee. *)
Theorem graph_total t p : calls_keyed p -> calls_closed p -> is_Some (graph t p).
Proof.
  intros Hk Hc. unfold graph.
  match goal with |- is_Some (mapM ?g ?l ≫= _) => destruct (mapM_is_Some_2 g l) as [body ->] end;
    [|by eexists].
  apply Forall_py_sort, Forall_forall. intros [k f] Hkf%elem_of_map_to_list.
  exact (function_statements_is_Some t p k f Hk Hc Hkf).
Qed.

Lemma graph_total_witness : is_Some (graph temperature_colormap (validate sample_profile)).
Proof. apply graph_total; decide_vm. Defined.

End GprofDot.
