(* ===== verification/GprofOptions.v ===== *)
(** The options of [gprof2dot]'s [main] after parsing ([src/gprof2dot.py],
    lines 3975-4009) and [Profile.getFunctionIds] (430-435).

    [main] prunes the profile at [node_thres / 100] and [edge_thres / 100],
    stops after listing the functions under [--list-functions], selects
    the roots of [--root] and the leaves of [--leaf] by name with
    [getFunctionIds] (exit status 1 when nothing matches), prunes with
    [prune_root] and [prune_leaf] at [--depth], and writes the graph.
    [getFunctionIds] builds the dictionary [{v.name: k}] over the
    functions in insertion order, then keeps the ids of the names that
    [fnmatch.filter] selects.

    The library's [fnmatch.fnmatch(name, pattern)] (POSIX: no case
    folding) is a parameter, and the theorems hold for every matcher.  The insertion order of
    [self.functions] is a parameter [order] (the model keeps the
    functions in a [gmap]); the theorems hold for every order that lists
    the functions.  [set.pop()] and the fuel of the pruning loop are the
    parameters of [GprofReach].  The result of a run is the DOT text, an
    exit status, an exception or the end of the fuel. *)

From Stdlib Require Import QArith Lqa.
From S2P Require Import Prelude PyText GprofModel GprofReach GprofPerf GprofDot.

Module GprofOptions.

Import Gprof GprofReach.

(** The options [main] reads after parsing ([--colormap] is [color]). *)
Record options := mk_options {
  o_node_thres : Q;
  o_edge_thres : Q;
  o_list_functions : option string;
  o_root : string;
  o_leaf : string;
  o_depth : Z
}.

(** [gprof2dot -f perf -n0 -e0], as [modeling.gen_call_chains] runs it:
    the other options at their defaults ([--root ""], [--leaf ""],
    [--depth -1]). *)
Definition gen_call_chains_options : options :=
  mk_options 0 0 None "" "" (-1).

(** [if options.list_functions:]: [None] and the empty string are false. *)
Definition py_truthy (o : option string) : bool :=
  match o with Some s => negb (String.eqb s "") | None => false end.

(** How a run ends: the DOT text written, [sys.exit(code)], an exception,
    or the end of the fuel of the model. *)
Inductive run_result := Wrote (dot : string) | Exited (code : nat) | Raised | OutOfFuel.

Section Main.

(** [fnmatch.fnmatch(name, pattern)]. *)
Variable fnmatch : string -> string -> bool.

(** [self.functions.items()] in insertion order. *)
Variable order : profile -> list (string * function).

(** [frontier.pop()] and the fuel of the pruning loops. *)
Variable pick : gset (string * Z) -> option (string * Z).
Variable fuel : nat.

(** [d[key] = value] on a dictionary kept as its items in insertion
    order: an existing key keeps its place. *)
Fixpoint dict_set (key value : string) (d : list (string * string)) : list (string * string) :=
  match d with
  | [] => [(key, value)]
  | (k, v) :: d => if String.eqb key k then (key, value) :: d else (k, v) :: dict_set key value d
  end.

(** [function_names = {v.name: k for (k, v) in self.functions.items()}]. *)
Definition function_names (items : list (string * function)) : list (string * string) :=
  fold_left (fun d '(k, f) => dict_set (f_name f) k d) items [].

(** [getFunctionIds(funcName)]: [[function_names[name] for name in
    fnmatch.filter(function_names.keys(), funcName)]]. *)
Definition getFunctionIds (p : profile) (funcName : string) : list string :=
  snd <$> filter (fun nk => fnmatch nk.1 funcName = true) (function_names (order p)).

(** The [--root] and [--leaf] blocks: nothing to do for the empty
    pattern; exit 1 when no function matches; otherwise prune. *)
Definition select_prune (pattern : string) (prune_by : list string -> outcome profile)
    (p : profile) : run_result + profile :=
  if String.eqb pattern "" then inr p
  else match getFunctionIds p pattern with
       | [] => inl (Exited 1)
       | ids =>
           match prune_by ids with
           | Done p' => inr p'
           | KeyError => inl Raised
           | NoFuel => inl OutOfFuel
           end
       end.

(** [main] from [profile.prune(...)] to [dot.graph(profile, theme)]. *)
Definition main_after_parse (o : options) (p : profile) : run_result :=
  match prune (o_node_thres o / 100) (o_edge_thres o / 100) p with
  | None => Raised
  | Some p =>
      if py_truthy (o_list_functions o) then Exited 0 else
          match select_prune (o_root o) (fun ids => prune_root pick fuel ids (o_depth o) p) p with
          | inl r => r
          | inr p =>
              match select_prune (o_leaf o) (fun ids => prune_leaf pick fuel ids (o_depth o) p) p with
              | inl r => r
              | inr p => match GprofDot.graph GprofDot.temperature_colormap p with
                         | Some dot => Wrote dot
                         | None => Raised
                         end
              end
          end
  end.

(** [main] on perf input read from the standard input. *)
Definition gprof2dot_main (o : options) (input : string) : run_result :=
  match GprofPerf.parse (GprofPerf.readlines input) with
  | Some p => main_after_parse o p
  | None => Raised
  end.

End Main.

(** An order of the items of the functions dictionary. *)
Definition lists_functions (order : profile -> list (string * function)) : Prop :=
  forall p, order p ≡ₚ map_to_list (p_functions p).

(** Two functions named [[unknown]] in two modules, as perf reports
    unresolved frames of different binaries, both called by [main]. *)
Definition named_function (fid name : string) (callees : list string) : function :=
  mk_function fid name None
    (list_to_map ((fun c => (c, mk_call c None None ∅)) <$> callees)) None None None ∅.

Definition homonym_profile : profile :=
  mk_profile (list_to_map [("main:a.out", named_function "main:a.out" "main" ["[unknown]:a.out"; "[unknown]:libc.so"]);
                           ("[unknown]:a.out", named_function "[unknown]:a.out" "[unknown]" []);
                           ("[unknown]:libc.so", named_function "[unknown]:libc.so" "[unknown]" [])]) [] ∅.

(** ** [main] with the command line of [gen_call_chains] *)

Lemma below_Qeq w t t' : t == t' -> below w t = below w t'.
Proof.
  intros Ht. unfold below. destruct w as [w|]; [|done].
  destruct (Qlt_le_dec w t), (Qlt_le_dec w t'); [done| | |done]; exfalso; lra.
Qed.

(** [Profile.prune] reads its thresholds only through comparisons. *)
Lemma prune_Qeq n n' e e' p :
  n == n' -> e == e' -> prune n e p = prune n' e' p.
Proof.
  intros Hn He. unfold prune. destruct (gmap_mapM _ (p_functions p)) as [fs|]; [|done]. cbn [mbind option_bind].
  assert (Hf : filter (fun '(_, f) => below (f_weight f) n = false) fs =
               filter (fun '(_, f) => below (f_weight f) n' = false) fs).
  { apply map_filter_ext. intros i f _. by rewrite (below_Qeq _ _ _ Hn). }
  rewrite Hf. set (X := filter (fun '(_, f) => below (f_weight f) n' = false) fs).
  assert (Hc : (fun f => set_calls f (filter (fun '(callee, c) =>
                   is_Some (X !! callee) /\ below (c_weight c) e = false) (f_calls f))) <$> X =
               (fun f => set_calls f (filter (fun '(callee, c) =>
                   is_Some (X !! callee) /\ below (c_weight c) e' = false) (f_calls f))) <$> X).
  { apply map_fmap_ext. intros i f _. f_equal.
    apply map_filter_ext. intros k c _. by rewrite (below_Qeq _ _ _ He). }
  by rewrite Hc.
Qed.

(** With the command line of [modeling.gen_call_chains]
    ([-f perf -n0 -e0], no [--root], [--leaf] or [--list-functions]),
    [main] writes exactly the graph of [GprofDot.gprof2dot_perf], for
    every [fnmatch], dictionary order, pop order and fuel: the options
    it does not use change nothing.  [CallChains.v] therefore models the
    [gprof2dot] subprocess by [gprof2dot_perf]. *)
Lemma gprof2dot_main_default fnmatch order pick fuel input :
  gprof2dot_main fnmatch order pick fuel gen_call_chains_options input =
  match GprofDot.gprof2dot_perf input with Some dot => Wrote dot | None => Raised end.
Proof.
  unfold gprof2dot_main, GprofDot.gprof2dot_perf, main_after_parse.
  destruct (GprofPerf.parse (GprofPerf.readlines input)) as [p|]; [|done]. cbn [mbind option_bind].
  rewrite (prune_Qeq _ 0 _ 0) by reflexivity.
  destruct (prune 0 0 p) as [p'|]; [|done]. cbn. by destruct (GprofDot.graph _ p').
Qed.

(** ** [getFunctionIds] *)

Lemma dict_set_sound n v' key value d :
  (n, v') ∈ dict_set key value d -> (n = key /\ v' = value) \/ (n, v') ∈ d.
Proof.
  induction d as [|[k v] d IH]; cbn.
  - intros [= -> ->]%list_elem_of_singleton. by left.
  - destruct (String.eqb key k); rewrite !elem_of_cons.
    + intros [[= -> ->]|H]; [by left|by right; right].
    + intros [[= -> ->]|H]; [by right; left|]. destruct (IH H) as [?|?]; [by left|by right; right].
Qed.

Lemma dict_set_keys n key value d : n ∈ (dict_set key value d).*1 <-> n = key \/ n ∈ d.*1.
Proof.
  induction d as [|[k v] d IH]; cbn.
  - rewrite list_elem_of_singleton. split; [by left|]. intros [?|?%elem_of_nil]; done.
  - destruct (String.eqb_spec key k) as [->|Hne]; cbn; rewrite !elem_of_cons; [naive_solver|].
    rewrite IH. naive_solver.
Qed.

Lemma dict_set_NoDup key value d : NoDup d.*1 -> NoDup (dict_set key value d).*1.
Proof.
  induction d as [|[k v] d IH]; cbn; intros Hd; [constructor; [set_solver|constructor]|].
  apply NoDup_cons in Hd as [Hk Hd].
  destruct (String.eqb_spec key k) as [->|Hne]; cbn; constructor.
  - done.
  - done.
  - rewrite dict_set_keys. naive_solver.
  - by apply IH.
Qed.

(** A dictionary has one value per key. *)
Lemma dict_unique (d : list (string * string)) n v1 v2 :
  NoDup d.*1 -> (n, v1) ∈ d -> (n, v2) ∈ d -> v1 = v2.
Proof.
  intros Hd H1 H2.
  pose proof (elem_of_list_to_map_1 (M := gmap string) d n v1 Hd H1) as E1.
  pose proof (elem_of_list_to_map_1 (M := gmap string) d n v2 Hd H2) as E2. congruence.
Qed.

(** The name dictionary: one id per name, each the id of a function of
    that name, and every function's name is a key. *)
Lemma function_names_spec (items : list (string * function)) :
  NoDup (function_names items).*1 /\
  (forall n k, (n, k) ∈ function_names items -> exists f, (k, f) ∈ items /\ f_name f = n) /\
  (forall k f, (k, f) ∈ items -> f_name f ∈ (function_names items).*1).
Proof.
  unfold function_names.
  assert (Hgen : forall acc, NoDup acc.*1 ->
    let d := fold_left (fun d '(k, f) => dict_set (f_name f) k d) items acc in
    NoDup d.*1 /\
    (forall n k, (n, k) ∈ d -> (n, k) ∈ acc \/ exists f, (k, f) ∈ items /\ f_name f = n) /\
    (forall n, n ∈ acc.*1 \/ (exists k f, (k, f) ∈ items /\ f_name f = n) -> n ∈ d.*1)).
  { induction items as [|[k f] items IH]; intros acc Hacc; cbn.
    - split_and!; [done|by left|]. intros n [?|(? & ? & []%elem_of_nil & _)]; done.
    - destruct (IH (dict_set (f_name f) k acc) (dict_set_NoDup _ _ _ Hacc)) as (H1 & H2 & H3).
      split_and!; [done| |].
      + intros n k' Hn. destruct (H2 n k' Hn) as [Hd|(f' & Hf' & <-)].
        * apply dict_set_sound in Hd as [[-> ->]|Hd]; [|by left].
          right. exists f. split; [by left|done].
        * right. exists f'. split; [by right|done].
      + intros n Hn. apply H3. destruct Hn as [Hn|(k' & f' & [[= -> ->]|Hin]%elem_of_cons & <-)].
        * left. apply dict_set_keys. by right.
        * left. apply dict_set_keys. by left.
        * right. by exists k', f'. }
  destruct (Hgen [] ltac:(constructor)) as (H1 & H2 & H3). split_and!; [done| |].
  - intros n k Hn. destruct (H2 n k Hn) as [[]%elem_of_nil|?]; done.
  - intros k f Hk. apply H3. right. by exists k, f.
Qed.

Lemma lists_functions_lookup order p k f :
  lists_functions order -> (k, f) ∈ order p -> p_functions p !! k = Some f.
Proof. intros Hord Hk. apply elem_of_map_to_list. by rewrite <- (Hord p). Qed.

Lemma elem_of_getFunctionIds fnmatch order p pat k :
  k ∈ getFunctionIds fnmatch order p pat <->
  exists n, (n, k) ∈ function_names (order p) /\ fnmatch n pat = true.
Proof.
  unfold getFunctionIds. rewrite list_elem_of_fmap. split.
  - intros ([n k'] & -> & [Hm Hin]%list_elem_of_filter). by exists n.
  - intros (n & Hin & Hm). exists (n, k). split; [done|]. by apply list_elem_of_filter.
Qed.

(** C37: [getFunctionIds] returns ids of functions whose names match,
    some id for every matching name, and never two ids for one name:
    of the functions sharing a name (one symbol in two modules, such as
    perf's [[unknown]]), only the last one inserted can be selected by
    [--root] or [--leaf]. *)
Theorem getFunctionIds_spec fnmatch order p pat :
  lists_functions order ->
  let ids := getFunctionIds fnmatch order p pat in
  (forall k, k ∈ ids -> exists f, p_functions p !! k = Some f /\ fnmatch (f_name f) pat = true) /\
  (forall k f, p_functions p !! k = Some f -> fnmatch (f_name f) pat = true ->
     exists k' f', k' ∈ ids /\ p_functions p !! k' = Some f' /\ f_name f' = f_name f) /\
  (forall k1 k2 f1 f2, k1 ∈ ids -> k2 ∈ ids -> p_functions p !! k1 = Some f1 ->
     p_functions p !! k2 = Some f2 -> f_name f1 = f_name f2 -> k1 = k2).
Proof.
  intros Hord ids. destruct (function_names_spec (order p)) as (Hnd & Hsound & Hkeys).
  split_and!.
  - intros k (n & Hin & Hm)%elem_of_getFunctionIds.
    destruct (Hsound n k Hin) as (f & Hf & <-). exists f. split; [|done].
    by apply (lists_functions_lookup order).
  - intros k f Hk Hm.
    assert (Hf : (k, f) ∈ order p) by (rewrite (Hord p); by apply elem_of_map_to_list).
    pose proof (Hkeys k f Hf) as Hkey.
    apply list_elem_of_fmap in Hkey as ([n k'] & Hn & Hin). cbn in Hn. subst n.
    destruct (Hsound _ _ Hin) as (f' & Hf' & Hname). exists k', f'. split_and!; [|by apply (lists_functions_lookup order)|done].
    apply elem_of_getFunctionIds. by exists (f_name f).
  - intros k1 k2 f1 f2 (n1 & Hin1 & _)%elem_of_getFunctionIds (n2 & Hin2 & _)%elem_of_getFunctionIds E1 E2 Hname.
    destruct (Hsound _ _ Hin1) as (g1 & Hg1 & <-). destruct (Hsound _ _ Hin2) as (g2 & Hg2 & <-).
    apply (lists_functions_lookup order _ _ _ Hord) in Hg1, Hg2.
    rewrite E1 in Hg1. rewrite E2 in Hg2. injection Hg1 as <-. injection Hg2 as <-.
    rewrite Hname in Hin1. by apply (dict_unique _ _ _ _ Hnd Hin1).
Qed.

Lemma getFunctionIds_spec_witness :
  let ids := getFunctionIds String.eqb (fun p => map_to_list (p_functions p)) homonym_profile "[unknown]" in
  (forall k, k ∈ ids -> exists f, p_functions homonym_profile !! k = Some f /\ String.eqb (f_name f) "[unknown]" = true) /\
  (forall k f, p_functions homonym_profile !! k = Some f -> String.eqb (f_name f) "[unknown]" = true ->
     exists k' f', k' ∈ ids /\ p_functions homonym_profile !! k' = Some f' /\ f_name f' = f_name f) /\
  (forall k1 k2 f1 f2, k1 ∈ ids -> k2 ∈ ids -> p_functions homonym_profile !! k1 = Some f1 ->
     p_functions homonym_profile !! k2 = Some f2 -> f_name f1 = f_name f2 -> k1 = k2).
Proof. apply getFunctionIds_spec. intros p. reflexivity. Defined.

(** [--root "[unknown]"] on [homonym_profile] selects one of the two
    functions named [[unknown]]. *)
Example getFunctionIds_homonyms :
  getFunctionIds String.eqb (fun p => map_to_list (p_functions p)) homonym_profile "[unknown]"
    = ["[unknown]:libc.so"].
Proof. vm_compute. reflexivity. Qed.

Lemma getFunctionIds_nil fnmatch order p pat :
  lists_functions order ->
  (forall k f, p_functions p !! k = Some f -> fnmatch (f_name f) pat = false) ->
  getFunctionIds fnmatch order p pat = [].
Proof.
  intros Hord Hnone. destruct (getFunctionIds fnmatch order p pat) as [|k ks] eqn:E; [done|].
  assert (Hk : k ∈ getFunctionIds fnmatch order p pat) by (rewrite E; left).
  apply elem_of_getFunctionIds in Hk as (n & Hin & Hm).
  destruct (function_names_spec (order p)) as (_ & Hsound & _).
  destruct (Hsound _ _ Hin) as (f & Hf & <-). rewrite (Hnone k f) in Hm; [discriminate|].
  by apply (lists_functions_lookup order).
Qed.

(** C38: When no function left after [profile.prune] has a name that
    [--root] matches, [main] writes no graph and exits with status 1. *)
Theorem main_root_not_found fnmatch order pick fuel o p p1 :
  prune (o_node_thres o / 100) (o_edge_thres o / 100) p = Some p1 ->
  o_list_functions o = None -> o_root o <> "" -> lists_functions order ->
  (forall k f, p_functions p1 !! k = Some f -> fnmatch (f_name f) (o_root o) = false) ->
  main_after_parse fnmatch order pick fuel o p = Exited 1.
Proof.
  intros Hp Hl Hr Hord Hnone. unfold main_after_parse. rewrite Hp, Hl. cbn [py_truthy]. unfold select_prune.
  destruct (String.eqb_spec (o_root o) "") as [?|_]; [done|].
  by rewrite (getFunctionIds_nil fnmatch order p1 (o_root o) Hord Hnone).
Qed.

Lemma main_root_not_found_witness :
  main_after_parse String.eqb (fun p => map_to_list (p_functions p)) (pick_prio []) 10
    (mk_options 0 0 None "nosuch" "" (-1)) homonym_profile = Exited 1.
Proof.
  pose (p1 := default homonym_profile (prune (0 / 100) (0 / 100) homonym_profile)).
  apply (main_root_not_found String.eqb (fun p => map_to_list (p_functions p)) (pick_prio []) 10
           (mk_options 0 0 None "nosuch" "" (-1)) homonym_profile p1).
  - vm_compute. reflexivity.
  - reflexivity.
  - discriminate.
  - intros p. reflexivity.
  - change (map_Forall (fun _ f => String.eqb (f_name f) "nosuch" = false) (p_functions p1)).
    apply (bool_decide_unpack _). vm_compute. reflexivity.
Defined.

Lemma getFunctionIds_dom fnmatch order p pat :
  lists_functions order ->
  Forall (fun r => is_Some (p_functions p !! r)) (getFunctionIds fnmatch order p pat).
Proof.
  intros Hord. apply Forall_forall. intros r (n & Hin & _)%elem_of_getFunctionIds.
  destruct (function_names_spec (order p)) as (_ & Hsound & _).
  destruct (Hsound _ _ Hin) as (f & Hf & _). exists f. by apply (lists_functions_lookup order).
Qed.

(** C39: [main --root PATTERN] without [--depth] on a profile whose pruned
    call graph is closed: when some function matches, for every pop
    order and enough fuel, [main] writes the graph of exactly the
    functions reachable from the selected roots, with all their calls. *)
Theorem main_root_reachable fnmatch order pick o p p1 :
  pick_valid pick -> lists_functions order ->
  prune (o_node_thres o / 100) (o_edge_thres o / 100) p = Some p1 ->
  o_list_functions o = None -> o_root o <> "" -> o_leaf o = "" -> (o_depth o < 0)%Z ->
  calls_closed p1 -> getFunctionIds fnmatch order p1 (o_root o) <> [] ->
  exists N (A : gset string),
    (forall n, n ∈ A <-> reachable p1 (getFunctionIds fnmatch order p1 (o_root o)) n) /\
    forall fuel, N <= fuel ->
      main_after_parse fnmatch order pick fuel o p =
      match GprofDot.graph GprofDot.temperature_colormap
              (set_functions p1 (filter (fun kf => kf.1 ∈ A) (p_functions p1))) with
      | Some dot => Wrote dot
      | None => Raised
      end.
Proof.
  intros Hpick Hord Hp Hl Hr Hleaf Hd Hclosed Hne.
  pose proof (getFunctionIds_dom fnmatch order p1 (o_root o) Hord) as Hroots.
  remember (getFunctionIds fnmatch order p1 (o_root o)) as ids eqn:Eids.
  destruct (root_walk_reach pick ids (o_depth o) p1 Hpick Hd Hclosed Hroots) as (N & st & Hrun & HV).
  exists N, (w_visited st). split; [done|]. intros fuel Hf.
  unfold main_after_parse. rewrite Hp, Hl. cbn [py_truthy]. unfold select_prune.
  destruct (String.eqb_spec (o_root o) "") as [?|_]; [done|]. rewrite <- Eids.
  destruct ids as [|r rs]; [done|].
  unfold prune_root. rewrite (Hrun fuel Hf). cbn [outcome_bind].
  rewrite (restrict_reachable (r :: rs) p1 (w_visited st) Hclosed Hroots HV). cbn [of_option].
  rewrite Hleaf. done.
Qed.

Lemma main_root_reachable_witness :
  exists N (A : gset string),
    (forall n, n ∈ A <-> reachable homonym_profile
       (getFunctionIds String.eqb (fun p => map_to_list (p_functions p)) homonym_profile "main") n) /\
    forall fuel, N <= fuel ->
      main_after_parse String.eqb (fun p => map_to_list (p_functions p)) (pick_prio []) fuel
        (mk_options 0 0 None "main" "" (-1)) homonym_profile =
      match GprofDot.graph GprofDot.temperature_colormap
              (set_functions homonym_profile (filter (fun kf => kf.1 ∈ A) (p_functions homonym_profile))) with
      | Some dot => Wrote dot
      | None => Raised
      end.
Proof.
  assert (Hp : prune (0 / 100) (0 / 100) homonym_profile = Some homonym_profile)
    by (vm_compute; reflexivity).
  apply (main_root_reachable String.eqb (fun p => map_to_list (p_functions p)) (pick_prio [])
           (mk_options 0 0 None "main" "" (-1)) homonym_profile homonym_profile).
  - apply pick_prio_valid.
  - intros p. reflexivity.
  - exact Hp.
  - reflexivity.
  - discriminate.
  - reflexivity.
  - cbn. lia.
  - apply (bool_decide_unpack _). vm_compute. reflexivity.
  - vm_compute. discriminate.
Defined.

End GprofOptions.
