(* ===== verification/Report.v ===== *)
(** The text report of [src/modeling.py]: [output_result_file] (lines
    216-295), run once per reported sub-window by [_generate_report_for_tocc]
    (main.py:53-59) under [joblib.Parallel].

    The file system is a map from paths to contents ([fs]); opening with
    ["w"] replaces a file, opening with ["a+"] appends to it.  Three things
    the code leaves to the interpreter are parameters of the section:
    [sort_groups] is [df.sort_values(by=["ts_begin"])] (whose tie order
    pandas does not fix), [set_order_Z]/[set_order_str] the iteration order
    of [list(set(...))] (hash order), and [show_ts]/[show_duration] the
    text [str] gives a float timestamp and the float difference
    [ts_max - ts_min] (a [None] timestamp is [nan], the minimum of an empty
    column). *)

From S2P Require Import Prelude PyText Frames.
From stdpp Require Import pretty.

Local Open Scope string_scope.

Module Report.

(** A row of [df.groupby(["function_call_stack"], as_index=False)
    .aggregate(lambda x: list(x))] once [ts_begin] is reduced with [min]
    and [ts_end] with [max]; the columns the report reads. *)
Record group := mk_group {
  g_function_call_stack : string;
  g_ts_begin : Z;
  g_ts_end : Z;
  g_tid : list Z;
  g_command : list string
}.

Definition list_min (x : Z) (l : list Z) : Z := fold_left Z.min l x.
Definition list_max (x : Z) (l : list Z) : Z := fold_left Z.max l x.

Definition group_of (key : string) (rows : list Cicp.t) : group :=
  let ts_b := map Cicp.ts_begin rows in
  let ts_e := map Cicp.ts_end rows in
  mk_group key (list_min (default 0%Z (head ts_b)) ts_b) (list_max (default 0%Z (head ts_e)) ts_e)
    (map Cicp.tid rows) (map Cicp.command rows).

Definition group_by_call_stack (df : list Cicp.t) : list group :=
  map (fun '(k, rows) => group_of k rows) (Py.groupby Py.str_lt Cicp.function_call_stack df).

(** [df["ts_begin"].min()] and [df["ts_end"].max()]; [None] is [nan]. *)
Definition column_min (l : list Z) : option Z :=
  match l with [] => None | x :: xs => Some (list_min x xs) end.
Definition column_max (l : list Z) : option Z :=
  match l with [] => None | x :: xs => Some (list_max x xs) end.

Definition separator := "==========================================".
Definition chain_separator := "------------------------------------------".

(** The file system the report writes to. *)
Abbreviation fs := (gmap string string).

Definition lines_text (ls : list string) : string :=
  String.concat "" (map (fun l => l +:+ String "010" "") ls).

(** [open(path, "w")] then one [f.write(line + "\n")] per line. *)
Definition write_file (path : string) (ls : list string) (m : fs) : fs :=
  <[path := lines_text ls]> m.

(** [open(path, "a+")]: the lines go after the current content. *)
Definition append_file (path : string) (ls : list string) (m : fs) : fs :=
  <[path := default "" (m !! path) +:+ lines_text ls]> m.

Section Report.

Variable sort_groups : list group -> list group.
Variable set_order_Z : list Z -> list Z.
Variable set_order_str : list string -> list string.
Variable show_ts : option Z -> string.
Variable show_duration : option Z -> option Z -> string.

(** The two line lists of [output_result_file]: [output_result] for the
    window's own file and [all_res_list] for the shared file [res].
    [None] is the [IndexError] of [file_name.split("_")[1]]. *)
Definition report_lines (file_name : string) (df : list Cicp.t)
  : option (list string * list string) :=
  let df := sort_groups (group_by_call_stack df) in
  let ts_min := column_min (map g_ts_begin df) in
  let ts_max := column_max (map g_ts_end df) in
  file_name_num ← Py.index (Py.split_on "_" file_name) 1;
  let df_length := length df in
  let all_threads := length (set_order_Z (df ≫= g_tid)) in
  let all_command := length (set_order_str (df ≫= g_command)) in
  let details := imap (fun i g =>
      [chain_separator;
       "Function call stack chain " +:+ pretty (S i);
       g_function_call_stack g;
       "Processes: " +:+ Py.join "," (set_order_str (g_command g));
       "Threads: " +:+ Py.join "," (map pretty (set_order_Z (g_tid g)))]) df in
  Some (app [separator; "Time period: " +:+ show_ts ts_min +:+ " ~ " +:+ show_ts ts_max]
          (concat details),
        [separator;
         "Contention group " +:+ file_name_num +:+ " :";
         "Duration: " +:+ show_duration ts_max ts_min;
         "Function call stacks: " +:+ pretty df_length;
         "Total threads: " +:+ pretty all_threads;
         "Total processes: " +:+ pretty all_command;
         "Detailed information:" +:+ file_name]).

Definition output_result_file (output_path file_name : string) (df : list Cicp.t) (m : fs)
  : option fs :=
  '(output_result, all_res_list) ← report_lines file_name df;
  let m := write_file (output_path +:+ "/" +:+ file_name) output_result m in
  Some (append_file (output_path +:+ "/" +:+ "res") all_res_list m).

(** [_generate_report_for_tocc] as far as the text report goes; the
    tasks run one after the other in the order the pool schedules them. *)
Definition report_task (output_path : string) (task : string * list Cicp.t) (m : fs) : option fs :=
  output_result_file output_path task.1 task.2 m.

Fixpoint run_tasks (output_path : string) (tasks : list (string * list Cicp.t)) (m : fs)
  : option fs :=
  match tasks with
  | [] => Some m
  | t :: ts => m' ← report_task output_path t m; run_tasks output_path ts m'
  end.

(** ** Properties of the report *)

Lemma lookup_append_file path ls m :
  append_file path ls m !! path = Some (default "" (m !! path) +:+ lines_text ls).
Proof. unfold append_file. by rewrite lookup_insert_eq. Qed.

Lemma string_app_cancel_l s t1 t2 : s +:+ t1 = s +:+ t2 -> t1 = t2.
Proof. induction s as [|a s IH]; [done|]. rewrite !string_app_cons. intros [=]. by apply IH. Qed.

(** The window's own file is never the shared [res] file unless it is
    named [res]. *)
Lemma own_file_ne_res output_path file_name :
  file_name <> "res" -> output_path +:+ "/" +:+ file_name <> output_path +:+ "/" +:+ "res".
Proof. intros Hne E. by apply string_app_cancel_l, string_app_cancel_l in E. Qed.

Lemma string_concat_app (l1 l2 : list string) :
  String.concat "" (l1 ++ l2) = String.concat "" l1 +:+ String.concat "" l2.
Proof.
  induction l1 as [|x l1 IH]; simpl; [done|].
  destruct l1 as [|y l1]; simpl in *.
  - destruct l2; simpl; [by rewrite string_app_nil_r|done].
  - rewrite IH, !string_app_assoc. done.
Qed.

Lemma run_tasks_res_blocks output_path tasks m m' :
  Forall (fun t => t.1 <> "res") tasks ->
  run_tasks output_path tasks m = Some m' ->
  exists rs, Forall2 (fun t r => report_lines t.1 t.2 = Some r) tasks rs /\
    default "" (m' !! (output_path +:+ "/" +:+ "res")) =
    default "" (m !! (output_path +:+ "/" +:+ "res")) +:+
    String.concat "" (map (fun r => lines_text r.2) rs).
Proof.
  revert m. induction tasks as [|t ts IH]; intros m Hts Hrun; simpl in Hrun.
  - injection Hrun as <-. exists []. split; [done|]. simpl. by rewrite string_app_nil_r.
  - inversion Hts as [|? ? Ht Hts']; subst.
    unfold report_task, output_result_file in Hrun.
    destruct (report_lines t.1 t.2) as [[out all]|] eqn:Hr; simpl in Hrun; [|done].
    destruct (IH _ Hts' Hrun) as (rs & Hrs & Hres).
    exists ((out, all) :: rs). split; [by constructor|].
    rewrite Hres, lookup_append_file. simpl. unfold write_file.
    rewrite lookup_insert_ne by (apply own_file_ne_res, Ht).
    simpl. rewrite !string_app_assoc. do 2 f_equal.
    destruct rs; simpl; [by rewrite string_app_nil_r|done].
Qed.

(** C15: whatever order the parallel pool runs the report tasks in, each
    task appends its block of [all_res_list] lines to the shared file
    [res] after what it already held: [res] is the old content followed by
    the blocks in execution order. *)
Theorem run_tasks_res output_path tasks m m' :
  Forall (fun t => t.1 <> "res") tasks ->
  run_tasks output_path tasks m = Some m' ->
  exists rs, Forall2 (fun t r => report_lines t.1 t.2 = Some r) tasks rs /\
    default "" (m' !! (output_path +:+ "/" +:+ "res")) =
    default "" (m !! (output_path +:+ "/" +:+ "res")) +:+
    String.concat "" (map (fun r => lines_text r.2) rs).
Proof. apply run_tasks_res_blocks. Qed.


Section Counts.

Hypothesis sort_groups_perm : forall l, sort_groups l ≡ₚ l.
Hypothesis set_order_Z_set : forall l, NoDup (set_order_Z l) /\ forall x, x ∈ set_order_Z l <-> x ∈ l.
Hypothesis set_order_str_set :
  forall l, NoDup (set_order_str l) /\ forall x, x ∈ set_order_str l <-> x ∈ l.

(** [len(list(set(l)))] is the number of distinct values of [l], whatever
    the iteration order of the set. *)
Lemma length_set_order {A} `{EqDecision A} (order : list A -> list A) l :
  (NoDup (order l) /\ forall x, x ∈ order l <-> x ∈ l) ->
  length (order l) = length (Py.unique l).
Proof.
  intros [Hnd Hel]. apply Permutation_length, NoDup_Permutation; [done|apply NoDup_py_unique|].
  intros x. by rewrite Hel, elem_of_py_unique.
Qed.

Lemma elem_of_groups_bind {B} (proj : group -> list B) (f : Cicp.t -> B) df x :
  (forall k rows, proj (group_of k rows) = map f rows) ->
  x ∈ group_by_call_stack df ≫= proj <-> x ∈ map f df.
Proof.
  intros Hproj. unfold group_by_call_stack, Py.groupby. rewrite list_elem_of_bind. split.
  - intros (g & Hx & Hg). rewrite map_map in Hg. apply list_elem_of_fmap in Hg as (k & -> & _).
    rewrite Hproj in Hx. apply list_elem_of_fmap in Hx as (r & -> & Hr).
    apply list_elem_of_filter in Hr as [_ Hr]. by apply list_elem_of_fmap_2.
  - intros (r & -> & Hr)%list_elem_of_fmap. exists (group_of (Cicp.function_call_stack r)
      (filter (fun x => Cicp.function_call_stack x = Cicp.function_call_stack r) df)).
    split.
    + rewrite Hproj. apply list_elem_of_fmap_2, list_elem_of_filter. done.
    + rewrite map_map. apply list_elem_of_fmap. exists (Cicp.function_call_stack r).
      split; [done|]. rewrite py_sort_perm, elem_of_py_unique. by apply list_elem_of_fmap_2.
Qed.

Lemma length_py_unique_ext {A} `{EqDecision A} (l1 l2 : list A) :
  (forall x, x ∈ l1 <-> x ∈ l2) -> length (Py.unique l1) = length (Py.unique l2).
Proof.
  intros H. apply Permutation_length, NoDup_Permutation; [apply NoDup_py_unique..|].
  intros x. by rewrite !elem_of_py_unique.
Qed.

(** The columns of the sorted, grouped frame hold the values of the
    window's rows. *)
Lemma elem_of_sorted_groups_bind {B} (proj : group -> list B) (f : Cicp.t -> B) df x :
  (forall k rows, proj (group_of k rows) = map f rows) ->
  x ∈ sort_groups (group_by_call_stack df) ≫= proj <-> x ∈ map f df.
Proof.
  intros Hproj. rewrite <- (elem_of_groups_bind proj f df x Hproj), !list_elem_of_bind.
  by setoid_rewrite (sort_groups_perm (group_by_call_stack df)).
Qed.

Lemma length_group_by_call_stack df :
  length (group_by_call_stack df) = length (Py.unique (map Cicp.function_call_stack df)).
Proof. unfold group_by_call_stack, Py.groupby. by rewrite !length_map, length_py_sort. Qed.

(** The counts [output_result_file] appends to [res] do not depend
    on the row order of [sort_values] or on the set iteration order: the
    number of distinct call stacks, of distinct threads and of distinct
    commands of the sub-window. *)
Theorem report_lines_counts file_name df out all :
  report_lines file_name df = Some (out, all) ->
  all !! 3 = Some ("Function call stacks: " +:+
                   pretty (length (Py.unique (map Cicp.function_call_stack df)))) /\
  all !! 4 = Some ("Total threads: " +:+ pretty (length (Py.unique (map Cicp.tid df)))) /\
  all !! 5 = Some ("Total processes: " +:+ pretty (length (Py.unique (map Cicp.command df)))).
Proof.
  unfold report_lines. destruct (Py.index _ 1); simpl; [|done]. intros [= <- <-]. simpl.
  rewrite (Permutation_length (sort_groups_perm _)), length_group_by_call_stack.
  rewrite (length_set_order _ _ (set_order_Z_set _)), (length_set_order _ _ (set_order_str_set _)).
  split; [done|]. split; do 3 f_equal; apply length_py_unique_ext; intros x;
    by apply elem_of_sorted_groups_bind.
Qed.

Lemma Forall2_fun_unique {A B} (f : A -> option B) (l : list A) (r1 r2 : list B) :
  Forall2 (fun a b => f a = Some b) l r1 -> Forall2 (fun a b => f a = Some b) l r2 -> r1 = r2.
Proof.
  intros H1. revert r2. induction H1 as [|a b l r1 Hab H1 IH]; intros r2 H2;
    inversion H2 as [|? b' ? r2' Hab' H2']; subst; [done|].
  rewrite Hab in Hab'. injection Hab' as ->. f_equal. by apply IH.
Qed.

(** [res] is opened in append mode and never reset, so running the
    reports of the same sub-windows a second time on the same output
    directory (a second run of the program) leaves every block twice. *)
Theorem run_tasks_twice output_path tasks m m1 m2 :
  Forall (fun t => t.1 <> "res") tasks ->
  run_tasks output_path tasks m = Some m1 -> run_tasks output_path tasks m1 = Some m2 ->
  exists blocks,
    default "" (m1 !! (output_path +:+ "/" +:+ "res")) =
      default "" (m !! (output_path +:+ "/" +:+ "res")) +:+ blocks /\
    default "" (m2 !! (output_path +:+ "/" +:+ "res")) =
      default "" (m !! (output_path +:+ "/" +:+ "res")) +:+ blocks +:+ blocks.
Proof.
  intros Hts H1 H2.
  destruct (run_tasks_res_blocks _ _ _ _ Hts H1) as (rs1 & Hrs1 & E1).
  destruct (run_tasks_res_blocks _ _ _ _ Hts H2) as (rs2 & Hrs2 & E2).
  pose proof (Forall2_fun_unique _ _ _ _ Hrs1 Hrs2) as <-.
  eexists. split; [exact E1|]. by rewrite E2, E1, string_app_assoc.
Qed.

End Counts.

End Report.


(** ** A concrete run *)

(** Deterministic stand-ins for the interpreter's choices: a stable sort by
    [ts_begin], sets iterated in order of first appearance, integers
    printed in decimal. *)
Definition sort_groups_stable : list group -> list group :=
  Py.sort (fun a b => (g_ts_begin a <? g_ts_begin b)%Z).

Definition show_ts_dec (o : option Z) : string :=
  match o with Some z => pretty z | None => "nan" end.

Definition show_duration_dec (a b : option Z) : string :=
  match a, b with Some x, Some y => pretty (x - y)%Z | _, _ => "nan" end.

Definition report_cicp (thread : Z) (command fcs : string) (b e : Z) : Cicp.t :=
  Cicp.mk 0 1 [b; e] command thread [0; 0]%Z "cpu-clock" [] [] fcs "" 2 b e.

Definition report_window : list Cicp.t :=
  [report_cicp 1 "app" "main;lock" 0 5; report_cicp 2 "app" "main;lock" 1 4;
   report_cicp 3 "db" "run;wait" 2 6].

Lemma unique_is_set {A} `{EqDecision A} (l : list A) :
  NoDup (Py.unique l) /\ forall x, x ∈ Py.unique l <-> x ∈ l.
Proof. split; [apply NoDup_py_unique|intros x; apply elem_of_py_unique]. Qed.

Lemma report_lines_counts_witness :
  (default ([], []) (report_lines sort_groups_stable Py.unique Py.unique show_ts_dec
     show_duration_dec "res_1" report_window)).2 !! 4 =
  Some ("Total threads: " +:+ pretty (length (Py.unique (map Cicp.tid report_window)))).
Proof.
  eapply (report_lines_counts sort_groups_stable Py.unique Py.unique show_ts_dec show_duration_dec
            (fun l => py_sort_perm _ l) unique_is_set unique_is_set "res_1" report_window).
  vm_compute. reflexivity.
Defined.

Lemma run_tasks_res_witness :
  exists rs, Forall2 (fun t r => report_lines sort_groups_stable Py.unique Py.unique show_ts_dec
                                   show_duration_dec t.1 t.2 = Some r)
               [("res_1", report_window); ("res_2", report_window)] rs /\
    default "" (default ∅ (run_tasks sort_groups_stable Py.unique Py.unique show_ts_dec
                 show_duration_dec "out" [("res_1", report_window); ("res_2", report_window)]
                 {[ "out/res" := "old" ]}) !! ("out" +:+ "/" +:+ "res")) =
    default "" (({[ "out/res" := "old" ]} : fs) !! ("out" +:+ "/" +:+ "res")) +:+
    String.concat "" (map (fun r => lines_text r.2) rs).
Proof.
  apply run_tasks_res.
  - repeat constructor; discriminate.
  - vm_compute. reflexivity.
Defined.


Definition report_run (m : fs) : fs :=
  default ∅ (run_tasks sort_groups_stable Py.unique Py.unique show_ts_dec show_duration_dec "out"
               [("res_1", report_window)] m).

Lemma run_tasks_twice_witness :
  exists blocks,
    default "" (report_run ∅ !! ("out" +:+ "/" +:+ "res")) =
      default "" ((∅ : fs) !! ("out" +:+ "/" +:+ "res")) +:+ blocks /\
    default "" (report_run (report_run ∅) !! ("out" +:+ "/" +:+ "res")) =
      default "" ((∅ : fs) !! ("out" +:+ "/" +:+ "res")) +:+ blocks +:+ blocks.
Proof.
  apply (run_tasks_twice sort_groups_stable Py.unique Py.unique show_ts_dec show_duration_dec
           "out" [("res_1", report_window)]).
  - repeat constructor; discriminate.
  - vm_compute. reflexivity.
  - vm_compute. reflexivity.
Defined.

End Report.
