(* ===== verification/Chart.v ===== *)
(** The timeline chart of [src/modeling.py]: [TimingGraph.gen_random_color]
    (lines 13-36) and [gen_thread_timing_event_graph] (38-151).

    The matplotlib calls are modelled by the figure they build: its size,
    its bars ([ax.broken_barh]), axis limits, ticks and tick labels, and the
    path [plt.savefig] writes.  Timestamps are microseconds, so the
    [0.05] s margin of [set_xlim] is [50000].  [random.randint(0, 14)] is
    read from a stream of draws; the stream running out stands for the
    loop not having finished.  As in [Report.v], the row order of
    [sort_values] and the iteration order of [list(set(...))] are section
    parameters. *)

From S2P Require Import Prelude PyText Frames.
From stdpp Require Import pretty.

Local Open Scope string_scope.

Module Chart.

Definition num_set : list string :=
  ["1"; "2"; "3"; "4"; "5"; "6"; "7"; "8"; "9"; "A"; "B"; "C"; "D"; "E"; "F"].

(** [gen_random_color]: six draws of [random.randint(0, 14)]. *)
Definition gen_random_color (draws : list nat) : option (string * list nat) :=
  match draws with
  | d1 :: d2 :: d3 :: d4 :: d5 :: d6 :: rest =>
      c1 ← num_set !! d1; c2 ← num_set !! d2; c3 ← num_set !! d3;
      c4 ← num_set !! d4; c5 ← num_set !! d5; c6 ← num_set !! d6;
      Some ("#" +:+ c1 +:+ c2 +:+ c3 +:+ c4 +:+ c5 +:+ c6, rest)
  | _ => None
  end.

(** The [while 1] loop of lines 95-105: draw until [colors] has one
    colour per identical call path, keeping only unseen colours.  Each
    draw consumes six numbers, so the stream bounds the iterations. *)
Fixpoint pick_colors (fuel : nat) (n : nat) (colors : list string) (draws : list nat)
  : option (list string) :=
  if Nat.eqb (length colors) n then Some colors
  else match fuel with
       | 0 => None
       | S fuel =>
           '(color, draws) ← gen_random_color draws;
           if decide (color ∈ colors) then pick_colors fuel n colors draws
           else pick_colors fuel n (colors ++ [color]) draws
       end.

Definition choose_colors (n : nat) (draws : list nat) : option (list string) :=
  pick_colors (length draws) n [] draws.

(** A complete [gen_random_color] code in the stream: six draws of
    [randint(0, 14)], and the colour it gives. *)
Definition code_ok (c : list nat) : bool :=
  Nat.eqb (length c) 6 && forallb (fun d => Nat.ltb d 15) c.

Definition code_color (c : list nat) : string :=
  match gen_random_color c with Some (color, _) => color | None => "" end.

(** The figure [gen_thread_timing_event_graph] saves. *)
Record bar := mk_bar { bar_y : Z; bar_x : Z; bar_width : Z; bar_color : string }.

Record figure := mk_figure {
  figsize : Z * Z;
  bars : list bar;
  xlim : Z * Z;
  ylim : Z * Z;
  yticks : list Z;
  yticklabels : list string;
  saved_as : string
}.

(** [fig_width, fig_length] by the number of (command, tid) rows. *)
Definition fig_size (tmp_length : nat) : Z * Z :=
  if Nat.ltb tmp_length 10 then (30, 10)%Z
  else if Nat.ltb tmp_length 30 then (30, 40)%Z
  else if Nat.ltb tmp_length 300 then (40, 100)%Z
  else (50, 200)%Z.

Definition pair_lt (a b : string * Z) : bool :=
  Py.str_lt a.1 b.1 || (String.eqb a.1 b.1 && (a.2 <? b.2)%Z).

(** A row of [df.groupby(["command", "tid"], as_index=False)] with
    [ts_begin] reduced by [min]. *)
Record thread_row := mk_thread_row { t_command : string; t_tid : Z; t_ts_begin : Z }.

Definition thread_rows (df : list Cicp.t) : list thread_row :=
  map (fun '(k, rows) =>
         mk_thread_row k.1 k.2 (fold_left Z.min (map Cicp.ts_begin rows)
                                  (default 0%Z (head (map Cicp.ts_begin rows)))))
      (Py.groupby pair_lt (fun c => (Cicp.command c, Cicp.tid c)) df).

Section Chart.

Variable sort_rows : list Cicp.t -> list Cicp.t.
Variable sort_threads : list thread_row -> list thread_row.
Variable set_order : list string -> list string.

Definition bars_of (color_of : string -> string) (y : Z) (rows : list Cicp.t) : list bar :=
  map (fun r => mk_bar y (Cicp.ts_begin r) (Cicp.ts_end r - Cicp.ts_begin r)
                       (color_of (Cicp.user_defined_indentical_call_stacks r))) rows.

(** [identical_event_color[i] = colors[index]] for the events in set
    order; an event outside the list has no colour (a [KeyError]), which
    cannot happen for the frame's own rows. *)
Definition color_lookup (events colors : list string) (e : string) : string :=
  default "" (list_find (fun x => x = e) events ≫= fun '(i, _) => colors !! i).

(** [None]: the colour loop did not finish on the given draws, or
    [min]/[max] of an empty frame raised. *)
Definition gen_thread_timing_event_graph (output_path file_name : string) (df : list Cicp.t)
  (draws : list nat) : option figure :=
  let df := sort_rows df in
  let ts_begin_list := map Cicp.ts_begin df in
  let ts_end_list := map Cicp.ts_end df in
  let tmp_df := sort_threads (thread_rows df) in
  let command_list := map t_command tmp_df in
  let tid_list := map t_tid tmp_df in
  let tmp_length := length tid_list in
  let barh_y_position := map (fun i => 2 * Z.of_nat (S i))%Z (seq 0 tmp_length) in
  let identical_event_list := set_order (map Cicp.user_defined_indentical_call_stacks df) in
  colors ← choose_colors (length identical_event_list) draws;
  let color_of := color_lookup identical_event_list colors in
  let bars := concat (imap (fun i tid =>
                bars_of color_of (2 * Z.of_nat (S i))%Z
                        (filter (fun r => Cicp.tid r = tid) df)) tid_list) in
  let y_data := zip_with (fun c t => c +:+ " " +:+ pretty t) command_list tid_list in
  xlim_min ← head ts_begin_list;
  xlim_max ← head ts_end_list;
  let xlim_min := fold_left Z.min ts_begin_list xlim_min in
  let xlim_max := fold_left Z.max ts_end_list xlim_max in
  Some (mk_figure (fig_size tmp_length) bars (xlim_min - 50000, xlim_max + 50000)%Z
          (0, (Z.of_nat tmp_length + 1) * 2)%Z barh_y_position y_data
          (output_path +:+ "/thread_timing_evets_graph_" +:+ file_name)).

End Chart.

(** ** Properties of the chart *)

Lemma pick_colors_spec fuel n colors draws res :
  NoDup colors -> pick_colors fuel n colors draws = Some res ->
  NoDup res /\ length res = n /\ colors `prefix_of` res.
Proof.
  revert colors draws. induction fuel as [|fuel IH]; intros colors draws Hnd; simpl;
    destruct (Nat.eqb_spec (length colors) n) as [Hn|Hn];
    try (intros [= <-]; split_and!; [done|done|reflexivity]); [done|].
  destruct (gen_random_color draws) as [[color draws']|]; simpl; [|done].
  case_decide as Hin.
  - by apply IH.
  - intros Hres. assert (NoDup (colors ++ [color])) as Hnd'.
    { apply NoDup_app. split; [done|]. split; [|apply NoDup_singleton]. set_solver. }
    destruct (IH _ _ Hnd' Hres) as (? & ? & Hpre).
    split_and!; [done|done|]. etrans; [|exact Hpre]. by eexists.
Qed.

(** C16: when the colour loop finishes, it has picked exactly one colour
    per identical call path and no colour twice. *)
Theorem choose_colors_distinct n draws colors :
  choose_colors n draws = Some colors -> NoDup colors /\ length colors = n.
Proof.
  intros H. destruct (pick_colors_spec _ _ _ _ _ (NoDup_nil_2) H) as (? & ? & _). done.
Qed.

Lemma gen_random_color_code c rest :
  code_ok c = true -> gen_random_color (c ++ rest) = Some (code_color c, rest).
Proof.
  intros Hc. apply andb_prop in Hc as [Hlen Hd]. apply Nat.eqb_eq in Hlen.
  rewrite forallb_forall in Hd.
  assert (Hl : forall d, d ∈ c -> is_Some (num_set !! d)).
  { intros d Hin. apply lookup_lt_is_Some_2. apply list_elem_of_In in Hin.
    apply Hd, Nat.ltb_lt in Hin. simpl. lia. }
  destruct c as [|d1 [|d2 [|d3 [|d4 [|d5 [|d6 [|]]]]]]]; simplify_eq/=.
  unfold code_color; simpl.
  destruct (Hl d1) as [? ->]; [set_solver|]; destruct (Hl d2) as [? ->]; [set_solver|];
  destruct (Hl d3) as [? ->]; [set_solver|]; destruct (Hl d4) as [? ->]; [set_solver|];
  destruct (Hl d5) as [? ->]; [set_solver|]; destruct (Hl d6) as [? ->]; [set_solver|].
  reflexivity.
Qed.

Lemma length_concat_codes codes :
  Forall (fun c => code_ok c = true) codes -> length codes <= length (concat codes).
Proof.
  induction 1 as [|c codes Hc _ IH]; simpl; [lia|].
  rewrite length_app. apply andb_prop in Hc as [Hlen%Nat.eqb_eq _]. lia.
Qed.

(** The loop's progress measure: the colours already picked together
    with the colours still to come in the stream. *)
Lemma pick_colors_live n codes colors fuel :
  Forall (fun c => code_ok c = true) codes -> NoDup colors -> length colors <= n ->
  length codes <= fuel ->
  n <= size (list_to_set colors ∪ list_to_set (code_color <$> codes) : gset string) ->
  is_Some (pick_colors fuel n colors (concat codes)).
Proof.
  intros Hcodes. revert colors fuel.
  induction Hcodes as [|c codes Hc _ IH]; intros colors fuel Hnd Hle Hfuel Hsize.
  - rewrite fmap_nil, list_to_set_nil, union_empty_r_L, size_list_to_set in Hsize by done.
    destruct fuel; simpl; rewrite (proj2 (Nat.eqb_eq _ _)) by lia; by eexists.
  - destruct fuel as [|fuel]; simpl in Hfuel; [lia|]. simpl.
    destruct (Nat.eqb_spec (length colors) n); [by eexists|].
    rewrite gen_random_color_code by done. simpl.
    rewrite fmap_cons, list_to_set_cons in Hsize.
    case_decide as Hin.
    + apply IH; [done|lia|lia|].
      assert (Hs : list_to_set colors ∪ ({[code_color c]} ∪ list_to_set (code_color <$> codes))
                   = list_to_set colors ∪ list_to_set (code_color <$> codes) :> gset string)
        by set_solver.
      by rewrite <-Hs.
    + apply IH.
      * apply NoDup_app. split; [done|]. split; [set_solver|apply NoDup_singleton].
      * rewrite length_app. simpl. lia.
      * lia.
      * rewrite list_to_set_app_L. simpl.
        assert (Hs : list_to_set colors ∪ ({[code_color c]} ∪ ∅) ∪ list_to_set (code_color <$> codes)
                   = list_to_set colors ∪ ({[code_color c]} ∪ list_to_set (code_color <$> codes))
                   :> gset string) by set_solver.
        by rewrite Hs.
Qed.

(** C28: liveness of the colour loop of [gen_thread_timing_event_graph]:
    as soon as the random draws deliver, in complete six-draw codes, at
    least as many distinct colours as there are identical call paths, the
    [while 1] loop terminates with a colour list. *)
Theorem choose_colors_live n codes :
  Forall (fun c => code_ok c = true) codes ->
  n <= size (list_to_set (code_color <$> codes) : gset string) ->
  is_Some (choose_colors n (concat codes)).
Proof.
  intros Hcodes Hn. apply pick_colors_live; [done|apply NoDup_nil_2|simpl; lia|
    by apply length_concat_codes|].
  by rewrite list_to_set_nil, union_empty_l_L.
Qed.

Lemma fold_min_le_init (l : list Z) a : (fold_left Z.min l a <= a)%Z.
Proof. revert a. induction l as [|y l IH]; intros a; simpl; [lia|]. specialize (IH (Z.min a y)). lia. Qed.

Lemma fold_max_ge_init (l : list Z) a : (a <= fold_left Z.max l a)%Z.
Proof. revert a. induction l as [|y l IH]; intros a; simpl; [lia|]. specialize (IH (Z.max a y)). lia. Qed.

Lemma fold_min_le (l : list Z) a x : x ∈ l -> (fold_left Z.min l a <= x)%Z.
Proof.
  revert a. induction l as [|y l IH]; intros a Hx; simpl; [set_solver|].
  apply elem_of_cons in Hx as [-> | Hx]; [|by apply IH].
  pose proof (fold_min_le_init l (Z.min a y)). lia.
Qed.

Lemma fold_max_ge (l : list Z) a x : x ∈ l -> (x <= fold_left Z.max l a)%Z.
Proof.
  revert a. induction l as [|y l IH]; intros a Hx; simpl; [set_solver|].
  apply elem_of_cons in Hx as [-> | Hx]; [|by apply IH].
  pose proof (fold_max_ge_init l (Z.max a y)). lia.
Qed.

(** Every bar is drawn for a row of the frame, on the row of the chart of
    one of its (command, tid) rows. *)
Lemma elem_of_chart_bars color_of (df : list Cicp.t) (tids : list Z) b :
  b ∈ concat (imap (fun i tid => bars_of color_of (2 * Z.of_nat (S i))%Z
                                   (filter (fun r => Cicp.tid r = tid) df)) tids) ->
  exists i r, i < length tids /\ r ∈ df /\
    b = mk_bar (2 * Z.of_nat (S i))%Z (Cicp.ts_begin r) (Cicp.ts_end r - Cicp.ts_begin r)
               (color_of (Cicp.user_defined_indentical_call_stacks r)).
Proof.
  intros Hb. apply list_elem_of_In, in_concat in Hb as (bs & Hbs & Hb).
  apply list_elem_of_In in Hbs, Hb.
  apply elem_of_lookup_imap in Hbs as (i & tid & -> & Hi).
  unfold bars_of in Hb. apply list_elem_of_fmap in Hb as (r & -> & Hr).
  apply list_elem_of_filter in Hr as [_ Hr]. exists i, r. split_and!; [|done|done].
  by apply lookup_lt_Some in Hi.
Qed.

(** Every bar of the saved chart lies strictly inside the axis
    limits, and on one of the y ticks. *)
Theorem chart_bars_in_bounds sort_rows sort_threads set_order output_path file_name df draws fig :
  gen_thread_timing_event_graph sort_rows sort_threads set_order output_path file_name df draws
    = Some fig ->
  Forall (fun b => ((xlim fig).1 < bar_x b /\ bar_x b + bar_width b < (xlim fig).2 /\
                    (ylim fig).1 < bar_y b < (ylim fig).2)%Z /\ bar_y b ∈ yticks fig) (bars fig).
Proof.
  unfold gen_thread_timing_event_graph.
  destruct (choose_colors _ _); simpl; [|done].
  destruct (head (map Cicp.ts_begin (sort_rows df))) as [bmin|] eqn:Hb; simpl; [|done].
  destruct (head (map Cicp.ts_end (sort_rows df))) as [emax|] eqn:He; simpl; [|done].
  intros [= <-]. apply Forall_forall. intros b (i & r & Hi & Hr & ->)%elem_of_chart_bars.
  cbn [xlim ylim bar_x bar_width bar_y yticks fst snd].
  rewrite !length_map in *.
  pose proof (fold_min_le (map Cicp.ts_begin (sort_rows df)) bmin (Cicp.ts_begin r)
                ltac:(by apply list_elem_of_fmap_2)).
  pose proof (fold_max_ge (map Cicp.ts_end (sort_rows df)) emax (Cicp.ts_end r)
                ltac:(by apply list_elem_of_fmap_2)).
  split; [lia|]. apply list_elem_of_fmap. exists i. split; [done|].
  apply elem_of_seq. lia.
Qed.

Lemma color_lookup_Some events colors e :
  length colors = length events -> e ∈ events ->
  exists i c, events !! i = Some e /\ colors !! i = Some c /\ color_lookup events colors e = c.
Proof.
  intros Hlen He. destruct (list_find_elem_of (fun x => x = e) events e He eq_refl) as [[i x] Hf].
  pose proof Hf as (Hi & -> & _)%list_find_Some.
  destruct (lookup_lt_is_Some_2 colors i) as [c Hc].
  { rewrite Hlen. by apply lookup_lt_Some in Hi. }
  exists i, c. split_and!; [done|done|]. unfold color_lookup. by rewrite Hf; simpl; rewrite Hc.
Qed.

(** Distinct colours give distinct call paths distinct colours. *)
Lemma color_lookup_inj events colors e1 e2 :
  NoDup colors -> length colors = length events -> e1 ∈ events -> e2 ∈ events ->
  color_lookup events colors e1 = color_lookup events colors e2 <-> e1 = e2.
Proof.
  intros Hnd Hlen H1 H2. split; [|by intros ->].
  destruct (color_lookup_Some _ _ _ Hlen H1) as (i1 & c1 & Hi1 & Hc1 & ->).
  destruct (color_lookup_Some _ _ _ Hlen H2) as (i2 & c2 & Hi2 & Hc2 & ->).
  intros <-. rewrite (NoDup_lookup _ _ _ _ Hnd Hc1 Hc2) in Hi1. congruence.
Qed.

(** C17: the chart colours call paths faithfully: two bars have the same
    colour exactly when their CICPs have the same identical-call-stack
    signature, whatever order the set of signatures is iterated in. *)
Theorem chart_colors_by_call_path sort_rows sort_threads set_order output_path file_name df
  draws fig :
  (forall l, NoDup (set_order l) /\ forall x, x ∈ set_order l <-> x ∈ l) ->
  gen_thread_timing_event_graph sort_rows sort_threads set_order output_path file_name df draws
    = Some fig ->
  forall b1 b2, b1 ∈ bars fig -> b2 ∈ bars fig ->
  exists r1 r2, r1 ∈ sort_rows df /\ r2 ∈ sort_rows df /\
    bar_x b1 = Cicp.ts_begin r1 /\ bar_x b2 = Cicp.ts_begin r2 /\
    (bar_color b1 = bar_color b2 <->
     Cicp.user_defined_indentical_call_stacks r1 = Cicp.user_defined_indentical_call_stacks r2).
Proof.
  intros Hset. unfold gen_thread_timing_event_graph.
  destruct (choose_colors _ _) as [colors|] eqn:Hc; simpl; [|done].
  destruct (pick_colors_spec _ _ _ _ _ NoDup_nil_2 Hc) as (Hnd & Hlen & _).
  destruct (head (map Cicp.ts_begin (sort_rows df))); simpl; [|done].
  destruct (head (map Cicp.ts_end (sort_rows df))); simpl; [|done].
  intros [= <-] b1 b2 (i1 & r1 & _ & Hr1 & ->)%elem_of_chart_bars
    (i2 & r2 & _ & Hr2 & ->)%elem_of_chart_bars.
  exists r1, r2. split_and!; [done..|]. cbn [bar_color].
  apply color_lookup_inj; [done|done|..]; apply Hset; by apply list_elem_of_fmap_2.
Qed.

(** ** A concrete chart *)

Definition chart_sort_rows : list Cicp.t -> list Cicp.t :=
  Py.sort (fun a b => (Cicp.ts_begin a <? Cicp.ts_begin b)%Z).

Definition chart_sort_threads : list thread_row -> list thread_row :=
  Py.sort (fun a b => (t_ts_begin a <? t_ts_begin b)%Z).

Definition chart_cicp (thread : Z) (command sig : string) (b e : Z) : Cicp.t :=
  Cicp.mk 0 1 [b; e] command thread [0; 0]%Z "cpu-clock" [] [] "" sig 2 b e.

(** Thread 1 renames itself from [app] to [worker] half way (a
    [prctl(PR_SET_NAME)] or an [exec]); thread 2 runs [db]. *)
Definition chart_window : list Cicp.t :=
  [chart_cicp 1 "app" "main;lock" 0 500000; chart_cicp 2 "db" "run;wait" 100000 900000;
   chart_cicp 1 "worker" "main;lock" 600000 800000].

Definition chart_draws : list nat := [0; 1; 2; 3; 4; 5; 9; 10; 11; 12; 13; 14].

Definition empty_figure : figure := mk_figure (0, 0)%Z [] (0, 0)%Z (0, 0)%Z [] [] "".

Definition chart_figure : option figure :=
  gen_thread_timing_event_graph chart_sort_rows chart_sort_threads Py.unique "out" "res_1"
    chart_window chart_draws.

Lemma choose_colors_distinct_witness :
  NoDup (default [] (choose_colors 2 chart_draws)) /\
  length (default [] (choose_colors 2 chart_draws)) = 2.
Proof. apply (choose_colors_distinct 2 chart_draws). vm_compute. reflexivity. Defined.

Lemma choose_colors_live_witness :
  Forall (fun c => code_ok c = true) [[0; 1; 2; 3; 4; 5]; [0; 1; 2; 3; 4; 5]; [9; 10; 11; 12; 13; 14]] /\
  is_Some (choose_colors 2 (concat [[0; 1; 2; 3; 4; 5]; [0; 1; 2; 3; 4; 5]; [9; 10; 11; 12; 13; 14]])).
Proof.
  split; [decide_vm|]. apply choose_colors_live; [decide_vm|vm_compute; lia].
Defined.

Lemma chart_bars_in_bounds_witness :
  Forall (fun b => ((xlim (default empty_figure chart_figure)).1
                      < bar_x b /\
                    bar_x b + bar_width b
                      < (xlim (default empty_figure chart_figure)).2 /\
                    (ylim (default empty_figure chart_figure)).1
                      < bar_y b
                      < (ylim (default empty_figure chart_figure)).2)%Z
                   /\ bar_y b ∈ yticks (default empty_figure chart_figure))
    (bars (default empty_figure chart_figure)).
Proof.
  apply (chart_bars_in_bounds chart_sort_rows chart_sort_threads Py.unique "out" "res_1"
           chart_window chart_draws).
  vm_compute. reflexivity.
Defined.

Definition chart_bar (i : nat) : bar :=
  default (mk_bar 0 0 0 "") (bars (default empty_figure chart_figure) !! i).

Lemma chart_colors_by_call_path_witness :
  exists r1 r2, r1 ∈ chart_sort_rows chart_window /\ r2 ∈ chart_sort_rows chart_window /\
    bar_x (chart_bar 0) = Cicp.ts_begin r1 /\ bar_x (chart_bar 2) = Cicp.ts_begin r2 /\
    (bar_color (chart_bar 0) = bar_color (chart_bar 2) <->
     Cicp.user_defined_indentical_call_stacks r1 = Cicp.user_defined_indentical_call_stacks r2).
Proof.
  apply (chart_colors_by_call_path chart_sort_rows chart_sort_threads Py.unique "out" "res_1"
           chart_window chart_draws (default empty_figure chart_figure)).
  - intros l. split; [apply NoDup_py_unique|intros x; apply elem_of_py_unique].
  - vm_compute. reflexivity.
  - apply (list_elem_of_lookup_2 _ 0). vm_compute. reflexivity.
  - apply (list_elem_of_lookup_2 _ 2). vm_compute. reflexivity.
Defined.

(** The chart has one row per (command, tid) pair but draws, on each,
    every CICP of the tid ([df[df.tid == tid_list[i]]]): a thread that ran
    under two command names appears on two rows with all its bars drawn
    twice, three CICPs giving five bars. *)
Theorem chart_thread_drawn_twice :
  option_map (fun fig => (yticklabels fig, map (fun b => (bar_y b, bar_x b)) (bars fig)))
    chart_figure =
  Some (["app 1"; "db 2"; "worker 1"],
        [(2, 0); (2, 600000); (4, 100000); (6, 0); (6, 600000)]%Z).
Proof. vm_compute. reflexivity. Qed.

End Chart.
