(* ===== verification/CallChains.v ===== *)
(** [modeling.gen_call_chains] (src/modeling.py:153-214): the stacks of a
    sub-window written in the perf-script text format, piped through
    [gprof2dot.py -f perf -n0 -e0] into [dot -Tsvg].  The model stops at
    the DOT text [dot] receives: the rendering to SVG and the process
    plumbing are not modelled, and a failing [gprof2dot] ([None]) only
    prints a warning in the code. *)

From Stdlib Require Import QArith.
From S2P Require Import Prelude PyText Loader GprofModel GprofPerf GprofDot.

Local Open Scope string_scope.

Module CallChains.

Import Gprof.

(** The [command] and [call_stack] columns of the rows [data_loading]
    produces. *)
Definition rows_of (rs : list Loader.raw) : list (string * list string) :=
  map (fun r => (Loader.r_command r, Loader.r_call_stack r)) rs.

(** The DOT text of the call-chain graph of [rows]. *)
Definition gen_call_chains (rows : list (string * list string)) : option string :=
  GprofDot.gprof2dot_perf (GprofPerf.gen_call_chains_input rows).

(** The profile [gprof2dot] builds from the same input. *)
Definition call_chains_profile (rows : list (string * list string)) : option profile :=
  GprofPerf.parse (GprofPerf.readlines (GprofPerf.gen_call_chains_input rows)).

(** The profile [gprof2dot] reads from that input, before the derived
    data. *)
Definition call_chains_samples (rows : list (string * list string)) : option profile :=
  GprofPerf.parse_samples (GprofPerf.readlines (GprofPerf.gen_call_chains_input rows)).

(** A recursive sub-window: [main] calls [a], [a] and [b] call each
    other, [b] calls [leaf]; frames are written innermost first, as perf
    prints them. *)
Definition recursive_rows : list (string * list string) :=
  [("app", ["1 leaf (/bin/app)"; "2 b (/bin/app)"; "3 a (/bin/app)"; "4 b (/bin/app)";
            "5 a (/bin/app)"; "6 main (/bin/app)"]);
   ("app", ["3 a (/bin/app)"; "6 main (/bin/app)"]);
   ("app", ["2 b (/bin/app)"; "3 a (/bin/app)"; "6 main (/bin/app)"])].

(** The [TOTAL_TIME_RATIO] of a function of a profile equals [v]. *)
Definition total_time_is (p : profile) (fid : string) (v : Q) : bool :=
  match p_functions p !! fid ≫= fun f => f_events f !! TOTAL_TIME_RATIO with
  | Some x => Qeq_bool x v
  | None => false
  end.

Definition idle_id : string := "default_idle:[kernel.kallsyms]".
Definition halt_id : string := "native_safe_halt:[kernel.kallsyms]".

(** The stacks [data_loading] stores are reversed (outermost frame
    first, line 50), but [gen_call_chains] writes them as they are,
    while the perf reader of [gprof2dot] takes the first line of a stack
    as the callee.  On the idle sample [native_safe_halt] called from
    [default_idle], the profile has [native_safe_halt] calling
    [default_idle], all self time on [default_idle], and the DOT text
    draws the inverted edge and not the real one. *)
Theorem call_graph_inverted :
  exists rs p out,
    Loader.data_loading (Loader.perf_script_sample Loader.swapper_sample) = Some rs /\
    call_chains_profile (rows_of rs) = Some p /\
    (p_functions p !! halt_id ≫= fun f => f_calls f !! idle_id) <> None /\
    (p_functions p !! idle_id ≫= fun f => f_calls f !! halt_id) = None /\
    (p_functions p !! idle_id ≫= fun f => f_events f !! TIME_RATIO) = Some 1%Q /\
    gen_call_chains (rows_of rs) = Some out /\
    Py.contains (GprofDot.dot_id (GprofDot.VStr halt_id) +:+ " -> " +:+
                 GprofDot.dot_id (GprofDot.VStr idle_id)) out = true /\
    Py.contains (GprofDot.dot_id (GprofDot.VStr idle_id) +:+ " -> " +:+
                 GprofDot.dot_id (GprofDot.VStr halt_id)) out = false.
Proof.
  do 3 eexists. split; [vm_compute; reflexivity|].
  split; [vm_compute; reflexivity|].
  split; [vm_compute; discriminate|].
  split; [vm_compute; reflexivity|].
  split; [vm_compute; reflexivity|].
  split; [vm_compute; reflexivity|].
  split; vm_compute; reflexivity.
Qed.

Lemma rows_of_expected_raw s :
  rows_of [Loader.expected_raw s] =
  [(Py.join " " (Py.split_ws (Loader.p_command s)), rev (Loader.p_frames s))].
Proof. reflexivity. Qed.

Lemma fmap_Some_elem (ids : list string) (fs : list string) f i :
  Some <$> ids = GprofPerf.frame_id <$> fs -> f ∈ fs -> GprofPerf.frame_id f = Some i -> i ∈ ids.
Proof.
  intros Hids Hf Hi. assert (Hs : Some i ∈ (Some <$> ids : list (option string))).
  { rewrite Hids, <-Hi. by apply list_elem_of_fmap_2. }
  apply list_elem_of_fmap in Hs as (i' & [=->] & Hi'). done.
Qed.

(** C18: the generalisation of [call_graph_inverted]: for any well-formed
    perf sample with at least two frames that [call_re] matches, the
    profile [gprof2dot] builds from what [gen_call_chains] writes credits
    the sample's self time ([SAMPLES]) to the outermost frame, the
    process entry, and none to the innermost frame, where perf took the
    sample. *)
Theorem call_chains_credit_outermost s inner mid outer i o :
  Loader.sample_ok s = true ->
  Loader.p_frames s = inner :: mid ++ [outer] ->
  Forall (fun row => GprofPerf.row_ok row = true) (rows_of [Loader.expected_raw s]) ->
  Forall (fun f => is_Some (GprofPerf.frame_id f)) (Loader.p_frames s) ->
  GprofPerf.frame_id inner = Some i -> GprofPerf.frame_id outer = Some o -> i <> o ->
  exists rs p,
    Loader.data_loading (Loader.perf_script_sample s) = Some rs /\
    call_chains_samples (rows_of rs) = Some p /\
    (GprofPerf.fcount p o SAMPLES == 1)%Q /\ (GprofPerf.fcount p i SAMPLES == 0)%Q.
Proof.
  intros Hs Hfr Hrows Hparse Hi Ho Hio.
  exists [Loader.expected_raw s].
  assert (Hload : Loader.data_loading (Loader.perf_script_sample s) = Some [Loader.expected_raw s]).
  { rewrite <-(app_nil_r (Loader.perf_script_sample s)). apply (Loader.data_loading_samples [s]). by constructor. }
  unfold call_chains_samples. rewrite GprofPerf.parse_samples_rows by done.
  rewrite rows_of_expected_raw. cbn [GprofPerf.events_spec]. unfold GprofPerf.event_spec. simpl.
  destruct (GprofPerf.chain_of_frames (set_profile_event (mk_profile ∅ [] ∅) SAMPLES 0)
              (rev (Loader.p_frames s))) as (ids & p' & Hc & Hids & Hin & _ & Hns).
  { by apply Forall_rev. }
  rewrite Hc. simpl.
  assert (Hns' : GprofPerf.no_samples p') by (apply Hns; intros k; reflexivity).
  rewrite Hfr in Hids. simpl in Hids. rewrite rev_unit in Hids.
  destruct ids as [|o' ids]; [done|]. rewrite fmap_cons in Hids. simpl in Hids.
  injection Hids as Ho' Hids. rewrite Ho in Ho'. injection Ho' as ->.
  assert (Hii : i ∈ o :: ids).
  { right. apply (fmap_Some_elem ids (rev mid ++ [inner]) inner); [done| |done]. set_solver. }
  apply Forall_cons in Hin as [Hino Hin'].
  assert (His : is_Some (p_functions p' !! i)) by (apply elem_of_cons in Hii as [->|Hii];
    [done|by rewrite Forall_forall in Hin'; apply Hin']).
  eexists. split; [done|]. split; [reflexivity|]. split.
  - rewrite GprofPerf.record_chain_samples by done. rewrite (Hns' o).
    rewrite bool_decide_eq_true_2 by done. ring.
  - rewrite GprofPerf.record_chain_samples by done. rewrite (Hns' i).
    rewrite bool_decide_eq_false_2 by (simpl; intros [= ?]; auto). ring.
Qed.

Lemma call_chains_credit_outermost_witness :
  exists rs p,
    Loader.data_loading (Loader.perf_script_sample Loader.swapper_sample) = Some rs /\
    call_chains_samples (rows_of rs) = Some p /\
    (GprofPerf.fcount p idle_id SAMPLES == 1)%Q /\ (GprofPerf.fcount p halt_id SAMPLES == 0)%Q.
Proof.
  apply (call_chains_credit_outermost Loader.swapper_sample
           (Loader.frame_text "ffffffff81000e" "native_safe_halt+0xe" "([kernel.kallsyms])") []
           (Loader.frame_text "ffffffff81002a" "default_idle+0x1a" "([kernel.kallsyms])"));
    [reflexivity | reflexivity | decide_vm | decide_vm | vm_compute; reflexivity
    | vm_compute; reflexivity | discriminate].
Defined.

(** Time inside recursion: [a] and [b] form a cycle, whose time
    [_integrate_cycle] shares out along the call from [a] (rank 0, where
    time enters) to [b] (rank 1).  The totals are those the Python
    program prints for this input: [a] 100%, [b] 66.67%, [leaf] 33.33%,
    [main] 100%. *)
Example recursive_call_chains_totals :
  match call_chains_profile recursive_rows with
  | Some p => total_time_is p "a:/bin/app" 1 && total_time_is p "b:/bin/app" (2 # 3) &&
              total_time_is p "leaf:/bin/app" (1 # 3) && total_time_is p "main:/bin/app" 1
  | None => false
  end = true.
Proof. vm_compute. reflexivity. Qed.

End CallChains.
