(* ===== verification/Main.v ===== *)
(** The whole program [src/main.py]: [input_argv] (lines 23-50), the
    [__main__] block (62-118) and [_generate_report_for_tocc] (53-59).

    [sys.argv] is a list of strings; the file system holds the perf text
    and the text files the reports write ([fs] of [Report.v]); the saved
    charts and the call-chain graphs are kept in maps from the path they
    are saved under to the figure and to the DOT text [dot] receives.
    [os.makedirs] and the timing prints are not modelled: directories are
    implicit in the paths, and printing has no effect on the result.

    The [Section] variables are the program's nondeterminism: the tie
    order of [sort_values] and the iteration orders of the report and the
    chart, the random colour draws of each chart, and [schedule], the
    order in which [joblib.Parallel] happens to run the tasks. *)

From S2P Require Import Prelude PyText Frames Loader SubTOCC Pipeline Report Chart GprofPerf CallChains.
From stdpp Require Import pretty.

Local Open Scope string_scope.

Module Main.

(** The values [input_argv] returns. *)
Record args := mk_args {
  perf_file_path : string;
  output_path : string;
  direction : Z;
  degrees_of_freedom : Z;
  threshold : Z
}.

(** [try: x = int(sys.argv[i]) except: x = default]: a missing argument
    ([IndexError]) and a non-integer one ([ValueError]) both give the
    default. *)
Definition int_arg (argv : list string) (i : nat) (default_value : Z) : Z :=
  match argv !! i ≫= Py.int_of_str with Some v => v | None => default_value end.

(** [input_argv]: the [IndexError] of a missing path is printed and
    swallowed, and the [return] then raises [UnboundLocalError]
    ([None]). *)
Definition input_argv (argv : list string) : option args :=
  perf_file_path ← argv !! 1;
  output_path ← argv !! 2;
  Some (mk_args perf_file_path output_path (int_arg argv 3 0) (int_arg argv 4 (-1))
          (int_arg argv 5 (-1))).

(** The report tasks: [file_name = f"res_{num}"], numbered from 1. *)
Definition report_file_name (num : nat) : string := "res_" +:+ pretty num.

Definition tasks_of (d : detection) : list (string * list Cicp.t) :=
  (fun t => (report_file_name t.1, t.2)) <$> report_tasks (subTocc_df_list d).

(** What a run leaves behind. *)
Record outputs := mk_outputs {
  files : Report.fs;
  figures : gmap string Chart.figure;
  graphs : gmap string string
}.

(** A perf recording of [app]: threads 1 and 2 overlap in the frame
    [main;work] between 0 and 5 microseconds, thread 3 runs alone later. *)
Definition main_sample (tid ts : string) : Loader.perf_sample :=
  Loader.mk_perf_sample "app" tid "000" ("0.00000" +:+ ts) "1" "cpu-clock"
    ["7f0000002000 work (/bin/app)"; "7f0000001000 main (/bin/app)"].

Definition main_fs : Report.fs :=
  {[ "perf.txt" := String.concat "" (concat (map Loader.perf_script_sample
       [main_sample "1" "0"; main_sample "1" "1"; main_sample "2" "2"; main_sample "1" "2";
        main_sample "2" "3"; main_sample "1" "3"; main_sample "2" "4"; main_sample "2" "5";
        main_sample "3" "8"; main_sample "3" "9"])) ]}.

Definition main_argv : list string := ["main.py"; "perf.txt"; "out"].

Section Main.

Variable sort_values : list Cicp.t -> list Cicp.t.
Variables (sort_groups : list Report.group -> list Report.group) (set_order_Z : list Z -> list Z)
  (set_order_str : list string -> list string) (show_ts : option Z -> string)
  (show_duration : option Z -> option Z -> string).
Variables (sort_rows : list Cicp.t -> list Cicp.t) (sort_threads : list Chart.thread_row -> list Chart.thread_row)
  (set_order : list string -> list string).
Variable draws : string -> list nat.
Variable schedule : list (string * list Cicp.t) -> list (string * list Cicp.t).

(** [_generate_report_for_tocc]: the chart, the text report, the call
    graph.  A chart whose colour loop does not end ([None]) stops the
    run; [gen_call_chains] catches every exception, so a failing
    [gprof2dot] only leaves no graph. *)
Definition generate_report (out : string) (task : string * list Cicp.t) (o : outputs)
  : option outputs :=
  let '(file_name, df) := task in
  fig ← Chart.gen_thread_timing_event_graph sort_rows sort_threads set_order out file_name df
          (draws file_name);
  m ← Report.output_result_file sort_groups set_order_Z set_order_str show_ts show_duration
        out file_name df (files o);
  let svg := out +:+ "/call_chains_" +:+ file_name +:+ ".svg" in
  let graphs := match CallChains.gen_call_chains
                        ((fun c => (Cicp.command c, Cicp.call_stack c)) <$> df) with
                | Some dot => <[svg := dot]> (graphs o)
                | None => graphs o
                end in
  Some (mk_outputs m (<[Chart.saved_as fig := fig]> (figures o)) graphs).

Fixpoint run_reports (out : string) (tasks : list (string * list Cicp.t)) (o : outputs)
  : option outputs :=
  match tasks with
  | [] => Some o
  | t :: ts => o' ← generate_report out t o; run_reports out ts o'
  end.

(** The [__main__] block on the file system [m]. *)
Definition main (argv : list string) (m : Report.fs) : option outputs :=
  a ← input_argv argv;
  text ← m !! perf_file_path a;
  raw_data ← Loader.data_loading (GprofPerf.readlines text);
  timing_call_stacks_data ← Loader.data_processing raw_data;
  d ← detect sort_values timing_call_stacks_data (direction a) (degrees_of_freedom a) (threshold a);
  run_reports (output_path a) (schedule (tasks_of d)) (mk_outputs m ∅ ∅).

(** ** Properties of a run *)

Lemma chart_saved_as out file_name df ds fig :
  Chart.gen_thread_timing_event_graph sort_rows sort_threads set_order out file_name df ds = Some fig ->
  Chart.saved_as fig = out +:+ "/thread_timing_evets_graph_" +:+ file_name.
Proof.
  unfold Chart.gen_thread_timing_event_graph.
  intros (? & _ & (? & _ & (? & _ & Hf)%bind_Some)%bind_Some)%bind_Some. by injection Hf as <-.
Qed.

(** A report task keeps every file and figure already there and adds its
    own text file and chart. *)
Lemma generate_report_keys out t o o' :
  generate_report out t o = Some o' ->
  (forall k, is_Some (files o !! k) -> is_Some (files o' !! k)) /\
  (forall k, is_Some (figures o !! k) -> is_Some (figures o' !! k)) /\
  is_Some (files o' !! (out +:+ "/" +:+ t.1)) /\
  is_Some (figures o' !! (out +:+ "/thread_timing_evets_graph_" +:+ t.1)).
Proof.
  destruct t as [file_name df]. unfold generate_report.
  intros (fig & Hfig & (m & Hm & Ho)%bind_Some)%bind_Some. injection Ho as <-. simpl.
  unfold Report.output_result_file in Hm.
  apply bind_Some in Hm as ([out_lines all_lines] & _ & Hm). injection Hm as <-.
  unfold Report.append_file, Report.write_file. rewrite <-(chart_saved_as _ _ _ _ _ Hfig).
  split; [|split; [|split]].
  - intros k Hk. rewrite !lookup_insert_is_Some'. tauto.
  - intros k Hk. rewrite lookup_insert_is_Some'. tauto.
  - rewrite !lookup_insert_is_Some'. tauto.
  - rewrite lookup_insert_is_Some'. tauto.
Qed.

Lemma run_reports_keys out ts o o' :
  run_reports out ts o = Some o' ->
  (forall k, is_Some (files o !! k) -> is_Some (files o' !! k)) /\
  (forall k, is_Some (figures o !! k) -> is_Some (figures o' !! k)) /\
  Forall (fun t => is_Some (files o' !! (out +:+ "/" +:+ t.1)) /\
                   is_Some (figures o' !! (out +:+ "/thread_timing_evets_graph_" +:+ t.1))) ts.
Proof.
  revert o. induction ts as [|t ts IH]; intros o Hrun; simpl in Hrun.
  - injection Hrun as <-. auto.
  - apply bind_Some in Hrun as (o1 & H1 & Hrun).
    destruct (generate_report_keys _ _ _ _ H1) as (Hf1 & Hg1 & Ht1 & Hu1).
    destruct (IH _ Hrun) as (Hf & Hg & Hts).
    split; [auto|]. split; [auto|]. constructor; [|done]. auto.
Qed.

(** C: the two paths are the only arguments the program requires:
    [input_argv] fails exactly when one of them is missing. *)
Theorem input_argv_needs_paths argv : input_argv argv = None <-> length argv < 3.
Proof.
  unfold input_argv. split.
  - intros H. destruct (argv !! 1) eqn:E1; simpl in H.
    + destruct (argv !! 2) eqn:E2; [done|]. apply lookup_ge_None in E2. lia.
    + apply lookup_ge_None in E1. lia.
  - intros H. rewrite (lookup_ge_None_2 argv 2) by lia. by destruct (argv !! 1).
Qed.

(** C29: configuration is not validated, contrary to the fail-fast rule
    of the spec (section 7): at each of the three optional positions
    (direction, degrees of freedom, threshold) a text that [int()] does
    not read is silently replaced by the default of that position, so the
    run is the same as with the default written out. *)
Theorem main_no_config_validation prog p o xs x ys m :
  length xs < 3 -> Py.int_of_str x = None ->
  main ([prog; p; o] ++ xs ++ x :: ys) m =
  main ([prog; p; o] ++ xs ++ pretty (default 0%Z ([0; -1; -1]%Z !! length xs)) :: ys) m.
Proof.
  intros Hl Hx. unfold main. f_equal.
  destruct xs as [|a [|b [|c xs]]]; cbn in Hl; try lia;
    unfold input_argv, int_arg; cbn -[pretty Py.int_of_str]; by rewrite Hx, int_of_str_pretty.
Qed.

(** C30: every integer reaches the run unchecked: whatever the three
    optional arguments print, [input_argv] returns them as read, so a
    direction other than 0 and 1 or a negative depth other than -1 is
    passed on to the detection. *)
Theorem input_argv_unchecked prog p o (d k t : Z) :
  input_argv [prog; p; o; pretty d; pretty k; pretty t] = Some (mk_args p o d k t).
Proof. unfold input_argv, int_arg. cbn -[pretty Py.int_of_str]. by rewrite !int_of_str_pretty. Qed.

Hypothesis schedule_perm : forall l, schedule l ≡ₚ l.

(** C26: whatever order [joblib] runs the tasks in, a run that finishes
    has read two paths from the command line, and has written, under the
    output path, the text report [res_<n>] and the chart of every
    sub-window the detection reported, each of which has at least two
    CICPs. *)
Theorem main_writes_reports argv m o :
  main argv m = Some o ->
  exists a samples d,
    input_argv argv = Some a /\
    (m !! perf_file_path a ≫= fun text => Loader.data_loading (GprofPerf.readlines text)
                             ≫= Loader.data_processing) = Some samples /\
    detect sort_values samples (direction a) (degrees_of_freedom a) (threshold a) = Some d /\
    Forall (fun t => 2 <= length t.2 /\ is_Some (files o !! (output_path a +:+ "/" +:+ t.1)) /\
                     is_Some (figures o !! (output_path a +:+ "/thread_timing_evets_graph_" +:+ t.1)))
      (tasks_of d).
Proof.
  unfold main. intros (a & Ha & (text & Htext & (raw & Hraw & (samples & Hs & (d & Hd & Hrun)%bind_Some)%bind_Some)%bind_Some)%bind_Some)%bind_Some.
  exists a, samples, d. split; [done|]. split; [by rewrite Htext; simpl; rewrite Hraw|]. split; [done|].
  destruct (run_reports_keys _ _ _ _ Hrun) as (_ & _ & Hall).
  pose proof (detect_reports_nontrivial sort_values _ _ _ _ _ Hd) as Hnt.
  apply Forall_forall. intros t Ht.
  assert (Ht' : t ∈ schedule (tasks_of d)) by (by rewrite schedule_perm).
  rewrite Forall_forall in Hall. destruct (Hall t Ht') as [Hf Hg]. split; [|done].
  unfold tasks_of in Ht. apply list_elem_of_fmap in Ht as ([n df] & -> & Hn).
  rewrite Forall_forall in Hnt. exact (Hnt _ Hn).
Qed.

End Main.

(** The run on [main_fs] with the stable sort, set iteration in order of
    first appearance, the chart draws of [Chart.v] and the tasks run in
    order. *)
Lemma main_writes_reports_witness :
  exists o, main sort_values_stable Report.sort_groups_stable Py.unique Py.unique
              Report.show_ts_dec Report.show_duration_dec Chart.chart_sort_rows
              Chart.chart_sort_threads Py.unique (fun _ => Chart.chart_draws) (fun l => l)
              main_argv main_fs = Some o /\
  exists a samples d,
    input_argv main_argv = Some a /\
    (main_fs !! perf_file_path a ≫= fun text => Loader.data_loading (GprofPerf.readlines text)
                                   ≫= Loader.data_processing) = Some samples /\
    detect sort_values_stable samples (direction a) (degrees_of_freedom a) (threshold a) = Some d /\
    Forall (fun t => 2 <= length t.2 /\ is_Some (files o !! (output_path a +:+ "/" +:+ t.1)) /\
                     is_Some (figures o !! (output_path a +:+ "/thread_timing_evets_graph_" +:+ t.1)))
      (tasks_of d).
Proof.
  eexists. split; [vm_compute; reflexivity|].
  eapply (main_writes_reports sort_values_stable Report.sort_groups_stable Py.unique Py.unique
            Report.show_ts_dec Report.show_duration_dec Chart.chart_sort_rows
            Chart.chart_sort_threads Py.unique (fun _ => Chart.chart_draws) (fun l => l)
            (fun l => reflexivity l)).
  vm_compute; reflexivity.
Defined.

Lemma main_no_config_validation_witness :
  main sort_values_stable Report.sort_groups_stable Py.unique Py.unique
    Report.show_ts_dec Report.show_duration_dec Chart.chart_sort_rows
    Chart.chart_sort_threads Py.unique (fun _ => Chart.chart_draws) (fun l => l)
    (["main.py"; "perf.txt"; "out"] ++ ["1"] ++ "1_0x" :: ["5"]) main_fs =
  main sort_values_stable Report.sort_groups_stable Py.unique Py.unique
    Report.show_ts_dec Report.show_duration_dec Chart.chart_sort_rows
    Chart.chart_sort_threads Py.unique (fun _ => Chart.chart_draws) (fun l => l)
    (["main.py"; "perf.txt"; "out"] ++ ["1"] ++
       pretty (default 0%Z ([0; -1; -1]%Z !! length ["1"])) :: ["5"]) main_fs.
Proof. apply main_no_config_validation; [simpl; lia|reflexivity]. Defined.

End Main.
